(* ===== verification/_CoqProject ===== *)
-Q . S2P
Prelude.v
Cap.v
Hw.v
Sched.v
Frame.v
Heap.v
Paging.v
Ipc.v
Loader.v
Syscall.v
KernelInv.v
Kernel.v
Pci.v
Boot.v
Libpcern.v
Abi.v
NameService.v
Vga.v
Ansi.v
Editor.v
Keyboard.v
Console.v
Pio.v
Chips.v
Tables.v
Lock.v
Block.v
Ata.v
Storage.v
Fat32.v
FatSpec.v
Volume.v
Proto.v
Tcp.v
Machine.v
Netstack.v
NetSafe.v
NetLive.v
Stream.v
Pages.v
NetSim.v
Rtl8139.v
Nic.v
NicSim.v
Shell.v
Desk.v
DeskSim.v
