(* ===== verification/Prelude.v ===== *)
(** * pCern / ZephyrLite: a verification library

    pCern is an i686 microkernel written in Rust; ZephyrLite is the kernel together with the
    userland servers that make it a system.  This library models both as Rocq functions and
    proves what they promise.  Paths below are relative to src/.

    ** How the system is put together

    The kernel owns memory, tasks, capabilities, endpoints and interrupt lines.  Everything
    else is a user task that can only make system calls ([int 0x80]): a name service where
    servers register, a console server (keyboard and screen), an ATA block service, a FAT32
    file server on top of it, an RTL8139 network driver, a network stack on top of that, and a
    shell.  Servers talk over endpoints, and move bulk data through pages whose memory grants
    they transfer.

    ** How code becomes Rocq

    - A w-bit integer is a [Z]; wrap-around is written out ([wrap32]), since the release profile
      has no overflow checks; [usize] is 32 bits wide.  A byte buffer is a list of [Z].
    - A panic is a value: [res] is [Ok] or [Panicked]; slice and index bounds checks are explicit
      ([bget], [bslice], [bcopy], [bfill]).
    - Kernel state is one record and a kernel function is a function on it.
    - A userland program is a tree of system calls ([prog] in Libpcern): [exec] relates it to
      the answers it got, [run] computes, [wp] is its weakest precondition.
    - Code that drives a device, shares memory, or waits, is a state transformer [io] (Pio) that
      ends, panics or runs out of the polls or messages it was given; [runs] is total correctness,
      [safely] is that it does not panic and [total] that it ends.
    - A loop without a static bound takes fuel; the theorems hold for every fuel from a stated
      bound on, and show that the result is reached.

    ** The files

    - Prelude: results, machine integers, byte buffers, loops, transition sequences.

    The kernel (kernel/src):
    - Cap (cap.rs, [CSpace] of task.rs): the capability tree.  [revoke] marks exactly the
      derivation subtree, its work list empties, a revoked subtree stays dead.
    - Hw (gdt.rs, pic.rs): the I/O permission bitmap a task switch installs is exactly the
      task's ports; descriptors; the 8259 masks.
    - Sched (task.rs, scheduler.rs, task_asm.s): task table, ready queue, context switch;
      round-robin order, the first entry of a new task.
    - Frame, Heap (mm/frame.rs, mm/heap.rs): the frame bitmap and the linked-list heap; lowest
      free frame or run, every heap byte in exactly one block.
    - Paging (mm/paging.rs): page tables in a byte memory against the processor's walk;
      [map_page] changes one translation of one address space.
    - Ipc (ipc.rs, irq.rs, timer.rs, keyboard.rs): rendezvous, capability transfer, interrupt
      events.
    - Loader (loader.rs, multiboot.rs), Syscall (syscall.rs): address-space construction and the
      dispatcher with its memory calls.
    - KernelInv, Kernel: the global invariant, and the kernel with its user tasks as a transition
      system: what a call can do to the kernel ([syscall_outcomes]: it stops it only where memory or
      the kernel heap has run out, or in [SYS_CREATE_TASK]), and no step creates authority.
    - Chips (pic.rs, serial.rs, reboot.rs): the kernel's port writes to the interrupt controllers
      implement the masks of Hw, from initialisation on; what is logged goes out on the serial line.
    - Tables (idt.rs, exceptions.rs, the task state segment of gdt.rs): what the processor finds in
      the tables: every interrupt line reaches its handler, what each exception and each [int] of
      ring 3 leads to (the task ends; for the vectors without a gate that the processor raises
      itself, the machine halts), and ring 3 is let at the running task's ports only.
    - Lock (sync.rs): [lock] and [drop] instruction by instruction under interrupts: no flow ever
      spins, no mutex is locked while interrupts are on.
    - Pci (pci.rs), Boot (main.rs): the configuration-space scan; the boot sequence, whose final
      state satisfies the invariant and in which each task holds exactly the listed capabilities.
      From it on, in every reachable state, a page an address space reaches is covered by a grant
      or reached by no other address space.

    Userland (userland):
    - Libpcern (libpcern/src/lib.rs): every wrapper and protocol client as a program.
    - Abi (both syscall_asm.s): libpcern programs on the kernel; a sent message arrives.
    - NameService (services/nameservice): a lookup finds the latest registration.
    - Vga, Ansi (drivers/console_server/src/vga.rs, ansi.rs and the kernel's copies): the screen
      is never written outside, text appears where the cursor is; where the hardware cursor is put.
    - Editor (libpcern/src/editor.rs): the byte buffer refines a text with a cursor.
    - Keyboard, Console (drivers/console_server): every key can be typed; the server refines an
      abstract input device, and keystrokes reach only the registered reader, in order.
    - Pio, Block: port I/O, and the interface between the block service and the file system: a
      class of block devices with laws.
    - Ata, Storage (drivers/storage_ata): the PIO driver on any drive that obeys [AtaLaws], the
      service on it, and the proof that it satisfies [BlockLaws].
    - Fat32 (services/fs_fat32): the file server; FatSpec: FAT entries, chains, files, the root
      directory; Volume: mounting and the claims of its clients, for every block device that
      satisfies [BlockLaws], which has no faults.  A root directory whose end mark has only end
      marks behind it ([tidy]) keeps its other files, and stays so, when a file is created.
    - Proto, Tcp (services/netstack/src/proto.rs, tcp.rs): checksum, ARP, ICMP echo; TCP segments
      in Ethernet frames: what is built is parsed back.
    - Machine: what a task with shared memory runs on: the answers to its calls, the bytes mapped
      at an address, the log of its calls with the memory each was made with.  Other tasks' writes
      to shared pages show at system calls, and pages are writable (see the file).  Pages: the
      memory of a simulated machine.
    - Netstack (services/netstack/src/main.rs): the TCP service on any machine.  NetSafe: it never
      crashes, whatever frames and messages come; NetLive: a client that waits, and sends nothing
      while it waits, is answered, once, within a bounded number of rounds; Stream: a client reads
      the peer's bytes in order, without gap or repetition, whatever segments arrive, late, twice
      or not at all.  NetSim: a simulated network on which the hypotheses hold.
    - Rtl8139 (drivers/net_rtl8139): the driver over ports and the memory it shares with the card.
      Nic: what it relies on of the card, and that it takes packets out of the ring in order, hands
      the last good frame to its client, sends the client's frames whole and in order, replies to
      every request, and does not crash, all up to the first packet that ends exactly at the end of
      the ring ([seamless]): there the driver loses its place ([ring_followed]).  NicSim: a
      simulated card.
    - Shell (bin/shell): the commands, the editing session and the loop on any machine.  Desk:
      what the console and the file system promise the shell, and that read shows a file, run
      starts one, edit changes one (of which it loads at most 64 KiB), and a command that fails
      says so and does nothing else.  DeskSim: a machine that keeps its files in memory.

    ** Parameters

    What is not under src/ is a parameter with named hypotheses: the ATA drive ([AtaDevice] with
    [AtaLaws]; Storage has a simulated drive that satisfies them), PCI configuration space ([cfg]
    in Pci), the boot image the assembly leaves ([boot_image] in Boot), the network card ([Card]
    with [CardLaws] and [StartLaws] in Nic), the interrupt controllers and the serial port
    ([PicLaws] and [UartLaws] in Chips), the addresses the linker gives (arguments in Tables), and
    the answers of the kernel to a user program, which are universally quantified, or those of any
    [Machine] with [MachineLaws].  What one server relies on of another is a class too:
    [BlockLaws], [NicLaws] and [Responsive] (the driver's side is [driver_replies] in Nic),
    [DeskLaws] (the shell's view of the console and of the file system, whose side is in Console
    and Volume).  Each has a simulated instance.

    ** Bounds and fuel

    [revoke_fuel] is computed from the tree and shown to be enough.  The FAT32 walks take a number
    of clusters; every theorem holds from the chain's length on (a cyclic chain, which no theorem
    assumes away silently, makes the code loop).  The ATA polls must exceed the number of times
    the drive reports busy.  The checksum's carry loop ends after two rounds on 32 bits. The
    network service waits for its driver's reply while other messages come in: [polls] bounds how
    many, [Responsive] asks that the reply is among them, and without it the theorems on safety
    and on the stream hold for every [polls].  [patience] bounds the rounds until a pending
    request is answered by [2 * (MAX_ATTEMPTS + 1)].  The driver's waits are bounded by the code
    itself.  The shell's loops over a file take its length as fuel, the editor's its capacity.
    The wait for the serial port takes polls, enough when more than the port is ever busy for.
    [raise] follows three deliveries: an event, a fault in its delivery, a double fault.

    ** Not modelled

    Boot assembly and linker scripts; where in a system call the kernel heap refuses an allocation
    ([syscall_with_heap] takes it at the call); loading the descriptor-table registers; the text of the
    exception messages; the kernel's operations run atomically in the models of Sched to Boot,
    which Lock justifies for one flow and its handlers (a switch of stacks inside a handler is not
    part of its machine); the test programs under userland/cap_test and the build scripts. *)

From stdpp Require Import base list numbers.
From Stdlib Require Import Lia.

Open Scope Z_scope.

(** ** Panics and results

    A Rust [panic!] (a failed [expect]/[unwrap]/[assert!], an index or slice
    out of range) is a value, not an abort of the model: every operation that
    can panic returns a [res]. *)

Inductive panic :=
| UnknownTask            (* scheduler::index_of, "unknown task id" *)
| NoCurrentTask          (* "... with no current task" *)
| NoTaskToRun            (* "no tasks to run" / "missing idle task?" *)
| OutOfPhysicalMemory    (* "out of physical memory" *)
| OutOfHeap              (* main.rs, alloc_error: the kernel heap refused an allocation *)
| AssertionFailed        (* assert! / assert_eq! *)
| IndexOutOfBounds       (* slice or array index out of range *)
| NotInitialised         (* "... not initialized" / "not called yet" *)
| ModuleMissing          (* "no multiboot module .. found" *)
| KernelPageFault        (* a ring-0 page fault: exceptions.rs halts the machine *)
| UserPageFault.         (* a ring-3 page fault: exceptions.rs ends the task *)

Inductive res (A : Type) :=
| Ok (a : A)
| Panicked (p : panic).
Arguments Ok {A} a.
Arguments Panicked {A} p.

Declare Scope res_scope.
Delimit Scope res_scope with res.

Notation "x <- c ;; k" :=
  (match c with Ok x => k | Panicked p => Panicked p end)
  (at level 100, c at level 99, k at level 200, right associativity) : res_scope.
Notation "'let*' pat ':=' c 'in' k" :=
  (match c with Ok pat => k | Panicked p => Panicked p end)
  (at level 10, pat pattern, c at level 99, k at level 200) : res_scope.
Open Scope res_scope.

(** [Option::expect]: a missing value is the named panic. *)
Definition expect {A} (p : panic) (o : option A) : res A :=
  match o with Some a => Ok a | None => Panicked p end.

Definition is_ok {A} (r : res A) : bool :=
  match r with Ok _ => true | Panicked _ => false end.

(** ** Machine integers: [usize] is 32 bits wide on i686. *)

Definition wrap (w z : Z) : Z := z mod 2 ^ w.
Abbreviation wrap8 := (wrap 8).
Abbreviation wrap16 := (wrap 16).
Abbreviation wrap32 := (wrap 32).
Definition U32_MAX : Z := 4294967295.

Definition is_u8 (z : Z) : Prop := 0 <= z < 256.
Definition is_u16 (z : Z) : Prop := 0 <= z < 65536.
Definition is_u32 (z : Z) : Prop := 0 <= z < 4294967296.

(** [usize::checked_add] / [checked_mul] on the 32-bit target. *)
Definition checked_add (a b : Z) : option Z :=
  if a + b <=? U32_MAX then Some (a + b) else None.
Definition checked_mul (a b : Z) : option Z :=
  if a * b <=? U32_MAX then Some (a * b) else None.
Definition div_ceil (a b : Z) : Z := (a + b - 1) / b.

(** ** Vectors and byte buffers

    A [Vec] or slice is a [list]; positions are [Z] so that a position that
    comes from a 32-bit register stays a number.  [zget] is [slice::get]. *)

Definition zlen {A} (l : list A) : Z := Z.of_nat (length l).

Definition zget {A} (l : list A) (i : Z) : option A :=
  if (0 <=? i) && (i <? zlen l) then l !! Z.to_nat i else None.

Definition zset {A} (l : list A) (i : Z) (x : A) : list A :=
  if (0 <=? i) && (i <? zlen l) then <[Z.to_nat i := x]> l else l.

(** The first position whose element satisfies [f]: [Iterator::position]. *)
Fixpoint position {A} (f : A -> bool) (l : list A) : option nat :=
  match l with
  | [] => None
  | x :: l' => if f x then Some O else S <$> position f l'
  end.

(** [Vec::remove]: the element at [n] and the list without it. *)
Fixpoint remove_at {A} (n : nat) (l : list A) : option (A * list A) :=
  match n, l with
  | _, [] => None
  | O, x :: l' => Some (x, l')
  | S n', x :: l' =>
      match remove_at n' l' with
      | Some (y, l'') => Some (y, x :: l'')
      | None => None
      end
  end.

(** [iter().position(f)] followed by [remove]: take out the first match. *)
Fixpoint take_first {A} (f : A -> bool) (l : list A) : option (A * list A) :=
  match l with
  | [] => None
  | x :: l' =>
      if f x then Some (x, l')
      else match take_first f l' with
           | Some (y, l'') => Some (y, x :: l'')
           | None => None
           end
  end.

(** Byte buffers. [byte_at], [sub] and [put] are the total parts; [bget],
    [bslice], [bset], [bcopy] and [bfill] add the bounds checks Rust does. *)

Definition byte_at (b : list Z) (i : Z) : Z := nth (Z.to_nat i) b 0.

Definition sub {A} (b : list A) (lo hi : Z) : list A :=
  take (Z.to_nat (hi - lo)) (drop (Z.to_nat lo) b).

Definition put {A} (b : list A) (lo : Z) (src : list A) : list A :=
  take (Z.to_nat lo) b ++ src ++ drop (Z.to_nat (lo + zlen src)) b.

(** [buf[i]] *)
Definition bget (b : list Z) (i : Z) : res Z :=
  if (0 <=? i) && (i <? zlen b) then Ok (byte_at b i)
  else Panicked IndexOutOfBounds.

(** [&buf[lo..hi]] *)
Definition bslice (b : list Z) (lo hi : Z) : res (list Z) :=
  if (0 <=? lo) && (lo <=? hi) && (hi <=? zlen b) then Ok (sub b lo hi)
  else Panicked IndexOutOfBounds.

(** [buf[lo..lo + src.len()].copy_from_slice(src)] *)
Definition bcopy (b : list Z) (lo : Z) (src : list Z) : res (list Z) :=
  if (0 <=? lo) && (lo + zlen src <=? zlen b) then Ok (put b lo src)
  else Panicked IndexOutOfBounds.

(** [buf[i] = x] *)
Definition bset (b : list Z) (i x : Z) : res (list Z) := bcopy b i [x].

(** [buf[lo..hi].fill(x)] *)
Definition bfill (b : list Z) (lo hi x : Z) : res (list Z) :=
  if (lo <=? hi) then bcopy b lo (replicate (Z.to_nat (hi - lo)) x)
  else Panicked IndexOutOfBounds.

(** Equality of byte strings, [==] on slices and arrays. *)
Fixpoint bytes_eqb (a b : list Z) : bool :=
  match a, b with
  | [], [] => true
  | x :: a', y :: b' => (x =? y) && bytes_eqb a' b'
  | _, _ => false
  end.

(** [from_le_bytes], [to_le_bytes] and the big-endian versions. *)
Definition u16_from_le (b0 b1 : Z) : Z := b0 + 256 * b1.
Definition u32_from_le (b0 b1 b2 b3 : Z) : Z :=
  b0 + 256 * (b1 + 256 * (b2 + 256 * b3)).
Definition u16_from_be (b0 b1 : Z) : Z := u16_from_le b1 b0.
Definition u32_from_be (b0 b1 b2 b3 : Z) : Z := u32_from_le b3 b2 b1 b0.
Definition u16_to_le (v : Z) : list Z := [v mod 256; v / 256 mod 256].
Definition u32_to_le (v : Z) : list Z :=
  [v mod 256; v / 256 mod 256; v / 65536 mod 256; v / 16777216 mod 256].
Definition u16_to_be (v : Z) : list Z := rev (u16_to_le v).
Definition u32_to_be (v : Z) : list Z := rev (u32_to_le v).

(** ** Loops *)

(** [for i in lo..lo + n { body(i) }] over a state. *)
Fixpoint for_range {S} (lo : Z) (n : nat) (body : Z -> S -> S) (s : S) : S :=
  match n with
  | O => s
  | Datatypes.S m => for_range (lo + 1) m body (body lo s)
  end.

(** The same with a body that may panic. *)
Fixpoint for_res {S} (lo : Z) (n : nat) (body : Z -> S -> res S) (s : S) : res S :=
  match n with
  | O => Ok s
  | Datatypes.S m => s <- body lo s ;; for_res (lo + 1) m body s
  end.

(** [for i in lo..hi] *)
Definition for_to {S} (lo hi : Z) (body : Z -> S -> S) (s : S) : S :=
  for_range lo (Z.to_nat (hi - lo)) body s.

(** ** Transition sequences and invariants *)

Section steps.
Context {S : Type} (R : S -> S -> Prop).

Inductive steps : S -> S -> Prop :=
| steps_refl s : steps s s
| steps_cons s1 s2 s3 : R s1 s2 -> steps s2 s3 -> steps s1 s3.

Definition preserved (I : S -> Prop) : Prop :=
  forall s s', I s -> R s s' -> I s'.
End steps.

(** ** Automation *)

(** Boolean tests of the code as propositions. *)
Ltac bool_simp :=
  repeat match goal with
  | H : (_ && _) = true |- _ => apply andb_true_iff in H as [? ?]
  | H : (_ && _) = false |- _ => apply andb_false_iff in H
  | H : (_ || _) = true |- _ => apply orb_true_iff in H
  | H : (_ || _) = false |- _ => apply orb_false_iff in H as [? ?]
  | H : negb _ = true |- _ => apply negb_true_iff in H
  | H : negb _ = false |- _ => apply negb_false_iff in H
  | H : (_ =? _) = true |- _ => apply Z.eqb_eq in H
  | H : (_ =? _) = false |- _ => apply Z.eqb_neq in H
  | H : (_ <? _) = true |- _ => apply Z.ltb_lt in H
  | H : (_ <? _) = false |- _ => apply Z.ltb_ge in H
  | H : (_ <=? _) = true |- _ => apply Z.leb_le in H
  | H : (_ <=? _) = false |- _ => apply Z.leb_gt in H
  end.

(** Take the next call of a [res] computation that succeeded apart. *)
Ltac res_inv H :=
  repeat match type of H with
  | Ok _ = Ok _ => injection H as H; subst
  | Panicked _ = Ok _ => discriminate H
  | Ok _ = Panicked _ => discriminate H
  | (match ?c with Ok _ => _ | Panicked _ => _ end) = Ok _ =>
      let E := fresh "E" in destruct c eqn:E; [|discriminate H]
  | (let (_, _) := ?p in _) = _ => destruct p
  end.

(** Linear arithmetic with division and remainder. *)
Ltac dlia := Z.to_euclidean_division_equations; lia.

Create HintDb len.
Create HintDb wf.

(** ** Generic lemmas *)

Lemma steps_preserved {S} (R : S -> S -> Prop) (I : S -> Prop) :
  preserved R I -> forall s s', steps R s s' -> I s -> I s'.
Proof. intros HP s s' H. induction H; eauto. Qed.

(** An invariant of a [for] loop, indexed by the loop variable. *)
Lemma for_to_ind {S} (P : Z -> S -> Prop) lo hi body s :
  P lo s -> (forall i s, lo <= i < hi -> P i s -> P (i + 1) (body i s)) ->
  P (Z.max lo hi) (for_to lo hi body s).
Proof.
  unfold for_to. intros H0 Hstep. remember (Z.to_nat (hi - lo)) as n eqn:En.
  revert lo s En H0 Hstep. induction n as [|n IH]; intros lo s En H0 Hstep; cbn.
  - by replace (Z.max lo hi) with lo by lia.
  - replace (Z.max lo hi) with (Z.max (lo + 1) hi) by lia.
    apply IH; [lia|by apply Hstep; [lia|]|]. intros i s' Hi. apply Hstep. lia.
Qed.

Lemma wrap_small w z : 0 <= z < 2 ^ w -> wrap w z = z.
Proof. intros. by apply Z.mod_small. Qed.

Lemma zlen_nonneg {A} (l : list A) : 0 <= zlen l.
Proof. unfold zlen. lia. Qed.

Lemma zlen_nil {A} : zlen (@nil A) = 0.
Proof. reflexivity. Qed.

Lemma zlen_cons {A} (x : A) l : zlen (x :: l) = 1 + zlen l.
Proof. unfold zlen. cbn [length]. lia. Qed.

Lemma zlen_app {A} (l k : list A) : zlen (l ++ k) = zlen l + zlen k.
Proof. unfold zlen. rewrite length_app. lia. Qed.

Lemma zlen_snoc {A} (l : list A) x : zlen (l ++ [x]) = zlen l + 1.
Proof. by rewrite zlen_app. Qed.

Lemma zlen_replicate {A} n (x : A) : zlen (replicate n x) = Z.of_nat n.
Proof. unfold zlen. by rewrite length_replicate. Qed.

Lemma zget_lookup {A} (l : list A) i x :
  zget l i = Some x <-> 0 <= i /\ l !! Z.to_nat i = Some x.
Proof.
  unfold zget, zlen. destruct (0 <=? i) eqn:E1, (i <? Z.of_nat (length l)) eqn:E2;
    cbn; bool_simp; split; try done; try (intros [? ?%lookup_lt_Some]; lia).
  all: intros H; tauto.
Qed.

Lemma zget_Some {A} (l : list A) i x : zget l i = Some x -> 0 <= i < zlen l.
Proof.
  intros [? H]%zget_lookup. apply lookup_lt_Some in H. unfold zlen. lia.
Qed.

Lemma zget_in_range {A} (l : list A) i : 0 <= i < zlen l -> is_Some (zget l i).
Proof.
  intros H. unfold zget, zlen in *.
  replace (0 <=? i) with true by lia.
  replace (i <? Z.of_nat (length l)) with true by lia.
  apply lookup_lt_is_Some. lia.
Qed.

Lemma zget_app_l {A} (l k : list A) i :
  i < zlen l -> zget (l ++ k) i = zget l i.
Proof.
  intros H. unfold zget. rewrite zlen_app.
  pose proof (zlen_nonneg k).
  replace (i <? zlen l + zlen k) with (i <? zlen l) by lia.
  destruct (0 <=? i) eqn:E; [|done]. bool_simp.
  replace (i <? zlen l) with true by lia. cbn.
  apply lookup_app_l. unfold zlen in *. lia.
Qed.

Lemma zget_app_last {A} (l : list A) x : zget (l ++ [x]) (zlen l) = Some x.
Proof.
  apply zget_lookup. split; [apply zlen_nonneg|].
  unfold zlen. rewrite Nat2Z.id. by apply list_lookup_middle.
Qed.

Lemma zget_out {A} (l : list A) i : zlen l <= i -> zget l i = None.
Proof.
  intros H. unfold zget. by rewrite (proj2 (Z.ltb_ge _ _) H), andb_false_r.
Qed.

Lemma zget_nil {A} i : zget (A:=A) [] i = None.
Proof.
  destruct (zget [] i) eqn:E; [|done]. apply zget_lookup in E as [_ E]. by rewrite lookup_nil in E.
Qed.

Lemma zget_snoc {A} (l : list A) x i :
  zget (l ++ [x]) i = if decide (i = zlen l) then Some x else zget l i.
Proof.
  case_decide as E; [subst; apply zget_app_last|].
  destruct (decide (i < zlen l)); [by apply zget_app_l|].
  rewrite !zget_out; [done|lia|rewrite zlen_snoc; lia].
Qed.

Lemma zlen_zset {A} (l : list A) i x : zlen (zset l i x) = zlen l.
Proof. unfold zset, zlen. case_match; [|done]. by rewrite length_insert. Qed.

Lemma zget_zset_eq {A} (l : list A) i x :
  0 <= i < zlen l -> zget (zset l i x) i = Some x.
Proof.
  intros H. apply zget_lookup. split; [lia|]. unfold zset, zlen in *.
  replace (0 <=? i) with true by lia.
  replace (i <? Z.of_nat (length l)) with true by lia. cbn.
  apply list_lookup_insert_eq. lia.
Qed.

Lemma zget_zset_ne {A} (l : list A) i j x :
  i <> j -> zget (zset l i x) j = zget l j.
Proof.
  intros H. unfold zget. rewrite zlen_zset. case_match eqn:E; [|done].
  unfold zset. case_match eqn:E'; [|done].
  bool_simp. apply list_lookup_insert_ne. lia.
Qed.

Lemma zget_zset {A} (l : list A) i j x :
  zget (zset l i x) j =
  if decide (i = j) then (if decide (0 <= i < zlen l) then Some x else None)
  else zget l j.
Proof.
  case_decide as E; [subst j|by apply zget_zset_ne].
  case_decide; [by apply zget_zset_eq|].
  unfold zget. rewrite zlen_zset. case_match; [|done]. bool_simp. lia.
Qed.

Lemma take_first_spec {A} (f : A -> bool) l x l' :
  take_first f l = Some (x, l') ->
  exists l1 l2, l = l1 ++ x :: l2 /\ l' = l1 ++ l2 /\ f x = true /\
    Forall (fun y => f y = false) l1.
Proof.
  revert l'. induction l as [|y l IH]; intros l'; cbn; [done|].
  destruct (f y) eqn:E.
  - intros [= <- <-]. exists [], l. eauto.
  - destruct (take_first f l) as [[z l'']|]; [|done].
    intros [= <- <-]. destruct (IH _ eq_refl) as (l1 & l2 & -> & -> & ? & ?).
    exists (y :: l1), l2. eauto.
Qed.

Lemma take_first_None {A} (f : A -> bool) l :
  take_first f l = None <-> Forall (fun y => f y = false) l.
Proof.
  induction l as [|y l IH]; cbn; [done|]. rewrite Forall_cons_iff.
  destruct (f y) eqn:E; [split; [done|by intros [? ?]]|].
  destruct (take_first f l) as [[z l'']|].
  - split; [done|]. intros [_ H%IH]. done.
  - split; [|done]. intros _. split; [done|by apply IH].
Qed.

Lemma position_first {A} (f : A -> bool) l n x :
  l !! n = Some x -> f x = true ->
  (forall m y, (m < n)%nat -> l !! m = Some y -> f y = false) ->
  position f l = Some n.
Proof.
  revert n. induction l as [|y l IH]; intros [|n] Hx Fx Hlt; try done; cbn in *.
  - by simplify_eq; rewrite Fx.
  - rewrite (Hlt O y) by (done || lia). rewrite (IH n) by
      (done || intros m z ? ?; by apply (Hlt (S m)); [lia|]). done.
Qed.

(** [take_first] is [position] followed by [remove], as the code writes it. *)
Lemma take_first_position {A} (f : A -> bool) l :
  take_first f l =
  match position f l with Some n => remove_at n l | None => None end.
Proof.
  induction l as [|x l IH]; cbn; [done|]. destruct (f x); [done|].
  rewrite IH. destruct (position f l); done.
Qed.

(** ** Byte buffers *)

Lemma byte_at_lookup b i : byte_at b i = default 0 (b !! Z.to_nat i).
Proof. unfold byte_at. by rewrite nth_lookup. Qed.

Lemma zlen_put {A} (b : list A) lo src :
  0 <= lo -> lo + zlen src <= zlen b -> zlen (put b lo src) = zlen b.
Proof.
  intros. unfold put, zlen in *. rewrite !length_app, length_take, length_drop. lia.
Qed.

Lemma zlen_sub {A} (b : list A) lo hi :
  0 <= lo <= hi -> hi <= zlen b -> zlen (sub b lo hi) = hi - lo.
Proof. intros. unfold sub, zlen in *. rewrite length_take, length_drop. lia. Qed.

Lemma byte_at_put b lo src i :
  0 <= lo -> lo + zlen src <= zlen b -> 0 <= i ->
  byte_at (put b lo src) i =
  if decide (lo <= i < lo + zlen src) then byte_at src (i - lo) else byte_at b i.
Proof.
  intros Hlo Hlen Hi. rewrite !byte_at_lookup. unfold put, zlen in *.
  case_decide.
  - rewrite lookup_app_r by (rewrite length_take; lia). rewrite length_take.
    rewrite lookup_app_l by lia. do 2 f_equal. lia.
  - destruct (decide (i < lo)).
    + rewrite lookup_app_l by (rewrite length_take; lia).
      by rewrite lookup_take_lt by lia.
    + rewrite lookup_app_r by (rewrite length_take; lia). rewrite length_take.
      rewrite lookup_app_r by lia. rewrite lookup_drop. do 2 f_equal. lia.
Qed.

Lemma byte_at_sub b lo hi i :
  0 <= lo -> 0 <= i < hi - lo -> byte_at (sub b lo hi) i = byte_at b (lo + i).
Proof.
  intros. rewrite !byte_at_lookup. unfold sub.
  rewrite lookup_take_lt by lia. rewrite lookup_drop. do 2 f_equal. lia.
Qed.

Lemma byte_at_app b c i :
  0 <= i -> byte_at (b ++ c) i = if decide (i < zlen b) then byte_at b i else byte_at c (i - zlen b).
Proof.
  intros. rewrite !byte_at_lookup. unfold zlen in *. case_decide.
  - by rewrite lookup_app_l by lia.
  - rewrite lookup_app_r by lia. do 2 f_equal. lia.
Qed.

Lemma byte_at_replicate n x i : 0 <= i < Z.of_nat n -> byte_at (replicate n x) i = x.
Proof. intros. rewrite byte_at_lookup. by rewrite lookup_replicate_2 by lia. Qed.

Lemma byte_at_zset b i x j :
  0 <= i < zlen b -> 0 <= j ->
  byte_at (zset b i x) j = if decide (i = j) then x else byte_at b j.
Proof.
  intros Hi Hj. rewrite !byte_at_lookup. unfold zset, zlen in *.
  replace (0 <=? i) with true by lia.
  replace (i <? Z.of_nat (length b)) with true by lia. cbn [andb].
  case_decide as E; [subst j; by rewrite list_lookup_insert_eq by lia|].
  by rewrite list_lookup_insert_ne by lia.
Qed.

Lemma bget_ok b i : 0 <= i < zlen b -> bget b i = Ok (byte_at b i).
Proof.
  intros H. unfold bget. by rewrite (proj2 (Z.leb_le _ _)), (proj2 (Z.ltb_lt _ _)) by lia.
Qed.

Lemma bget_Forall (P : Z -> Prop) b i : Forall P b -> 0 <= i < zlen b -> P (byte_at b i).
Proof.
  intros F H. rewrite byte_at_lookup.
  destruct (lookup_lt_is_Some_2 b (Z.to_nat i)) as [x Hx]; [unfold zlen in H; lia|].
  rewrite Hx. cbn. by eapply Forall_lookup_1.
Qed.

Lemma bset_ok b i x : 0 <= i < zlen b -> bset b i x = Ok (put b i [x]).
Proof.
  intros H. unfold bset, bcopy. change (zlen [x]) with 1.
  by rewrite (proj2 (Z.leb_le _ _)), (proj2 (Z.leb_le _ _)) by lia.
Qed.

Lemma bcopy_ok b lo src : 0 <= lo -> lo + zlen src <= zlen b -> bcopy b lo src = Ok (put b lo src).
Proof. intros H1 H2. unfold bcopy. by rewrite !(proj2 (Z.leb_le _ _)) by lia. Qed.

Lemma bslice_ok b lo hi : 0 <= lo <= hi -> hi <= zlen b -> bslice b lo hi = Ok (sub b lo hi).
Proof. intros H1 H2. unfold bslice. by rewrite !(proj2 (Z.leb_le _ _)) by lia. Qed.

Lemma Forall_put (P : Z -> Prop) b i s : Forall P b -> Forall P s -> Forall P (put b i s).
Proof. intros F G. unfold put. rewrite !Forall_app. split_and!; [by apply Forall_take|done|by apply Forall_drop]. Qed.

(** Copies next to each other are one copy; a copy does not touch what is before it. *)
Lemma put_put_after {A} (b : list A) lo s t :
  0 <= lo -> lo + zlen s + zlen t <= zlen b ->
  put (put b lo s) (lo + zlen s) t = put b lo (s ++ t).
Proof.
  intros Hlo H. unfold put, zlen in *. rewrite length_app.
  replace (Z.to_nat (lo + Z.of_nat (length s))) with (Z.to_nat lo + length s)%nat by lia.
  rewrite (app_assoc (take _ b) s), firstn_app.
  rewrite firstn_all2 by (rewrite length_app, length_take; lia).
  rewrite length_app, length_take. replace (_ - _)%nat with O by lia. cbn [take].
  rewrite app_nil_r, <- !app_assoc. do 3 f_equal.
  rewrite app_assoc, skipn_app, skipn_all2 by (rewrite length_app, length_take; lia). cbn [app].
  rewrite drop_drop, length_app, length_take. f_equal. lia.
Qed.

Lemma put_put_before {A} (b : list A) lo s t :
  0 <= lo -> lo + zlen s + zlen t <= zlen b ->
  put (put b (lo + zlen s) t) lo s = put b lo (s ++ t).
Proof.
  intros Hlo H. unfold put, zlen in *. rewrite length_app.
  rewrite firstn_app, firstn_firstn, length_take.
  replace (Z.to_nat lo - _)%nat with O by lia. cbn [take]. rewrite app_nil_r.
  rewrite Nat.min_l by lia. f_equal. rewrite <- app_assoc. f_equal.
  rewrite skipn_app, skipn_all2 by (rewrite length_take; lia). cbn [app]. rewrite length_take.
  replace (_ - _)%nat with O by lia. rewrite drop_0. do 3 f_equal. lia.
Qed.

Lemma put_nil {A} (b : list A) lo : put b lo [] = b.
Proof. unfold put. change (zlen (@nil A)) with 0. rewrite Z.add_0_r. apply take_drop. Qed.

Lemma sub_diag {A} (b : list A) i : sub b i i = [].
Proof. unfold sub. by rewrite Z.sub_diag. Qed.

Lemma sub_put_prefix {A} (b : list A) lo s :
  0 <= lo -> lo + zlen s <= zlen b -> sub (put b lo s) 0 (lo + zlen s) = take (Z.to_nat lo) b ++ s.
Proof.
  intros Hlo H. unfold sub, put, zlen in *. rewrite drop_0, app_assoc, firstn_app.
  rewrite firstn_all2 by (rewrite length_app, length_take; lia).
  rewrite length_app, length_take. replace (_ - _)%nat with O by lia. cbn [take]. apply app_nil_r.
Qed.

Lemma sub_put_append {A} (b : list A) lo s :
  0 <= lo -> lo + zlen s <= zlen b -> sub (put b lo s) 0 (lo + zlen s) = sub b 0 lo ++ s.
Proof. intros. rewrite sub_put_prefix by done. unfold sub. by rewrite drop_0, Z.sub_0_r. Qed.

Lemma sub_put_low {A} (b : list A) lo s i j :
  0 <= i -> i <= j -> j <= lo -> lo <= zlen b -> sub (put b lo s) i j = sub b i j.
Proof.
  intros H1 H2 H3 H4. unfold sub, put, zlen in *.
  rewrite skipn_app, firstn_app, length_drop, length_take.
  replace (Z.to_nat (j - i) - _)%nat with O by lia. cbn [take]. rewrite app_nil_r.
  rewrite skipn_firstn_comm, firstn_firstn. f_equal. lia.
Qed.

Lemma sub_put_high {A} (b : list A) lo s i j :
  0 <= lo -> lo + zlen s <= i -> lo + zlen s <= zlen b -> sub (put b lo s) i j = sub b i j.
Proof.
  intros H1 H2 H3. unfold sub, put, zlen in *. f_equal. rewrite app_assoc.
  rewrite skipn_app, skipn_all2 by (rewrite length_app, length_take; lia). cbn [app].
  rewrite drop_drop, length_app, length_take. f_equal. lia.
Qed.

(** A slice is its first, or its last, element and the rest. *)
Lemma sub_cons b i j : 0 <= i < j -> j <= zlen b -> sub b i j = byte_at b i :: sub b (i + 1) j.
Proof.
  intros H1 H2. unfold sub, zlen in *.
  destruct (lookup_lt_is_Some_2 b (Z.to_nat i)) as [x Hx]; [lia|].
  rewrite byte_at_lookup, Hx. rewrite (drop_S _ _ _ Hx).
  replace (Z.to_nat (j - i)) with (S (Z.to_nat (j - (i + 1)))) by lia. cbn.
  by replace (Z.to_nat (i + 1)) with (S (Z.to_nat i)) by lia.
Qed.

Lemma sub_snoc b i j : 0 <= i <= j -> j < zlen b -> sub b i (j + 1) = sub b i j ++ [byte_at b j].
Proof.
  intros H1 H2. unfold sub, zlen in *. replace (Z.to_nat (j + 1 - i)) with (S (Z.to_nat (j - i))) by lia.
  destruct (lookup_lt_is_Some_2 b (Z.to_nat j)) as [x Hx]; [lia|].
  rewrite (take_S_r _ _ x); [by rewrite byte_at_lookup, Hx|]. rewrite lookup_drop.
  by replace (Z.to_nat i + Z.to_nat (j - i))%nat with (Z.to_nat j) by lia.
Qed.

Lemma sub_app {A} (b : list A) i j k : 0 <= i <= j -> j <= k -> sub b i k = sub b i j ++ sub b j k.
Proof.
  intros H1 H2. unfold sub. rewrite <- (take_drop (Z.to_nat (j - i)) (take _ (drop (Z.to_nat i) b))).
  rewrite firstn_firstn. rewrite skipn_firstn_comm, drop_drop. f_equal; [f_equal; lia|].
  f_equal; [lia|f_equal; lia].
Qed.

(** Slices of a list in two parts. *)
Lemma sub_app_r {A} (p r : list A) a e : 0 <= a -> sub (p ++ r) (zlen p + a) (zlen p + e) = sub r a e.
Proof.
  intros Ha. unfold sub, zlen in *. rewrite skipn_app, drop_ge by lia. cbn [app]. f_equal; [lia|]. f_equal. lia.
Qed.

Lemma sub_app_l {A} (b q : list A) a e : 0 <= a <= e -> e <= zlen b -> sub (b ++ q) a e = sub b a e.
Proof.
  intros Ha He. unfold sub, zlen in *. rewrite skipn_app, firstn_app, length_drop.
  replace (_ - (length b - _))%nat with O by lia. cbn [take]. apply app_nil_r.
Qed.

Lemma put_app_r {A} (p r : list A) a d : 0 <= a -> put (p ++ r) (zlen p + a) d = p ++ put r a d.
Proof.
  intros Ha. pose proof (zlen_nonneg d). unfold put, zlen in *.
  rewrite firstn_app, (take_ge p) by lia. rewrite skipn_app, (drop_ge p) by lia. cbn [app]. rewrite <- app_assoc.
  f_equal. f_equal; [f_equal; lia|]. f_equal. f_equal. lia.
Qed.

Lemma put_app_l {A} (b q : list A) a d : 0 <= a -> a + zlen d <= zlen b -> put (b ++ q) a d = put b a d ++ q.
Proof.
  intros Ha Hd. pose proof (zlen_nonneg d). unfold put, zlen in *. rewrite firstn_app, skipn_app.
  replace (Z.to_nat a - length b)%nat with O by lia. replace (Z.to_nat (a + _) - length b)%nat with O by lia.
  cbn [take drop]. by rewrite app_nil_r, <- !app_assoc.
Qed.

Lemma put_whole {A} (b c : list A) : zlen c = zlen b -> put b 0 c = c.
Proof. intros E. unfold put. rewrite E, Z.add_0_l. unfold zlen. by rewrite Nat2Z.id, drop_all, app_nil_r. Qed.

(** Writing through a slice of the first [m] elements. *)
Lemma put_through {A} (b s : list A) m i :
  0 <= i -> i + zlen s <= m -> m <= zlen b -> put b 0 (put (sub b 0 m) i s) = put b i s.
Proof.
  intros Hi Hs Hm. pose proof (zlen_nonneg s). assert (E : b = sub b 0 m ++ drop (Z.to_nat m) b).
  { unfold sub. by rewrite Z2Nat.inj_0, drop_0, Z.sub_0_r, take_drop. }
  assert (Ls : zlen (sub b 0 m) = m) by (rewrite zlen_sub; lia).
  rewrite E at 3. rewrite put_app_l by lia. unfold put at 1. rewrite zlen_put, Ls by lia. done.
Qed.

Lemma put_put_inside {A} (b s t : list A) lo a :
  0 <= lo -> lo + zlen s <= zlen b -> 0 <= a -> a + zlen t <= zlen s -> put (put b lo s) (lo + a) t = put b lo (put s a t).
Proof.
  intros H1 H2 H3 H4. unfold put at 2.
  assert (E : zlen (take (Z.to_nat lo) b) = lo) by (unfold zlen in *; rewrite length_take; lia).
  replace (lo + a) with (zlen (take (Z.to_nat lo) b) + a) by lia. rewrite put_app_r, put_app_l by done.
  unfold put at 2. by rewrite zlen_put by lia.
Qed.

Lemma sub_put_same {A} (b s : list A) lo : 0 <= lo <= zlen b -> sub (put b lo s) lo (lo + zlen s) = s.
Proof.
  intros H. assert (E : zlen (take (Z.to_nat lo) b) = lo) by (unfold zlen in *; rewrite length_take; lia).
  pose proof (sub_app_r (take (Z.to_nat lo) b) (s ++ drop (Z.to_nat (lo + zlen s)) b) 0 (zlen s)) as Es.
  rewrite E, Z.add_0_r in Es. unfold put. rewrite Es by lia.
  pose proof (zlen_nonneg s). rewrite sub_app_l by lia. unfold sub. rewrite Z.sub_0_r. cbn [drop Z.to_nat].
  apply firstn_all2. unfold zlen. lia.
Qed.

(** Reads and writes in a known first part of a buffer. *)
Lemma bget_app l r i : 0 <= i < zlen l -> bget (l ++ r) i = Ok (byte_at l i).
Proof. intros H. pose proof (zlen_nonneg r). rewrite bget_ok by (rewrite zlen_app; lia). by rewrite byte_at_app, decide_True by lia. Qed.

Lemma bslice_app l r i j : 0 <= i -> i <= j -> j <= zlen l -> bslice (l ++ r) i j = Ok (sub l i j).
Proof. intros. pose proof (zlen_nonneg r). rewrite bslice_ok by (rewrite ?zlen_app; lia). by rewrite sub_app_l by lia. Qed.

Lemma bcopy_app l r i s : 0 <= i -> i + zlen s <= zlen l -> bcopy (l ++ r) i s = Ok (put l i s ++ r).
Proof. intros. pose proof (zlen_nonneg r). rewrite bcopy_ok by (rewrite ?zlen_app; lia). by rewrite put_app_l by lia. Qed.

Lemma bytes_eqb_eq a b : bytes_eqb a b = true <-> a = b.
Proof.
  revert b. induction a as [|x a IH]; intros [|y b]; cbn; try done.
  rewrite andb_true_iff, Z.eqb_eq, IH. naive_solver.
Qed.

Lemma bytes_eqb_refl a : bytes_eqb a a = true.
Proof. by apply bytes_eqb_eq. Qed.

Lemma bytes_eqb_neq a b : bytes_eqb a b = false <-> a <> b.
Proof. rewrite <- bytes_eqb_eq. by destruct (bytes_eqb a b). Qed.

Lemma u32_to_le_from b0 b1 b2 b3 :
  is_u8 b0 -> is_u8 b1 -> is_u8 b2 -> is_u8 b3 -> u32_to_le (u32_from_le b0 b1 b2 b3) = [b0; b1; b2; b3].
Proof. unfold is_u8, u32_to_le, u32_from_le. intros. repeat f_equal; dlia. Qed.

(** ** Masks *)

Lemma testbit_high x n i : 0 <= x < 2 ^ n -> n <= i -> Z.testbit x i = false.
Proof.
  intros Hx Hi. destruct (decide (0 <= n)); [|rewrite Z.pow_neg_r in Hx by lia; lia].
  destruct (decide (x = 0)) as [->|]; [apply Z.bits_0|].
  apply Z.bits_above_log2; [lia|]. apply Z.log2_lt_pow2; [lia|].
  eapply Z.lt_le_trans; [apply Hx|]. apply Z.pow_le_mono_r; lia.
Qed.

(** [x & !(2^k - 1)] on 32 bits rounds down to a multiple of [2^k]. *)
Lemma land_align_down x k :
  is_u32 x -> 0 <= k <= 32 ->
  Z.land x (Z.lxor U32_MAX (2 ^ k - 1)) = x - x mod 2 ^ k.
Proof.
  intros Hx Hk. replace (x - x mod 2 ^ k) with (2 ^ k * (x / 2 ^ k)) by dlia.
  rewrite Z.mul_comm, <- Z.shiftl_mul_pow2, <- Z.shiftr_div_pow2, <- Z.ldiff_ones_r by lia.
  change U32_MAX with (Z.ones 32). replace (2 ^ k - 1) with (Z.ones k) by (rewrite Z.ones_equiv; lia).
  apply Z.bits_inj'. intros i Hi. rewrite Z.land_spec, Z.lxor_spec, Z.ldiff_spec.
  destruct (decide (i < 32)).
  - by rewrite (Z.ones_spec_low 32) by lia.
  - rewrite (testbit_high x 32) by (done || lia). done.
Qed.

Lemma testbit_low_zero a n k : a mod 2 ^ n = 0 -> 0 <= k < n -> Z.testbit a k = false.
Proof. intros H Hk. rewrite <- (Z.mod_pow2_bits_low a n k) by lia. by rewrite H, Z.bits_0. Qed.

Lemma land_bit_testbit x k : 0 <= k -> negb (Z.land x (Z.shiftl 1 k) =? 0) = Z.testbit x k.
Proof.
  intros Hk. rewrite Z.shiftl_1_l. destruct (Z.testbit x k) eqn:E.
  - apply negb_true_iff, Z.eqb_neq. intros H.
    assert (B : Z.testbit (Z.land x (2 ^ k)) k = false) by (by rewrite H, Z.bits_0).
    rewrite Z.land_spec, E, Z.pow2_bits_true in B by done. done.
  - apply negb_false_iff, Z.eqb_eq, Z.bits_inj_0. intros j.
    rewrite Z.land_spec. destruct (decide (j = k)) as [->|]; [by rewrite E|].
    rewrite Z.pow2_bits_false by done. apply andb_false_r.
Qed.

Lemma land_range x m : 0 <= m -> 0 <= Z.land x m <= m.
Proof.
  intros Hm. assert (0 <= Z.land x m) by (apply Z.land_nonneg; by right). split; [done|].
  assert (E : m - Z.land x m = Z.ldiff m (Z.land x m)).
  { apply Z.sub_nocarry_ldiff, Z.bits_inj'. intros i Hi.
    rewrite Z.ldiff_spec, Z.land_spec, Z.bits_0. by destruct (Z.testbit x i), (Z.testbit m i). }
  assert (0 <= Z.ldiff m (Z.land x m)) by (apply Z.ldiff_nonneg; by left). lia.
Qed.

(** Fields that do not overlap: or is addition. *)
Lemma lor_disjoint x y n : 0 <= n -> x mod 2 ^ n = 0 -> 0 <= y < 2 ^ n -> Z.lor x y = x + y.
Proof.
  intros Hn Hx Hy. assert (E : Z.land x y = 0).
  { apply Z.bits_inj'. intros i Hi. rewrite Z.land_spec, Z.bits_0.
    destruct (decide (i < n)); [by rewrite (testbit_low_zero x n)|].
    rewrite (testbit_high y n) by lia. apply andb_false_r. }
  rewrite Z.add_nocarry_lxor by done. by rewrite Z.lxor_lor.
Qed.

Lemma lor_range x y n : 0 <= n -> 0 <= x < 2 ^ n -> 0 <= y < 2 ^ n -> 0 <= Z.lor x y < 2 ^ n.
Proof.
  intros Hn Hx Hy. assert (0 <= Z.lor x y) by (apply Z.lor_nonneg; lia). split; [done|].
  destruct (decide (Z.lor x y = 0)) as [->|]; [lia|].
  apply Z.log2_lt_pow2; [lia|]. rewrite Z.log2_lor by lia.
  destruct (decide (x = 0)) as [->|], (decide (y = 0)) as [->|]; rewrite ?Z.lor_0_l in *; try done;
    apply Z.max_lub_lt; try (apply Z.log2_lt_pow2; lia); cbn;
    destruct (decide (n = 0)) as [->|]; lia.
Qed.

(** ** Little-endian words *)

Lemma u32_le_roundtrip v :
  is_u32 v ->
  u32_from_le (v mod 256) (v / 256 mod 256) (v / 65536 mod 256) (v / 16777216 mod 256) = v.
Proof. unfold is_u32, u32_from_le. intros. dlia. Qed.

Lemma u32_to_le_u8 v i : is_u8 (byte_at (u32_to_le v) i).
Proof.
  unfold byte_at, u32_to_le, is_u8.
  destruct (Z.to_nat i) as [|[|[|[|[|n]]]]]; cbn [nth]; try lia; apply Z.mod_pos_bound; lia.
Qed.

Lemma u32_from_le_range a b c d :
  is_u8 a -> is_u8 b -> is_u8 c -> is_u8 d -> is_u32 (u32_from_le a b c d).
Proof. unfold is_u8, is_u32, u32_from_le. lia. Qed.

(** ** Code that does not panic: [c] returns something that satisfies [P]. *)

Definition okay {A} (c : res A) (P : A -> Prop) : Prop := match c with Ok a => P a | Panicked _ => False end.

Lemma okay_bind {A B} (c : res A) (k : A -> res B) P :
  okay c (fun a => okay (k a) P) -> okay (x <- c ;; k x) P.
Proof. by destruct c. Qed.

Lemma okay_bget b i (P : Z -> Prop) : 0 <= i < zlen b -> (forall x, P x) -> okay (bget b i) P.
Proof. intros H HP. rewrite bget_ok by done. apply HP. Qed.

Lemma okay_bslice b lo hi (P : list Z -> Prop) :
  0 <= lo <= hi -> hi <= zlen b -> (forall s, zlen s = hi - lo -> P s) -> okay (bslice b lo hi) P.
Proof. intros H1 H2 HP. rewrite bslice_ok by done. apply HP. rewrite zlen_sub; lia. Qed.

Lemma okay_bcopy b lo s (P : list Z -> Prop) :
  0 <= lo -> lo + zlen s <= zlen b -> (forall b', zlen b' = zlen b -> P b') -> okay (bcopy b lo s) P.
Proof. intros H1 H2 HP. rewrite bcopy_ok by done. apply HP. by rewrite zlen_put by done. Qed.

Lemma okay_bset b i x (P : list Z -> Prop) : 0 <= i < zlen b -> (forall b', zlen b' = zlen b -> P b') -> okay (bset b i x) P.
Proof. intros H HP. rewrite bset_ok by done. apply HP. apply zlen_put; change (zlen [x]) with 1; lia. Qed.

Lemma okay_bfill b lo hi x (P : list Z -> Prop) :
  0 <= lo <= hi -> hi <= zlen b -> (forall b', zlen b' = zlen b -> P b') -> okay (bfill b lo hi x) P.
Proof.
  intros H1 H2 HP. unfold bfill. rewrite (proj2 (Z.leb_le _ _)) by lia. apply okay_bcopy; [lia| |done].
  rewrite zlen_replicate. lia.
Qed.

Lemma okay_if {A} (c : bool) (x y : res A) P : (c = true -> okay x P) -> (c = false -> okay y P) -> okay (if c then x else y) P.
Proof. destruct c; auto. Qed.

Lemma okay_mono {A} (c : res A) (P Q : A -> Prop) : okay c P -> (forall a, P a -> Q a) -> okay c Q.
Proof. destruct c; cbn; auto. Qed.

Ltac okay_step :=
  match goal with
  | |- okay (match ?c with Ok _ => _ | Panicked _ => _ end) _ => apply (okay_bind c)
  | |- okay (bget _ _) _ => apply okay_bget; [|intros ?]
  | |- okay (bset _ _ _) _ => apply okay_bset; [|intros ? ?]
  | |- okay (bslice _ _ _) _ => apply okay_bslice; [| |intros ? ?]
  | |- okay (bcopy _ _ _) _ => apply okay_bcopy; [| |intros ? ?]
  | |- okay (bfill _ _ _ _) _ => apply okay_bfill; [| |intros ? ?]
  | |- okay (if _ then _ else _) _ => apply okay_if; intros ?
  | |- okay (Ok _) _ => cbn [okay]
  end.
