(* ===== verification/Cap.v ===== *)
(** * The capability table (kernel/src/cap.rs) and a task's capability space
      (the [CSpace] of kernel/src/task.rs)

    [CAP_NODES] is a list of nodes that only ever grows; a [CapNodeId] is a
    position in it.  Definitions: the node and kind types, [mint_root],
    [mint_derived], [resolve], the work-stack loop of [revoke], and [CSpace].
    Theorems: what [revoke] marks (exactly the derivation subtree), that its
    loop ends, that a revoked subtree never comes back to life, and the
    frame lemmas the syscall layer uses. *)

From stdpp Require Import base list relations sets.
From Stdlib Require Import Lia.
From S2P Require Import Prelude.
Open Scope Z_scope.

(** ** Data *)

(** [enum CapKind] *)
Inductive cap_kind :=
| Endpoint (id : Z)
| MemoryGrant (phys_base len : Z) (writable : bool)
| IrqControl (irq endpoint : Z)
| RebootControl.

#[export] Instance cap_kind_eq_dec : EqDecision cap_kind.
Proof. solve_decision. Defined.

(** [struct CapNode] *)
Record cap_node := CapNode {
  kind : cap_kind;
  badge : Z;
  children : list Z;
  revoked : bool
}.

#[export] Instance cap_node_eq_dec : EqDecision cap_node.
Proof. solve_decision. Defined.

Definition mark_revoked (n : cap_node) : cap_node :=
  CapNode (kind n) (badge n) (children n) true.
Definition push_child (n : cap_node) (c : Z) : cap_node :=
  CapNode (kind n) (badge n) (children n ++ [c]) (revoked n).

(** ** Operations *)

(** [mint_root]: the new table and the new node's id. *)
Definition mint_root (nodes : list cap_node) (k : cap_kind) : list cap_node * Z :=
  (nodes ++ [CapNode k 0 [] false], zlen nodes).

(** [mint_derived]: [None] for an unknown or revoked parent. *)
Definition mint_derived (nodes : list cap_node) (parent b : Z)
  : option (list cap_node * Z) :=
  match zget nodes parent with
  | None => None
  | Some entry =>
      if revoked entry then None
      else
        let id := zlen nodes in
        let nodes' := nodes ++ [CapNode (kind entry) b [] false] in
        Some (zset nodes' parent (push_child entry id), id)
  end.

(** [resolve] *)
Definition resolve (nodes : list cap_node) (node : Z) : option (cap_kind * Z) :=
  match zget nodes node with
  | None => None
  | Some entry => if revoked entry then None else Some (kind entry, badge entry)
  end.

(** The [while let Some(id) = stack.pop()] loop of [revoke].  The head of the
    list is the top of the Rust stack, so [extend] pushes the children in
    order and leaves the last one on top. *)
Fixpoint revoke_loop (fuel : nat) (nodes : list cap_node) (stack : list Z)
  : option (list cap_node) :=
  match fuel with
  | O => None
  | S fuel' =>
      match stack with
      | [] => Some nodes
      | id :: stack' =>
          match zget nodes id with
          | None => revoke_loop fuel' nodes stack'
          | Some entry =>
              if revoked entry then revoke_loop fuel' nodes stack'
              else revoke_loop fuel' (zset nodes id (mark_revoked entry))
                     (reverse (children entry) ++ stack')
          end
      end
  end.

Definition live_children (n : cap_node) : nat :=
  if revoked n then O else length (children n).

Definition pending_children (nodes : list cap_node) : nat :=
  sum_list_with live_children nodes.

(** Enough iterations for any table: see [revoke_loop_terminates]. *)
Definition revoke_fuel (nodes : list cap_node) : nat := 2 + pending_children nodes.

Definition revoke (nodes : list cap_node) (node : Z) : list cap_node :=
  default nodes (revoke_loop (revoke_fuel nodes) nodes [node]).

(** [struct CSpace]: slot 0 is always empty. *)
Record cspace := CSpace { slots : list (option Z) }.

Definition cspace_new : cspace := CSpace [None].

Definition cspace_install (c : cspace) (node : Z) : cspace * Z :=
  let c' := CSpace (slots c ++ [Some node]) in (c', zlen (slots c') - 1).

Definition cspace_get (c : cspace) (slot : Z) : option Z :=
  match zget (slots c) slot with Some o => o | None => None end.

(** ** Specification vocabulary *)

(** [c] was derived directly from [p]. *)
Definition child (nodes : list cap_node) (p c : Z) : Prop :=
  exists n, zget nodes p = Some n /\ c ∈ children n.

(** [c] is [p] or was derived from it through any number of derivations. *)
Definition derived_from (nodes : list cap_node) : Z -> Z -> Prop :=
  rtc (child nodes).

Definition is_revoked (nodes : list cap_node) (i : Z) : Prop :=
  exists n, zget nodes i = Some n /\ revoked n = true.

(** The table invariant: derivation goes forward in the table, a derived
    capability has its parent's kind, and a revoked node has no live child. *)
Record cap_wf (nodes : list cap_node) : Prop := {
  wf_forward : forall p c, child nodes p c -> p < c < zlen nodes;
  wf_same_kind : forall p c n m, child nodes p c -> zget nodes p = Some n ->
    zget nodes c = Some m -> kind m = kind n;
  wf_closed : forall p c, child nodes p c -> is_revoked nodes p -> is_revoked nodes c
}.

(** Two tables with the same nodes, except that more are revoked. *)
Definition same_shape (nodes nodes' : list cap_node) : Prop :=
  zlen nodes' = zlen nodes /\
  forall i n, zget nodes i = Some n ->
    exists n', zget nodes' i = Some n' /\ kind n' = kind n /\ badge n' = badge n /\
      children n' = children n /\ (revoked n = true -> revoked n' = true).

(** Every child of a revoked node is revoked or still on the work stack. *)
Definition closed_upto (nodes : list cap_node) (stack : list Z) : Prop :=
  forall p c, child nodes p c -> is_revoked nodes p ->
    is_revoked nodes c \/ c ∈ stack \/ zget nodes c = None.

(** The operations a kernel may apply to the table, as steps. *)
Inductive cap_step : list cap_node -> list cap_node -> Prop :=
| step_mint_root nodes k : cap_step nodes (mint_root nodes k).1
| step_mint_derived nodes p b nodes' id :
    mint_derived nodes p b = Some (nodes', id) -> cap_step nodes nodes'
| step_revoke nodes n : cap_step nodes (revoke nodes n).

(** ** Lemmas on the table *)

Lemma same_shape_refl nodes : same_shape nodes nodes.
Proof. split; [done|]. eauto 10. Qed.

Lemma same_shape_trans a b c : same_shape a b -> same_shape b c -> same_shape a c.
Proof.
  intros [L1 H1] [L2 H2]. split; [congruence|]. intros i n Hn.
  destruct (H1 i n Hn) as (m & Hm & ? & ? & ? & ?).
  destruct (H2 i m Hm) as (o & Ho & ? & ? & ? & ?).
  exists o. repeat split; try congruence; auto.
Qed.

Lemma same_shape_mark nodes i n :
  zget nodes i = Some n -> same_shape nodes (zset nodes i (mark_revoked n)).
Proof.
  intros Hn. split; [by rewrite zlen_zset|]. intros j m Hm.
  rewrite zget_zset. case_decide as E; [subst j|by eauto 10].
  rewrite decide_True by (by eapply zget_Some). simplify_eq. by eauto 10.
Qed.

Lemma same_shape_child nodes nodes' p c :
  same_shape nodes nodes' -> child nodes p c <-> child nodes' p c.
Proof.
  intros [L H]. unfold child. split.
  - intros (n & Hn & Hc). destruct (H _ _ Hn) as (n' & Hn' & _ & _ & E & _).
    exists n'. by rewrite E.
  - intros (n' & Hn' & Hc). pose proof (zget_Some _ _ _ Hn') as R.
    rewrite L in R. apply zget_in_range in R as [n Hn].
    destruct (H _ _ Hn) as (n'' & Hn'' & _ & _ & E & _). simplify_eq.
    exists n. by rewrite <- E.
Qed.

Lemma same_shape_derived nodes nodes' p c :
  same_shape nodes nodes' -> derived_from nodes p c <-> derived_from nodes' p c.
Proof.
  intros H. split; intros R; induction R as [|x y z Hxy _ IH]; [constructor| |constructor|];
    (eapply rtc_l; [by apply (same_shape_child _ _ _ _ H)|done]).
Qed.

Lemma same_shape_revoked nodes nodes' i :
  same_shape nodes nodes' -> is_revoked nodes i -> is_revoked nodes' i.
Proof.
  intros [_ H] (n & Hn & Hr). destruct (H _ _ Hn) as (n' & ? & _ & _ & _ & ?).
  exists n'. auto.
Qed.

Lemma is_revoked_mark nodes i n j :
  zget nodes i = Some n ->
  is_revoked (zset nodes i (mark_revoked n)) j <-> is_revoked nodes j \/ i = j.
Proof.
  intros Hn. unfold is_revoked. rewrite zget_zset. case_decide as E; [subst j|].
  - rewrite decide_True by (by eapply zget_Some). naive_solver.
  - naive_solver.
Qed.

(** ** The loop of [revoke] *)

Lemma pending_children_mark nodes i n :
  zget nodes i = Some n -> revoked n = false ->
  (pending_children (zset nodes i (mark_revoked n)) + length (children n)
   = pending_children nodes)%nat.
Proof.
  intros Hn Hr. pose proof (zget_Some _ _ _ Hn) as R. unfold zset, pending_children.
  rewrite (proj2 (Z.leb_le 0 i)), (proj2 (Z.ltb_lt i _)) by lia. cbn [andb].
  apply zget_lookup in Hn as [_ Hn]. clear R. revert Hn.
  generalize (Z.to_nat i) as k. induction nodes as [|m nodes IH]; intros [|k] Hk;
    try done.
  - injection Hk as ->. cbn. replace (live_children n) with (length (children n)); [lia|].
    unfold live_children. by rewrite Hr.
  - specialize (IH _ Hk).
    change (<[S k := mark_revoked n]> (m :: nodes)) with (m :: <[k := mark_revoked n]> nodes).
    cbn [sum_list_with]. lia.
Qed.

Lemma revoke_loop_fuel fuel nodes stack :
  (1 + length stack + pending_children nodes <= fuel)%nat ->
  is_Some (revoke_loop fuel nodes stack).
Proof.
  revert nodes stack. induction fuel as [|fuel IH]; intros nodes stack H; [lia|].
  cbn. destruct stack as [|i stack]; [by eauto|]. cbn in H.
  destruct (zget nodes i) as [n|] eqn:Hn; [|by apply IH; lia].
  destruct (revoked n) eqn:Hr; [by apply IH; lia|]. apply IH.
  rewrite length_app, length_reverse.
  pose proof (pending_children_mark _ _ _ Hn Hr). lia.
Qed.

Lemma closed_upto_mark nodes i n stack :
  zget nodes i = Some n -> closed_upto nodes (i :: stack) ->
  closed_upto (zset nodes i (mark_revoked n)) (reverse (children n) ++ stack).
Proof.
  intros Hn C p c Hc Hp. rewrite is_revoked_mark in Hp by done.
  rewrite <- (same_shape_child _ _ _ _ (same_shape_mark _ _ _ Hn)) in Hc.
  rewrite is_revoked_mark by done.
  destruct (decide (i = c)) as [->|Hne]; [by auto|].
  destruct Hp as [Hp| ->].
  - destruct (C _ _ Hc Hp) as [?|[Hin|Hno]]; [by auto|set_solver|].
    right; right. by rewrite zget_zset_ne.
  - destruct Hc as (m & ? & ?). simplify_eq. set_solver.
Qed.

Lemma revoke_loop_spec fuel nodes stack nodes' :
  revoke_loop fuel nodes stack = Some nodes' -> closed_upto nodes stack ->
  same_shape nodes nodes' /\ closed_upto nodes' [] /\
  (forall s, s ∈ stack -> is_revoked nodes' s \/ zget nodes' s = None) /\
  (forall i, is_revoked nodes' i ->
     is_revoked nodes i \/ exists s, s ∈ stack /\ derived_from nodes s i).
Proof.
  revert nodes stack. induction fuel as [|fuel IH]; intros nodes stack; [done|].
  cbn. destruct stack as [|i stack].
  { intros [= <-] C. split_and!; [apply same_shape_refl|done|set_solver|by auto]. }
  destruct (zget nodes i) as [n|] eqn:Hn.
  2: { intros Hl C. destruct (IH _ _ Hl) as (S & C' & D & F).
       { intros p c Hc Hp. destruct (C p c Hc Hp) as [?|[[-> |?]%elem_of_cons|?]]; auto. }
       split_and!; [done|done| |].
       - intros s [-> |Hs]%elem_of_cons; [|by auto]. right.
         destruct (zget nodes' i) eqn:E; [|done]. apply zget_Some in E.
         destruct S as [L _]. rewrite L in E. apply zget_in_range in E as [? ?]. congruence.
       - intros j Hj. destruct (F j Hj) as [?|(s & ? & ?)]; [by auto|].
         right. exists s. set_solver. }
  destruct (revoked n) eqn:Hr.
  - intros Hl C. assert (Ri : is_revoked nodes i) by (by exists n).
    destruct (IH _ _ Hl) as (S & C' & D & F).
    { intros p c Hc Hp. destruct (C p c Hc Hp) as [?|[[-> |?]%elem_of_cons|?]]; auto. }
    split_and!; [done|done| |].
    + intros s [-> |Hs]%elem_of_cons; [|by auto]. left. by eapply same_shape_revoked.
    + intros j Hj. destruct (F j Hj) as [?|(s & ? & ?)]; [by auto|].
      right. exists s. set_solver.
  - intros Hl C. pose proof (same_shape_mark _ _ _ Hn) as M.
    destruct (IH _ _ Hl) as (S & C' & D & F); [by apply closed_upto_mark|].
    split_and!; [by eapply same_shape_trans|done| |].
    + intros s [-> |Hs]%elem_of_cons; [|apply D; set_solver]. left.
      eapply same_shape_revoked; [done|]. apply is_revoked_mark; auto.
    + intros j Hj. destruct (F j Hj) as [Hj'|(s & Hs & Hd)].
      * apply is_revoked_mark in Hj' as [?| ->]; [by auto| |done].
        right. exists j. split; [set_solver|apply rtc_refl].
      * rewrite <- (same_shape_derived _ _ _ _ M) in Hd. right.
        apply elem_of_app in Hs as [Hs|Hs]; [|exists s; set_solver].
        exists i. split; [set_solver|]. eapply rtc_l; [|done].
        exists n. split; [done|set_solver].
Qed.

Lemma cap_wf_closed_upto nodes stack : cap_wf nodes -> closed_upto nodes stack.
Proof. intros W p c Hc Hp. left. by eapply wf_closed. Qed.

Lemma revoke_spec nodes r :
  cap_wf nodes ->
  same_shape nodes (revoke nodes r) /\ closed_upto (revoke nodes r) [] /\
  (is_revoked (revoke nodes r) r \/ zget (revoke nodes r) r = None) /\
  (forall i, is_revoked (revoke nodes r) i -> is_revoked nodes i \/ derived_from nodes r i).
Proof.
  intros W. unfold revoke, revoke_fuel.
  destruct (revoke_loop_fuel (2 + pending_children nodes) nodes [r]) as [nodes' Hl];
    [cbn; lia|].
  rewrite Hl. cbn. destruct (revoke_loop_spec _ _ _ _ Hl) as (S & C & D & F);
    [by apply cap_wf_closed_upto|].
  split_and!; [done|done|apply D; set_solver|].
  intros i Hi. destruct (F i Hi) as [?|(s & Hs & ?)]; [by auto|].
  apply list_elem_of_singleton in Hs as ->. by auto.
Qed.

Lemma derived_in_range nodes r i n :
  cap_wf nodes -> derived_from nodes r i -> zget nodes r = Some n ->
  is_Some (zget nodes i).
Proof.
  intros W R. revert n. induction R as [|p c i Hc R IH]; intros n Hn; [by eauto|].
  pose proof (wf_forward _ W _ _ Hc). apply zget_Some in Hn.
  destruct (zget_in_range nodes c) as [m Hm]; [lia|]. by eapply IH.
Qed.

Lemma revoked_downward nodes r i :
  cap_wf nodes -> derived_from nodes r i -> is_revoked nodes r -> is_revoked nodes i.
Proof.
  intros W R. induction R as [|p c i Hc R IH]; [done|].
  intros Hp. apply IH. by eapply wf_closed.
Qed.

(** ** Preservation of the invariant *)

Lemma child_app nodes n p c :
  children n = [] -> child (nodes ++ [n]) p c <-> child nodes p c.
Proof.
  intros E. unfold child. rewrite zget_snoc. case_decide as D; [subst|done].
  split; [intros (m & [= <-] & Hc); rewrite E in Hc; set_solver|].
  intros (m & Hm & _). apply zget_Some in Hm. lia.
Qed.

Lemma is_revoked_app nodes n i :
  revoked n = false -> is_revoked (nodes ++ [n]) i <-> is_revoked nodes i.
Proof.
  intros E. unfold is_revoked. rewrite zget_snoc. case_decide as D; [subst|done].
  split; [intros (m & [= <-] & Hc); congruence|].
  intros (m & Hm & _). apply zget_Some in Hm. lia.
Qed.

Lemma cap_wf_nil : cap_wf [].
Proof.
  assert (N : forall p, zget (@nil cap_node) p = None).
  { intros p. by destruct p. }
  assert (C : forall p c, ~ child [] p c) by (intros p c (m & Hm & _); by rewrite N in Hm).
  split; intros; by edestruct C.
Qed.

Lemma mint_root_wf nodes k : cap_wf nodes -> cap_wf (mint_root nodes k).1.
Proof.
  intros W. unfold mint_root. cbn [fst]. split.
  - intros p c Hc. rewrite child_app in Hc by done. pose proof (wf_forward _ W _ _ Hc).
    rewrite zlen_snoc. lia.
  - intros p c n m Hc Hn Hm. rewrite child_app in Hc by done.
    pose proof (wf_forward _ W _ _ Hc). rewrite zget_app_l in Hn, Hm by lia.
    by eapply wf_same_kind.
  - intros p c Hc Hp. rewrite child_app in Hc by done.
    rewrite is_revoked_app in Hp |- * by done. by eapply wf_closed.
Qed.

Section derived.
Context (nodes : list cap_node) (parent b : Z) (entry : cap_node).
Context (Hparent : zget nodes parent = Some entry) (Hlive : revoked entry = false).

Let new_node := CapNode (kind entry) b [] false.
Let nodes1 := nodes ++ [new_node].
Let nodes2 := zset nodes1 parent (push_child entry (zlen nodes)).

Lemma parent_range : 0 <= parent < zlen nodes.
Proof. by eapply zget_Some. Qed.

Lemma zlen_nodes1 : zlen nodes1 = zlen nodes + 1.
Proof. unfold nodes1. rewrite zlen_snoc. lia. Qed.

Lemma zget_derived i :
  zget nodes2 i =
  if decide (i = parent) then Some (push_child entry (zlen nodes))
  else if decide (i = zlen nodes) then Some new_node else zget nodes i.
Proof.
  pose proof parent_range. pose proof zlen_nodes1 as L. unfold nodes2.
  rewrite zget_zset. repeat case_decide; subst; try done; try lia.
  - apply zget_app_last.
  - unfold nodes1. by rewrite zget_snoc, decide_False.
Qed.

Lemma child_derived p c :
  child nodes2 p c <-> child nodes p c \/ (p = parent /\ c = zlen nodes).
Proof.
  pose proof parent_range. unfold child at 1. rewrite zget_derived.
  destruct (decide (p = parent)) as [->|]; [|destruct (decide (p = zlen nodes)) as [->|]].
  - split.
    + intros (m & [= <-] & Hc). cbn in Hc. apply elem_of_app in Hc as [Hc|Hc].
      * left. by exists entry.
      * apply list_elem_of_singleton in Hc. auto.
    + intros [(m & Hm & Hc)|[_ ->]]; eexists; (split; [done|]); cbn;
        apply elem_of_app; [left; congruence|right; by apply list_elem_of_singleton].
  - split.
    + intros (m & [= <-] & Hc). set_solver.
    + intros [(m & Hm & _)|[? _]]; [|done]. apply zget_Some in Hm. lia.
  - unfold child. naive_solver.
Qed.

Lemma is_revoked_derived i : is_revoked nodes2 i <-> is_revoked nodes i.
Proof.
  pose proof parent_range. unfold is_revoked. rewrite zget_derived.
  destruct (decide (i = parent)) as [->|]; [|destruct (decide (i = zlen nodes)) as [->|]].
  - rewrite Hparent. cbn. split; intros (m & [= <-] & Hr); cbn in Hr; congruence.
  - split; [intros (m & [= <-] & Hr); cbn in Hr; congruence|].
    intros (m & Hm & _). apply zget_Some in Hm. lia.
  - done.
Qed.

Lemma mint_derived_wf_aux : cap_wf nodes -> cap_wf nodes2.
Proof.
  intros W. pose proof parent_range as PR. split.
  - intros p c Hc. unfold nodes2. rewrite zlen_zset, zlen_nodes1.
    apply child_derived in Hc as [Hc|[-> ->]]; [pose proof (wf_forward _ W _ _ Hc)|]; lia.
  - intros p c n m Hc. rewrite !zget_derived.
    apply child_derived in Hc as [Hc|[-> ->]].
    + pose proof (wf_forward _ W _ _ Hc). intros Hn Hm.
      assert (exists n', zget nodes p = Some n' /\ kind n' = kind n) as (n' & ? & <-).
      { repeat case_decide; simplify_eq; eauto; lia. }
      assert (exists m', zget nodes c = Some m' /\ kind m' = kind m) as (m' & ? & <-).
      { repeat case_decide; simplify_eq; eauto; lia. }
      by eapply wf_same_kind.
    + intros Hn Hm. repeat case_decide; simplify_eq; try lia; done.
  - intros p c Hc Hp. rewrite is_revoked_derived in Hp |- *.
    apply child_derived in Hc as [Hc|[-> ->]]; [by eapply wf_closed|].
    destruct Hp as (m & ? & ?). congruence.
Qed.
End derived.

Lemma mint_derived_Some nodes p b nodes' id :
  mint_derived nodes p b = Some (nodes', id) ->
  exists entry, zget nodes p = Some entry /\ revoked entry = false /\ id = zlen nodes /\
    nodes' = zset (nodes ++ [CapNode (kind entry) b [] false]) p
               (push_child entry (zlen nodes)).
Proof.
  unfold mint_derived. destruct (zget nodes p) as [e|] eqn:E; [|done].
  destruct (revoked e) eqn:R; [done|]. intros [= <- <-]. eauto 10.
Qed.

Lemma mint_derived_wf nodes p b nodes' id :
  mint_derived nodes p b = Some (nodes', id) -> cap_wf nodes -> cap_wf nodes'.
Proof. intros (e & ? & ? & -> & ->)%mint_derived_Some ?. by apply mint_derived_wf_aux. Qed.

Lemma revoke_wf nodes r : cap_wf nodes -> cap_wf (revoke nodes r).
Proof.
  intros W. destruct (revoke_spec nodes r W) as (S & C & _ & _).
  pose proof S as [L H]. split.
  - intros p c Hc. apply (same_shape_child _ _ _ _ S) in Hc. rewrite L.
    by apply (wf_forward _ W).
  - intros p c n m Hc Hn Hm. apply (same_shape_child _ _ _ _ S) in Hc.
    pose proof (wf_forward _ W _ _ Hc).
    apply zget_Some in Hn as Rn. rewrite L in Rn. apply zget_in_range in Rn as [n0 Hn0].
    apply zget_Some in Hm as Rm. rewrite L in Rm. apply zget_in_range in Rm as [m0 Hm0].
    destruct (H _ _ Hn0) as (? & ? & Kn & _). destruct (H _ _ Hm0) as (? & ? & Km & _).
    simplify_eq. rewrite Kn, Km.
    by eapply wf_same_kind.
  - intros p c Hc Hp. destruct (C p c Hc Hp) as [?|[?|Hno]]; [done|set_solver|].
    apply (same_shape_child _ _ _ _ S) in Hc. pose proof (wf_forward _ W _ _ Hc).
    destruct (zget_in_range (revoke nodes r) c) as [? ?]; [|congruence].
    rewrite L. destruct Hp as (m & Hm & _). apply zget_Some in Hm. lia.
Qed.

Lemma cap_step_wf : preserved cap_step cap_wf.
Proof.
  intros s s' W H. destruct H; [by apply mint_root_wf| |by apply revoke_wf].
  by eapply mint_derived_wf.
Qed.

#[export] Hint Resolve cap_wf_nil mint_root_wf mint_derived_wf revoke_wf : wf.

(** ** Frame lemmas used by the syscall layer *)

Lemma resolve_revoked nodes i : is_revoked nodes i -> resolve nodes i = None.
Proof. intros (n & Hn & Hr). unfold resolve. by rewrite Hn, Hr. Qed.

Lemma resolve_None_iff nodes i :
  resolve nodes i = None <-> is_revoked nodes i \/ zget nodes i = None.
Proof.
  unfold resolve, is_revoked. destruct (zget nodes i) as [n|]; [|by split; auto].
  destruct (revoked n) eqn:E; (split; [try done; eauto|]); [done|].
  intros [(m & [= <-] & ?)|?]; congruence.
Qed.

Lemma resolve_mint_root nodes k i :
  resolve (mint_root nodes k).1 i =
  if decide (i = zlen nodes) then Some (k, 0) else resolve nodes i.
Proof.
  unfold resolve, mint_root. cbn [fst]. rewrite zget_snoc. by case_decide.
Qed.

Lemma resolve_mint_derived nodes p b nodes' id i :
  mint_derived nodes p b = Some (nodes', id) ->
  resolve nodes' i =
  if decide (i = id)
  then match resolve nodes p with Some (k, _) => Some (k, b) | None => None end
  else resolve nodes i.
Proof.
  intros (e & He & Hl & -> & ->)%mint_derived_Some.
  pose proof (zget_Some _ _ _ He) as R. unfold resolve. rewrite He, Hl.
  rewrite (zget_derived nodes p b e He) by done.
  repeat case_decide; subst; cbn; try lia; try done.
  by rewrite Hl, He, Hl.
Qed.

Lemma mint_derived_is_Some nodes p b :
  is_Some (mint_derived nodes p b) <-> is_Some (resolve nodes p).
Proof.
  unfold mint_derived, resolve. destruct (zget nodes p) as [n|]; [|by split; intros [? ?]].
  destruct (revoked n); split; intros [? ?]; eauto; done.
Qed.

Lemma cspace_get_install c node s :
  cspace_get (cspace_install c node).1 s =
  if decide (s = zlen (slots c)) then Some node else cspace_get c s.
Proof.
  unfold cspace_get, cspace_install. cbn [fst slots]. rewrite zget_snoc.
  by case_decide.
Qed.

Lemma cspace_get_new s : cspace_get cspace_new s = None.
Proof.
  unfold cspace_get, cspace_new. cbn [slots]. change [None] with ([] ++ [@None Z]). rewrite zget_snoc.
  case_decide; [done|]. by rewrite zget_nil.
Qed.

Lemma cspace_install_slot c node : (cspace_install c node).2 = zlen (slots c).
Proof. unfold cspace_install. cbn. rewrite zlen_snoc. lia. Qed.

(** ** Properties *)

Lemma cap_step_revoked nodes nodes' r :
  cap_wf nodes -> cap_step nodes nodes' -> is_revoked nodes r -> is_revoked nodes' r.
Proof.
  intros W H R. destruct H as [nodes k|nodes p b nodes' id H|nodes n].
  - by apply is_revoked_app.
  - apply mint_derived_Some in H as (e & ? & ? & -> & ->). by apply is_revoked_derived.
  - eapply same_shape_revoked; [by apply revoke_spec|done].
Qed.

Lemma cap_steps_revoked nodes nodes' r :
  steps cap_step nodes nodes' -> cap_wf nodes -> is_revoked nodes r -> is_revoked nodes' r.
Proof.
  intros S. induction S as [|a b c H S IH]; [done|]. intros W R.
  apply IH; [by eapply cap_step_wf|by eapply cap_step_revoked].
Qed.

(** C11: [revoke r] marks exactly [r] and the capabilities derived from it,
    however long the derivation chain, leaves every other node as it was,
    and changes no kind, badge or child list. *)
Theorem revoke_exact nodes r :
  cap_wf nodes -> is_Some (zget nodes r) ->
  same_shape nodes (revoke nodes r) /\
  forall i, is_revoked (revoke nodes r) i <-> is_revoked nodes i \/ derived_from nodes r i.
Proof.
  intros W Hr. destruct (revoke_spec nodes r W) as (S & C & D & F).
  split; [done|]. intros i. split; [by apply F|].
  intros [Hi|Hi]; [by eapply same_shape_revoked|].
  eapply (revoked_downward (revoke nodes r)); [by apply revoke_wf| |].
  - by apply (same_shape_derived _ _ _ _ S).
  - destruct D as [?|Hn]; [done|]. destruct S as [_ S]. destruct Hr as [n Hn0].
    destruct (S _ _ Hn0) as (? & ? & _). congruence.
Qed.

(** C33: the work-stack loop of [revoke] always ends: the fuel of the model is
    never exhausted, whatever the table (cycles included) and the node. *)
Theorem revoke_loop_terminates nodes r :
  revoke_loop (revoke_fuel nodes) nodes [r] = Some (revoke nodes r).
Proof.
  unfold revoke. destruct (revoke_loop_fuel (revoke_fuel nodes) nodes [r]) as [n ->];
    [cbn; unfold revoke_fuel; lia|done].
Qed.

(** once revoked, a capability and everything that is derived from it then
    or later stays dead through any further mints, derivations and revocations:
    it resolves to nothing and no further copy can be derived from it. *)
Theorem revoked_forever nodes nodes' r i b :
  steps cap_step [] nodes -> steps cap_step nodes nodes' ->
  is_revoked nodes r -> derived_from nodes' r i ->
  resolve nodes' i = None /\ mint_derived nodes' i b = None.
Proof.
  intros S1 S2 R D.
  pose proof (steps_preserved _ _ cap_step_wf _ _ S1 cap_wf_nil) as W.
  pose proof (steps_preserved _ _ cap_step_wf _ _ S2 W) as W'.
  assert (N : resolve nodes' i = None).
  { apply resolve_revoked. eapply revoked_downward; [done|done|].
    by eapply cap_steps_revoked. }
  split; [done|]. destruct (mint_derived nodes' i b) as [x|] eqn:E; [|done].
  destruct (proj1 (mint_derived_is_Some nodes' i b)) as [? ?]; [by eauto|congruence].
Qed.

(** ** Witnesses *)

(** A chain 0 -> 1 -> 2 and a sibling 3 of node 1. *)
Definition ex_nodes : list cap_node :=
  [CapNode RebootControl 0 [1; 3] false; CapNode RebootControl 5 [2] false;
   CapNode RebootControl 6 [] false; CapNode RebootControl 7 [] false].

Lemma ex_nodes_steps : steps cap_step [] ex_nodes.
Proof.
  eapply steps_cons; [apply (step_mint_root [] RebootControl)|].
  eapply steps_cons; [by eapply (step_mint_derived _ 0 5)|].
  eapply steps_cons; [by eapply (step_mint_derived _ 1 6)|].
  eapply steps_cons; [by eapply (step_mint_derived _ 0 7)|].
  apply steps_refl.
Qed.

Lemma ex_nodes_wf : cap_wf ex_nodes.
Proof. exact (steps_preserved _ _ cap_step_wf _ _ ex_nodes_steps cap_wf_nil). Qed.

Lemma revoke_exact_witness :
  is_revoked (revoke ex_nodes 1) 2 /\ ~ is_revoked (revoke ex_nodes 1) 3.
Proof.
  split.
  - apply (revoke_exact ex_nodes 1 ex_nodes_wf); [by eexists|].
    right. eapply rtc_l; [|apply rtc_refl]. eexists. split; [reflexivity|]. cbn. set_solver.
  - intros (n & H & R). vm_compute in H. injection H as <-. discriminate R.
Defined.

Lemma revoked_forever_witness :
  resolve (mint_root (revoke ex_nodes 1) RebootControl).1 2 = None /\
  mint_derived (mint_root (revoke ex_nodes 1) RebootControl).1 2 9 = None.
Proof.
  apply (revoked_forever (revoke ex_nodes 1) _ 1).
  - assert (steps_snoc : forall a b c, steps cap_step a b -> cap_step b c -> steps cap_step a c).
    { intros a b c S H. induction S; econstructor; eauto; constructor. }
    eapply steps_snoc; [exact ex_nodes_steps|apply step_revoke].
  - eapply steps_cons; [apply step_mint_root|apply steps_refl].
  - eexists. split; reflexivity.
  - eapply rtc_l; [|apply rtc_refl]. eexists. split; [reflexivity|]. cbn. set_solver.
Defined.
