(* ===== verification/Hw.v ===== *)
(** * CPU and interrupt-controller state the kernel keeps per task switch

    kernel/src/gdt.rs (segment descriptors, the TSS I/O permission bitmap and
    [set_io_permissions] with its dirty-byte count) and kernel/src/pic.rs (the
    two 8259 mask registers).  The descriptor tables themselves are loaded by
    assembly and are not modelled; the ports are, as the registers they hold. *)

From stdpp Require Import base list numbers sets.
From Stdlib Require Import Lia.
From S2P Require Import Prelude.
Open Scope Z_scope.

(** ** Segment descriptors *)

Module Gdt.

(** [struct GdtEntry] *)
Record gdt_entry := GdtEntry {
  limit_low : Z; base_low : Z; base_mid : Z;
  access : Z; granularity : Z; base_high : Z
}.

(** [GdtEntry::new] *)
Definition gdt_entry_new (base limit acc flags : Z) : gdt_entry :=
  GdtEntry (Z.land limit 0xFFFF) (Z.land base 0xFFFF)
    (Z.land (Z.shiftr base 16) 0xFF) acc
    (Z.lor (wrap8 (Z.shiftl (Z.land flags 0x0F) 4)) (Z.land (Z.shiftr limit 16) 0x0F))
    (Z.land (Z.shiftr base 24) 0xFF).

Definition ACCESS_CODE : Z := 0x9A.
Definition ACCESS_DATA : Z := 0x92.
Definition ACCESS_USER_CODE : Z := 0xFA.
Definition ACCESS_USER_DATA : Z := 0xF2.
Definition ACCESS_TSS : Z := 0x89.
Definition FLAGS_32BIT_4K : Z := 0xC.

(** [static mut GDT], with the TSS descriptor [init] stores in entry 5. *)
Definition GDT (tss_base tss_limit : Z) : list gdt_entry :=
  [gdt_entry_new 0 0 0 0;
   gdt_entry_new 0 0xFFFFF ACCESS_CODE FLAGS_32BIT_4K;
   gdt_entry_new 0 0xFFFFF ACCESS_DATA FLAGS_32BIT_4K;
   gdt_entry_new 0 0xFFFFF ACCESS_USER_CODE FLAGS_32BIT_4K;
   gdt_entry_new 0 0xFFFFF ACCESS_USER_DATA FLAGS_32BIT_4K;
   gdt_entry_new tss_base tss_limit ACCESS_TSS 0].

(** How the processor reads a descriptor back (Intel SDM 3A, 3.4.5). *)
Definition entry_base (e : gdt_entry) : Z :=
  base_low e + 2 ^ 16 * base_mid e + 2 ^ 24 * base_high e.
Definition entry_limit (e : gdt_entry) : Z :=
  limit_low e + 2 ^ 16 * (granularity e mod 16).
Definition entry_dpl (e : gdt_entry) : Z := access e / 32 mod 4.

End Gdt.

(** ** The I/O permission bitmap *)

Definition IO_BITMAP_PORTS : Z := 65536.
Definition IO_BITMAP_BYTES : Z := 8193.

(** The part of the TSS [set_io_permissions] works on, with the
    [DIRTY_BITMAP_BYTES] static. *)
Record io_perm := IoPerm { io_bitmap : list Z; dirty_bitmap_bytes : Z }.

(** [Tss::initial]: every port denied. *)
Definition io_perm_initial : io_perm :=
  IoPerm (replicate (Z.to_nat IO_BITMAP_BYTES) 0xFF) 0.

Definition needed_bytes (ports : list Z) : Z :=
  foldr Z.max 0
    (map (fun port => port / 8 + 1)
         (List.filter (fun port => port <? IO_BITMAP_PORTS) ports)).

(** [byte.write(byte.read() & !(1 << (port % 8)))] for a port in the map. *)
Definition clear_port (bitmap : list Z) (port : Z) : list Z :=
  if port <? IO_BITMAP_PORTS then
    zset bitmap (port / 8)
      (Z.land (byte_at bitmap (port / 8)) (Z.lxor 0xFF (Z.shiftl 1 (port mod 8))))
  else bitmap.

Definition set_io_permissions (io : io_perm) (ports : list Z) : io_perm :=
  let needed := needed_bytes ports in
  let reset_bytes := Z.min (Z.max (dirty_bitmap_bytes io) needed) IO_BITMAP_BYTES in
  let bitmap := put (io_bitmap io) 0 (replicate (Z.to_nat reset_bytes) 0xFF) in
  IoPerm (fold_left clear_port ports bitmap) needed.

(** What the processor checks on an [in] or [out] in ring 3. *)
Definition port_allowed (io : io_perm) (port : Z) : bool :=
  negb (Z.testbit (byte_at (io_bitmap io) (port / 8)) (port mod 8)).

(** The invariant of the doc comment: the bitmap has its size and every byte
    from the dirty count on is all ones. *)
Definition io_perm_wf (io : io_perm) : Prop :=
  zlen (io_bitmap io) = IO_BITMAP_BYTES /\
  0 <= dirty_bitmap_bytes io /\
  forall i, dirty_bitmap_bytes io <= i < IO_BITMAP_BYTES -> byte_at (io_bitmap io) i = 0xFF.

(** ** The interrupt controllers' mask registers *)

Record pic := Pic { imr1 : Z; imr2 : Z }.

(** The two mask writes that end [pic::init]. *)
Definition pic_init : pic := Pic 0xFC 0xFF.

(** [1 << n] on a [u8] in a release build, which takes the amount modulo 8 (a debug build
    would panic); [n < 8] at every call, since the lines are below 16. *)
Definition bit8 (n : Z) : Z := Z.shiftl 1 (Z.land n 7).

Definition unmask (p : pic) (irq : Z) : pic :=
  if irq >=? 8 then
    Pic (Z.land (imr1 p) (Z.lxor 0xFF (bit8 2))) (Z.land (imr2 p) (Z.lxor 0xFF (bit8 (irq - 8))))
  else Pic (Z.land (imr1 p) (Z.lxor 0xFF (bit8 irq))) (imr2 p).

Definition mask (p : pic) (irq : Z) : pic :=
  if irq >=? 8 then Pic (imr1 p) (Z.lor (imr2 p) (bit8 (irq - 8)))
  else Pic (Z.lor (imr1 p) (bit8 irq)) (imr2 p).

(** A line's own mask bit. *)
Definition masked (p : pic) (irq : Z) : bool :=
  if irq >=? 8 then Z.testbit (imr2 p) (irq - 8) else Z.testbit (imr1 p) irq.

(** ** Lemmas *)

Lemma bit8_small n : 0 <= n < 8 -> bit8 n = Z.shiftl 1 n.
Proof. intros Hn. unfold bit8. f_equal. change 7 with (Z.ones 3). rewrite Z.land_ones by lia. apply Z.mod_small. lia. Qed.

Lemma testbit_clear b k j :
  0 <= k < 8 -> 0 <= j < 8 ->
  Z.testbit (Z.land b (Z.lxor 0xFF (Z.shiftl 1 k))) j = Z.testbit b j && negb (k =? j).
Proof.
  intros Hk Hj. rewrite Z.land_spec, Z.lxor_spec. f_equal.
  change 0xFF with (Z.ones 8). rewrite Z.ones_spec_low by lia.
  rewrite Z.shiftl_1_l, Z.pow2_bits_eqb by lia.
  by destruct (k =? j).
Qed.

Lemma testbit_set b k j :
  0 <= k < 8 -> 0 <= j < 8 ->
  Z.testbit (Z.lor b (Z.shiftl 1 k)) j = Z.testbit b j || (k =? j).
Proof.
  intros Hk Hj. rewrite Z.lor_spec, Z.shiftl_1_l, Z.pow2_bits_eqb by lia. done.
Qed.

Lemma testbit_ff j : 0 <= j < 8 -> Z.testbit 0xFF j = true.
Proof. intros. change 0xFF with (Z.ones 8). apply Z.ones_spec_low. lia. Qed.

Lemma masked_mask p irq i :
  0 <= irq < 16 -> 0 <= i < 16 -> masked (mask p irq) i = masked p i || (irq =? i).
Proof.
  intros. unfold masked, mask.
  destruct (irq >=? 8) eqn:E1, (i >=? 8) eqn:E2; cbn [imr1 imr2]; bool_simp.
  - rewrite bit8_small, testbit_set by lia. f_equal. lia.
  - replace (irq =? i) with false by lia. by rewrite orb_false_r.
  - replace (irq =? i) with false by lia. by rewrite orb_false_r.
  - by rewrite bit8_small, testbit_set by lia.
Qed.

Lemma masked_unmask p irq i :
  0 <= irq < 16 -> 0 <= i < 16 ->
  masked (unmask p irq) i =
  masked p i && negb ((irq =? i) || (8 <=? irq) && (i =? 2)).
Proof.
  intros. unfold masked, unmask.
  destruct (irq >=? 8) eqn:E1, (i >=? 8) eqn:E2; cbn [imr1 imr2]; bool_simp.
  - rewrite bit8_small, testbit_clear by lia. f_equal. f_equal. lia.
  - rewrite bit8_small, testbit_clear by lia. f_equal. f_equal. lia.
  - replace (irq =? i) with false by lia. replace (8 <=? irq) with false by lia.
    by rewrite andb_true_r.
  - rewrite bit8_small, testbit_clear by lia. f_equal. f_equal. lia.
Qed.

Lemma needed_bytes_nonneg ports : 0 <= needed_bytes ports.
Proof.
  unfold needed_bytes. induction (map _ _) as [|x l IH]; cbn; lia.
Qed.

Lemma needed_bytes_bound ports p :
  p ∈ ports -> 0 <= p < IO_BITMAP_PORTS -> p / 8 < needed_bytes ports.
Proof.
  intros Hin Hp. unfold needed_bytes. induction ports as [|q ports IH]; [set_solver|].
  cbn. apply elem_of_cons in Hin as [<-|Hin].
  - replace (p <? IO_BITMAP_PORTS) with true by lia. cbn. lia.
  - specialize (IH Hin). destruct (q <? IO_BITMAP_PORTS); cbn; lia.
Qed.

Lemma needed_bytes_max ports :
  Forall is_u16 ports -> needed_bytes ports <= IO_BITMAP_BYTES - 1.
Proof.
  unfold needed_bytes, IO_BITMAP_BYTES, IO_BITMAP_PORTS, is_u16.
  induction 1 as [|q ports Hq _ IH]; cbn; [lia|].
  destruct (q <? 65536) eqn:E; cbn; [|done]. bool_simp.
  apply Z.max_lub; [|done]. dlia.
Qed.

Lemma zlen_clear_port b p : zlen (clear_port b p) = zlen b.
Proof. unfold clear_port. case_match; [apply zlen_zset|done]. Qed.

Lemma zlen_clear_ports ports b : zlen (fold_left clear_port ports b) = zlen b.
Proof.
  revert b. induction ports as [|p ports IH]; intros b; cbn; [done|].
  by rewrite IH, zlen_clear_port.
Qed.

Lemma byte_at_clear_port b p i :
  zlen b = IO_BITMAP_BYTES -> is_u16 p -> 0 <= i ->
  byte_at (clear_port b p) i =
  if decide (p / 8 = i)
  then Z.land (byte_at b i) (Z.lxor 0xFF (Z.shiftl 1 (p mod 8)))
  else byte_at b i.
Proof.
  unfold is_u16, clear_port, IO_BITMAP_BYTES, IO_BITMAP_PORTS. intros L Hp Hi.
  replace (p <? 65536) with true by lia.
  rewrite byte_at_zset by (rewrite ?L; dlia). case_decide; by subst.
Qed.

(** A bit is still set after the clearing loop when it was set and its port is
    not one of the list. *)
Lemma testbit_clear_ports ports b p :
  zlen b = IO_BITMAP_BYTES -> Forall is_u16 ports -> 0 <= p ->
  Z.testbit (byte_at (fold_left clear_port ports b) (p / 8)) (p mod 8) =
  Z.testbit (byte_at b (p / 8)) (p mod 8) && bool_decide (p ∉ ports).
Proof.
  intros L H. revert b L. induction H as [|q ports Hq _ IH]; intros b L Hp; cbn [fold_left].
  { rewrite bool_decide_eq_true_2 by set_solver. by rewrite andb_true_r. }
  rewrite IH by (rewrite ?zlen_clear_port; done). clear IH.
  rewrite byte_at_clear_port by (done || dlia).
  assert (B : bool_decide (p ∉ q :: ports) = negb (q =? p) && bool_decide (p ∉ ports)).
  { destruct (q =? p) eqn:E; bool_simp; cbn.
    - apply bool_decide_eq_false_2. set_solver.
    - apply bool_decide_ext. set_solver. }
  rewrite B, andb_assoc. f_equal. destruct (decide (q / 8 = p / 8)) as [E|E].
  - rewrite testbit_clear by dlia. f_equal. f_equal.
    destruct (q mod 8 =? p mod 8) eqn:E1, (q =? p) eqn:E2; bool_simp; try done; dlia.
  - replace (q =? p) with false; [by rewrite andb_true_r|].
    symmetry. apply Z.eqb_neq. congruence.
Qed.

Lemma byte_at_clear_ports_beyond ports b i :
  zlen b = IO_BITMAP_BYTES -> Forall is_u16 ports ->
  needed_bytes ports <= i -> byte_at (fold_left clear_port ports b) i = byte_at b i.
Proof.
  intros L H Hi.
  assert (Hi0 : 0 <= i) by (pose proof (needed_bytes_nonneg ports); lia).
  assert (D : Forall (fun q => q / 8 <> i) ports).
  { apply Forall_forall. intros q Hq. rewrite Forall_forall in H.
    pose proof (needed_bytes_bound ports q Hq (H q Hq)). lia. }
  clear Hi. revert b L. induction H as [|q ports Hq _ IH]; intros b L; cbn [fold_left]; [done|].
  apply Forall_cons_iff in D as [Hne D]. rewrite (IH D) by (by rewrite zlen_clear_port).
  by rewrite byte_at_clear_port, decide_False.
Qed.

Section set_io.
Context (io : io_perm) (ports : list Z) (W : io_perm_wf io) (U : Forall is_u16 ports).

Let reset_bytes :=
  Z.min (Z.max (dirty_bitmap_bytes io) (needed_bytes ports)) IO_BITMAP_BYTES.
Let bitmap := put (io_bitmap io) 0 (replicate (Z.to_nat reset_bytes) 0xFF).

Lemma reset_range : 0 <= reset_bytes <= IO_BITMAP_BYTES.
Proof.
  destruct W as (L & D & _). pose proof (needed_bytes_nonneg ports).
  unfold reset_bytes, IO_BITMAP_BYTES. lia.
Qed.

Lemma zlen_reset : zlen bitmap = IO_BITMAP_BYTES.
Proof.
  pose proof reset_range. destruct W as (L & _ & _). unfold bitmap.
  rewrite zlen_put; [done|lia|]. rewrite zlen_replicate, L. lia.
Qed.

(** After the reset every byte is all ones: below the reset bound because it was
    just written, above it by the invariant. *)
Lemma byte_at_reset i : 0 <= i < IO_BITMAP_BYTES -> byte_at bitmap i = 0xFF.
Proof.
  intros Hi. pose proof reset_range as R. destruct W as (L & D & A). unfold bitmap.
  rewrite byte_at_put by (rewrite ?zlen_replicate; lia).
  rewrite zlen_replicate. case_decide; [by apply byte_at_replicate; lia|].
  apply A. unfold reset_bytes in *. lia.
Qed.

Lemma set_io_permissions_wf : io_perm_wf (set_io_permissions io ports).
Proof.
  pose proof zlen_reset. pose proof (needed_bytes_nonneg ports).
  unfold set_io_permissions, io_perm_wf. cbn [io_bitmap dirty_bitmap_bytes].
  fold reset_bytes bitmap. split_and!.
  - by rewrite zlen_clear_ports.
  - done.
  - intros i Hi. rewrite byte_at_clear_ports_beyond by (done || lia).
    apply byte_at_reset. lia.
Qed.

Lemma set_io_permissions_allowed p :
  is_u16 p -> port_allowed (set_io_permissions io ports) p = bool_decide (p ∈ ports).
Proof.
  unfold is_u16. intros Hp. unfold port_allowed, set_io_permissions. cbn [io_bitmap].
  fold reset_bytes bitmap. rewrite testbit_clear_ports by (apply zlen_reset || done || lia).
  rewrite byte_at_reset by (unfold IO_BITMAP_BYTES; dlia).
  rewrite testbit_ff by dlia. cbn [andb].
  by destruct (decide (p ∈ ports)); [rewrite bool_decide_eq_false_2, bool_decide_eq_true_2
    |rewrite bool_decide_eq_true_2, bool_decide_eq_false_2]; auto.
Qed.
End set_io.

Lemma io_perm_initial_wf : io_perm_wf io_perm_initial.
Proof.
  unfold io_perm_wf, io_perm_initial. cbn [io_bitmap dirty_bitmap_bytes].
  split_and!; [by rewrite zlen_replicate|done|].
  intros i Hi. apply byte_at_replicate. unfold IO_BITMAP_BYTES in *. lia.
Qed.

#[export] Hint Resolve set_io_permissions_wf io_perm_initial_wf : wf.

(** ** Properties *)

(** whatever sequence of task switches came before, after
    [set_io_permissions ports] the processor lets ring 3 use exactly the ports
    of the list: the dirty-byte optimisation never leaves a port of an earlier
    task open, and never closes one of this task's. *)
Theorem io_permissions_exact (history : list (list Z)) ports p :
  Forall (Forall is_u16) history -> Forall is_u16 ports -> is_u16 p ->
  port_allowed
    (set_io_permissions (fold_left set_io_permissions history io_perm_initial) ports) p
  = bool_decide (p ∈ ports).
Proof.
  intros H U Hp. apply set_io_permissions_allowed; [|done|done].
  cut (forall io, io_perm_wf io -> io_perm_wf (fold_left set_io_permissions history io));
    [auto with wf|].
  induction H as [|h history Hh _ IH]; intros io W; cbn; [done|]. auto with wf.
Qed.

(** a descriptor [GdtEntry::new] builds reads back as the base, the 20-bit
    limit and the access byte it was given. *)
Theorem gdt_entry_roundtrip base limit acc flags :
  is_u32 base -> 0 <= limit < 2 ^ 20 -> is_u8 flags ->
  let e := Gdt.gdt_entry_new base limit acc flags in
  Gdt.entry_base e = base /\ Gdt.entry_limit e = limit /\ Gdt.access e = acc.
Proof.
  intros Hb Hl Hf e. subst e. unfold is_u32, is_u8 in *.
  unfold Gdt.gdt_entry_new, Gdt.entry_base, Gdt.entry_limit. cbn [Gdt.base_low Gdt.base_mid Gdt.base_high
    Gdt.limit_low Gdt.granularity Gdt.access].
  change 0xFFFF with (Z.ones 16). change 0xFF with (Z.ones 8). change 0x0F with (Z.ones 4).
  rewrite !Z.land_ones by lia. rewrite !Z.shiftr_div_pow2 by lia.
  split_and!; [dlia| |done].
  rewrite <- (Z.land_ones _ 4), Z.land_lor_distr_l by lia.
  unfold wrap. rewrite Z.shiftl_mul_pow2, !Z.land_ones by lia.
  replace ((flags mod 2 ^ 4 * 2 ^ 4) mod 2 ^ 8 mod 2 ^ 4) with 0 by dlia.
  rewrite Z.lor_0_l, Z.mod_mod by lia. dlia.
Qed.

(** ** Witnesses *)

Lemma io_permissions_exact_witness :
  port_allowed
    (set_io_permissions
       (fold_left set_io_permissions [[0xC000; 0xC001]; [0x60]] io_perm_initial)
       [0x3D4; 0x3D5]) 0x60 = bool_decide (0x60 ∈ [0x3D4; 0x3D5]).
Proof.
  apply (io_permissions_exact [[0xC000; 0xC001]; [0x60]] [0x3D4; 0x3D5] 0x60);
    repeat constructor; lia.
Defined.

Lemma gdt_entry_roundtrip_witness :
  Gdt.entry_base (Gdt.gdt_entry_new 0xC0123456 0x2067 Gdt.ACCESS_TSS 0) = 0xC0123456.
Proof.
  apply (gdt_entry_roundtrip 0xC0123456 0x2067 Gdt.ACCESS_TSS 0); unfold is_u32, is_u8; lia.
Defined.
