(* ===== verification/Sched.v ===== *)
(** * Tasks and the scheduler (kernel/src/task.rs, scheduler.rs, task_asm.s)

    The scheduler state is the task vector, the ready queue, the current task
    and task.rs's [NEXT_ID], together with the processor state [activate]
    sets (CR3, TSS.esp0 and the I/O bitmap).  A task's kernel stack is named by
    the task's id; the words [new_kernel]/[new_user] fabricate on it are kept,
    and [switch_to]'s pops are run on them.  Theorems: [sched_wf] (ids,
    queue = exactly the ready tasks, one running task, processor state of the
    running task) and its preservation by every operation, each operation's
    effect on every task, and the first entry of a new task. *)

From stdpp Require Import base list numbers sets.
From Stdlib Require Import Lia.
From S2P Require Import Prelude Cap Hw.
Open Scope Z_scope.

(** ** Data *)

(** [enum TaskState] *)
Inductive task_state := Ready | Running | Blocked | Zombie.

#[export] Instance task_state_eq_dec : EqDecision task_state.
Proof. solve_decision. Defined.

(** A word of a fabricated stack: a plain value or a code address. *)
Inductive stack_word :=
| Word (v : Z)
| TaskTrampoline
| EnterRing3
| KernelEntry (entry : Z).

#[export] Instance stack_word_eq_dec : EqDecision stack_word.
Proof. solve_decision. Defined.

(** [struct Task]; [stack] is what the constructor wrote at the top of the
    kernel stack, lowest address first (where [esp] points). *)
Record task := Task {
  tid : Z;
  state : task_state;
  page_dir_phys : Z;
  allowed_ports : list Z;
  tcspace : cspace;
  stack : list stack_word
}.

Definition INITIAL_EFLAGS : Z := 0x202.

(** The [push] closure: each call stores one word below the previous one. *)
Definition pushes (ws : list stack_word) : list stack_word := rev ws.

(** [Task::new_kernel] (the id comes from [alloc_task_id]).  [new_stack]'s 16 KiB come from
    the kernel heap: a refused allocation ends the call that spawns, see
    [Syscall.syscall_with_heap]. *)
Definition new_kernel (id entry boot_page_directory_phys : Z) : task :=
  Task id Ready boot_page_directory_phys [] cspace_new
    (pushes [KernelEntry entry; Word 0; TaskTrampoline; Word INITIAL_EFLAGS;
             Word 0; Word 0; Word 0; Word 0]).

(** [Task::new_user] *)
Definition new_user (id entry_eip user_esp page_dir : Z) (ports : list Z) : task :=
  Task id Ready page_dir ports cspace_new
    (pushes [Word user_esp; Word entry_eip; Word 0; EnterRing3; Word INITIAL_EFLAGS;
             Word 0; Word 0; Word 0; Word 0]).

(** What [activate] programs: CR3, the owner of the stack TSS.esp0 points at
    (0 is the boot stack) and the I/O bitmap. *)
Record cpu := Cpu { cr3 : Z; esp0_owner : Z; io : io_perm }.

(** [struct Scheduler] with [NEXT_ID]. *)
Record sched := Sched {
  tasks : list task;
  ready_queue : list Z;
  current : option Z;
  next_id : Z;
  scpu : cpu
}.

Definition sched_init (boot_pd : Z) : sched :=
  Sched [] [] None 1 (Cpu boot_pd 0 io_perm_initial).

Definition with_task_state (st : task_state) (t : task) : task :=
  Task (tid t) st (page_dir_phys t) (allowed_ports t) (tcspace t) (stack t).
Definition with_cspace (c : cspace) (t : task) : task :=
  Task (tid t) (state t) (page_dir_phys t) (allowed_ports t) c (stack t).
Definition set_tasks (ts : list task) (s : sched) : sched :=
  Sched ts (ready_queue s) (current s) (next_id s) (scpu s).
Definition set_ready (q : list Z) (s : sched) : sched :=
  Sched (tasks s) q (current s) (next_id s) (scpu s).
Definition set_current (c : option Z) (s : sched) : sched :=
  Sched (tasks s) (ready_queue s) c (next_id s) (scpu s).
Definition set_cpu (c : cpu) (s : sched) : sched :=
  Sched (tasks s) (ready_queue s) (current s) (next_id s) c.

(** ** Operations *)

(** [alloc_task_id]: [*id += 1] wraps at 32 bits. *)
Definition alloc_task_id (s : sched) : sched * Z :=
  (Sched (tasks s) (ready_queue s) (current s) (wrap32 (next_id s + 1)) (scpu s), next_id s).

(** [Scheduler::index_of] *)
Definition index_of (s : sched) (id : Z) : res nat :=
  expect UnknownTask (position (fun t => tid t =? id) (tasks s)).

(** [self.tasks[idx]] *)
Definition task_at (s : sched) (idx : nat) : res task :=
  expect IndexOutOfBounds (tasks s !! idx).

(** [sched.tasks[idx].state = st] *)
Definition set_state (s : sched) (idx : nat) (st : task_state) : sched :=
  set_tasks (alter (with_task_state st) idx (tasks s)) s.

(** [Scheduler::activate] *)
Definition activate (s : sched) (idx : nat) : res sched :=
  t <- task_at s idx ;;
  Ok (set_cpu (Cpu (page_dir_phys t) (tid t)
                 (set_io_permissions (io (scpu s)) (allowed_ports t))) s).

(** The tail [start], [tick], [block_current] and [exit_current] share: pop the
    next ready task, mark it running, make it current, activate it. *)
Definition run_next (s : sched) : res sched :=
  match ready_queue s with
  | [] => Panicked NoTaskToRun
  | next_id :: q =>
      next_idx <- index_of (set_ready q s) next_id ;;
      activate (set_current (Some next_id) (set_state (set_ready q s) next_idx Running))
        next_idx
  end.

(** [scheduler::spawn] *)
Definition spawn (s : sched) (t : task) : sched * Z :=
  (set_tasks (tasks s ++ [t]) (set_ready (ready_queue s ++ [tid t]) s), tid t).

Definition current_id (s : sched) : option Z := current s.

Definition current_page_dir_phys (s : sched) : res Z :=
  id <- expect NoCurrentTask (current s) ;;
  idx <- index_of s id ;;
  t <- task_at s idx ;;
  Ok (page_dir_phys t).

(** [install_cap_for]: the new state and the slot. *)
Definition install_cap_for (s : sched) (task_id node : Z) : res (sched * Z) :=
  idx <- index_of s task_id ;;
  t <- task_at s idx ;;
  let (c, slot) := cspace_install (tcspace t) node in
  Ok (set_tasks (<[idx := with_cspace c t]> (tasks s)) s, slot).

Definition current_cspace_install (s : sched) (node : Z) : res (sched * Z) :=
  id <- expect NoCurrentTask (current s) ;; install_cap_for s id node.

Definition current_cspace_get (s : sched) (slot : Z) : res (option Z) :=
  id <- expect NoCurrentTask (current s) ;;
  idx <- index_of s id ;;
  t <- task_at s idx ;;
  Ok (cspace_get (tcspace t) slot).

(** [scheduler::start] up to its [switch_to]. *)
Definition start (s : sched) : res sched := run_next s.

(** [scheduler::tick] *)
Definition tick (s : sched) : res sched :=
  match current s, ready_queue s with
  | Some current_id, _ :: _ =>
      current_idx <- index_of s current_id ;;
      run_next (set_state (set_ready (ready_queue s ++ [current_id]) s) current_idx Ready)
  | _, _ => Ok s
  end.

Definition yield_now (s : sched) : res sched := tick s.

(** [scheduler::block_current] up to its [switch_to]. *)
Definition block_current (s : sched) : res sched :=
  current_id <- expect NoCurrentTask (current s) ;;
  current_idx <- index_of s current_id ;;
  run_next (set_state s current_idx Blocked).

(** [scheduler::wake] *)
Definition wake (s : sched) (task_id : Z) : res sched :=
  idx <- index_of s task_id ;;
  let s := set_state s idx Ready in
  Ok (set_ready (ready_queue s ++ [task_id]) s).

(** The first block of [exit_current]: the exiting id and the new state. *)
Definition exit_switch (s : sched) : res (sched * Z) :=
  current_id <- expect NoCurrentTask (current s) ;;
  current_idx <- index_of s current_id ;;
  s' <- run_next (set_state s current_idx Zombie) ;;
  Ok (s', current_id).

(** ** The context switch of task_asm.s *)

(** The registers [switch_to] pops, the flags, and where [ret] goes with the
    stack it leaves. *)
Record resumed := Resumed {
  r_edi : stack_word; r_esi : stack_word; r_ebx : stack_word; r_ebp : stack_word;
  r_eflags : stack_word; r_target : stack_word; r_stack : list stack_word
}.

(** The second half of [switch_to], run on the incoming task's stack. *)
Definition switch_to_pop (st : list stack_word) : option resumed :=
  match st with
  | edi :: esi :: ebx :: ebp :: eflags :: target :: rest =>
      Some (Resumed edi esi ebx ebp eflags target rest)
  | _ => None
  end.

(** The frame [iretd] consumes. *)
Record iret_frame := IretFrame {
  if_eip : stack_word; if_cs : Z; if_eflags : Z; if_esp : stack_word; if_ss : Z
}.

(** [enter_ring3]: its two cdecl arguments lie above the return slot. *)
Definition enter_ring3 (st : list stack_word) : option iret_frame :=
  match st with
  | _ :: entry_eip :: user_esp :: _ =>
      Some (IretFrame entry_eip 0x1B 0x202 user_esp 0x23)
  | _ => None
  end.

(** ** Specification vocabulary *)

(** Ids are given out in order, so task [id] is at position [id - 1]. *)
Definition task_of (s : sched) (id : Z) : option task := zget (tasks s) (id - 1).

Definition state_of (s : sched) (id : Z) : option task_state :=
  state <$> task_of s id.

Record ids_wf (s : sched) : Prop := {
  wf_ids : forall id t, task_of s id = Some t -> tid t = id;
  wf_next_id : next_id s = zlen (tasks s) + 1;
  wf_ports : forall id t, task_of s id = Some t -> Forall is_u16 (allowed_ports t);
  wf_io : io_perm_wf (io (scpu s))
}.

(** The processor runs the current task's address space, kernel stack and
    port permissions. *)
Definition cpu_wf (s : sched) : Prop :=
  forall id, current s = Some id ->
  exists t, task_of s id = Some t /\ cr3 (scpu s) = page_dir_phys t /\
    esp0_owner (scpu s) = id /\
    forall p, is_u16 p -> port_allowed (io (scpu s)) p = bool_decide (p ∈ allowed_ports t).

Record sched_wf (s : sched) : Prop := {
  wf_ids_wf : ids_wf s;
  wf_nodup : NoDup (ready_queue s);
  wf_ready : forall id, id ∈ ready_queue s <-> state_of s id = Some Ready;
  wf_running : forall id, state_of s id = Some Running <-> current s = Some id;
  wf_cpu : cpu_wf s
}.

(** [s'] is [s] with each task's state rewritten by [f] and nothing else of any
    task changed. *)
Definition restate (f : Z -> task_state -> task_state) (s s' : sched) : Prop :=
  next_id s' = next_id s /\
  forall id, task_of s' id = (fun t => with_task_state (f id (state t)) t) <$> task_of s id.

(** A state in which no task runs and the queue holds the ready tasks: what
    [run_next] starts from. *)
Record quiet (s : sched) : Prop := {
  q_ids : ids_wf s;
  q_nodup : NoDup (ready_queue s);
  q_ready : forall id, id ∈ ready_queue s <-> state_of s id = Some Ready;
  q_none : forall id, state_of s id <> Some Running
}.

(** ** Lookup and update *)

Lemma task_of_pos s id t : task_of s id = Some t -> 1 <= id.
Proof. intros H%zget_Some. lia. Qed.

Lemma task_of_lookup s id t :
  task_of s id = Some t <-> 1 <= id /\ tasks s !! Z.to_nat (id - 1) = Some t.
Proof. unfold task_of. rewrite zget_lookup. split; intros [? ?]; split; done || lia. Qed.

Lemma index_of_ok s id t :
  ids_wf s -> task_of s id = Some t -> index_of s id = Ok (Z.to_nat (id - 1)).
Proof.
  intros W Ht. unfold index_of. pose proof (wf_ids _ W _ _ Ht) as E.
  apply task_of_lookup in Ht as [? Hl].
  rewrite (position_first _ _ (Z.to_nat (id - 1)) t); [done|done|by apply Z.eqb_eq|].
  intros m y Hm Hy. apply Z.eqb_neq.
  assert (T : task_of s (Z.of_nat m + 1) = Some y).
  { apply task_of_lookup. split; [lia|]. rewrite <- Hy. f_equal. lia. }
  apply (wf_ids _ W) in T. lia.
Qed.

Lemma task_at_ok s id t :
  task_of s id = Some t -> task_at s (Z.to_nat (id - 1)) = Ok t.
Proof. intros [_ H]%task_of_lookup. unfold task_at. by rewrite H. Qed.

Lemma task_of_alter s id f id' :
  1 <= id ->
  task_of (set_tasks (alter f (Z.to_nat (id - 1)) (tasks s)) s) id' =
  if decide (id' = id) then f <$> task_of s id' else task_of s id'.
Proof.
  intros Hid. apply option_eq. intros t. rewrite task_of_lookup. cbn [tasks set_tasks].
  case_decide as E.
  - subst id'. rewrite list_lookup_alter_eq. rewrite !fmap_Some.
    setoid_rewrite task_of_lookup. naive_solver.
  - rewrite task_of_lookup. split; intros [? H]; (split; [done|]);
      [rewrite list_lookup_alter_ne in H by lia|rewrite list_lookup_alter_ne by lia]; done.
Qed.

Lemma task_of_set_state s id st id' :
  1 <= id ->
  task_of (set_state s (Z.to_nat (id - 1)) st) id' =
  if decide (id' = id) then with_task_state st <$> task_of s id' else task_of s id'.
Proof. apply task_of_alter. Qed.

Lemma state_of_set_state s id st id' t :
  task_of s id = Some t ->
  state_of (set_state s (Z.to_nat (id - 1)) st) id' =
  if decide (id' = id) then Some st else state_of s id'.
Proof.
  intros Ht. unfold state_of. rewrite task_of_set_state by (by eapply task_of_pos).
  case_decide; [subst|done]. by rewrite Ht.
Qed.

Lemma ids_wf_tasks s s' :
  ids_wf s ->
  next_id s' = next_id s -> zlen (tasks s') = zlen (tasks s) ->
  io_perm_wf (io (scpu s')) ->
  (forall id t', task_of s' id = Some t' ->
     exists t, task_of s id = Some t /\ tid t' = tid t /\ allowed_ports t' = allowed_ports t) ->
  ids_wf s'.
Proof.
  intros [W1 W2 W3 _] N L I H. split; [| congruence | |done].
  - intros id t' Ht'. destruct (H _ _ Ht') as (t & ? & -> & _). auto.
  - intros id t' Ht'. destruct (H _ _ Ht') as (t & ? & _ & ->). eauto.
Qed.

Lemma zlen_alter {A} (f : A -> A) i (l : list A) : zlen (alter f i l) = zlen l.
Proof. unfold zlen. by rewrite length_alter. Qed.

Lemma ids_wf_set_state s id st :
  1 <= id -> ids_wf s -> ids_wf (set_state s (Z.to_nat (id - 1)) st).
Proof.
  intros Hid W. eapply ids_wf_tasks; [done|done|apply zlen_alter|apply W|].
  intros id' t'. rewrite task_of_set_state by done. case_decide; [|by eauto].
  intros (t & -> & ->)%fmap_Some. eauto.
Qed.

(** ** [restate] *)

Lemma restate_state_of f s s' id :
  restate f s s' -> state_of s' id = f id <$> state_of s id.
Proof. intros [_ H]. unfold state_of. rewrite H. by destruct (task_of s id). Qed.

Lemma restate_task f s s' id t' :
  restate f s s' -> task_of s' id = Some t' ->
  exists t, task_of s id = Some t /\ tid t' = tid t /\ tcspace t' = tcspace t /\
    page_dir_phys t' = page_dir_phys t /\ allowed_ports t' = allowed_ports t /\
    stack t' = stack t.
Proof.
  intros [_ H]. rewrite H. intros (t & -> & ->)%fmap_Some. by exists t.
Qed.

Lemma restate_trans f g s1 s2 s3 :
  restate f s1 s2 -> restate g s2 s3 -> restate (fun id old => g id (f id old)) s1 s3.
Proof.
  intros [N1 H1] [N2 H2]. split; [congruence|]. intros id. rewrite H2, H1.
  by destruct (task_of s1 id).
Qed.

Lemma restate_ext f g s s' :
  (forall id old, state_of s id = Some old -> f id old = g id old) ->
  restate f s s' -> restate g s s'.
Proof.
  intros E [N H]. split; [done|]. intros id. rewrite H.
  destruct (task_of s id) as [t|] eqn:T; [|done]. cbn. do 2 f_equal. apply E.
  unfold state_of. by rewrite T.
Qed.

Lemma restate_set_state s id st t :
  task_of s id = Some t ->
  restate (fun i old => if decide (i = id) then st else old)
    s (set_state s (Z.to_nat (id - 1)) st).
Proof.
  intros Ht. split; [done|]. intros i.
  rewrite task_of_set_state by (by eapply task_of_pos). case_decide; [done|].
  destruct (task_of s i) as [u|]; [|done]. by destruct u.
Qed.

Lemma restate_id s : restate (fun _ old => old) s s.
Proof. split; [done|]. intros id. destruct (task_of s id) as [u|]; [|done]. by destruct u. Qed.

(** ** The switch *)

Definition switched (s : sched) (n : Z) (q : list Z) (t : task) : sched :=
  set_cpu (Cpu (page_dir_phys t) n (set_io_permissions (io (scpu s)) (allowed_ports t)))
    (set_current (Some n) (set_state (set_ready q s) (Z.to_nat (n - 1)) Running)).

Lemma run_next_eq s n q t :
  ids_wf s -> ready_queue s = n :: q -> task_of s n = Some t ->
  run_next s = Ok (switched s n q t).
Proof.
  intros W Q T. unfold run_next. rewrite Q.
  assert (Wq : ids_wf (set_ready q s)) by (by destruct W; split).
  rewrite (index_of_ok _ n t Wq T).
  assert (T' : task_of (set_state (set_ready q s) (Z.to_nat (n - 1)) Running) n
               = Some (with_task_state Running t)).
  { rewrite task_of_set_state by (by eapply task_of_pos).
    rewrite decide_True by done. change (task_of (set_ready q s) n) with (task_of s n).
    by rewrite T. }
  unfold activate. rewrite (task_at_ok (set_current _ _) n _ T').
  cbn [tid with_task_state page_dir_phys allowed_ports].
  by rewrite (wf_ids _ W _ _ T).
Qed.

Lemma switched_wf s n q t :
  quiet s -> ready_queue s = n :: q -> task_of s n = Some t -> sched_wf (switched s n q t).
Proof.
  intros [W ND R NR] Q T. pose proof (task_of_pos _ _ _ T) as P.
  assert (S : forall id, state_of (switched s n q t) id =
                if decide (id = n) then Some Running else state_of s id).
  { intros id. exact (state_of_set_state (set_ready q s) n Running id t T). }
  rewrite Q in ND, R. apply NoDup_cons in ND as [Hn ND]. split.
  - eapply ids_wf_tasks; [done|done|apply zlen_alter| |].
    + apply set_io_permissions_wf; [apply W|by eapply wf_ports].
    + intros id t' H. change (task_of (set_state (set_ready q s) (Z.to_nat (n - 1)) Running) id
        = Some t') in H. rewrite task_of_set_state in H by done.
      case_decide; [|by eauto]. apply fmap_Some in H as (u & ? & ->). by eauto.
  - done.
  - intros id. rewrite S. change (ready_queue (switched s n q t)) with q.
    specialize (R id). rewrite elem_of_cons in R. case_decide; [subst; by split|].
    rewrite <- R. split; [by right|by intros [?|?]].
  - intros id. rewrite S. change (current (switched s n q t)) with (Some n).
    case_decide; [by subst|]. split; [by intros ?%NR|congruence].
  - intros id. change (current (switched s n q t)) with (Some n). intros [= <-].
    exists (with_task_state Running t). split_and!; [|done|done|].
    + change (task_of (set_state (set_ready q s) (Z.to_nat (n - 1)) Running) n
        = Some (with_task_state Running t)).
      rewrite task_of_set_state by done. rewrite decide_True by done.
      change (task_of (set_ready q s) n) with (task_of s n). by rewrite T.
    + intros p Hp. apply set_io_permissions_allowed; [apply W|exact (wf_ports _ W _ _ T)|done].
Qed.

(** What a switch to the head of the queue does, from any quiet state. *)
Lemma run_next_spec s n q :
  quiet s -> ready_queue s = n :: q ->
  exists s', run_next s = Ok s' /\ sched_wf s' /\ current s' = Some n /\
    ready_queue s' = q /\ zlen (tasks s') = zlen (tasks s) /\
    restate (fun id old => if decide (id = n) then Running else old) s s'.
Proof.
  intros W Q. assert (Hr : state_of s n = Some Ready).
  { apply (q_ready _ W). rewrite Q. set_solver. }
  unfold state_of in Hr. apply fmap_Some in Hr as (t & T & _).
  exists (switched s n q t). split_and!; try done.
  - apply run_next_eq; [apply W|done|done].
  - by apply switched_wf.
  - apply zlen_alter.
  - exact (restate_set_state (set_ready q s) n Running t T).
Qed.

(** ** The operations, under the invariant *)

Section ops.
Context (s : sched) (W : sched_wf s).

Lemma current_task c : current s = Some c -> exists t, task_of s c = Some t /\ state t = Running.
Proof. intros H%(wf_running _ W). unfold state_of in H. apply fmap_Some in H as (t & ? & ?). eauto. Qed.

Lemma index_of_state id st :
  state_of s id = Some st -> index_of s id = Ok (Z.to_nat (id - 1)).
Proof.
  intros (t & T & _)%fmap_Some. eapply index_of_ok; [apply W|done].
Qed.

(** Taking the current task off the processor leaves a quiet state. *)
Lemma quiet_leave c st :
  current s = Some c -> st <> Ready -> st <> Running ->
  quiet (set_state s (Z.to_nat (c - 1)) st).
Proof.
  intros C H1 H2. destruct (current_task c C) as (t & T & St).
  assert (Sc : state_of s c = Some Running) by (by apply (wf_running _ W)).
  split.
  - apply ids_wf_set_state; [by eapply task_of_pos|apply W].
  - apply W.
  - intros id. rewrite (state_of_set_state s c st id t T).
    change (id ∈ ready_queue s <-> (if decide (id = c) then Some st else state_of s id) = Some Ready).
    rewrite (wf_ready _ W). case_decide; [subst; split; congruence|done].
  - intros id. rewrite (state_of_set_state s c st id t T). case_decide; [congruence|].
    rewrite (wf_running _ W). congruence.
Qed.

(** Likewise when it goes to the back of the queue. *)
Lemma quiet_requeue c :
  current s = Some c ->
  quiet (set_state (set_ready (ready_queue s ++ [c]) s) (Z.to_nat (c - 1)) Ready).
Proof.
  intros C. destruct (current_task c C) as (t & T & St).
  assert (Sc : state_of s c = Some Running) by (by apply (wf_running _ W)).
  set (s1 := set_ready (ready_queue s ++ [c]) s).
  assert (S : forall id, state_of (set_state s1 (Z.to_nat (c - 1)) Ready) id =
                if decide (id = c) then Some Ready else state_of s id).
  { intros id. exact (state_of_set_state s1 c Ready id t T). }
  assert (Nc : c ∉ ready_queue s) by (rewrite (wf_ready _ W), Sc; done).
  split.
  - apply ids_wf_set_state; [by eapply task_of_pos|]. by destruct (wf_ids_wf _ W); split.
  - cbn. apply NoDup_app. split_and!; [apply W|set_solver|apply NoDup_singleton].
  - intros id. rewrite S. cbn. rewrite elem_of_app, (wf_ready _ W), list_elem_of_singleton.
    case_decide; [subst; split; auto|]. split; [by intros [?|?]|auto].
  - intros id. rewrite S. case_decide; [done|]. rewrite (wf_running _ W). congruence.
Qed.

(** The current task leaves in state [st] and the head of the queue runs. *)
Lemma leave_spec c st n q :
  current s = Some c -> ready_queue s = n :: q -> st <> Ready -> st <> Running ->
  exists s', run_next (set_state s (Z.to_nat (c - 1)) st) = Ok s' /\ sched_wf s' /\
    current s' = Some n /\ ready_queue s' = q /\ zlen (tasks s') = zlen (tasks s) /\
    restate (fun id old => if decide (id = c) then st
                           else if decide (id = n) then Running else old) s s'.
Proof.
  intros C Q H1 H2. destruct (current_task c C) as (t & T & St).
  destruct (run_next_spec _ n q (quiet_leave c st C H1 H2))
    as (s' & -> & W' & C' & Q' & L' & R'); [done|].
  exists s'. split_and!; try done; [by rewrite L'; apply zlen_alter|].
  eapply restate_ext; [|eapply restate_trans; [by eapply restate_set_state|exact R']].
  intros id old Ho. cbn. destruct (decide (id = c)); [subst|done].
  rewrite decide_False; [done|]. intros ->.
  assert (state_of s n = Some Ready) by (apply W; rewrite Q; set_solver).
  apply (wf_running _ W) in C. congruence.
Qed.

Lemma block_current_spec c n q :
  current s = Some c -> ready_queue s = n :: q ->
  exists s', block_current s = Ok s' /\ sched_wf s' /\ current s' = Some n /\
    ready_queue s' = q /\ zlen (tasks s') = zlen (tasks s) /\
    restate (fun id old => if decide (id = c) then Blocked
                           else if decide (id = n) then Running else old) s s'.
Proof.
  intros C Q. unfold block_current. rewrite C. cbn [expect].
  rewrite (index_of_state c Running) by (by apply (wf_running _ W)).
  by apply leave_spec.
Qed.

Lemma exit_switch_spec c n q :
  current s = Some c -> ready_queue s = n :: q ->
  exists s', exit_switch s = Ok (s', c) /\ sched_wf s' /\ current s' = Some n /\
    ready_queue s' = q /\ zlen (tasks s') = zlen (tasks s) /\
    restate (fun id old => if decide (id = c) then Zombie
                           else if decide (id = n) then Running else old) s s'.
Proof.
  intros C Q. unfold exit_switch. rewrite C. cbn [expect].
  rewrite (index_of_state c Running) by (by apply (wf_running _ W)).
  destruct (leave_spec c Zombie n q C Q) as (s' & -> & H); [done|done|]. by exists s'.
Qed.

Lemma tick_spec c n q :
  current s = Some c -> ready_queue s = n :: q ->
  exists s', tick s = Ok s' /\ sched_wf s' /\ current s' = Some n /\
    ready_queue s' = q ++ [c] /\ zlen (tasks s') = zlen (tasks s) /\
    restate (fun id old => if decide (id = n) then Running
                           else if decide (id = c) then Ready else old) s s'.
Proof.
  intros C Q. destruct (current_task c C) as (t & T & St).
  unfold tick. rewrite C, Q. rewrite (index_of_ok s c t) by (done || apply W).
  rewrite <- Q.
  destruct (run_next_spec _ n (q ++ [c]) (quiet_requeue c C))
    as (s' & -> & W' & C' & Q' & L' & R'); [cbn; by rewrite Q|].
  exists s'. split_and!; try done; [by rewrite L'; apply zlen_alter|].
  exact (restate_trans _ _ _ _ _
    (restate_set_state (set_ready (ready_queue s ++ [c]) s) c Ready t T) R').
Qed.

Lemma tick_idle : current s = None \/ ready_queue s = [] -> tick s = Ok s.
Proof. unfold tick. intros [-> | ->]; [done|]. by destruct (current s). Qed.

Lemma wake_spec id :
  state_of s id = Some Blocked ->
  exists s', wake s id = Ok s' /\ sched_wf s' /\ current s' = current s /\
    ready_queue s' = ready_queue s ++ [id] /\ zlen (tasks s') = zlen (tasks s) /\
    restate (fun i old => if decide (i = id) then Ready else old) s s'.
Proof.
  intros B. unfold wake. rewrite (index_of_state _ _ B).
  pose proof B as (t & T & _)%fmap_Some.
  set (s1 := set_state s (Z.to_nat (id - 1)) Ready).
  set (s2 := set_ready (ready_queue s1 ++ [id]) s1).
  assert (S : forall i, state_of s2 i = if decide (i = id) then Some Ready else state_of s i).
  { intros i. exact (state_of_set_state s id Ready i t T). }
  assert (Nid : id ∉ ready_queue s) by (rewrite (wf_ready _ W), B; done).
  exists s2. split_and!; try done; [|apply zlen_alter|exact (restate_set_state s id Ready t T)].
  split.
  - pose proof (ids_wf_set_state s id Ready (task_of_pos _ _ _ T) (wf_ids_wf _ W)) as [].
    by split.
  - cbn. apply NoDup_app. split_and!; [apply W|set_solver|apply NoDup_singleton].
  - intros i. rewrite S. cbn. rewrite elem_of_app, (wf_ready _ W), list_elem_of_singleton.
    case_decide; [subst; split; auto|]. split; [by intros [?|?]|auto].
  - intros i. rewrite S. change (current s2) with (current s). case_decide; [subst|apply W].
    split; [done|]. intros C%(wf_running _ W). congruence.
  - intros i C. change (current s2) with (current s) in C.
    destruct (wf_cpu _ W i C) as (u & U & H). apply (wf_running _ W) in C.
    exists u. split; [|done]. change (task_of s1 i = Some u). unfold s1.
    rewrite task_of_set_state by (by eapply task_of_pos).
    rewrite decide_False by congruence. done.
Qed.

(** [alloc_task_id] followed by [spawn], as every caller does. *)
Lemma spawn_spec mk :
  next_id s < U32_MAX ->
  (forall id, tid (mk id) = id /\ state (mk id) = Ready /\ Forall is_u16 (allowed_ports (mk id))) ->
  let (s0, id) := alloc_task_id s in
  let (s', r) := spawn s0 (mk id) in
  r = next_id s /\ sched_wf s' /\ current s' = current s /\
  ready_queue s' = ready_queue s ++ [next_id s] /\ next_id s' = next_id s + 1 /\
  scpu s' = scpu s /\
  forall i, task_of s' i = if decide (i = next_id s) then Some (mk (next_id s)) else task_of s i.
Proof.
  intros B M. cbn. destruct (M (next_id s)) as (M1 & M2 & M3).
  pose proof (wf_ids_wf _ W) as [I1 I2 I3 I4]. pose proof (zlen_nonneg (tasks s)) as Z0.
  assert (T : forall i, zget (tasks s ++ [mk (next_id s)]) (i - 1) =
              if decide (i = next_id s) then Some (mk (next_id s)) else task_of s i).
  { intros i. rewrite zget_snoc. unfold task_of. destruct (decide (i = next_id s)), (decide (i - 1 = zlen (tasks s))); try done; lia. }
  assert (Nw : task_of s (next_id s) = None) by (apply zget_out; lia).
  assert (wrap32 (next_id s + 1) = next_id s + 1) as Hw.
  { unfold wrap. apply Z.mod_small. unfold U32_MAX in B. lia. }
  split_and!; try done; [|by rewrite M1]. split; [split|..].
  - intros i t. unfold task_of. cbn. rewrite T. case_decide; [|by apply I1].
    intros [= <-]. congruence.
  - cbn. rewrite Hw, zlen_snoc. lia.
  - intros i t. unfold task_of. cbn. rewrite T. case_decide; [|by apply I3].
    by intros [= <-].
  - done.
  - cbn. rewrite M1. apply NoDup_app. split_and!; [apply W| |apply NoDup_singleton].
    intros i Hi Hn. apply list_elem_of_singleton in Hn as ->.
    apply (wf_ready _ W) in Hi. unfold state_of in Hi. by rewrite Nw in Hi.
  - intros i. cbn. rewrite M1, elem_of_app, list_elem_of_singleton, (wf_ready _ W).
    unfold state_of, task_of at 2. cbn. rewrite T. case_decide; [|split; [by intros [?|?]|auto]].
    subst. cbn. rewrite M2. split; auto.
  - intros i. unfold state_of, task_of. cbn. rewrite T. case_decide.
    + cbn. rewrite M2. split; [done|]. intros C%(wf_running _ W). unfold state_of in C.
      subst. by rewrite Nw in C.
    + apply W.
  - intros i C. cbn in C. destruct (wf_cpu _ W i C) as (u & U & H). exists u.
    split; [|done]. unfold task_of. cbn. rewrite T. case_decide; [congruence|done].
Qed.

Lemma install_cap_for_spec id node t :
  task_of s id = Some t ->
  exists s', install_cap_for s id node = Ok (s', zlen (slots (tcspace t))) /\ sched_wf s' /\
    current s' = current s /\ ready_queue s' = ready_queue s /\ next_id s' = next_id s /\
    scpu s' = scpu s /\ (forall i, state_of s' i = state_of s i) /\
    forall i, task_of s' i =
      if decide (i = id) then Some (with_cspace (cspace_install (tcspace t) node).1 t)
      else task_of s i.
Proof.
  intros T. pose proof (task_of_pos _ _ _ T) as P. unfold install_cap_for.
  rewrite (index_of_ok s id t) by (done || apply W). rewrite (task_at_ok s id t T).
  destruct (cspace_install (tcspace t) node) as [c slot] eqn:E.
  pose proof (cspace_install_slot (tcspace t) node) as Es. rewrite E in Es. cbn in Es. subst slot.
  set (s' := set_tasks (<[Z.to_nat (id - 1) := with_cspace c t]> (tasks s)) s).
  assert (H : forall i, task_of s' i = if decide (i = id) then Some (with_cspace c t) else task_of s i).
  { intros i. pose proof (proj2 (proj1 (task_of_lookup _ _ _) T)) as L.
    apply option_eq. intros u. rewrite task_of_lookup. cbn. case_decide; [subst|].
    - rewrite list_lookup_insert_eq by (by eapply lookup_lt_Some). naive_solver.
    - rewrite task_of_lookup. split; intros [? X]; (split; [done|]);
        [rewrite list_lookup_insert_ne in X by lia|rewrite list_lookup_insert_ne by lia]; done. }
  assert (S : forall i, state_of s' i = state_of s i).
  { intros i. unfold state_of. rewrite H. case_decide; [subst|done]. by rewrite T. }
  exists s'. split_and!; try done. split.
  - eapply ids_wf_tasks; [apply W|done| |apply W|].
    + unfold zlen. cbn. by rewrite length_insert.
    + intros i u. rewrite H. case_decide; [|by eauto]. intros [= <-]. subst. by exists t.
  - apply W.
  - intros i. rewrite S. apply W.
  - intros i. rewrite S. apply W.
  - intros i C. destruct (wf_cpu _ W i C) as (u & U & X).
    rewrite H. case_decide; [|by eauto]. subst. rewrite T in U. injection U as <-.
    by eexists.
Qed.
End ops.

Lemma sched_init_wf pd : sched_wf (sched_init pd).
Proof.
  assert (T : forall id, task_of (sched_init pd) id = None) by (intros id; apply zget_nil).
  split; try done.
  - split; cbn; try done; [by intros id t; rewrite T|by intros id t; rewrite T|].
    apply io_perm_initial_wf.
  - constructor.
  - intros id. unfold state_of. rewrite T. split; [set_solver|done].
  - intros id. unfold state_of. by rewrite T.
Qed.

(** [scheduler::start] on a state with a ready task and none running. *)
Lemma start_wf s n q :
  sched_wf s -> current s = None -> ready_queue s = n :: q ->
  exists s', start s = Ok s' /\ sched_wf s' /\ current s' = Some n /\ ready_queue s' = q.
Proof.
  intros W C Q. assert (Qt : quiet s).
  { destruct W as [w1 w2 w3 w4 w5]. split; try done. intros id. by rewrite w4, C. }
  destruct (run_next_spec s n q Qt Q) as (s' & ? & ? & ? & ? & _). by exists s'.
Qed.

Lemma state_of_map s id : state_of s id = zget (map state (tasks s)) (id - 1).
Proof.
  unfold state_of, task_of, zget, zlen. rewrite length_map. case_match; [|done].
  by rewrite list_lookup_fmap.
Qed.

(** ** Theorems *)

(** [n] timer ticks, one after the other. *)
Fixpoint ticks (n : nat) (s : sched) : res sched :=
  match n with
  | O => Ok s
  | S n' => s' <- tick s ;; ticks n' s'
  end.

Lemma ticks_rotate q1 : forall s c x q2,
  sched_wf s -> current s = Some c -> ready_queue s = q1 ++ x :: q2 ->
  exists s', ticks (S (length q1)) s = Ok s' /\ sched_wf s' /\ current s' = Some x /\
    ready_queue s' = q2 ++ c :: q1.
Proof.
  induction q1 as [|y q1 IH]; intros s c x q2 W C Q.
  - destruct (tick_spec s W c x q2 C Q) as (s' & E & W' & C' & Q' & _).
    exists s'. cbn [ticks length]. by rewrite E.
  - destruct (tick_spec s W c y (q1 ++ x :: q2) C Q) as (s1 & E & W1 & C1 & Q1 & _).
    rewrite <- app_assoc in Q1.
    destruct (IH s1 y x (q2 ++ [c]) W1 C1 Q1) as (s' & E' & W' & C' & Q').
    exists s'. split_and!; [|done|done|by rewrite Q', <- app_assoc].
    cbn [ticks length]. rewrite E. exact E'.
Qed.

(** C29: round robin.  The task at position [k] of the ready queue runs after exactly
    [k + 1] timer ticks, however many tasks there are, and the queue has then rotated:
    the tasks behind it, the task that was running, the tasks that were ahead of it. *)
Theorem round_robin s c x q1 q2 :
  sched_wf s -> current s = Some c -> ready_queue s = q1 ++ x :: q2 ->
  exists s', ticks (S (length q1)) s = Ok s' /\ sched_wf s' /\ current s' = Some x /\
    ready_queue s' = q2 ++ c :: q1.
Proof. apply ticks_rotate. Qed.

Definition ex_task (id : Z) : task := new_user id 0x400000 0x800000 (4096 * id) [0x60].

(** Three tasks spawned and started. *)
Definition ex_spawn (s : sched) : sched :=
  let (s, id) := alloc_task_id s in (spawn s (ex_task id)).1.

Definition ex_sched : sched :=
  match start (ex_spawn (ex_spawn (ex_spawn (sched_init 4096)))) with
  | Ok s => s
  | Panicked _ => sched_init 4096
  end.

Lemma ex_spawn_wf s : sched_wf s -> next_id s < U32_MAX -> sched_wf (ex_spawn s).
Proof.
  intros W Hn. pose proof (spawn_spec s W ex_task Hn) as H. cbn in H.
  destruct H as (_ & H & _); [|done]. intros id. split_and!; try done. repeat constructor; unfold is_u16; lia.
Qed.

Lemma ex_sched_wf : sched_wf ex_sched.
Proof.
  destruct (start_wf (ex_spawn (ex_spawn (ex_spawn (sched_init 4096)))) 1 [2; 3]) as (s & E & W & _).
  - repeat apply ex_spawn_wf; [apply sched_init_wf|done|done|done].
  - done.
  - done.
  - unfold ex_sched. by rewrite E.
Qed.

Lemma round_robin_witness :
  exists s', ticks 2 ex_sched = Ok s' /\ sched_wf s' /\ current s' = Some 3 /\ ready_queue s' = [1; 2].
Proof. apply (round_robin ex_sched 1 3 [2] []); [apply ex_sched_wf|reflexivity|reflexivity]. Defined.

(** A selector for a ring-3 segment of the kernel's GDT that spans all memory. *)
Definition ring3_selector (sel : Z) : Prop :=
  sel mod 4 = 3 /\
  forall tss_base tss_limit, exists e, zget (Gdt.GDT tss_base tss_limit) (sel / 8) = Some e /\
    Gdt.entry_dpl e = 3 /\ Gdt.entry_base e = 0 /\ Gdt.entry_limit e = 0xFFFFF.

(** a new ring-3 task starts in ring 3 with interrupts on: the words [new_user]
    leaves on its kernel stack make [switch_to] return into [enter_ring3], whose
    [iretd] enters the program's entry point on its own stack, with the interrupt flag
    set and selectors that name ring-3 segments of the GDT. *)
Theorem new_user_first_entry id entry_eip user_esp pd ports :
  exists r f, switch_to_pop (stack (new_user id entry_eip user_esp pd ports)) = Some r /\
    r_target r = EnterRing3 /\ enter_ring3 (r_stack r) = Some f /\
    if_eip f = Word entry_eip /\ if_esp f = Word user_esp /\
    Z.testbit (if_eflags f) 9 = true /\ ring3_selector (if_cs f) /\ ring3_selector (if_ss f).
Proof.
  do 2 eexists. split; [reflexivity|]. split; [reflexivity|]. split; [reflexivity|].
  do 3 (split; [reflexivity|]).
  split; (split; [reflexivity|]); intros; eexists; (split; [reflexivity|]); by split_and!.
Qed.
