(* ===== verification/Frame.v ===== *)
(** * The physical frame allocator (kernel/src/mm/frame.rs)

    The bitmap is the byte vector of the code; every access is the bounds-checked
    index of the code, so an access outside it is a panic value.  Theorems:
    every loop runs inside the bitmap; [alloc_frame] returns the lowest free
    frame and [alloc_frames_contiguous] the lowest run of free frames, both
    complete ([None] only when there is none); what each operation does to
    every other frame. *)

From stdpp Require Import base list numbers.
From Stdlib Require Import Lia.
From S2P Require Import Prelude Hw.
Open Scope Z_scope.

Definition FRAME_SIZE : Z := 4096.

(** [struct Bitmap] *)
Record bitmap := Bitmap { bits : list Z; frame_count : Z }.

(** [Bitmap::is_used] *)
Definition is_used (b : bitmap) (frame : Z) : res bool :=
  byte <- bget (bits b) (frame / 8) ;;
  Ok (negb (Z.land byte (Z.shiftl 1 (frame mod 8)) =? 0)).

(** [Bitmap::set_used] *)
Definition set_used (b : bitmap) (frame : Z) (used : bool) : res bitmap :=
  byte <- bget (bits b) (frame / 8) ;;
  let byte' := if used then Z.lor byte (Z.shiftl 1 (frame mod 8))
               else Z.land byte (Z.lxor 0xFF (Z.shiftl 1 (frame mod 8))) in
  Ok (Bitmap (zset (bits b) (frame / 8) byte') (frame_count b)).

(** [for f in first..first + n { set_used(f, used) }] *)
Fixpoint set_used_range (n : nat) (b : bitmap) (first : Z) (used : bool) : res bitmap :=
  match n with
  | O => Ok b
  | S n' => b' <- set_used b first used ;; set_used_range n' b' (first + 1) used
  end.

(** [frame::init]; [kernel_end_phys] is the linker's symbol. *)
Definition frame_init (kernel_end_phys total_memory_bytes : Z) : res bitmap :=
  let count := total_memory_bytes / FRAME_SIZE in
  let b := Bitmap (replicate (Z.to_nat ((count + 7) / 8)) 0) count in
  let reserved_up_to_frame := div_ceil kernel_end_phys FRAME_SIZE in
  set_used_range (Z.to_nat (Z.min reserved_up_to_frame count)) b 0 true.

(** [frame::reserve_range] on an initialised allocator. *)
Definition reserve_range (b : bitmap) (start end_ : Z) : res bitmap :=
  let first := start / FRAME_SIZE in
  let last := Z.min (div_ceil end_ FRAME_SIZE) (frame_count b) in
  set_used_range (Z.to_nat (last - first)) b first true.

(** The scan of [alloc_frame] over the [n] frames from [frame] on. *)
Fixpoint alloc_scan (n : nat) (b : bitmap) (frame : Z) : res (bitmap * option Z) :=
  match n with
  | O => Ok (b, None)
  | S n' =>
      used <- is_used b frame ;;
      if used : bool then alloc_scan n' b (frame + 1)
      else b' <- set_used b frame true ;; Ok (b', Some (frame * FRAME_SIZE))
  end.

Definition alloc_frame (b : bitmap) : res (bitmap * option Z) :=
  alloc_scan (Z.to_nat (frame_count b)) b 0.

Definition free_frame (b : bitmap) (phys_addr : Z) : res bitmap :=
  set_used b (phys_addr / FRAME_SIZE) false.

(** The scan of [alloc_frames_contiguous], with its two loop variables. *)
Fixpoint contiguous_scan (n : nat) (b : bitmap) (frame count run_start run_len : Z)
  : res (bitmap * option Z) :=
  match n with
  | O => Ok (b, None)
  | S n' =>
      used <- is_used b frame ;;
      if used : bool then contiguous_scan n' b (frame + 1) count (frame + 1) 0
      else
        let run_len := run_len + 1 in
        if run_len =? count then
          b' <- set_used_range (Z.to_nat count) b run_start true ;;
          Ok (b', Some (run_start * FRAME_SIZE))
        else contiguous_scan n' b (frame + 1) count run_start run_len
  end.

Definition alloc_frames_contiguous (b : bitmap) (count : Z) : res (bitmap * option Z) :=
  if count =? 0 then Ok (b, None)
  else contiguous_scan (Z.to_nat (frame_count b)) b 0 count 0 0.

Definition free_frames_contiguous (b : bitmap) (phys_addr count : Z) : res bitmap :=
  set_used_range (Z.to_nat count) b (phys_addr / FRAME_SIZE) false.

(** ** Specification vocabulary *)

(** The allocator's contents: which frames are in use. *)
Definition used (b : bitmap) (frame : Z) : bool :=
  Z.testbit (byte_at (bits b) (frame / 8)) (frame mod 8).

Record bitmap_wf (b : bitmap) : Prop := {
  wf_bits : zlen (bits b) = (frame_count b + 7) / 8;
  wf_count : 0 <= frame_count b <= 2 ^ 20
}.

(** [b'] is [b] with exactly the frames of [P] set to [u]. *)
Definition updates (b b' : bitmap) (P : Z -> Prop) (u : bool) : Prop :=
  frame_count b' = frame_count b /\ bitmap_wf b' /\
  forall f, 0 <= f ->
    (P f -> used b' f = u) /\ (~ P f -> used b' f = used b f).

Definition free_run (b : bitmap) (start count : Z) : Prop :=
  0 <= start /\ start + count <= frame_count b /\
  forall f, start <= f < start + count -> used b f = false.

(** ** Lemmas *)

Section wf.
Context (b : bitmap) (W : bitmap_wf b).

Lemma byte_in_range f : 0 <= f < frame_count b -> 0 <= f / 8 < zlen (bits b).
Proof. intros. rewrite (wf_bits _ W). dlia. Qed.

Lemma bget_frame f :
  0 <= f < frame_count b -> bget (bits b) (f / 8) = Ok (byte_at (bits b) (f / 8)).
Proof.
  intros H%byte_in_range. unfold bget.
  replace (0 <=? f / 8) with true by lia. by replace (f / 8 <? zlen (bits b)) with true by lia.
Qed.

Lemma is_used_ok f : 0 <= f < frame_count b -> is_used b f = Ok (used b f).
Proof.
  intros H. unfold is_used. rewrite bget_frame by done.
  rewrite land_bit_testbit by dlia. done.
Qed.

Lemma set_used_ok f u :
  0 <= f < frame_count b ->
  exists b', set_used b f u = Ok b' /\ updates b b' (fun i => i = f) u.
Proof.
  intros H. unfold set_used. rewrite bget_frame by done. eexists. split; [done|].
  pose proof (byte_in_range f H) as R. split_and!; [done| |].
  { split; cbn; [by rewrite zlen_zset, (wf_bits _ W)|apply W]. }
  intros i Hi. unfold used. cbn [bits]. rewrite byte_at_zset by (done || dlia).
  split.
  - intros ->. rewrite decide_True by done. destruct u.
    + rewrite testbit_set by dlia. by rewrite Z.eqb_refl, orb_true_r.
    + rewrite testbit_clear by dlia. by rewrite Z.eqb_refl, andb_false_r.
  - intros Hne. case_decide as E; [|done]. rewrite E.
    assert ((f mod 8 =? i mod 8) = false) as Hk by (apply Z.eqb_neq; dlia).
    destruct u; [rewrite testbit_set by dlia|rewrite testbit_clear by dlia];
      rewrite Hk; [apply orb_false_r|apply andb_true_r].
Qed.
End wf.

Lemma updates_refl b P u : bitmap_wf b -> (forall f, 0 <= f -> ~ P f) -> updates b b P u.
Proof. intros W N. split_and!; [done|done|]. intros f Hf. split; [by intros ?%N|done]. Qed.

Lemma updates_trans b1 b2 b3 P Q R u :
  updates b1 b2 P u -> updates b2 b3 Q u ->
  (forall f, 0 <= f -> R f <-> P f \/ Q f) -> updates b1 b3 R u.
Proof.
  intros (C1 & W1 & H1) (C2 & W2 & H2) E. split_and!; [congruence|done|].
  intros f Hf. specialize (H1 f Hf) as [A1 B1]. specialize (H2 f Hf) as [A2 B2].
  specialize (E f Hf). split.
  - intros Hr. destruct (decide (used b3 f = u)) as [|Hne]; [done|].
    destruct (proj1 E Hr) as [Hp|Hq]; [|by auto].
    destruct (decide (used b3 f = used b2 f)) as [->|]; [by auto|].
    exfalso. assert (~ Q f) by (intros ?; by apply Hne, A2). by rewrite B2 in *.
  - intros Hr. rewrite B2, B1 by tauto. done.
Qed.

Lemma set_used_range_ok n b first u :
  bitmap_wf b -> 0 <= first -> first + Z.of_nat n <= frame_count b ->
  exists b', set_used_range n b first u = Ok b' /\
    updates b b' (fun i => first <= i < first + Z.of_nat n) u.
Proof.
  revert b first. induction n as [|n IH]; intros b first W Hf Hn.
  { exists b. split; [done|]. apply updates_refl; [done|]. lia. }
  cbn [set_used_range].
  destruct (set_used_ok b W first u) as (b1 & -> & U1); [lia|].
  destruct (IH b1 (first + 1)) as (b2 & -> & U2); [apply U1|lia|destruct U1 as [-> _]; lia|].
  exists b2. split; [done|]. eapply updates_trans; [exact U1|exact U2|]. cbn. lia.
Qed.

Lemma alloc_scan_ok n b frame :
  bitmap_wf b -> 0 <= frame -> frame + Z.of_nat n <= frame_count b ->
  exists b' o, alloc_scan n b frame = Ok (b', o) /\
  match o with
  | None => b' = b /\ forall f, frame <= f < frame + Z.of_nat n -> used b f = true
  | Some a => exists f, a = f * FRAME_SIZE /\ frame <= f < frame + Z.of_nat n /\
      used b f = false /\ (forall g, frame <= g < f -> used b g = true) /\
      updates b b' (fun i => i = f) true
  end.
Proof.
  intros W. revert frame. induction n as [|n IH]; intros frame Hf Hn; cbn [alloc_scan].
  { exists b, None. split_and!; [done|done|lia]. }
  rewrite (is_used_ok b W) by lia. destruct (used b frame) eqn:U.
  - destruct (IH (frame + 1)) as (b' & o & -> & H); [lia|lia|]. exists b', o. split; [done|].
    destruct o as [a|].
    + destruct H as (f & -> & ? & ? & H & ?). exists f. split_and!; try done; try lia.
      intros g Hg. destruct (decide (g = frame)) as [->|]; [done|]. apply H. lia.
    + destruct H as [-> H]. split; [done|]. intros f Hg.
      destruct (decide (f = frame)) as [->|]; [done|]. apply H. lia.
  - destruct (set_used_ok b W frame true) as (b' & -> & Ub); [lia|].
    exists b', (Some (frame * FRAME_SIZE)). split; [done|].
    exists frame. split_and!; try done; lia.
Qed.

(** The contract of [alloc_frame]. *)
Lemma alloc_frame_ok b :
  bitmap_wf b ->
  exists b' o, alloc_frame b = Ok (b', o) /\
  match o with
  | None => b' = b /\ forall f, 0 <= f < frame_count b -> used b f = true
  | Some a => exists f, a = f * FRAME_SIZE /\ 0 <= f < frame_count b /\
      used b f = false /\ (forall g, 0 <= g < f -> used b g = true) /\
      updates b b' (fun i => i = f) true
  end.
Proof.
  intros W. unfold alloc_frame. pose proof (wf_count _ W) as C.
  destruct (alloc_scan_ok (Z.to_nat (frame_count b)) b 0 W) as (b' & o & -> & H);
    [lia|lia|]. exists b', o. split; [done|].
  replace (0 + Z.of_nat (Z.to_nat (frame_count b))) with (frame_count b) in H by lia.
  done.
Qed.

Section contiguous.
Context (b : bitmap) (count : Z) (W : bitmap_wf b) (Hcount : 0 < count).

Lemma contiguous_scan_ok n frame run_start run_len :
  frame + Z.of_nat n = frame_count b -> 0 <= run_start -> 0 <= run_len < count ->
  run_start + run_len = frame ->
  (forall f, run_start <= f < frame -> used b f = false) ->
  (forall s, s < run_start -> ~ free_run b s count) ->
  exists b' o, contiguous_scan n b frame count run_start run_len = Ok (b', o) /\
  match o with
  | None => b' = b /\ forall s, ~ free_run b s count
  | Some a => exists s, a = s * FRAME_SIZE /\ free_run b s count /\
      (forall s', s' < s -> ~ free_run b s' count) /\
      updates b b' (fun i => s <= i < s + count) true
  end.
Proof.
  revert frame run_start run_len. induction n as [|n IH];
    intros frame run_start run_len Hn Hs Hl E F N; cbn [contiguous_scan].
  { exists b, None. split_and!; [done|done|]. intros s R.
    destruct (decide (s < run_start)); [by eapply N|]. destruct R as (? & ? & _). lia. }
  rewrite (is_used_ok b W) by lia. destruct (used b frame) eqn:U.
  - apply IH; [lia|lia|lia|lia|lia|]. intros s Hlt R.
    destruct (decide (s < run_start)); [by eapply N|]. destruct R as (? & ? & R).
    rewrite R in U; [done|lia].
  - assert (F' : forall f, run_start <= f < frame + 1 -> used b f = false).
    { intros f Hf. destruct (decide (f = frame)) as [->|]; [done|]. apply F. lia. }
    destruct (run_len + 1 =? count) eqn:Ec; bool_simp.
    + destruct (set_used_range_ok (Z.to_nat count) b run_start true W) as (b' & -> & Ub);
        [lia|lia|].
      exists b', (Some (run_start * FRAME_SIZE)). split; [done|]. exists run_start.
      replace (Z.of_nat (Z.to_nat count)) with count in Ub by lia.
      split_and!; try done. split_and!; [lia|lia|]. intros f Hf. apply F'. lia.
    + apply IH; try lia; done.
Qed.

Lemma alloc_contiguous_ok :
  exists b' o, alloc_frames_contiguous b count = Ok (b', o) /\
  match o with
  | None => b' = b /\ forall s, ~ free_run b s count
  | Some a => exists s, a = s * FRAME_SIZE /\ free_run b s count /\
      (forall s', s' < s -> ~ free_run b s' count) /\
      updates b b' (fun i => s <= i < s + count) true
  end.
Proof.
  pose proof (wf_count _ W). unfold alloc_frames_contiguous.
  replace (count =? 0) with false by lia.
  apply contiguous_scan_ok; try lia. intros s Hs (? & _). lia.
Qed.
End contiguous.

Lemma frame_init_ok kernel_end total :
  is_u32 kernel_end -> is_u32 total ->
  exists b, frame_init kernel_end total = Ok b /\ bitmap_wf b /\
    frame_count b = total / FRAME_SIZE /\
    forall f, 0 <= f < frame_count b -> used b f = bool_decide (f * FRAME_SIZE < kernel_end).
Proof.
  unfold is_u32, FRAME_SIZE. intros Hk Ht. unfold frame_init, FRAME_SIZE, div_ceil.
  set (count := total / 4096). set (b0 := Bitmap _ count).
  assert (Hc : 0 <= count <= 2 ^ 20) by (subst count; dlia).
  assert (W0 : bitmap_wf b0).
  { split; [|done]. subst b0. cbn [bits frame_count]. rewrite zlen_replicate. dlia. }
  assert (U0 : forall f, 0 <= f -> used b0 f = false).
  { intros f Hf. unfold used, b0. cbn [bits]. rewrite byte_at_lookup.
    destruct (replicate _ 0 !! Z.to_nat (f / 8)) as [x|] eqn:E; cbn; [|by rewrite Z.bits_0].
    apply lookup_replicate_1 in E as [-> _]. by rewrite Z.bits_0. }
  set (reserved := Z.min ((kernel_end + 4096 - 1) / 4096) count).
  assert (0 <= reserved <= count) by (subst reserved; dlia).
  destruct (set_used_range_ok (Z.to_nat reserved) b0 0 true W0) as (b & -> & C & W & U);
    [lia|change (frame_count b0) with count; lia|].
  exists b. split_and!; [done|done|done|]. rewrite C. change (frame_count b0) with count.
  intros f Hf. destruct (U f ltac:(lia)) as [U1 U2].
  destruct (decide (f * 4096 < kernel_end)).
  - rewrite bool_decide_eq_true_2 by done. apply U1. subst reserved. dlia.
  - rewrite bool_decide_eq_false_2 by done. rewrite U2, U0; [done|lia|]. subst reserved. dlia.
Qed.

Lemma reserve_range_ok b start end_ :
  bitmap_wf b -> 0 <= start ->
  exists b', reserve_range b start end_ = Ok b' /\
    updates b b' (fun f => start / FRAME_SIZE <= f < Z.min (div_ceil end_ FRAME_SIZE) (frame_count b)) true.
Proof.
  intros W Hs. unfold reserve_range. set (first := start / FRAME_SIZE).
  set (last := Z.min _ _). assert (0 <= first) by (subst first; unfold FRAME_SIZE; dlia).
  destruct (decide (first <= last)) as [Hle|Hgt].
  - destruct (set_used_range_ok (Z.to_nat (last - first)) b first true W) as (b' & -> & U);
      [done|subst last; lia|]. exists b'. split; [done|].
    replace (first + Z.of_nat (Z.to_nat (last - first))) with last in U by lia. done.
  - replace (Z.to_nat (last - first)) with O by lia. exists b. split; [done|].
    apply updates_refl; [done|]. lia.
Qed.

(** ** Properties *)

(** [alloc_frame] never panics, hands out the lowest frame that was free
    (so never one in use or outside memory), marks exactly that frame, and
    fails only when every frame is in use. *)
Theorem alloc_frame_correct b :
  bitmap_wf b ->
  exists b' o, alloc_frame b = Ok (b', o) /\ bitmap_wf b' /\
  match o with
  | None => b' = b /\ forall f, 0 <= f < frame_count b -> used b f = true
  | Some a => exists f, a = f * FRAME_SIZE /\ 0 <= f < frame_count b /\
      used b f = false /\ (forall g, 0 <= g < f -> used b g = true) /\
      forall g, 0 <= g -> used b' g = used b g || bool_decide (g = f)
  end.
Proof.
  intros W. destruct (alloc_frame_ok b W) as (b' & o & E & H). exists b', o. split; [done|].
  destruct o as [a|]; [|destruct H as [-> H]; by auto].
  destruct H as (f & ? & ? & ? & ? & (_ & W' & U)). split; [done|].
  exists f. split_and!; try done; try lia. intros g Hg. destruct (U g Hg) as [U1 U2].
  case_bool_decide; [subst; by rewrite U1, orb_true_r|by rewrite U2, orb_false_r].
Qed.

(** [alloc_frames_contiguous] returns the lowest run of that many free
    frames and marks exactly that run; it returns [None], changing nothing,
    only when memory has no such run. *)
Theorem alloc_frames_contiguous_correct b count :
  bitmap_wf b -> 0 < count ->
  exists b' o, alloc_frames_contiguous b count = Ok (b', o) /\ bitmap_wf b' /\
  match o with
  | None => b' = b /\ forall s, ~ free_run b s count
  | Some a => exists s, a = s * FRAME_SIZE /\ free_run b s count /\
      (forall s', s' < s -> ~ free_run b s' count) /\
      forall g, 0 <= g -> used b' g = used b g || bool_decide (s <= g < s + count)
  end.
Proof.
  intros W Hc. destruct (alloc_contiguous_ok b count W Hc) as (b' & o & E & H).
  exists b', o. split; [done|]. destruct o as [a|]; [|destruct H as [-> H]; by auto].
  destruct H as (s & ? & ? & ? & (_ & W' & U)). split; [done|].
  exists s. split_and!; try done. intros g Hg. destruct (U g Hg) as [U1 U2].
  case_bool_decide; [by rewrite U1, orb_true_r|by rewrite U2, orb_false_r].
Qed.

(** ** Witnesses *)

(** Twelve frames: 0-2, 5 and 8 in use. *)
Definition ex_bitmap : bitmap := Bitmap [0x27; 0x01] 12.

Lemma ex_bitmap_wf : bitmap_wf ex_bitmap.
Proof. split; [reflexivity|cbn; lia]. Qed.

Lemma alloc_frame_correct_witness :
  exists b', alloc_frame ex_bitmap = Ok (b', Some (3 * FRAME_SIZE)) /\ bitmap_wf b'.
Proof.
  destruct (alloc_frame_correct ex_bitmap ex_bitmap_wf) as (b' & o & E & W' & _).
  vm_compute in E. injection E as <- <-. eexists. split; [reflexivity|exact W'].
Defined.

Lemma alloc_frames_contiguous_correct_witness :
  exists b', alloc_frames_contiguous ex_bitmap 3 = Ok (b', Some (9 * FRAME_SIZE)) /\ bitmap_wf b'.
Proof.
  destruct (alloc_frames_contiguous_correct ex_bitmap 3 ex_bitmap_wf) as (b' & o & E & W' & _);
    [lia|].
  vm_compute in E. injection E as <- <-. eexists. split; [reflexivity|exact W'].
Defined.
