(* ===== verification/Heap.v ===== *)
(** * The kernel heap (kernel/src/mm/heap.rs)

    The free list is the list of (address, size) pairs the [FreeBlock] headers
    form, first element at [head].  [FreeBlock] is 8 bytes on i686 and [usize]
    arithmetic wraps at 32 bits.  The theorems account for every byte of the
    heap: at any time each byte belongs to exactly one free block or exactly
    one live allocation, so allocations never overlap and nothing leaks. *)

From stdpp Require Import base list numbers sets.
From Stdlib Require Import Lia.
From S2P Require Import Prelude.
Open Scope Z_scope.

Definition MIN_BLOCK_ALIGN : Z := 8.
Definition FREE_BLOCK_SIZE : Z := 8.

(** A free block: its address and the [size] its header holds. *)
Abbreviation block := (Z * Z)%type.

(** [add_free_region] *)
Definition add_free_region (head : list block) (addr size : Z) : list block :=
  if size <? FREE_BLOCK_SIZE then head else (addr, size) :: head.

(** [align_up] *)
Definition align_up (addr align : Z) : Z :=
  Z.land (wrap32 (addr + align - 1)) (Z.lxor U32_MAX (align - 1)).

(** The body of [find_region]'s loop on one block: where the allocation would
    start, with the excess in front and behind, if it fits. *)
Definition fit (size align : Z) (b : block) : option (Z * Z * Z) :=
  let '(region_start, region_size) := b in
  let region_end := wrap32 (region_start + region_size) in
  let alloc_start := align_up region_start align in
  match checked_add alloc_start size with
  | Some alloc_end =>
      if alloc_end <=? region_end
      then Some (alloc_start, wrap32 (alloc_start - region_start), region_end - alloc_end)
      else None
  | None => None
  end.

(** The walk: the first block that fits, unlinked from the list. *)
Fixpoint unlink (size align : Z) (l : list block)
  : option (block * (Z * Z * Z) * list block) :=
  match l with
  | [] => None
  | b :: l' =>
      match fit size align b with
      | Some r => Some (b, r, l')
      | None =>
          match unlink size align l' with
          | Some (b', r, l'') => Some (b', r, b :: l'')
          | None => None
          end
      end
  end.

(** [find_region] *)
Definition find_region (head : list block) (size align : Z) : list block * option Z :=
  match unlink size align head with
  | None => (head, None)
  | Some ((region_start, _), (alloc_start, excess_front, excess_back), head) =>
      let alloc_end := alloc_start + size in
      let head := if 0 <? excess_front then add_free_region head region_start excess_front
                  else head in
      let head := if 0 <? excess_back then add_free_region head alloc_end excess_back
                  else head in
      (head, Some alloc_start)
  end.

(** [round_up_min_block] *)
Definition round_up_min_block (size : Z) : Z :=
  Z.land (wrap32 (size + MIN_BLOCK_ALIGN - 1)) (Z.lxor U32_MAX (MIN_BLOCK_ALIGN - 1)).

(** What [alloc] and [dealloc] both compute from the layout. *)
Definition block_size (layout_size : Z) : Z :=
  round_up_min_block (Z.max layout_size FREE_BLOCK_SIZE).

(** [LockedHeap::init] *)
Definition heap_init (start size : Z) : res (list block) :=
  if start mod MIN_BLOCK_ALIGN =? 0 then
    Ok (add_free_region [] start (Z.land size (Z.lxor U32_MAX (MIN_BLOCK_ALIGN - 1))))
  else Panicked AssertionFailed.

(** [GlobalAlloc::alloc]: [None] is the null pointer. *)
Definition heap_alloc (head : list block) (layout_size layout_align : Z)
  : list block * option Z :=
  find_region head (block_size layout_size) (Z.max layout_align MIN_BLOCK_ALIGN).

(** [GlobalAlloc::dealloc] *)
Definition heap_dealloc (head : list block) (ptr layout_size : Z) : list block :=
  add_free_region head ptr (block_size layout_size).

(** ** Accounting *)

(** How many of the blocks contain the byte at [x]. *)
Definition cover (b : block) (x : Z) : Z :=
  if (b.1 <=? x) && (x <? b.1 + b.2) then 1 else 0.

Fixpoint covers (l : list block) (x : Z) : Z :=
  match l with [] => 0 | b :: l' => cover b x + covers l' x end.

Definition block_ok (b : block) : Prop :=
  b.1 mod 8 = 0 /\ b.2 mod 8 = 0 /\ 8 <= b.2.

(** Every byte of [lo, hi) is in exactly one free block or one live allocation,
    and no other byte is in any. *)
Definition heap_inv (lo hi : Z) (free live : list block) : Prop :=
  Forall block_ok free /\
  forall x, covers free x + covers live x = if (lo <=? x) && (x <? hi) then 1 else 0.

(** What Rust guarantees of a layout: the size fits when rounded up to the
    alignment, and the alignment is a power of two. *)
Definition layout_ok (size align : Z) : Prop :=
  0 <= size < 2 ^ 31 /\ exists k, 0 <= k /\ align = 2 ^ k.

(** Heap traffic: allocations that succeed or fail, and frees of live blocks. *)
Inductive heap_step : list block * list block -> list block * list block -> Prop :=
| step_alloc free live size align free' p :
    layout_ok size align -> align <= 2 ^ 12 ->
    heap_alloc free size align = (free', Some p) ->
    heap_step (free, live) (free', (p, block_size size) :: live)
| step_alloc_fail free live size align free' :
    heap_alloc free size align = (free', None) ->
    heap_step (free, live) (free', live)
| step_dealloc free l1 ptr size l2 :
    layout_ok size 1 ->
    heap_step (free, l1 ++ (ptr, block_size size) :: l2)
              (heap_dealloc free ptr size, l1 ++ l2).

(** ** Lemmas *)

Lemma cover_nonneg b x : 0 <= cover b x.
Proof. unfold cover. case_match; lia. Qed.

Lemma covers_nonneg l x : 0 <= covers l x.
Proof. induction l; cbn; [lia|]. pose proof (cover_nonneg a x). lia. Qed.

Lemma covers_app l1 l2 x : covers (l1 ++ l2) x = covers l1 x + covers l2 x.
Proof. induction l1; cbn; lia. Qed.

Lemma cover_zero a x : cover (a, 0) x = 0.
Proof. unfold cover. cbn. case_match; [bool_simp; lia|done]. Qed.

(** A block cut in two covers the same bytes. *)
Lemma cover_split a n m x : 0 <= n -> 0 <= m -> cover (a, n + m) x = cover (a, n) x + cover (a + n, m) x.
Proof. intros. unfold cover. cbn. repeat case_match; bool_simp; lia. Qed.

Lemma covers_add_free_region l a n x :
  (n = 0 \/ 8 <= n) -> covers (add_free_region l a n) x = cover (a, n) x + covers l x.
Proof.
  intros H. unfold add_free_region, FREE_BLOCK_SIZE. case_match; [|done]. bool_simp.
  destruct H as [-> |?]; [|lia]. by rewrite cover_zero.
Qed.

Lemma align_up_spec addr k :
  0 <= addr -> 0 <= k <= 31 -> addr + 2 ^ k <= 2 ^ 32 ->
  addr <= align_up addr (2 ^ k) < addr + 2 ^ k /\ align_up addr (2 ^ k) mod 2 ^ k = 0.
Proof.
  intros Ha Hk Hs. assert (0 < 2 ^ k) by lia. unfold align_up, wrap.
  rewrite Z.mod_small by lia. rewrite land_align_down by (unfold is_u32; lia).
  set (m := 2 ^ k) in *. split; [dlia|].
  replace (addr + m - 1 - (addr + m - 1) mod m) with ((addr + m - 1) / m * m) by dlia.
  by apply Z.mod_mul; lia.
Qed.

Lemma round_up_min_block_spec n :
  0 <= n < 2 ^ 31 -> n <= round_up_min_block n < n + 8 /\ round_up_min_block n mod 8 = 0.
Proof.
  intros Hn. unfold round_up_min_block, MIN_BLOCK_ALIGN.
  exact (align_up_spec n 3 ltac:(lia) ltac:(lia) ltac:(lia)).
Qed.

Lemma block_size_spec n :
  0 <= n < 2 ^ 31 -> n <= block_size n /\ 8 <= block_size n < 2 ^ 31 + 8 /\ block_size n mod 8 = 0.
Proof.
  intros H. unfold block_size, FREE_BLOCK_SIZE.
  destruct (round_up_min_block_spec (Z.max n 8)); lia.
Qed.

Lemma unlink_spec size align l b r l' :
  unlink size align l = Some (b, r, l') ->
  exists l1 l2, l = l1 ++ b :: l2 /\ l' = l1 ++ l2 /\ fit size align b = Some r.
Proof.
  revert l'. induction l as [|c l IH]; intros l'; cbn; [done|].
  destruct (fit size align c) as [r'|] eqn:E.
  - intros [= <- <- <-]. by exists [], l.
  - destruct (unlink size align l) as [[[b' r'] l'']|]; [|done].
    intros [= <- <- <-]. destruct (IH _ eq_refl) as (l1 & l2 & -> & -> & F).
    by exists (c :: l1), l2.
Qed.

Lemma unlink_None size align l :
  unlink size align l = None -> Forall (fun b => fit size align b = None) l.
Proof.
  induction l as [|b l IH]; cbn; [done|]. destruct (fit size align b) eqn:E; [done|].
  destruct (unlink size align l) as [[[? ?] ?]|]; [done|]. auto.
Qed.

Lemma covers_pos_bound lo hi free live a n :
  heap_inv lo hi free live -> (a, n) ∈ free -> 0 < n -> lo <= a /\ a + n <= hi.
Proof.
  intros [_ H] Hin Hn.
  assert (B : forall x, a <= x < a + n -> lo <= x < hi).
  { intros x Hx. specialize (H x). apply list_elem_of_split in Hin as (l1 & l2 & ->).
    rewrite covers_app in H. cbn in H.
    assert (cover (a, n) x = 1) as C.
    { unfold cover. cbn. replace (a <=? x) with true by lia.
      by replace (x <? a + n) with true by lia. }
    pose proof (covers_nonneg l1 x). pose proof (covers_nonneg l2 x).
    pose proof (covers_nonneg live x). case_match; bool_simp; lia. }
  pose proof (B a). pose proof (B (a + n - 1)). lia.
Qed.

Section alloc.
Context (lo hi : Z) (Hlo : 0 <= lo) (Hhi : hi + 2 ^ 12 <= 2 ^ 32).

(** A fit in a good block cuts it into three good pieces. *)
Lemma fit_spec size k a n start front back :
  block_ok (a, n) -> 0 <= a -> a + n <= hi -> size mod 8 = 0 -> 8 <= size ->
  3 <= k <= 12 ->
  fit size (2 ^ k) (a, n) = Some (start, front, back) ->
  start = a + front /\ n = front + size + back /\ start mod 2 ^ k = 0 /\
  (front = 0 \/ 8 <= front) /\ (back = 0 \/ 8 <= back) /\ front mod 8 = 0 /\ back mod 8 = 0.
Proof.
  intros (A1 & A2 & A3) Ha Hn S1 S2 Hk. unfold fit. cbn [fst snd] in *.
  assert (2 ^ 3 <= 2 ^ k <= 2 ^ 12) as Hp by (split; apply Z.pow_le_mono_r; lia).
  destruct (align_up_spec a k) as [R M]; [lia|lia|lia|].
  assert (D : (8 | 2 ^ k)).
  { exists (2 ^ (k - 3)). change 8 with (2 ^ 3). rewrite <- Z.pow_add_r by lia. f_equal. lia. }
  set (st := align_up a (2 ^ k)) in *.
  assert (M8 : st mod 8 = 0).
  { apply Z.mod_divide; [lia|]. etrans; [exact D|]. by apply Z.mod_divide; [lia|]. }
  assert (wrap32 (a + n) = a + n) as -> by (unfold wrap; apply Z.mod_small; lia).
  unfold checked_add, U32_MAX. destruct (st + size <=? 4294967295) eqn:E1; [|done].
  destruct (st + size <=? a + n) eqn:E2; [|done]. bool_simp.
  intros E. injection E as Es Ef Eb. rewrite <- Es, <- Ef, <- Eb. clear start front back Es Ef Eb.
  assert (wrap32 (st - a) = st - a) as -> by (unfold wrap; apply Z.mod_small; lia).
  split_and!; [lia|lia|done| | | |]; dlia.
Qed.

Lemma heap_alloc_inv free live size align free' p :
  heap_inv lo hi free live -> layout_ok size align -> align <= 2 ^ 12 ->
  heap_alloc free size align = (free', Some p) ->
  heap_inv lo hi free' ((p, block_size size) :: live) /\ p mod align = 0 /\
  lo <= p /\ p + block_size size <= hi.
Proof.
  intros I (Hs & k & Hk & ->) Ha. unfold heap_alloc, find_region.
  destruct (block_size_spec size Hs) as (_ & B2 & B3). set (sz := block_size size) in *.
  assert (exists j, Z.max (2 ^ k) MIN_BLOCK_ALIGN = 2 ^ j /\ 3 <= j <= 12 /\ k <= j) as (j & -> & Hj & Hkj).
  { unfold MIN_BLOCK_ALIGN. destruct (decide (k <= 3)).
    - exists 3. assert (2 ^ k <= 2 ^ 3) by (apply Z.pow_le_mono_r; lia). lia.
    - exists k. assert (2 ^ 3 <= 2 ^ k) by (apply Z.pow_le_mono_r; lia).
      apply Z.pow_le_mono_r_iff in Ha; lia. }
  destruct (unlink sz (2 ^ j) free) as [[[[a n] [[st front] back]] rest]|] eqn:E; [|done].
  intros [= <- <-]. apply unlink_spec in E as (l1 & l2 & -> & -> & F).
  pose proof I as [Bok Cov]. apply Forall_app in Bok as [Bok1 [Okb Bok2]%Forall_cons_iff].
  destruct (covers_pos_bound lo hi _ live a n I) as [La Ha']; [set_solver| |].
  { destruct Okb as (_ & _ & ?). cbn in *. lia. }
  destruct (fit_spec _ _ _ _ _ _ _ Okb ltac:(lia) Ha' B3 ltac:(lia) Hj F)
    as (-> & -> & M & Fr & Bk & Fm & Bm).
  assert (0 <= front /\ 0 <= back) as [F0 B0] by lia.
  assert (D : forall m, m <= j -> 0 <= m -> (a + front) mod 2 ^ m = 0).
  { intros m Hm Hm0. apply Z.mod_divide; [lia|]. etrans; [|by apply Z.mod_divide; [|exact M]; lia].
    exists (2 ^ (j - m)). rewrite <- Z.pow_add_r by lia. f_equal. lia. }
  split_and!; [|by apply D|lia|lia]. split.
  - assert (G : forall l x y, Forall block_ok l -> x mod 8 = 0 -> y mod 8 = 0 ->
        Forall block_ok (if 0 <? y then add_free_region l x y else l)).
    { intros l x y Hl Hx Hy. case_match; [|done]. unfold add_free_region, FREE_BLOCK_SIZE.
      case_match; [done|]. bool_simp. constructor; [|done]. by split_and!. }
    destruct Okb as (Am & _ & _). cbn in Am.
    apply G; [apply G; [by apply Forall_app|done|done]| |done].
    pose proof (D 3 ltac:(lia) ltac:(lia)) as D3. change (2 ^ 3) with 8 in D3. dlia.
  - intros x. rewrite <- (Cov x). rewrite !covers_app. cbn [covers].
    rewrite (cover_split a (front + sz) back) by lia.
    rewrite (cover_split a front sz) by lia.
    assert (G : forall l a' y, (y = 0 \/ 8 <= y) ->
        covers (if 0 <? y then add_free_region l a' y else l) x = cover (a', y) x + covers l x).
    { intros l a' y Hy. case_match; bool_simp; [by apply covers_add_free_region|].
      destruct Hy; [subst|lia]. by rewrite cover_zero. }
    rewrite !G by done. rewrite covers_app. replace (a + (front + sz)) with (a + front + sz) by lia.
    lia.
Qed.

Lemma heap_dealloc_inv free l1 ptr size l2 :
  heap_inv lo hi free (l1 ++ (ptr, block_size size) :: l2) -> ptr mod 8 = 0 ->
  0 <= size < 2 ^ 31 ->
  heap_inv lo hi (heap_dealloc free ptr size) (l1 ++ l2).
Proof.
  intros [Bok Cov] Hp Hs. destruct (block_size_spec size Hs) as (_ & B2 & B3).
  unfold heap_dealloc. split.
  - unfold add_free_region. case_match; [done|]. constructor; [|done]. by split_and!; cbn; [| |lia].
  - intros x. rewrite covers_add_free_region by lia. rewrite <- (Cov x), !covers_app. cbn. lia.
Qed.
End alloc.

(** Live allocations stay 8-aligned, which is what [dealloc] relies on. *)
Definition heap_state_ok (lo hi : Z) (st : list block * list block) : Prop :=
  heap_inv lo hi st.1 st.2 /\ Forall (fun b => b.1 mod 8 = 0) st.2.

Lemma heap_alloc_fail free size align free' :
  heap_alloc free size align = (free', None) -> free' = free.
Proof.
  unfold heap_alloc, find_region. destruct (unlink _ _ _) as [[[[a n] [[s f] b]] r]|]; [done|].
  by intros [= <-].
Qed.

Lemma heap_alloc_aligned8 free size align free' p :
  layout_ok size align -> align <= 2 ^ 12 -> forall lo hi live, 0 <= lo -> hi + 2 ^ 12 <= 2 ^ 32 ->
  heap_inv lo hi free live -> heap_alloc free size align = (free', Some p) -> p mod 8 = 0.
Proof.
  intros L Ha lo hi live Hlo Hhi I E.
  destruct (decide (8 <= align)) as [H8|H8].
  - destruct (heap_alloc_inv lo hi Hlo Hhi _ _ _ _ _ _ I L Ha E) as (_ & M & _).
    destruct L as (_ & k & Hk & ->). apply Z.mod_divide; [lia|].
    etrans; [|by apply Z.mod_divide; [|exact M]; lia].
    assert (3 <= k) by (apply (Z.pow_le_mono_r_iff 2); lia).
    exists (2 ^ (k - 3)). change 8 with (2 ^ 3). rewrite <- Z.pow_add_r by lia. f_equal. lia.
  - unfold heap_alloc in E. replace (Z.max align MIN_BLOCK_ALIGN) with (Z.max 8 MIN_BLOCK_ALIGN) in E
      by (unfold MIN_BLOCK_ALIGN; lia).
    refine (proj1 (proj2 (heap_alloc_inv lo hi Hlo Hhi _ _ size 8 _ _ I _ _ E))); [|lia].
    destruct L as [? _]. split; [done|]. by exists 3.
Qed.

Lemma heap_step_ok lo hi :
  0 <= lo -> hi + 2 ^ 12 <= 2 ^ 32 -> preserved heap_step (heap_state_ok lo hi).
Proof.
  intros Hlo Hhi st st' [I A] H. destruct H as [free live size align free' p L Ha E
    |free live size align free' E|free l1 ptr size l2 [L _]]; cbn in *.
  - split; cbn; [by eapply heap_alloc_inv|]. constructor; [|done]. cbn.
    by eapply heap_alloc_aligned8.
  - by apply heap_alloc_fail in E as ->.
  - apply Forall_app in A as [A1 [Ap A2]%Forall_cons_iff].
    split; cbn; [by apply heap_dealloc_inv|by apply Forall_app].
Qed.

Lemma heap_init_inv start size :
  is_u32 size -> start mod 8 = 0 ->
  exists free, heap_init start size = Ok free /\
    heap_inv start (start + (size - size mod 8)) free [].
Proof.
  unfold is_u32. intros Hs Hm. unfold heap_init, MIN_BLOCK_ALIGN. rewrite Hm. cbn [Z.eqb].
  eexists. split; [done|]. change (8 - 1) with (2 ^ 3 - 1).
  rewrite land_align_down by (unfold is_u32; lia). change (2 ^ 3) with 8. split.
  - unfold add_free_region, FREE_BLOCK_SIZE. case_match; [done|]. bool_simp.
    constructor; [|done]. split_and!; cbn; [done|dlia|done].
  - intros x. rewrite covers_add_free_region by dlia. cbn. unfold cover. cbn.
    destruct (_ && _); lia.
Qed.

Lemma covers_overlap l1 l2 l3 (a b : block) x :
  covers (l1 ++ a :: l2 ++ b :: l3) x <= 1 ->
  ~ (a.1 <= x < a.1 + a.2 /\ b.1 <= x < b.1 + b.2).
Proof.
  intros H [Ha Hb]. rewrite covers_app in H. cbn in H. rewrite covers_app in H. cbn in H.
  pose proof (covers_nonneg l1 x). pose proof (covers_nonneg l2 x).
  pose proof (covers_nonneg l3 x).
  assert (cover a x = 1) by (unfold cover; by case_match; bool_simp; [|lia]).
  assert (cover b x = 1) by (unfold cover; by case_match; bool_simp; [|lia]).
  lia.
Qed.

(** ** Properties *)

(** C32: after any sequence of allocations and frees, every byte of the heap
    region belongs to exactly one free block or exactly one live allocation
    (none is lost, none is shared), and no byte outside belongs to any. *)
Theorem heap_bytes_partitioned start size free free' live' :
  is_u32 size -> 0 <= start -> start mod 8 = 0 -> start + size + 2 ^ 12 <= 2 ^ 32 ->
  heap_init start size = Ok free ->
  steps heap_step (free, []) (free', live') ->
  forall x, covers free' x + covers live' x =
    if (start <=? x) && (x <? start + (size - size mod 8)) then 1 else 0.
Proof.
  intros Hs H0 Hm Hb Hi S. destruct (heap_init_inv start size Hs Hm) as (f & E & I).
  rewrite Hi in E. injection E as <-.
  assert (K : heap_state_ok start (start + (size - size mod 8)) (free', live')).
  { eapply steps_preserved; [apply heap_step_ok; [done|]|exact S|by split].
    unfold is_u32 in Hs. dlia. }
  apply K.
Qed.

(** an allocation that succeeds gives a block of at least the requested
    size, aligned as requested, inside the heap, that overlaps no block already
    live. *)
Theorem heap_alloc_sound start size free free1 live1 req align free2 p :
  is_u32 size -> 0 <= start -> start mod 8 = 0 -> start + size + 2 ^ 12 <= 2 ^ 32 ->
  heap_init start size = Ok free ->
  steps heap_step (free, []) (free1, live1) ->
  layout_ok req align -> align <= 2 ^ 12 ->
  heap_alloc free1 req align = (free2, Some p) ->
  p mod align = 0 /\ start <= p /\ p + req <= start + size /\
  forall b x, b ∈ live1 -> ~ (p <= x < p + req /\ b.1 <= x < b.1 + b.2).
Proof.
  intros Hs H0 Hm Hb Hi S L Ha E. destruct (heap_init_inv start size Hs Hm) as (f & E' & I).
  rewrite Hi in E'. injection E' as <-. unfold is_u32 in Hs.
  set (hi := start + (size - size mod 8)) in *. assert (Hh : hi + 2 ^ 12 <= 2 ^ 32) by (subst hi; dlia).
  assert (K : heap_state_ok start hi (free1, live1)).
  { eapply steps_preserved; [by apply heap_step_ok|exact S|by split]. }
  destruct K as [K _]. cbn [fst snd] in K.
  destruct (heap_alloc_inv start hi H0 Hh _ _ _ _ _ _ K L Ha E) as (K' & M & P1 & P2).
  pose proof (block_size_spec req (proj1 L)) as (B1 & _).
  split_and!; [done|done|subst hi; dlia|].
  intros b x Hin. apply list_elem_of_split in Hin as (l1 & l2 & ->). intros [Hp Hx].
  apply (covers_overlap [] l1 l2 (p, block_size req) b x).
  - destruct K' as [_ Cov]. specialize (Cov x). pose proof (covers_nonneg free2 x).
    cbn [app]. destruct ((start <=? x) && (x <? hi)); lia.
  - cbn. lia.
Qed.

(** ** Witnesses *)

Definition ex_free : list block := [(0x1000, 0x100)].

Lemma ex_heap_steps :
  steps heap_step (ex_free, []) ([(0x1030, 0xD0)], [(0x1018, 24); (0x1000, 24)]).
Proof.
  eapply steps_cons; [eapply (step_alloc _ _ 20 4); [|lia|reflexivity]|].
  { split; [lia|]. by exists 2. }
  eapply steps_cons; [eapply (step_alloc _ _ 17 8); [|lia|reflexivity]|].
  { split; [lia|]. by exists 3. }
  apply steps_refl.
Qed.

Lemma heap_bytes_partitioned_witness :
  covers [(0x1030, 0xD0)] 0x1019 + covers [(0x1018, 24); (0x1000, 24)] 0x1019 = 1.
Proof.
  apply (heap_bytes_partitioned 0x1000 0x100 ex_free); try (unfold is_u32; lia);
    [reflexivity|reflexivity|exact ex_heap_steps].
Defined.

Lemma heap_alloc_sound_witness :
  0x1040 mod 32 = 0 /\ 0x1000 <= 0x1040 /\ 0x1040 + 9 <= 0x1000 + 0x100 /\
  forall b x, b ∈ [(0x1018, 24); (0x1000, 24)] -> ~ (0x1040 <= x < 0x1040 + 9 /\ b.1 <= x < b.1 + b.2).
Proof.
  apply (heap_alloc_sound 0x1000 0x100 ex_free [(0x1030, 0xD0)] _ 9 32
           [(0x1050, 0xB0); (0x1030, 0x10)]); try (unfold is_u32; lia);
    [reflexivity|reflexivity|exact ex_heap_steps| |reflexivity].
  split; [lia|]. exists 5. by split.
Defined.
