(* ===== verification/Paging.v ===== *)
(** * Page tables (kernel/src/mm/paging.rs)

    Physical memory is a byte function; the kernel reaches physical address [p]
    through the window at [phys_to_virt p], which [init]'s assertion keeps inside
    the top of the address space, so a window access is an access to [p].
    [map_page] and [PageDirectory::new] are translated with their panics;
    [translate] is the processor's two-level walk.  Theorems: what [map_page]
    does to every translation of every address space, and the invariant [vm_wf]
    (tables are allocated, never shared below the kernel half, never reachable
    from user mode) that every mapping preserves. *)

From stdpp Require Import base list numbers sets.
From Stdlib Require Import Lia.
From S2P Require Import Prelude Hw Frame.
Open Scope Z_scope.

(** ** Memory *)

Definition mem := Z -> Z.

Definition load32 (m : mem) (a : Z) : Z := u32_from_le (m a) (m (a + 1)) (m (a + 2)) (m (a + 3)).

Definition store32 (m : mem) (a v : Z) : mem :=
  fun x => if (a <=? x) && (x <? a + 4) then byte_at (u32_to_le v) (x - a) else m x.

(** [core::ptr::write_bytes] *)
Definition write_bytes (m : mem) (a v n : Z) : mem :=
  fun x => if (a <=? x) && (x <? a + n) then v else m x.

(** [core::ptr::copy_nonoverlapping] *)
Definition copy_bytes (m : mem) (src dst n : Z) : mem :=
  fun x => if (dst <=? x) && (x <? dst + n) then m (src + (x - dst)) else m x.

Definition mem_ok (m : mem) : Prop := forall a, is_u8 (m a).

(** ** Constants *)

Definition KERNEL_VMA : Z := 0xC0000000.
Definition KERNEL_VMA_PDE_INDEX : Z := Z.shiftr KERNEL_VMA 22.
Definition PHYS_MAP_BASE : Z := 0xE0000000.
Definition PHYS_MAP_PDE_INDEX : Z := Z.shiftr PHYS_MAP_BASE 22.
Definition PAGE_PRESENT_RW_4M : Z := 0x83.
Definition PAGE_PRESENT : Z := Z.shiftl 1 0.
Definition PAGE_WRITABLE : Z := Z.shiftl 1 1.
Definition PAGE_USER : Z := Z.shiftl 1 2.
Definition PAGE_PS : Z := Z.shiftl 1 7.
Definition PAGE_ADDR_MASK : Z := 0xFFFFF000.

(** [phys_to_virt] *)
Definition phys_to_virt (phys_addr : Z) : Z := wrap32 (PHYS_MAP_BASE + phys_addr).

(** ** Operations *)

(** The loop of [paging::init] over the entries from [i] on. *)
Fixpoint physmap_entries (n : nat) (m : mem) (boot_pd i : Z) : mem :=
  match n with
  | O => m
  | S n' =>
      let phys_base := wrap32 (i * 4 * 1024 * 1024) in
      physmap_entries n'
        (store32 m (boot_pd + 4 * (PHYS_MAP_PDE_INDEX + i)) (Z.lor phys_base PAGE_PRESENT_RW_4M))
        boot_pd (i + 1)
  end.

(** [paging::init] *)
Definition paging_init (m : mem) (boot_pd total_memory_bytes : Z) : res mem :=
  let entries_needed := div_ceil total_memory_bytes (4 * 1024 * 1024) in
  if PHYS_MAP_PDE_INDEX + entries_needed <=? 1024
  then Ok (physmap_entries (Z.to_nat entries_needed) m boot_pd 0)
  else Panicked AssertionFailed.

(** [zero_frame] *)
Definition zero_frame (m : mem) (phys_addr : Z) : mem := write_bytes m phys_addr 0 FRAME_SIZE.

(** [*table.add(i) = *boot_table.add(i)] for [n] indices from [i] on. *)
Fixpoint copy_pdes (n : nat) (m : mem) (table boot_table i : Z) : mem :=
  match n with
  | O => m
  | S n' =>
      copy_pdes n' (store32 m (table + 4 * i) (load32 m (boot_table + 4 * i)))
        table boot_table (i + 1)
  end.

(** [frame::alloc_frame().expect("out of physical memory")] *)
Definition alloc_or_panic (b : bitmap) : res (bitmap * Z) :=
  let* (b', o) := alloc_frame b in
  p <- expect OutOfPhysicalMemory o ;; Ok (b', p).

(** [PageDirectory::new] *)
Definition page_directory_new (m : mem) (b : bitmap) (boot_pd : Z) : res (mem * bitmap * Z) :=
  let* (b', phys_frame) := alloc_or_panic b in
  let m1 := zero_frame m phys_frame in
  let m2 := copy_pdes (Z.to_nat (1024 - KERNEL_VMA_PDE_INDEX)) m1 phys_frame boot_pd
              KERNEL_VMA_PDE_INDEX in
  Ok (m2, b', phys_frame).

(** The [let pt_phys = if .. else ..] of [map_page]: the page table of entry
    [pd_index], allocated and linked if the entry is not present. *)
Definition ensure_table (m : mem) (b : bitmap) (pd pd_index : Z) (user : bool)
  : res (mem * bitmap * Z) :=
  let pde := load32 m (pd + 4 * pd_index) in
  if negb (Z.land pde PAGE_PRESENT =? 0) then
    let m1 := if user && (Z.land pde PAGE_USER =? 0)
              then store32 m (pd + 4 * pd_index) (Z.lor pde PAGE_USER) else m in
    Ok (m1, b, Z.land pde PAGE_ADDR_MASK)
  else
    let* (b1, new_pt) := alloc_or_panic b in
    let m1 := zero_frame m new_pt in
    let flags := Z.lor PAGE_PRESENT PAGE_WRITABLE in
    let flags := if user then Z.lor flags PAGE_USER else flags in
    Ok (store32 m1 (pd + 4 * pd_index) (Z.lor new_pt flags), b1, new_pt).

(** [PageDirectory::map_page] on the directory at [pd]. *)
Definition map_page (m : mem) (b : bitmap) (pd virt_addr phys_addr : Z) (user writable : bool)
  : res (mem * bitmap) :=
  if negb (virt_addr mod FRAME_SIZE =? 0) then Panicked AssertionFailed
  else if negb (phys_addr mod FRAME_SIZE =? 0) then Panicked AssertionFailed
  else
    let pd_index := Z.shiftr virt_addr 22 in
    let pt_index := Z.land (Z.shiftr virt_addr 12) 0x3FF in
    let pde := load32 m (pd + 4 * pd_index) in
    if negb ((Z.land pde PAGE_PRESENT =? 0) || (Z.land pde PAGE_PS =? 0))
    then Panicked AssertionFailed
    else
      let* (m1, b1, pt_phys) := ensure_table m b pd pd_index user in
      let flags := PAGE_PRESENT in
      let flags := if writable then Z.lor flags PAGE_WRITABLE else flags in
      let flags := if user then Z.lor flags PAGE_USER else flags in
      Ok (store32 m1 (pt_phys + 4 * pt_index) (Z.lor phys_addr flags), b1).

(** ** The processor's page walk (Intel SDM 3A, 4.3) *)

Definition present (e : Z) : bool := Z.testbit e 0.
Definition writable_bit (e : Z) : bool := Z.testbit e 1.
Definition user_bit (e : Z) : bool := Z.testbit e 2.
Definition ps_bit (e : Z) : bool := Z.testbit e 7.
Definition entry_addr (e : Z) : Z := Z.land e PAGE_ADDR_MASK.

Definition pde_at (m : mem) (pd i : Z) : Z := load32 m (pd + 4 * i).
Definition pte_at (m : mem) (pt j : Z) : Z := load32 m (pt + 4 * j).

(** A translation: the physical address and the rights both levels grant. *)
Record translation := Translation { tr_phys : Z; tr_user : bool; tr_writable : bool }.

Definition translate (m : mem) (pd va : Z) : option translation :=
  let pde := pde_at m pd (va / 2 ^ 22) in
  if negb (present pde) then None
  else if ps_bit pde then
    Some (Translation (pde / 2 ^ 22 * 2 ^ 22 + va mod 2 ^ 22) (user_bit pde) (writable_bit pde))
  else
    let pte := pte_at m (entry_addr pde) (va / 2 ^ 12 mod 1024) in
    if negb (present pte) then None
    else Some (Translation (entry_addr pte + va mod 2 ^ 12)
                 (user_bit pde && user_bit pte) (writable_bit pde && writable_bit pte)).

(** ** The invariant *)

(** [p] is the address of a frame the allocator has given out. *)
Definition allocated (b : bitmap) (p : Z) : Prop :=
  exists f, p = f * FRAME_SIZE /\ 0 <= f < frame_count b /\ used b f = true.

(** [p] is the base of a page the allocator will not give out: in use, or not RAM
    it manages. *)
Definition claimed (b : bitmap) (p : Z) : Prop :=
  exists f, p = f * FRAME_SIZE /\ (0 <= f < frame_count b -> used b f = true).

(** The page a physical address lies in. *)
Definition frame_base (x : Z) : Z := x / FRAME_SIZE * FRAME_SIZE.

(** The page table entry [i] of directory [pd] points at. *)
Definition table_of (m : mem) (pd i pt : Z) : Prop :=
  0 <= i < KERNEL_VMA_PDE_INDEX /\ present (pde_at m pd i) = true /\
  pt = entry_addr (pde_at m pd i).

(** [p] holds a page directory or a page table of one of the address spaces. *)
Definition is_table (m : mem) (pds : list Z) (p : Z) : Prop :=
  p ∈ pds \/ exists pd i, pd ∈ pds /\ table_of m pd i p.

(** The kernel image, from [klo] to [khi], the boot directory inside it, and how
    many 4 MiB entries [init] made for the physical memory window. *)
Record kernel_image := KernelImage { klo : Z; khi : Z; boot_pd : Z; phys_entries : Z }.

Definition outside (k : kernel_image) (p : Z) : Prop := ~ (klo k <= p < khi k).

(** What user code may be given: a page that is no table, will not become one,
    and is not kernel memory. *)
Definition user_page (k : kernel_image) (m : mem) (b : bitmap) (pds : list Z) (p : Z) : Prop :=
  claimed b p /\ ~ is_table m pds p /\ outside k p.

Record vm_wf (k : kernel_image) (m : mem) (b : bitmap) (pds : list Z) : Prop := {
  vm_mem : mem_ok m;
  vm_bitmap : bitmap_wf b;
  vm_boot : klo k <= boot_pd k < khi k /\ boot_pd k mod FRAME_SIZE = 0;
  vm_image : forall f, klo k <= f * FRAME_SIZE < khi k -> claimed b (f * FRAME_SIZE);
  vm_nodup : NoDup pds;
  (* directories and tables live in frames of their own *)
  vm_table : forall p, is_table m pds p -> allocated b p /\ outside k p;
  vm_pt : forall pd i pt, pd ∈ pds -> table_of m pd i pt -> pt ∉ pds;
  vm_flags : forall pd i pt, pd ∈ pds -> table_of m pd i pt ->
    ps_bit (pde_at m pd i) = false /\ user_bit (pde_at m pd i) = true /\
    writable_bit (pde_at m pd i) = true;
  vm_inj : forall pd i pd' i' pt, pd ∈ pds -> pd' ∈ pds ->
    table_of m pd i pt -> table_of m pd' i' pt -> pd = pd' /\ i = i';
  (* the kernel half is the boot directory's, verbatim *)
  vm_kernel : forall pd i, pd ∈ pds -> KERNEL_VMA_PDE_INDEX <= i < 1024 ->
    pde_at m pd i = pde_at m (boot_pd k) i;
  vm_kernel_ps : forall i, KERNEL_VMA_PDE_INDEX <= i < 1024 ->
    present (pde_at m (boot_pd k) i) = true ->
    ps_bit (pde_at m (boot_pd k) i) = true /\ user_bit (pde_at m (boot_pd k) i) = false;
  vm_kernel_base : present (pde_at m (boot_pd k) KERNEL_VMA_PDE_INDEX) = true;
  (* the window covers all the memory the allocator manages *)
  vm_physmap : forall i, 0 <= i < phys_entries k ->
    pde_at m (boot_pd k) (PHYS_MAP_PDE_INDEX + i) = Z.lor (i * 2 ^ 22) PAGE_PRESENT_RW_4M;
  vm_window : 0 <= phys_entries k <= 128 /\ frame_count b * FRAME_SIZE <= phys_entries k * 2 ^ 22;
  (* everything the lower half maps is a user page *)
  vm_user : forall pd i pt j, pd ∈ pds -> table_of m pd i pt -> 0 <= j < 1024 ->
    present (pte_at m pt j) = true -> user_page k m b pds (entry_addr (pte_at m pt j))
}.

(** A frame that was just allocated: nothing points at it yet. *)
Record fresh (k : kernel_image) (m : mem) (b : bitmap) (pds : list Z) (p : Z) : Prop := {
  fresh_alloc : allocated b p;
  fresh_outside : outside k p;
  fresh_table : ~ is_table m pds p;
  fresh_unmapped : forall pd i pt j, pd ∈ pds -> table_of m pd i pt -> 0 <= j < 1024 ->
    present (pte_at m pt j) = true -> entry_addr (pte_at m pt j) <> p
}.

(** The allocator only ever marks more frames. *)
Definition bitmap_le (b b' : bitmap) : Prop :=
  frame_count b' = frame_count b /\ bitmap_wf b' /\
  forall f, 0 <= f < frame_count b -> used b f = true -> used b' f = true.

(** ** Words and frames *)

Lemma KERNEL_VMA_PDE_INDEX_eq : KERNEL_VMA_PDE_INDEX = 768.
Proof. reflexivity. Qed.

Lemma store32_ok m a v : mem_ok m -> mem_ok (store32 m a v).
Proof. intros M x. unfold store32. case_match; [apply u32_to_le_u8|apply M]. Qed.

Lemma load32_u32 m a : mem_ok m -> is_u32 (load32 m a).
Proof. intros M. by apply u32_from_le_range. Qed.

Lemma load32_store32_eq m a v : is_u32 v -> load32 (store32 m a v) a = v.
Proof.
  intros V. unfold load32, store32.
  replace ((a <=? a) && (a <? a + 4)) with true by lia.
  replace ((a <=? a + 1) && (a + 1 <? a + 4)) with true by lia.
  replace ((a <=? a + 2) && (a + 2 <? a + 4)) with true by lia.
  replace ((a <=? a + 3) && (a + 3 <? a + 4)) with true by lia.
  replace (a - a) with 0 by lia. replace (a + 1 - a) with 1 by lia.
  replace (a + 2 - a) with 2 by lia. replace (a + 3 - a) with 3 by lia.
  by apply u32_le_roundtrip.
Qed.

Lemma load32_ext m m' a :
  (forall x, a <= x < a + 4 -> m' x = m x) -> load32 m' a = load32 m a.
Proof. intros H. unfold load32. by rewrite !H by lia. Qed.

(** Two words of frames: the same word or disjoint. *)
Lemma frame_word p q i j :
  p mod FRAME_SIZE = 0 -> q mod FRAME_SIZE = 0 -> 0 <= i < 1024 -> 0 <= j < 1024 ->
  (p = q /\ i = j) \/ p + 4 * i + 4 <= q + 4 * j \/ q + 4 * j + 4 <= p + 4 * i.
Proof. unfold FRAME_SIZE. intros. dlia. Qed.

Lemma load32_store_word m p q i j v :
  p mod FRAME_SIZE = 0 -> q mod FRAME_SIZE = 0 -> 0 <= i < 1024 -> 0 <= j < 1024 -> is_u32 v ->
  load32 (store32 m (p + 4 * i) v) (q + 4 * j) =
  if decide (p = q /\ i = j) then v else load32 m (q + 4 * j).
Proof.
  intros Hp Hq Hi Hj V. case_decide as E; [destruct E as [-> ->]; by apply load32_store32_eq|].
  apply load32_ext. intros x Hx. unfold store32.
  destruct (frame_word p q i j Hp Hq Hi Hj) as [?|[?|?]]; [done| |];
    (case_match; [bool_simp; lia|done]).
Qed.

Lemma load32_zero_word m p q j :
  p mod FRAME_SIZE = 0 -> q mod FRAME_SIZE = 0 -> 0 <= j < 1024 ->
  load32 (zero_frame m p) (q + 4 * j) = if decide (p = q) then 0 else load32 m (q + 4 * j).
Proof.
  unfold FRAME_SIZE. intros Hp Hq Hj. case_decide as E.
  - subst q. unfold load32, zero_frame, write_bytes, FRAME_SIZE.
    repeat (replace (_ && _) with true by lia). done.
  - apply load32_ext. intros x Hx. unfold zero_frame, write_bytes, FRAME_SIZE.
    case_match; [bool_simp; dlia|done].
Qed.

Lemma zero_frame_ok m p : mem_ok m -> mem_ok (zero_frame m p).
Proof. intros M x. unfold zero_frame, write_bytes. case_match; [unfold is_u8; lia|apply M]. Qed.

(** ** Entries *)

Lemma entry_addr_eq e : is_u32 e -> entry_addr e = e - e mod FRAME_SIZE.
Proof. intros H. exact (land_align_down e 12 H ltac:(lia)). Qed.

Section entry.
Context (a fl : Z) (Ha : a mod FRAME_SIZE = 0) (Hr : is_u32 a) (Hf : 0 <= fl < 128).

Lemma entry_u32 : is_u32 (Z.lor a fl).
Proof. apply (lor_range a fl 32); unfold is_u32 in *; lia. Qed.

Lemma entry_testbit k : 0 <= k < 12 -> Z.testbit (Z.lor a fl) k = Z.testbit fl k.
Proof.
  intros Hk. rewrite Z.lor_spec, (testbit_low_zero a 12); [done|exact Ha|done].
Qed.

Lemma entry_ps : ps_bit (Z.lor a fl) = false.
Proof. unfold ps_bit. rewrite entry_testbit by lia. by apply (testbit_high fl 7); [|lia]. Qed.

Lemma entry_addr_make : entry_addr (Z.lor a fl) = a.
Proof.
  rewrite entry_addr_eq by apply entry_u32.
  assert (E : Z.lor a fl = a + fl).
  { rewrite <- Z.lxor_lor, <- Z.add_nocarry_lxor; [done|..];
      apply Z.bits_inj_0; intros k; rewrite Z.land_spec.
    all: destruct (decide (0 <= k < 12)).
    1,3: by rewrite (testbit_low_zero a 12) by done.
    all: destruct (decide (k < 0)); [by rewrite !Z.testbit_neg_r by lia|].
    all: rewrite (testbit_high fl 7 k) by lia; apply andb_false_r. }
  rewrite E. unfold FRAME_SIZE in *. dlia.
Qed.
End entry.

Lemma allocated_mod b p : allocated b p -> p mod FRAME_SIZE = 0.
Proof. intros (f & -> & _). by apply Z.mod_mul. Qed.

Lemma allocated_u32 b p : bitmap_wf b -> allocated b p -> is_u32 p.
Proof.
  intros W (f & -> & Hf & _). pose proof (wf_count _ W). unfold is_u32, FRAME_SIZE. lia.
Qed.

Lemma allocated_le b b' p : bitmap_le b b' -> allocated b p -> allocated b' p.
Proof. intros (C & _ & H) (f & -> & Hf & U). exists f. rewrite C. auto. Qed.

Lemma frame_base_page p o : p mod FRAME_SIZE = 0 -> 0 <= o < FRAME_SIZE -> frame_base (p + o) = p.
Proof. unfold frame_base, FRAME_SIZE. intros. dlia. Qed.

Lemma claimed_le b b' p : bitmap_le b b' -> claimed b p -> claimed b' p.
Proof. intros (C & _ & H) (f & -> & U). exists f. rewrite C. auto. Qed.

Lemma allocated_claimed b p : allocated b p -> claimed b p.
Proof. intros (f & -> & Hf & U). by exists f. Qed.

(** ** The invariant, under changes of memory and of the allocator *)

Section wf.
Context (k : kernel_image).

Lemma table_mod m b pds p : vm_wf k m b pds -> is_table m pds p -> p mod FRAME_SIZE = 0.
Proof. intros W [A _]%(vm_table _ _ _ _ W). by eapply allocated_mod. Qed.

Lemma pd_table m pds pd : pd ∈ pds -> is_table m pds pd.
Proof. by left. Qed.

Lemma pt_table m pds pd i pt : pd ∈ pds -> table_of m pd i pt -> is_table m pds pt.
Proof. right. eauto. Qed.

Lemma table_not_boot m b pds p : vm_wf k m b pds -> is_table m pds p -> p <> boot_pd k.
Proof.
  intros W [_ O]%(vm_table _ _ _ _ W) ->. apply O, (vm_boot _ _ _ _ W).
Qed.

Lemma user_page_not_table m b pds p q :
  user_page k m b pds p -> is_table m pds q -> p <> q.
Proof. intros (_ & N & _) T ->. done. Qed.

Section ext.
Context (m m' : mem) (b : bitmap) (pds : list Z) (W : vm_wf k m b pds).
Context (Hpd : forall pd i, pd ∈ pds \/ pd = boot_pd k -> 0 <= i < 1024 -> pde_at m' pd i = pde_at m pd i).
Context (Hpt : forall pt j, is_table m pds pt -> 0 <= j < 1024 -> pte_at m' pt j = pte_at m pt j).

Lemma table_of_ext pd i pt : pd ∈ pds -> table_of m' pd i pt <-> table_of m pd i pt.
Proof.
  intros Hin. unfold table_of. rewrite KERNEL_VMA_PDE_INDEX_eq.
  destruct (decide (0 <= i < 768)); [|tauto]. rewrite Hpd by (auto || lia). done.
Qed.

Lemma is_table_ext p : is_table m' pds p <-> is_table m pds p.
Proof.
  unfold is_table. split; (intros [?|(pd & i & ? & T)]; [by left|right; exists pd, i]);
    by rewrite table_of_ext in *.
Qed.

Lemma user_page_ext p : user_page k m' b pds p <-> user_page k m b pds p.
Proof. unfold user_page. by rewrite is_table_ext. Qed.

Lemma vm_wf_ext : mem_ok m' -> vm_wf k m' b pds.
Proof.
  intros M. destruct W as [_ W2 W3 W4 W5 W6 W7 W7' W8 W9 W9' Wk1 Wk2 Wk3 W10].
  assert (KI := KERNEL_VMA_PDE_INDEX_eq). split; try done.
  - intros p. by rewrite is_table_ext; auto.
  - intros pd i pt Hin. rewrite table_of_ext by done. eauto.
  - intros pd i pt Hin. rewrite table_of_ext by done. intros T.
    rewrite Hpd; [by eauto|auto|]. destruct T as (? & _). lia.
  - intros pd i pd' i' pt H1 H2. rewrite !table_of_ext by done. eauto.
  - intros pd i Hin Hi. rewrite !Hpd by (auto || lia). auto.
  - intros i Hi. rewrite !Hpd by (auto || lia). auto.
  - by rewrite Hpd by (auto || lia).
  - intros i Hi. rewrite Hpd by (auto || change PHYS_MAP_PDE_INDEX with 896; lia). auto.
  - intros pd i pt j Hin. rewrite table_of_ext by done. intros T Hj.
    rewrite Hpt by (done || by right; eauto). rewrite user_page_ext. eauto.
Qed.
End ext.

(** Memory that changes only outside the tables and the boot directory. *)
Definition tables_kept (m m' : mem) (pds : list Z) : Prop :=
  forall p x, is_table m pds p \/ p = boot_pd k -> p <= x < p + FRAME_SIZE -> m' x = m x.

Lemma kept_load m m' pds p i :
  tables_kept m m' pds -> is_table m pds p \/ p = boot_pd k -> 0 <= i < 1024 ->
  load32 m' (p + 4 * i) = load32 m (p + 4 * i).
Proof.
  intros T Hp Hi. apply load32_ext. intros x Hx. apply (T p); [done|]. unfold FRAME_SIZE. lia.
Qed.

(** What [translate] reads, for a directory of the system. *)
Lemma translate_cases m b pds pd va :
  vm_wf k m b pds -> pd ∈ pds -> is_u32 va -> let e := pde_at m pd (va / 2 ^ 22) in
  0 <= va / 2 ^ 22 < 1024 /\
  (present e = false \/ (present e = true /\ ps_bit e = true /\ user_bit e = false) \/
   (present e = true /\ ps_bit e = false /\ table_of m pd (va / 2 ^ 22) (entry_addr e))).
Proof.
  intros W Hin Hv e. subst e. unfold is_u32 in Hv.
  assert (0 <= va / 2 ^ 22 < 1024) as Hi by dlia. assert (KI := KERNEL_VMA_PDE_INDEX_eq).
  set (i := va / 2 ^ 22) in *. split; [done|].
  destruct (present (pde_at m pd i)) eqn:P; [|by auto]. right.
  destruct (decide (i < KERNEL_VMA_PDE_INDEX)).
  - right. assert (T : table_of m pd i (entry_addr (pde_at m pd i))) by (by split_and!; [lia|lia| |]).
    destruct (vm_flags _ _ _ _ W _ _ _ Hin T) as (-> & _). auto.
  - left. split; [done|]. rewrite (vm_kernel _ _ _ _ W) in * by (done || lia).
    apply (vm_kernel_ps _ _ _ _ W); [lia|done].
Qed.

Lemma translate_ext m m' b pds pd va :
  vm_wf k m b pds -> pd ∈ pds -> is_u32 va ->
  pde_at m' pd (va / 2 ^ 22) = pde_at m pd (va / 2 ^ 22) ->
  (forall pt, table_of m pd (va / 2 ^ 22) pt ->
     pte_at m' pt (va / 2 ^ 12 mod 1024) = pte_at m pt (va / 2 ^ 12 mod 1024)) ->
  translate m' pd va = translate m pd va.
Proof.
  intros W Hin Hv Hd Ht. destruct (translate_cases m b pds pd va W Hin Hv) as (_ & C).
  unfold translate. rewrite Hd. destruct C as [-> |[(-> & -> & _)|(-> & -> & T)]]; [done|done|].
  by rewrite Ht.
Qed.

Lemma vm_wf_kept m m' b pds :
  vm_wf k m b pds -> mem_ok m' -> tables_kept m m' pds ->
  vm_wf k m' b pds /\ (forall p, is_table m' pds p <-> is_table m pds p) /\
  (forall p, user_page k m b pds p -> user_page k m' b pds p) /\
  (forall pd va, pd ∈ pds -> is_u32 va -> translate m' pd va = translate m pd va).
Proof.
  intros W M T.
  assert (H1 : forall pd i, pd ∈ pds \/ pd = boot_pd k -> 0 <= i < 1024 ->
                 pde_at m' pd i = pde_at m pd i).
  { intros pd i [?|?] ?; eapply kept_load; eauto using pd_table. }
  assert (H2 : forall pt j, is_table m pds pt -> 0 <= j < 1024 -> pte_at m' pt j = pte_at m pt j).
  { intros. eapply kept_load; eauto. }
  split_and!; [by eapply vm_wf_ext|intros; by eapply is_table_ext| |].
  - intros p. by apply user_page_ext.
  - intros pd va Hin Hv. destruct (translate_cases m b pds pd va W Hin Hv) as (R & _).
    eapply translate_ext; [done|done|done|by apply H1; auto|].
    intros pt Tp. apply H2; [by eapply pt_table|]. apply Z.mod_pos_bound. lia.
Qed.

Lemma vm_wf_bitmap m b b' pds : vm_wf k m b pds -> bitmap_le b b' -> vm_wf k m b' pds.
Proof.
  intros [W1 _ W3 W4 W5 W6 W7 W7' W8 W9 W9' Wk1 Wk2 Wk3 W10] L. split; try done.
  - apply L.
  - intros f Hf. by eapply claimed_le; [|apply W4].
  - intros p [A O]%W6. split; [by eapply allocated_le|done].
  - destruct L as [-> _]. done.
  - intros pd i pt j H1 H2 H3 H4. destruct (W10 _ _ _ _ H1 H2 H3 H4) as (C & ?).
    split; [by eapply claimed_le|done].
Qed.

Lemma user_page_bitmap m b b' pds p :
  bitmap_le b b' -> user_page k m b pds p -> user_page k m b' pds p.
Proof. intros L (C & H). split; [by eapply claimed_le|done]. Qed.

(** ** Fresh frames *)

(** What [alloc_frame] gives, for the page tables. *)
Lemma alloc_fresh m b pds b' p :
  vm_wf k m b pds -> alloc_frame b = Ok (b', Some p) ->
  vm_wf k m b' pds /\ bitmap_le b b' /\ fresh k m b' pds p /\
  (forall q, claimed b q -> q <> p).
Proof.
  intros W E. destruct (alloc_frame_ok b (vm_bitmap _ _ _ _ W)) as (b'' & o & E' & H).
  rewrite E in E'. injection E' as <- <-. destruct H as (f & -> & Hf & U & _ & (C & Wb & Up)).
  assert (L : bitmap_le b b').
  { split_and!; [done|done|]. intros g Hg Ug.
    destruct (Up g) as [U1 U2]; [lia|]. destruct (decide (g = f)) as [->|]; [auto|by rewrite U2]. }
  assert (N : forall q, claimed b q -> q <> f * FRAME_SIZE).
  { intros q (g & -> & Ug) Eq. unfold FRAME_SIZE in Eq. replace g with f in Ug by lia.
    rewrite Ug in U; [done|lia]. }
  split_and!; [by eapply vm_wf_bitmap|done| |done]. split.
  - exists f. rewrite C. split_and!; [done|lia|lia|]. by apply Up; [lia|].
  - intros Hin. by apply (N (f * FRAME_SIZE)); [apply W|].
  - intros [A _]%(vm_table _ _ _ _ W). by eapply N; [apply allocated_claimed|].
  - intros pd i pt j H1 H2 H3 H4. destruct (vm_user _ _ _ _ W _ _ _ _ H1 H2 H3 H4) as (C' & _).
    by apply N.
Qed.

Section fresh.
Context (m : mem) (b : bitmap) (pds : list Z) (p : Z).
Context (W : vm_wf k m b pds) (F : fresh k m b pds p).

Lemma fresh_mod : p mod FRAME_SIZE = 0.
Proof. eapply allocated_mod, F. Qed.

Lemma fresh_user_page : user_page k m b pds p.
Proof. split_and!; [apply allocated_claimed, F|apply F|apply F]. Qed.

Lemma fresh_not_boot : p <> boot_pd k.
Proof. intros ->. apply (fresh_outside _ _ _ _ _ F), (vm_boot _ _ _ _ W). Qed.

(** Writes inside a fresh frame. *)
Definition only_in (m' : mem) : Prop := forall x, ~ (p <= x < p + FRAME_SIZE) -> m' x = m x.

Lemma only_in_kept m' : only_in m' -> tables_kept m m' pds.
Proof.
  intros O q x Hq Hx. apply O. intros Hp.
  assert (q <> p) as Hne.
  { destruct Hq as [Hq| ->]; [intros ->; by apply (fresh_table _ _ _ _ _ F)|].
    intros E. by apply fresh_not_boot. }
  assert (q mod FRAME_SIZE = 0) as Hm.
  { destruct Hq as [Hq| ->]; [by eapply table_mod|apply (vm_boot _ _ _ _ W)]. }
  pose proof fresh_mod as Hm'. unfold FRAME_SIZE in *. dlia.
Qed.

Lemma fresh_write m' :
  mem_ok m' -> only_in m' -> vm_wf k m' b pds /\ fresh k m' b pds p /\
  (forall q, user_page k m b pds q -> user_page k m' b pds q) /\
  (forall pd va, pd ∈ pds -> is_u32 va -> translate m' pd va = translate m pd va).
Proof.
  intros M O. pose proof (only_in_kept m' O) as T.
  destruct (vm_wf_kept _ _ _ _ W M T) as (W' & I & U & R). split_and!; [done| |done|done].
  split; [apply F|apply F|rewrite I; apply F|].
  intros pd i pt j H1 H2 H3. 
  assert (H2' : table_of m pd i pt).
  { unfold table_of in *. unfold pde_at in *. rewrite (kept_load m m' pds) in H2; [done|done| |].
    - left. by left.
    - rewrite KERNEL_VMA_PDE_INDEX_eq in H2. lia. }
  unfold pte_at. rewrite (kept_load m m' pds) by (done || left; by eapply pt_table).
  by eapply F.
Qed.
End fresh.

(** ** Linking a fresh, empty frame as a page table *)

Section link_table.
Context (m : mem) (b : bitmap) (pds : list Z) (p pd i e : Z).
Context (W : vm_wf k m b pds) (F : fresh k m b pds p) (Hpd : pd ∈ pds).
Context (Hi : 0 <= i < KERNEL_VMA_PDE_INDEX) (Hnp : present (pde_at m pd i) = false).
Context (Hz : forall j, 0 <= j < 1024 -> present (pte_at m p j) = false).
Context (He : is_u32 e) (Ha : entry_addr e = p) (Hp : present e = true).
Context (Hfl : ps_bit e = false /\ user_bit e = true /\ writable_bit e = true).

Let m' := store32 m (pd + 4 * i) e.

Lemma link_load q j :
  q mod FRAME_SIZE = 0 -> 0 <= j < 1024 ->
  load32 m' (q + 4 * j) = if decide (pd = q /\ i = j) then e else load32 m (q + 4 * j).
Proof.
  intros Hq Hj. apply load32_store_word; [|done| |done|done].
  - eapply table_mod; [done|by left].
  - rewrite KERNEL_VMA_PDE_INDEX_eq in Hi. lia.
Qed.

Lemma link_table_of pd' i' q :
  pd' ∈ pds -> table_of m' pd' i' q <-> table_of m pd' i' q \/ (pd' = pd /\ i' = i /\ q = p).
Proof.
  intros Hin. unfold table_of, pde_at. destruct (decide (0 <= i' < KERNEL_VMA_PDE_INDEX)) as [Hr|Hr].
  2: { split; [tauto|]. intros [?|(? & -> & _)]; tauto. }
  rewrite link_load; [|eapply table_mod; [done|by left]|rewrite KERNEL_VMA_PDE_INDEX_eq in Hr; lia].
  case_decide as D.
  - destruct D as [<- <-]. unfold pde_at in Hnp. rewrite Hp, Hnp, Ha. naive_solver.
  - split; [tauto|]. intros [?|(-> & -> & _)]; tauto.
Qed.

Lemma link_is_table q : is_table m' pds q <-> is_table m pds q \/ q = p.
Proof.
  unfold is_table. split.
  - intros [?|(pd' & i' & Hin & T)]; [by auto|]. apply link_table_of in T; [|done].
    destruct T as [T|(_ & _ & ->)]; [|by auto]. left. right. eauto.
  - intros [[?|(pd' & i' & Hin & T)]| ->]; [by left| |].
    + right. exists pd', i'. split; [done|]. apply link_table_of; auto.
    + right. exists pd, i. split; [done|]. apply link_table_of; auto.
Qed.

Lemma link_pte q j : q ∉ pds -> q mod FRAME_SIZE = 0 -> 0 <= j < 1024 -> pte_at m' q j = pte_at m q j.
Proof.
  intros Hq Hm Hj. unfold pte_at. rewrite link_load by done.
  rewrite decide_False; [done|]. intros [-> _]. done.
Qed.

Lemma link_user_page q : q <> p -> user_page k m b pds q -> user_page k m' b pds q.
Proof. intros Hne (C & N & O). split_and!; [done| |done]. rewrite link_is_table. tauto. Qed.

Lemma link_table_wf : vm_wf k m' b pds.
Proof.
  pose proof W as [W1 W2 W3 W4 W5 W6 W7 W7' W8 W9 W9' Wk1 Wk2 Wk3 W10]. pose proof F as [F1 F2 F3 F4].
  assert (KI := KERNEL_VMA_PDE_INDEX_eq).
  assert (PM : forall q, q ∈ pds -> q mod FRAME_SIZE = 0) by (intros; eapply table_mod; [done|by left]).
  split; try done; [by apply store32_ok|..].
  - intros q [?| ->]%link_is_table; [auto|by split].
  - intros pd' i' pt Hin [T|(_ & _ & ->)]%link_table_of; [eauto| |done].
    intros ?. apply F3. by left.
  - intros pd' i' pt Hin T. pose proof T as [T'|(-> & -> & ->)]%link_table_of; [| |done].
    + unfold pde_at. rewrite link_load by (auto || destruct T; lia).
      case_decide; [done|]. by eapply W7'.
    + unfold pde_at. rewrite link_load by (auto || lia). by rewrite decide_True.
  - intros pd1 i1 pd2 i2 pt H1 H2 T1 T2.
    apply link_table_of in T1; [|done]. apply link_table_of in T2; [|done].
    assert (NT : forall pd' i', pd' ∈ pds -> ~ table_of m pd' i' p).
    { intros pd' i' ? ?. apply F3. right. eauto. }
    destruct T1 as [T1|(E1 & E2 & E3)], T2 as [T2|(E4 & E5 & E6)].
    + by eapply W8.
    + subst pt. by destruct (NT _ _ H1 T1).
    + subst pt. by destruct (NT _ _ H2 T2).
    + split; congruence.
  - intros pd' i' Hin Hr. unfold pde_at. rewrite !link_load by (auto || lia || apply W3).
    rewrite !decide_False by lia. by apply W9.
  - intros i' Hr. unfold pde_at. rewrite !link_load by (auto || lia || apply W3).
    rewrite decide_False by lia. by apply W9'.
  - unfold pde_at. rewrite !link_load by (auto || lia || apply W3). by rewrite decide_False by lia.
  - intros i' Hr. unfold pde_at.
    rewrite !link_load by (apply W3 || change PHYS_MAP_PDE_INDEX with 896; lia).
    rewrite decide_False by (change PHYS_MAP_PDE_INDEX with 896; lia). by apply Wk2.
  - intros pd' i' pt j Hin T Hj. pose proof T as [T'|(_ & _ & ->)]%link_table_of; [| |done].
    + rewrite link_pte; [|by eapply W7|eapply table_mod; [done|by eapply pt_table]|done].
      intros P. apply link_user_page; [by eapply F4|by eapply W10].
    + rewrite link_pte; [|intros ?; apply F3; by left|by eapply allocated_mod|done].
      intros P. by rewrite Hz in P.
Qed.

Lemma link_translate pd' va : pd' ∈ pds -> is_u32 va -> translate m' pd' va = translate m pd' va.
Proof.
  intros Hin Hv. destruct (translate_cases m b pds pd' va W Hin Hv) as (R & _).
  pose proof (Z.mod_pos_bound (va / 2 ^ 12) 1024 ltac:(lia)) as Rj.
  assert (PM : pd' mod FRAME_SIZE = 0) by (eapply table_mod; [done|by left]).
  destruct (decide (pd = pd' /\ i = va / 2 ^ 22)) as [[Epd Ei]|Hne].
  - unfold translate. rewrite <- Epd, <- Ei, Hnp. unfold pde_at.
    rewrite link_load by (rewrite ?Epd, ?Ei; done). rewrite decide_True by done. destruct Hfl as (-> & _). rewrite Hp, Ha.
    rewrite link_pte; [by rewrite Hz|intros ?; apply (fresh_table _ _ _ _ _ F); by left|by eapply allocated_mod, F|done].
  - eapply translate_ext; try done.
    + unfold pde_at. rewrite link_load by done. by rewrite decide_False.
    + intros pt T. apply link_pte; [by eapply (vm_pt _ _ _ _ W)|eapply table_mod; [done|by eapply pt_table]|done].
Qed.
End link_table.

(** ** Writing one page-table entry *)

Section set_pte.
Context (m : mem) (b : bitmap) (pds : list Z) (pd i pt j e : Z).
Context (W : vm_wf k m b pds) (Hpd : pd ∈ pds) (T : table_of m pd i pt).
Context (Hj : 0 <= j < 1024) (He : is_u32 e) (Hu : user_page k m b pds (entry_addr e)).

Let m' := store32 m (pt + 4 * j) e.

Lemma set_load q i' :
  q mod FRAME_SIZE = 0 -> 0 <= i' < 1024 ->
  load32 m' (q + 4 * i') = if decide (pt = q /\ j = i') then e else load32 m (q + 4 * i').
Proof.
  intros Hq Hi'. apply load32_store_word; try done.
  eapply table_mod; [done|by eapply pt_table].
Qed.

Lemma set_pde pd' i' :
  pd' ∈ pds \/ pd' = boot_pd k -> 0 <= i' < 1024 -> pde_at m' pd' i' = pde_at m pd' i'.
Proof.
  intros Hin Hi'. unfold pde_at. rewrite set_load; [|destruct Hin as [?| ->]|done].
  - rewrite decide_False; [done|]. intros [<- _].
    destruct Hin as [?|?]; [by apply (vm_pt _ _ _ _ W pd i pt)|].
    by eapply (table_not_boot m b pds pt W); [eapply pt_table|].
  - eapply table_mod; [done|by left].
  - apply (vm_boot _ _ _ _ W).
Qed.

Lemma set_table_of pd' i' q : pd' ∈ pds -> table_of m' pd' i' q <-> table_of m pd' i' q.
Proof.
  intros Hin. unfold table_of. rewrite KERNEL_VMA_PDE_INDEX_eq.
  destruct (decide (0 <= i' < 768)); [|tauto]. rewrite set_pde by (auto || lia). done.
Qed.

Lemma set_is_table q : is_table m' pds q <-> is_table m pds q.
Proof.
  unfold is_table. split; (intros [?|(pd' & i' & ? & T')]; [by left|right; exists pd', i']);
    by rewrite set_table_of in *.
Qed.

Lemma set_user_page q : user_page k m' b pds q <-> user_page k m b pds q.
Proof. unfold user_page. by rewrite set_is_table. Qed.

Lemma set_pte_at q j' :
  is_table m pds q -> 0 <= j' < 1024 ->
  pte_at m' q j' = if decide (pt = q /\ j = j') then e else pte_at m q j'.
Proof. intros Hq Hj'. apply set_load; [by eapply table_mod|done]. Qed.

Lemma set_pte_wf : vm_wf k m' b pds.
Proof.
  pose proof W as [W1 W2 W3 W4 W5 W6 W7 W7' W8 W9 W9' Wk1 Wk2 Wk3 W10]. assert (KI := KERNEL_VMA_PDE_INDEX_eq).
  split; try done; [by apply store32_ok|..].
  - intros q. rewrite set_is_table. auto.
  - intros pd' i' q Hin. rewrite set_table_of by done. eauto.
  - intros pd' i' q Hin. rewrite set_table_of by done. intros T'.
    rewrite set_pde; [by eauto|auto|]. destruct T' as (? & _). lia.
  - intros pd1 i1 pd2 i2 q H1 H2. rewrite !set_table_of by done. eauto.
  - intros pd' i' Hin Hi'. rewrite !set_pde by (auto || lia). auto.
  - intros i' Hi'. rewrite !set_pde by (auto || lia). auto.
  - by rewrite set_pde by (auto || lia).
  - intros i' Hi'. rewrite set_pde by (auto || change PHYS_MAP_PDE_INDEX with 896; lia). auto.
  - intros pd' i' q j' Hin. rewrite set_table_of by done. intros T' Hj'.
    rewrite set_user_page, set_pte_at by (done || by eapply pt_table).
    case_decide; [by auto|]. by eauto.
Qed.

Lemma set_translate pd' va :
  pd' ∈ pds -> is_u32 va -> present e = true ->
  translate m' pd' va =
  if decide (pd' = pd /\ va / 2 ^ 22 = i /\ va / 2 ^ 12 mod 1024 = j)
  then Some (Translation (entry_addr e + va mod 2 ^ 12) (user_bit e) (writable_bit e))
  else translate m pd' va.
Proof.
  intros Hin Hv Pe. destruct (translate_cases m b pds pd' va W Hin Hv) as (R & _).
  pose proof (Z.mod_pos_bound (va / 2 ^ 12) 1024 ltac:(lia)) as Rj. case_decide as D.
  - destruct D as (Epd & Ei & Ej). unfold translate. rewrite set_pde by auto.
    rewrite Epd, Ei, Ej.
    destruct (vm_flags _ _ _ _ W _ _ _ Hpd T) as (-> & -> & ->).
    pose proof T as (_ & -> & Ept). rewrite <- Ept.
    rewrite set_pte_at by (done || by apply (pt_table m pds pd i pt)).
    rewrite decide_True by done. cbn [andb].
    by rewrite Pe.
  - refine (translate_ext m m' b pds pd' va W Hin Hv _ _); [apply set_pde; auto|].
    intros pt' T'. rewrite set_pte_at by (done || by eapply pt_table).
    rewrite decide_False; [done|]. intros [Ep Ej]. apply D. rewrite <- Ep in T'.
    by destruct (vm_inj _ _ _ _ W _ _ _ _ _ Hpd Hin T T') as [<- <-].
Qed.
End set_pte.

(** ** [map_page] *)

Lemma present_land e : negb (Z.land e PAGE_PRESENT =? 0) = present e.
Proof. exact (land_bit_testbit e 0 ltac:(lia)). Qed.

Lemma ps_land e : negb (Z.land e PAGE_PS =? 0) = ps_bit e.
Proof. exact (land_bit_testbit e 7 ltac:(lia)). Qed.

Lemma user_land e : negb (Z.land e PAGE_USER =? 0) = user_bit e.
Proof. exact (land_bit_testbit e 2 ltac:(lia)). Qed.

Lemma pd_index_range va : 0 <= va < KERNEL_VMA -> 0 <= va / 2 ^ 22 < KERNEL_VMA_PDE_INDEX.
Proof. rewrite KERNEL_VMA_PDE_INDEX_eq. unfold KERNEL_VMA. intros. dlia. Qed.

(** The page number is the directory index and the table index together. *)
Lemma page_number va virt :
  va / FRAME_SIZE = virt / FRAME_SIZE <->
  va / 2 ^ 22 = virt / 2 ^ 22 /\ va / 2 ^ 12 mod 1024 = virt / 2 ^ 12 mod 2 ^ 10.
Proof.
  change FRAME_SIZE with (2 ^ 12). change (2 ^ 22) with (2 ^ 12 * 1024).
  rewrite <- !Z.div_div by lia. generalize (va / 2 ^ 12) (virt / 2 ^ 12). intros x y.
  change (2 ^ 10) with 1024. split; [by intros ->|]. intros [H1 H2].
  rewrite (Z.div_mod x 1024), (Z.div_mod y 1024) by lia. lia.
Qed.

Lemma bitmap_le_refl b : bitmap_wf b -> bitmap_le b b.
Proof. intros W. split; [done|]. by split. Qed.

Lemma bitmap_le_trans a b c : bitmap_le a b -> bitmap_le b c -> bitmap_le a c.
Proof.
  intros (C1 & W1 & H1) (C2 & W2 & H2). split_and!; [congruence|done|].
  intros f Hf U. apply H2; [by rewrite C1|auto].
Qed.

Lemma alloc_or_panic_ok b :
  bitmap_wf b ->
  alloc_or_panic b = Panicked OutOfPhysicalMemory \/
  exists b' p, alloc_or_panic b = Ok (b', p) /\ alloc_frame b = Ok (b', Some p).
Proof.
  intros W. unfold alloc_or_panic. destruct (alloc_frame_ok b W) as (b' & [p|] & -> & _); cbn.
  - right. eauto.
  - by left.
Qed.

(** What the operations on one address space keep: the invariant, every user
    page and its contents, and the translations [P] does not exempt. *)
Record vm_kept (m m' : mem) (b b' : bitmap) (pds : list Z) (P : Z -> Z -> Prop) : Prop := {
  kept_wf : vm_wf k m' b' pds;
  kept_le : bitmap_le b b';
  kept_user : forall q, user_page k m b pds q -> user_page k m' b' pds q;
  kept_bytes : forall q x, user_page k m b pds q -> q <= x < q + FRAME_SIZE -> m' x = m x;
  kept_tr : forall pd va, pd ∈ pds -> is_u32 va -> ~ P pd va -> translate m' pd va = translate m pd va
}.

Lemma vm_kept_refl m b pds P : vm_wf k m b pds -> vm_kept m m b b pds P.
Proof. intros W. split; try done. apply bitmap_le_refl, W. Qed.

Lemma vm_kept_trans m1 m2 m3 b1 b2 b3 pds P Q R :
  vm_kept m1 m2 b1 b2 pds P -> vm_kept m2 m3 b2 b3 pds Q ->
  (forall pd va, P pd va \/ Q pd va -> R pd va) -> vm_kept m1 m3 b1 b3 pds R.
Proof.
  intros [A1 A2 A3 A4 A5] [B1 B2 B3 B4 B5] H. split; [done|by eapply bitmap_le_trans|auto| |].
  - intros q x U Hx. rewrite (B4 q) by auto. eauto.
  - intros pd va H1 H2 N. rewrite B5, A5 by (done || intros ?; apply N, H; auto). done.
Qed.

Lemma user_page_mod m b pds q : user_page k m b pds q -> q mod FRAME_SIZE = 0.
Proof. intros ((f & -> & _) & _). by apply Z.mod_mul. Qed.

Lemma frames_disjoint p q x :
  p mod FRAME_SIZE = 0 -> q mod FRAME_SIZE = 0 -> p <> q ->
  q <= x < q + FRAME_SIZE -> ~ (p <= x < p + FRAME_SIZE).
Proof. unfold FRAME_SIZE. intros. dlia. Qed.

Lemma store_word_bytes m p q i v x :
  p mod FRAME_SIZE = 0 -> q mod FRAME_SIZE = 0 -> p <> q -> 0 <= i < 1024 ->
  q <= x < q + FRAME_SIZE -> store32 m (p + 4 * i) v x = m x.
Proof.
  intros Hp Hq Hne Hi Hx. pose proof (frames_disjoint p q x Hp Hq Hne Hx). unfold store32.
  case_match; [bool_simp; unfold FRAME_SIZE in *; lia|done].
Qed.

Section map_page.
Context (m : mem) (b : bitmap) (pds : list Z) (pd : Z) (W : vm_wf k m b pds) (Hpd : pd ∈ pds).

Lemma ensure_table_ok i :
  0 <= i < KERNEL_VMA_PDE_INDEX ->
  ensure_table m b pd i true = Panicked OutOfPhysicalMemory \/
  exists m1 b1 pt, ensure_table m b pd i true = Ok (m1, b1, pt) /\
    vm_kept m m1 b b1 pds (fun _ _ => False) /\ table_of m1 pd i pt.
Proof.
  intros Hi. assert (KI := KERNEL_VMA_PDE_INDEX_eq).
  unfold ensure_table. fold (pde_at m pd i). rewrite present_land.
  destruct (present (pde_at m pd i)) eqn:P.
  - right. assert (T : table_of m pd i (entry_addr (pde_at m pd i))) by done.
    destruct (vm_flags _ _ _ _ W _ _ _ Hpd T) as (_ & U & _).
    rewrite <- user_land in U. apply negb_true_iff in U. rewrite U. cbn [andb].
    do 3 eexists. split; [done|]. split; [by apply vm_kept_refl|done].
  - destruct (alloc_or_panic_ok b (vm_bitmap _ _ _ _ W)) as [-> |(b' & p & -> & E)]; [by left|].
    right. do 3 eexists. split; [done|].
    destruct (alloc_fresh m b pds b' p W E) as (W' & L & F & N).
    pose proof (allocated_mod _ _ (fresh_alloc _ _ _ _ _ F)) as Pm.
    pose proof (allocated_u32 _ _ (vm_bitmap _ _ _ _ W') (fresh_alloc _ _ _ _ _ F)) as Pu.
    destruct (fresh_write m b' pds p W' F (zero_frame m p)) as (W1 & F1 & U1 & R1).
    { apply zero_frame_ok, W. }
    { intros x Hx. unfold zero_frame, write_bytes. case_match; [bool_simp; lia|done]. }
    change (Z.lor (Z.lor PAGE_PRESENT PAGE_WRITABLE) PAGE_USER) with 7.
    assert (Bits : forall j, 0 <= j < 12 -> Z.testbit (Z.lor p 7) j = Z.testbit 7 j)
      by (intros; by apply entry_testbit).
    assert (Pd0 : pde_at (zero_frame m p) pd i = pde_at m pd i).
    { unfold pde_at. rewrite load32_zero_word; [|done|eapply table_mod; [done|by left]|lia].
      rewrite decide_False; [done|]. intros ->. apply (fresh_table _ _ _ _ _ F). by left. }
    assert (Z0 : forall j, 0 <= j < 1024 -> present (pte_at (zero_frame m p) p j) = false).
    { intros j Hj. unfold pte_at. rewrite load32_zero_word by done. by rewrite decide_True. }
    rewrite <- Pd0 in P.
    assert (A1 : is_u32 (Z.lor p 7)) by (apply entry_u32; [done|lia]).
    assert (A2 : entry_addr (Z.lor p 7) = p) by (apply entry_addr_make; [done|done|lia]).
    assert (A3 : present (Z.lor p 7) = true) by (apply Bits; lia).
    assert (A4 : ps_bit (Z.lor p 7) = false /\ user_bit (Z.lor p 7) = true /\
                 writable_bit (Z.lor p 7) = true) by (split_and!; apply Bits; lia).
    split.
    + split; [by apply link_table_wf with p|done| | |].
      * intros q Uq. apply (link_user_page _ b' pds p pd i _ W1); try done.
        -- apply N, Uq.
        -- apply U1. by eapply user_page_bitmap.
      * intros q x Uq Hx. pose proof (user_page_mod _ _ _ _ Uq) as Qm.
        rewrite (store_word_bytes _ pd q); [| |done| |lia|done].
        -- unfold zero_frame, write_bytes.
           assert (p <> q) as Hne by (intros ->; by apply (N q); [apply Uq|]).
           pose proof (frames_disjoint p q x Pm Qm Hne Hx). case_match; [bool_simp; lia|done].
        -- eapply table_mod; [done|by left].
        -- apply not_eq_sym, (user_page_not_table m b pds); [done|by left].
      * intros pd' va Hin Hv _. rewrite (link_translate _ b' pds p pd i); try done. by apply R1.
    + apply (link_table_of _ b' pds p pd i _ W1); try done. by right.
Qed.

Lemma map_page_ok virt phys w :
  virt mod FRAME_SIZE = 0 -> 0 <= virt < KERNEL_VMA -> is_u32 phys ->
  user_page k m b pds phys ->
  map_page m b pd virt phys true w = Panicked OutOfPhysicalMemory \/
  exists m' b', map_page m b pd virt phys true w = Ok (m', b') /\
    vm_kept m m' b b' pds (fun pd' va => pd' = pd /\ va / FRAME_SIZE = virt / FRAME_SIZE) /\
    forall va, is_u32 va -> va / FRAME_SIZE = virt / FRAME_SIZE ->
      translate m' pd va = Some (Translation (phys + va mod FRAME_SIZE) true w).
Proof.
  intros Hvm Hv Hp Up. assert (KI := KERNEL_VMA_PDE_INDEX_eq).
  unfold map_page.
  rewrite Hvm, (user_page_mod _ _ _ _ Up). cbn [Z.eqb negb].
  rewrite Z.shiftr_div_pow2 by lia. set (i := virt / 2 ^ 22).
  change 0x3FF with (Z.ones 10). rewrite Z.land_ones, Z.shiftr_div_pow2 by lia.
  set (j := virt / 2 ^ 12 mod 2 ^ 10).
  assert (Hi : 0 <= i < KERNEL_VMA_PDE_INDEX) by (by apply pd_index_range).
  assert (Hj : 0 <= j < 1024) by (subst j; apply Z.mod_pos_bound; lia).
  fold (pde_at m pd i). rewrite negb_orb, present_land, ps_land.
  assert (C : present (pde_at m pd i) && ps_bit (pde_at m pd i) = false).
  { destruct (present (pde_at m pd i)) eqn:P; [|done].
    by destruct (vm_flags _ _ _ _ W pd i (entry_addr (pde_at m pd i)) Hpd) as (-> & _). }
  rewrite C. destruct (ensure_table_ok i Hi) as [-> |(m1 & b1 & pt & -> & K & T)]; [by left|].
  right. do 2 eexists. split; [done|].
  set (fl := if w then Z.lor (Z.lor PAGE_PRESENT PAGE_WRITABLE) PAGE_USER
             else Z.lor PAGE_PRESENT PAGE_USER).
  replace (Z.lor (if w then Z.lor PAGE_PRESENT PAGE_WRITABLE else PAGE_PRESENT) PAGE_USER) with fl
    by (by destruct w).
  assert (Hfl : 0 <= fl < 128) by (subst fl; by destruct w).
  pose proof (user_page_mod _ _ _ _ Up) as Pm.
  assert (Hpm : entry_addr (Z.lor phys fl) = phys) by (by apply entry_addr_make).
  assert (He : is_u32 (Z.lor phys fl)) by (by apply entry_u32).
  assert (Bits : forall n, 0 <= n < 12 -> Z.testbit (Z.lor phys fl) n = Z.testbit fl n)
    by (intros; by apply entry_testbit).
  assert (B0 : present (Z.lor phys fl) = true) by (unfold present; rewrite Bits by lia; by destruct w).
  assert (B1 : writable_bit (Z.lor phys fl) = w) by (unfold writable_bit; rewrite Bits by lia; by destruct w).
  assert (B2 : user_bit (Z.lor phys fl) = true) by (unfold user_bit; rewrite Bits by lia; by destruct w).
  assert (U1 : user_page k m1 b1 pds (entry_addr (Z.lor phys fl))).
  { rewrite Hpm. by apply (kept_user _ _ _ _ _ _ K). }
  pose proof (kept_wf _ _ _ _ _ _ K) as W1.
  assert (Same : forall va, is_u32 va -> va / FRAME_SIZE = virt / FRAME_SIZE <->
                   va / 2 ^ 22 = i /\ va / 2 ^ 12 mod 1024 = j).
  { intros va _. apply page_number. }
  split.
  - eapply vm_kept_trans; [exact K| |by intros ? ? [[]|H]; exact H]. split.
    + by apply (set_pte_wf m1 b1 pds pd i).
    + apply bitmap_le_refl, W1.
    + intros q. by apply (set_user_page m1 b1 pds pd i).
    + intros q x Uq Hx. apply (store_word_bytes _ pt q); [|by eapply user_page_mod| |done|done].
      * eapply table_mod; [done|by eapply pt_table].
      * apply not_eq_sym, (user_page_not_table m1 b1 pds); [done|by eapply pt_table].
    + intros pd' va Hin Hva N. rewrite (set_translate m1 b1 pds pd i) by done.
      rewrite decide_False; [done|]. intros (-> & E). by apply N; split; [|by apply Same].
  - intros va Hva E. rewrite (set_translate m1 b1 pds pd i) by done.
    apply Same in E; [|done]. rewrite decide_True by done. by rewrite Hpm, B1, B2.
Qed.
End map_page.

(** ** New address spaces *)

Lemma copy_pdes_spec n m t bt i :
  t mod FRAME_SIZE = 0 -> bt mod FRAME_SIZE = 0 -> t <> bt -> mem_ok m ->
  0 <= i -> i + Z.of_nat n <= 1024 ->
  let m' := copy_pdes n m t bt i in
  mem_ok m' /\ (forall x, ~ (t <= x < t + FRAME_SIZE) -> m' x = m x) /\
  forall j, 0 <= j < 1024 ->
    load32 m' (t + 4 * j) =
    if decide (i <= j < i + Z.of_nat n) then load32 m (bt + 4 * j) else load32 m (t + 4 * j).
Proof.
  intros Ht Hb Hne. revert m i. induction n as [|n IH]; intros m i M Hi Hn m'.
  { split_and!; [done|done|]. intros j Hj. by rewrite decide_False by lia. }
  subst m'. cbn [copy_pdes]. set (m1 := store32 _ _ _).
  destruct (IH m1 (i + 1)) as (M' & O & L); [by apply store32_ok|lia|lia|].
  split_and!; [done| |].
  - intros x Hx. rewrite O by done. subst m1. unfold store32, FRAME_SIZE in *.
    case_match; [bool_simp; lia|done].
  - intros j Hj. rewrite L by done. subst m1.
    rewrite !load32_store_word by (done || lia || by apply load32_u32).
    rewrite (decide_False (P := t = bt /\ i = j)) by (intros [? _]; done).
    destruct (decide (i + 1 <= j < i + 1 + Z.of_nat n)),
      (decide (i <= j < i + Z.of_nat (S n))), (decide (t = t /\ i = j)) as [[_ <-]|]; try done; lia.
Qed.

Section link_pd.
Context (m : mem) (b : bitmap) (pds : list Z) (p : Z).
Context (W : vm_wf k m b pds) (F : fresh k m b pds p).
Context (Hlow : forall i, 0 <= i < KERNEL_VMA_PDE_INDEX -> present (pde_at m p i) = false).
Context (Hhigh : forall i, KERNEL_VMA_PDE_INDEX <= i < 1024 -> pde_at m p i = pde_at m (boot_pd k) i).

Lemma link_pd_table q : is_table m (pds ++ [p]) q <-> is_table m pds q \/ q = p.
Proof.
  unfold is_table. split.
  - intros [[?|?%list_elem_of_singleton]%elem_of_app|(pd & i & [Hin|Hin]%elem_of_app & T)];
      [by auto|by auto|left; right; eauto|].
    apply list_elem_of_singleton in Hin as ->. destruct T as (Hi & P & _).
    by rewrite Hlow in P.
  - intros [[?|(pd & i & Hin & T)]| ->]; [left; set_solver| |left; set_solver].
    right. exists pd, i. set_solver.
Qed.

Lemma link_pd_old pd i pt : pd ∈ pds ++ [p] -> table_of m pd i pt -> pd ∈ pds.
Proof.
  intros [?|Hin%list_elem_of_singleton]%elem_of_app (Hi & P & _); [done|].
  subst. by rewrite Hlow in P.
Qed.

Lemma link_pd_user_page q : q <> p -> user_page k m b pds q -> user_page k m b (pds ++ [p]) q.
Proof. intros Hne (C & N & O). split_and!; [done| |done]. rewrite link_pd_table. tauto. Qed.

Lemma link_pd_wf : vm_wf k m b (pds ++ [p]).
Proof.
  pose proof W as [W1 W2 W3 W4 W5 W6 W7 W7' W8 W9 W9' Wk1 Wk2 Wk3 W10]. pose proof F as [F1 F2 F3 F4].
  assert (Np : p ∉ pds) by (intros ?; apply F3; by left).
  split; try done.
  - apply NoDup_app. split_and!; [done|set_solver|apply NoDup_singleton].
  - intros q [?| ->]%link_pd_table; [auto|by split].
  - intros pd i pt Hin T. pose proof (link_pd_old _ _ _ Hin T) as Hin'.
    apply not_elem_of_app. split; [by eapply W7|].
    rewrite list_elem_of_singleton. intros ->. apply F3. by eapply pt_table.
  - intros pd i pt Hin T. by eapply W7'; [eapply link_pd_old|].
  - intros pd i pd' i' pt H1 H2 T1 T2. by eapply W8; [eapply link_pd_old|eapply link_pd_old| |].
  - intros pd i [?| ->%list_elem_of_singleton]%elem_of_app Hi; auto.
  - intros pd i pt j Hin T Hj P. pose proof (link_pd_old _ _ _ Hin T) as Hin'.
    apply link_pd_user_page; [by eapply F4|by eapply W10].
Qed.
End link_pd.

(** Forgetting an address space that no task got. *)
Lemma is_table_app m pds p q : is_table m pds q -> is_table m (pds ++ [p]) q.
Proof.
  intros [?|(pd & i & Hin & T)]; [left; set_solver|right; exists pd, i; set_solver].
Qed.

Lemma user_page_drop m b pds p q : user_page k m b (pds ++ [p]) q -> user_page k m b pds q.
Proof. intros (C & N & O). split_and!; [done| |done]. intros ?. by apply N, is_table_app. Qed.

Lemma vm_wf_drop m b pds p : vm_wf k m b (pds ++ [p]) -> vm_wf k m b pds.
Proof.
  intros [W1 W2 W3 W4 W5 W6 W7 W7' W8 W9 W9' Wk1 Wk2 Wk3 W10].
  assert (I : forall q, q ∈ pds -> q ∈ pds ++ [p]) by set_solver.
  split; try done.
  - by apply NoDup_app in W5 as [? _].
  - intros q Hq. by apply W6, is_table_app.
  - intros pd i pt Hin T Hp. exact (W7 pd i pt (I _ Hin) T (I _ Hp)).
  - intros pd i pt Hin. by apply W7', I.
  - intros pd i pd' i' pt Hin Hin'. by apply W8; apply I.
  - intros pd i Hin. by apply W9, I.
  - intros pd i pt j Hin T Hj P. eapply user_page_drop. by eapply W10; [apply I| | |].
Qed.

Lemma page_directory_new_ok m b pds :
  vm_wf k m b pds ->
  page_directory_new m b (boot_pd k) = Panicked OutOfPhysicalMemory \/
  exists m' b' p, page_directory_new m b (boot_pd k) = Ok (m', b', p) /\
    vm_wf k m' b' (pds ++ [p]) /\ vm_kept m m' b b' pds (fun _ _ => False) /\
    (forall q, user_page k m b pds q -> user_page k m' b' (pds ++ [p]) q) /\
    (forall va, 0 <= va < KERNEL_VMA -> translate m' p va = None).
Proof.
  intros W. unfold page_directory_new.
  destruct (alloc_or_panic_ok b (vm_bitmap _ _ _ _ W)) as [-> |(b' & p & -> & E)]; [by left|].
  right. do 3 eexists. split; [reflexivity|].
  destruct (alloc_fresh m b pds b' p W E) as (W1 & L & F & N).
  pose proof (allocated_mod _ _ (fresh_alloc _ _ _ _ _ F)) as Pm.
  pose proof (fresh_not_boot _ _ _ _ W1 F) as Nb. pose proof (vm_boot _ _ _ _ W) as [_ Bm].
  assert (KI := KERNEL_VMA_PDE_INDEX_eq).
  destruct (copy_pdes_spec (Z.to_nat (1024 - KERNEL_VMA_PDE_INDEX)) (zero_frame m p) p (boot_pd k)
              KERNEL_VMA_PDE_INDEX) as (M2 & O2 & L2); [done|done|done|apply zero_frame_ok, W|lia|lia|].
  generalize dependent (copy_pdes (Z.to_nat (1024 - KERNEL_VMA_PDE_INDEX)) (zero_frame m p) p
    (boot_pd k) KERNEL_VMA_PDE_INDEX). intros m2 M2 O2 L2.
  assert (O : forall x, ~ (p <= x < p + FRAME_SIZE) -> m2 x = m x).
  { intros x Hx. rewrite O2 by done. unfold zero_frame, write_bytes. case_match; [bool_simp; lia|done]. }
  destruct (fresh_write m b' pds p W1 F m2 M2 O) as (W2 & F2 & U2 & R2).
  assert (Low : forall i, 0 <= i < KERNEL_VMA_PDE_INDEX -> present (pde_at m2 p i) = false).
  { intros i Hi. unfold pde_at. rewrite L2 by lia. rewrite decide_False by lia.
    rewrite load32_zero_word by (done || lia). by rewrite decide_True. }
  assert (High : forall i, KERNEL_VMA_PDE_INDEX <= i < 1024 -> pde_at m2 p i = pde_at m2 (boot_pd k) i).
  { intros i Hi. unfold pde_at. rewrite L2 by lia. rewrite decide_True by lia.
    rewrite load32_zero_word by (done || lia). rewrite decide_False by done.
    symmetry. apply load32_ext. intros x Hx. apply O, (frames_disjoint p (boot_pd k)); try done.
    unfold FRAME_SIZE. lia. }
  split_and!.
  - by apply link_pd_wf.
  - split; [done|done| | |].
    + intros q U. apply U2. by eapply user_page_bitmap.
    + intros q x U Hx. apply O, (frames_disjoint p q); [done|by eapply user_page_mod| |done].
      intros <-. by apply (N p); [apply U|].
    + intros pd va Hin Hv _. by apply R2.
  - intros q U. assert (q <> p) by apply N, U.
    apply link_pd_user_page; try done. apply U2. by eapply user_page_bitmap.
  - intros va Hva. unfold translate. rewrite Low; [done|]. by apply pd_index_range.
Qed.

(** ** What user mode can reach *)

(** Every address user mode can access translates into a user page. *)
Lemma user_translation m b pds pd va t :
  vm_wf k m b pds -> pd ∈ pds -> is_u32 va ->
  translate m pd va = Some t -> tr_user t = true ->
  exists p, user_page k m b pds p /\ p <= tr_phys t < p + FRAME_SIZE.
Proof.
  intros W Hin Hv. destruct (translate_cases m b pds pd va W Hin Hv) as (R & C). unfold translate.
  destruct C as [-> |[(-> & -> & ->)|(P & S & T)]]; [done|by intros [= <-]|]. rewrite P, S.
  pose proof (Z.mod_pos_bound (va / 2 ^ 12) 1024 ltac:(lia)) as Rj.
  set (pte := pte_at m _ _). destruct (present pte) eqn:Pp; [|done]. intros [= <-] _.
  exists (entry_addr pte). split; [by eapply (vm_user _ _ _ _ W)|]. cbn.
  pose proof (Z.mod_pos_bound va (2 ^ 12) ltac:(lia)). unfold FRAME_SIZE. lia.
Qed.

(** The page it translates into, by its own address. *)
Lemma user_translation_page m b pds pd va x w :
  vm_wf k m b pds -> pd ∈ pds -> is_u32 va ->
  translate m pd va = Some (Translation x true w) -> user_page k m b pds (frame_base x).
Proof.
  intros W Hin Hv E. destruct (user_translation m b pds pd va _ W Hin Hv E eq_refl) as (p & U & Hp). cbn in Hp.
  pose proof U as ((f & Ef & _) & _). replace (frame_base x) with p; [done|].
  replace x with (p + (x - p)) by lia. symmetry. apply frame_base_page; [|lia]. rewrite Ef. by apply Z.mod_mul.
Qed.

(** User code does not reach the kernel half. *)
Lemma user_translation_low m b pds pd va x w :
  vm_wf k m b pds -> pd ∈ pds -> is_u32 va ->
  translate m pd va = Some (Translation x true w) -> va < KERNEL_VMA.
Proof.
  intros W Hin Hv. destruct (translate_cases m b pds pd va W Hin Hv) as (R & C). unfold translate.
  destruct C as [-> |[(-> & -> & ->)|(P & S & (T & _))]]; [done|done|]. intros _.
  rewrite KERNEL_VMA_PDE_INDEX_eq in T. unfold KERNEL_VMA. dlia.
Qed.

(** ** Writes to a user page, and reads through the window *)

Lemma user_write m b pds p m' :
  vm_wf k m b pds -> user_page k m b pds p -> mem_ok m' ->
  (forall x, ~ (p <= x < p + FRAME_SIZE) -> m' x = m x) ->
  vm_wf k m' b pds /\ (forall q, user_page k m b pds q -> user_page k m' b pds q) /\
  (forall pd va, pd ∈ pds -> is_u32 va -> translate m' pd va = translate m pd va).
Proof.
  intros W U M O.
  assert (T : tables_kept m m' pds).
  { intros q x Hq Hx. apply O. pose proof (user_page_mod _ _ _ _ U) as Pm.
    destruct Hq as [Hq| ->].
    - apply (frames_disjoint p q); [done|by eapply table_mod|by eapply user_page_not_table|done].
    - apply (frames_disjoint p (boot_pd k)); [done|apply W| |done].
      intros ->. apply U, W. }
  destruct (vm_wf_kept m m' b pds W M T) as (W' & _ & U' & R'). done.
Qed.

Lemma phys_to_virt_eq p : 0 <= p < 2 ^ 29 -> phys_to_virt p = PHYS_MAP_BASE + p.
Proof. intros. unfold phys_to_virt, wrap, PHYS_MAP_BASE. apply Z.mod_small. lia. Qed.

(** Every address space of the system sees physical memory at the window, for
    the kernel only. *)
Lemma translate_window m b pds pd p :
  vm_wf k m b pds -> pd ∈ pds \/ pd = boot_pd k -> 0 <= p < phys_entries k * 2 ^ 22 ->
  translate m pd (phys_to_virt p) = Some (Translation p false true).
Proof.
  intros W Hpd Hp. pose proof (vm_window _ _ _ _ W) as [Hw _].
  pose proof (phys_to_virt_eq p ltac:(lia)) as Hv.
  assert (Hd : (PHYS_MAP_BASE + p) / 2 ^ 22 = PHYS_MAP_PDE_INDEX + p / 2 ^ 22)
    by (change PHYS_MAP_PDE_INDEX with 896; unfold PHYS_MAP_BASE; dlia).
  assert (Hm : (PHYS_MAP_BASE + p) mod 2 ^ 22 = p mod 2 ^ 22) by (unfold PHYS_MAP_BASE; dlia).
  assert (Hi : 0 <= p / 2 ^ 22 < phys_entries k) by dlia.
  assert (E : pde_at m pd (PHYS_MAP_PDE_INDEX + p / 2 ^ 22) =
              Z.lor (p / 2 ^ 22 * 2 ^ 22) PAGE_PRESENT_RW_4M).
  { rewrite <- (vm_physmap _ _ _ _ W) by done. destruct Hpd as [Hpd| ->]; [|done].
    apply (vm_kernel _ _ _ _ W); [done|]. change PHYS_MAP_PDE_INDEX with 896.
    rewrite KERNEL_VMA_PDE_INDEX_eq. lia. }
  set (q := p / 2 ^ 22) in *.
  assert (Bits : forall j, 0 <= j < 22 ->
            Z.testbit (Z.lor (q * 2 ^ 22) PAGE_PRESENT_RW_4M) j = Z.testbit PAGE_PRESENT_RW_4M j).
  { intros j Hj. rewrite Z.lor_spec, (testbit_low_zero (q * 2 ^ 22) 22); [done| |done].
    apply Z.mod_mul. lia. }
  assert (Dv : Z.lor (q * 2 ^ 22) PAGE_PRESENT_RW_4M / 2 ^ 22 = q).
  { rewrite <- Z.shiftr_div_pow2, Z.shiftr_lor by lia.
    rewrite Z.shiftr_div_pow2, Z.div_mul by lia.
    change (Z.shiftr PAGE_PRESENT_RW_4M 22) with 0. apply Z.lor_0_r. }
  unfold translate. rewrite Hv, Hd, Hm, E. unfold present, ps_bit, user_bit, writable_bit.
  rewrite !Bits, Dv by lia. cbn. do 2 f_equal. subst q. dlia.
Qed.
End wf.

(** ** Theorems *)

(** C10: [map_page] maps exactly one page of one address space.  For a page-aligned user
    address and a user page, it either finds no memory for a table, or leaves every
    address of the page translating to the frame with the requested rights and every
    other address of every address space translating as before; no byte of a user page
    changes, and the page tables stay well formed. *)
Theorem map_page_correct k m b pds pd virt phys w :
  vm_wf k m b pds -> pd ∈ pds -> virt mod FRAME_SIZE = 0 -> 0 <= virt < KERNEL_VMA ->
  is_u32 phys -> user_page k m b pds phys ->
  map_page m b pd virt phys true w = Panicked OutOfPhysicalMemory \/
  exists m' b', map_page m b pd virt phys true w = Ok (m', b') /\ vm_wf k m' b' pds /\
    (forall va, is_u32 va -> va / FRAME_SIZE = virt / FRAME_SIZE ->
       translate m' pd va = Some (Translation (phys + va mod FRAME_SIZE) true w)) /\
    (forall pd' va, pd' ∈ pds -> is_u32 va -> ~ (pd' = pd /\ va / FRAME_SIZE = virt / FRAME_SIZE) ->
       translate m' pd' va = translate m pd' va) /\
    (forall q x, user_page k m b pds q -> q <= x < q + FRAME_SIZE -> m' x = m x).
Proof.
  intros W Hpd Hm Hv Hp U.
  destruct (map_page_ok k m b pds pd W Hpd virt phys w Hm Hv Hp U) as [?|(m' & b' & E & V & T)]; [by left|].
  right. exists m', b'. split_and!; [done|apply V|done|apply V|apply V].
Qed.

(** *** A machine with thirty-two frames: the kernel in frames 0 and 1, its directory in
    frame 1, the multiboot information (one module of sixteen bytes) in frame 0, the
    module in frame 3, which is not free. *)

Definition ex_image : kernel_image := KernelImage 0 0x2000 0x1000 1.

Definition ex_words : list (Z * Z * Z) :=
  [(0x1000, 0, PAGE_PRESENT_RW_4M); (0x1000, 768, PAGE_PRESENT_RW_4M); (0x1000, 896, PAGE_PRESENT_RW_4M);
   (0, 64, 9); (0, 69, 1); (0, 70, 0x200); (0, 128, 0x3000); (0, 129, 0x3010)].

Definition ex_mem : mem :=
  fold_right (fun '(p, i, v) m => store32 m (p + 4 * i) v)
    (fun x => if (0x3000 <=? x) && (x <? 0x3010) then 0x90 else 0) ex_words.

Definition ex_frames : bitmap := Bitmap [0x0B; 0; 0; 0] 32.

Lemma ex_vm_wf : vm_wf ex_image ex_mem ex_frames [].
Proof.
  assert (P : forall i, 0 <= i < 1024 -> pde_at ex_mem 0x1000 i =
    if decide (i = 0 \/ i = 768 \/ i = 896) then PAGE_PRESENT_RW_4M else 0).
  { intros i Hi. unfold pde_at, ex_mem. cbn [fold_right ex_words].
    rewrite !load32_store_word by (done || lia).
    rewrite (load32_ext (fun _ => 0)) by (intros x Hx; case_match; bool_simp; lia).
    repeat case_decide; try done; lia. }
  split; try done; try set_solver.
  - cbn [ex_mem fold_right ex_words]. do 8 apply store32_ok. intros x. unfold is_u8. case_match; lia.
  - intros f Hf. cbn in Hf. unfold FRAME_SIZE in *. exists f. split; [done|]. intros _.
    by assert (f = 0 \/ f = 1) as [-> | ->] by lia.
  - constructor.
  - intros p [Hp|(q & i & Hq & _)]; set_solver.
  - cbn. change KERNEL_VMA_PDE_INDEX with 768. intros i Hi. rewrite P by lia. by case_decide.
  - cbn. change PHYS_MAP_PDE_INDEX with 896. intros i Hi. rewrite P by lia.
    replace i with 0 by lia. done.
Qed.

Lemma ex_user_page : user_page ex_image ex_mem ex_frames [] 0x3000.
Proof.
  split_and!.
  - by exists 3.
  - intros [Hp|(q & i & Hq & _)]; set_solver.
  - unfold outside. cbn. lia.
Qed.

(** A directory made on that machine can map frame 3. *)
Lemma ex_maps :
  match page_directory_new ex_mem ex_frames 0x1000 with
  | Ok (m, b, p) => is_ok (map_page m b p 0x400000 0x3000 true false)
  | Panicked _ => false
  end = true.
Proof. vm_compute. reflexivity. Qed.

Lemma map_page_correct_witness :
  exists m b pd m' b', map_page m b pd 0x400000 0x3000 true false = Ok (m', b') /\
    translate m' pd 0x400123 = Some (Translation 0x3123 true false).
Proof.
  pose proof ex_maps as Em.
  destruct (page_directory_new_ok ex_image ex_mem ex_frames [] ex_vm_wf)
    as [E|(m & b & p & E & V & K & U & _)]; cbn [boot_pd ex_image] in E; rewrite E in Em; [discriminate Em|].
  destruct (map_page_correct ex_image m b [p] p 0x400000 0x3000 false) as [E2|(m' & b' & E2 & _ & T & _)].
  - exact V.
  - apply list_elem_of_singleton. reflexivity.
  - reflexivity.
  - unfold KERNEL_VMA. lia.
  - unfold is_u32. lia.
  - apply (U 0x3000), ex_user_page.
  - rewrite E2 in Em. discriminate Em.
  - exists m, b, p, m', b'. split; [exact E2|]. apply T; [unfold is_u32; lia|reflexivity].
Defined.
