(* ===== verification/Ipc.v ===== *)
(** * Kernel state, IPC and interrupt forwarding (kernel/src/ipc.rs, irq.rs,
      timer.rs, keyboard.rs, scheduler.rs's [exit_current])

    The kernel's statics are the fields of one record.  A [SavedRegs] pointer is
    the block of saved registers on a task's kernel stack, of which there is
    one per task, so it is named by the task's id.  Every function is the whole
    function of the code: matching a waiting partner, installing a transferred
    capability, writing both sides' registers, waking, blocking. *)

From stdpp Require Import base list numbers sets.
From Stdlib Require Import Lia.
From S2P Require Import Prelude Cap Hw Sched Frame Paging.
Open Scope Z_scope.

(** ** State *)

(** [struct SavedRegs] *)
Record saved_regs := SavedRegs {
  eax : Z; ebx : Z; ecx : Z; edx : Z; esi : Z; edi : Z; ebp : Z
}.

#[export] Instance saved_regs_eq_dec : EqDecision saved_regs.
Proof. solve_decision. Defined.

Definition with_eax (v : Z) (r : saved_regs) : saved_regs :=
  SavedRegs v (ebx r) (ecx r) (edx r) (esi r) (edi r) (ebp r).

(** [struct EndpointMeta] *)
Record endpoint_meta := EndpointMeta { owner : Z; pending_irq_ack : option Z }.

(** [struct PendingRecv] *)
Record pending_recv := PendingRecv { pr_task : Z; pr_endpoint : Z; pr_regs : Z }.

(** [struct PendingSend] *)
Record pending_send := PendingSend {
  ps_task : Z; ps_endpoint : Z; ps_msg : Z * Z * Z; ps_transfer : option Z; ps_regs : Z
}.

(** [struct PendingIrqEvent] *)
Record pending_irq_event := PendingIrqEvent { ev_endpoint : Z; ev_irq : Z; ev_data : Z }.

(** The four statics of ipc.rs. *)
Record ipc := Ipc {
  endpoints : list endpoint_meta;
  pending_recvs : list pending_recv;
  pending_sends : list pending_send;
  pending_irq_events : list pending_irq_event
}.

(** Every static of the kernel the syscalls and interrupts touch. *)
Record kernel := Kernel {
  caps : list cap_node;            (* cap.rs CAP_NODES *)
  sch : sched;                     (* scheduler.rs SCHEDULER, task.rs NEXT_ID, the CPU *)
  kipc : ipc;                      (* ipc.rs *)
  regs : Z -> saved_regs;          (* each task's saved registers *)
  handlers : list (option Z);      (* irq.rs HANDLERS *)
  kpic : pic;                      (* the 8259 masks *)
  kmem : mem;                      (* physical memory *)
  kframes : bitmap;                (* mm/frame.rs BITMAP *)
  kimg : kernel_image;             (* linker symbols *)
  mb_info : Z;                     (* loader.rs MB_INFO: the multiboot pointer *)
  ns_endpoint : option Z           (* loader.rs NAMESERVICE_ENDPOINT *)
}.

Definition set_caps v (k : kernel) := Kernel v (sch k) (kipc k) (regs k) (handlers k) (kpic k)
  (kmem k) (kframes k) (kimg k) (mb_info k) (ns_endpoint k).
Definition set_sch v (k : kernel) := Kernel (caps k) v (kipc k) (regs k) (handlers k) (kpic k)
  (kmem k) (kframes k) (kimg k) (mb_info k) (ns_endpoint k).
Definition set_ipc v (k : kernel) := Kernel (caps k) (sch k) v (regs k) (handlers k) (kpic k)
  (kmem k) (kframes k) (kimg k) (mb_info k) (ns_endpoint k).
Definition set_regs v (k : kernel) := Kernel (caps k) (sch k) (kipc k) v (handlers k) (kpic k)
  (kmem k) (kframes k) (kimg k) (mb_info k) (ns_endpoint k).
Definition set_handlers v (k : kernel) := Kernel (caps k) (sch k) (kipc k) (regs k) v (kpic k)
  (kmem k) (kframes k) (kimg k) (mb_info k) (ns_endpoint k).
Definition set_pic v (k : kernel) := Kernel (caps k) (sch k) (kipc k) (regs k) (handlers k) v
  (kmem k) (kframes k) (kimg k) (mb_info k) (ns_endpoint k).
Definition set_mem (m : mem) (b : bitmap) (k : kernel) := Kernel (caps k) (sch k) (kipc k)
  (regs k) (handlers k) (kpic k) m b (kimg k) (mb_info k) (ns_endpoint k).
Definition set_ns_endpoint v (k : kernel) := Kernel (caps k) (sch k) (kipc k) (regs k)
  (handlers k) (kpic k) (kmem k) (kframes k) (kimg k) (mb_info k) v.

Definition set_endpoints v (i : ipc) : ipc :=
  Ipc v (pending_recvs i) (pending_sends i) (pending_irq_events i).
Definition set_recvs v (i : ipc) : ipc :=
  Ipc (endpoints i) v (pending_sends i) (pending_irq_events i).
Definition set_sends v (i : ipc) : ipc :=
  Ipc (endpoints i) (pending_recvs i) v (pending_irq_events i).
Definition set_events v (i : ipc) : ipc :=
  Ipc (endpoints i) (pending_recvs i) (pending_sends i) v.

(** Writing through a [*mut SavedRegs]. *)
Definition write_regs (p : Z) (f : saved_regs -> saved_regs) (k : kernel) : kernel :=
  set_regs (fun q => if q =? p then f (regs k q) else regs k q) k.

(** ** Constants *)

Definition KERNEL_TASK_ID : Z := 0.
Definition NO_MESSAGE : Z := U32_MAX.
Definition TRY_RECV_ERR : Z := U32_MAX - 1.
Definition NUM_IRQS : nat := 16.

(** ** Operations of ipc.rs *)

(** [create_endpoint] *)
Definition create_endpoint (k : kernel) (own : Z) : kernel * Z :=
  (set_ipc (set_endpoints (endpoints (kipc k) ++ [EndpointMeta own None]) (kipc k)) k,
   zlen (endpoints (kipc k))).

(** The registers a delivered message leaves with the receiver. *)
Definition deliver_msg (sender : Z) (msg : Z * Z * Z) (slot : Z) (r : saved_regs) : saved_regs :=
  let '(w0, w1, w2) := msg in SavedRegs sender w0 w1 w2 (esi r) slot (ebp r).

(** The registers an interrupt notification leaves: [edi] is not written. *)
Definition deliver_irq (irq data : Z) (r : saved_regs) : saved_regs :=
  SavedRegs KERNEL_TASK_ID irq data 0 (esi r) (edi r) (ebp r).

(** [transfer.map(install).unwrap_or(0)] for the task [id]. *)
Definition install_transfer (k : kernel) (id : Z) (transfer : option Z) : res (kernel * Z) :=
  match transfer with
  | None => Ok (k, 0)
  | Some node =>
      let* (s, slot) := install_cap_for (sch k) id node in Ok (set_sch s k, slot)
  end.

(** [ipc::send] *)
Definition send (k : kernel) (self_id endpoint : Z) (msg : Z * Z * Z) (transfer : option Z)
  (rp : Z) : res kernel :=
  match take_first (fun r => pr_endpoint r =? endpoint) (pending_recvs (kipc k)) with
  | Some (matched, recvs) =>
      let k := set_ipc (set_recvs recvs (kipc k)) k in
      let* (k, installed_slot) := install_transfer k (pr_task matched) transfer in
      let k := write_regs (pr_regs matched) (deliver_msg self_id msg installed_slot) k in
      let k := write_regs rp (with_eax 0) k in
      s <- wake (sch k) (pr_task matched) ;; Ok (set_sch s k)
  | None =>
      let p := PendingSend self_id endpoint msg transfer rp in
      let k := set_ipc (set_sends (pending_sends (kipc k) ++ [p]) (kipc k)) k in
      s <- block_current (sch k) ;; Ok (set_sch s k)
  end.

(** [meta.pending_irq_ack = v] when the endpoint exists. *)
Definition set_ack (es : list endpoint_meta) (endpoint : Z) (v : option Z) : list endpoint_meta :=
  match zget es endpoint with
  | Some e => zset es endpoint (EndpointMeta (owner e) v)
  | None => es
  end.

(** [try_deliver], called by the running task. *)
Definition try_deliver (k : kernel) (endpoint rp : Z) : res (kernel * bool) :=
  match take_first (fun s => ps_endpoint s =? endpoint) (pending_sends (kipc k)) with
  | Some (matched, sends) =>
      let k := set_ipc (set_sends sends (kipc k)) k in
      let* (k, installed_slot) :=
        match ps_transfer matched with
        | None => Ok (k, 0)
        | Some node =>
            let* (s, slot) := current_cspace_install (sch k) node in Ok (set_sch s k, slot)
        end in
      let k := write_regs rp (deliver_msg (ps_task matched) (ps_msg matched) installed_slot) k in
      let k := write_regs (ps_regs matched) (with_eax 0) k in
      s <- wake (sch k) (ps_task matched) ;; Ok (set_sch s k, true)
  | None =>
      match take_first (fun e => ev_endpoint e =? endpoint) (pending_irq_events (kipc k)) with
      | Some (event, events) =>
          let i := set_events events (kipc k) in
          let i := set_endpoints (set_ack (endpoints i) endpoint (Some (ev_irq event))) i in
          Ok (write_regs rp (deliver_irq (ev_irq event) (ev_data event)) (set_ipc i k), true)
      | None => Ok (k, false)
      end
  end.

(** The [pending_irq_ack.take()] and unmask both [recv] and [try_recv] start with. *)
Definition ack_irq (k : kernel) (endpoint : Z) : kernel :=
  match zget (endpoints (kipc k)) endpoint with
  | Some (EndpointMeta own (Some irq)) =>
      let i := set_endpoints (zset (endpoints (kipc k)) endpoint (EndpointMeta own None)) (kipc k) in
      set_pic (unmask (kpic k) (wrap8 irq)) (set_ipc i k)
  | _ => k
  end.

(** [ipc::recv] *)
Definition recv (k : kernel) (self_id endpoint rp : Z) : res kernel :=
  let* (k, delivered) := try_deliver (ack_irq k endpoint) endpoint rp in
  if delivered : bool then Ok k
  else
    let p := PendingRecv self_id endpoint rp in
    let k := set_ipc (set_recvs (pending_recvs (kipc k) ++ [p]) (kipc k)) k in
    s <- block_current (sch k) ;; Ok (set_sch s k).

(** [ipc::try_recv] *)
Definition try_recv (k : kernel) (endpoint rp : Z) : res kernel :=
  let* (k, delivered) := try_deliver (ack_irq k endpoint) endpoint rp in
  if delivered : bool then Ok k else Ok (write_regs rp (with_eax NO_MESSAGE) k).

(** [ipc::notify_interrupt] *)
Definition notify_interrupt (k : kernel) (endpoint irq data : Z) : res kernel :=
  match take_first (fun r => pr_endpoint r =? endpoint) (pending_recvs (kipc k)) with
  | Some (matched, recvs) =>
      let i := set_recvs recvs (kipc k) in
      let i := set_endpoints (set_ack (endpoints i) endpoint (Some irq)) i in
      let k := write_regs (pr_regs matched) (deliver_irq irq data) (set_ipc i k) in
      s <- wake (sch k) (pr_task matched) ;; Ok (set_sch s k)
  | None =>
      let e := PendingIrqEvent endpoint irq data in
      Ok (set_ipc (set_events (pending_irq_events (kipc k) ++ [e]) (kipc k)) k)
  end.

(** [endpoints.iter().enumerate().filter(owner == task_id)] *)
Definition owned_by (es : list endpoint_meta) (task_id endpoint : Z) : bool :=
  match zget es endpoint with Some e => owner e =? task_id | None => false end.

(** Failing one waiting task: [eax = u32::MAX] and [wake]. *)
Definition fail_waiter (k : kernel) (rp id : Z) : res kernel :=
  let k := write_regs rp (with_eax U32_MAX) k in
  s <- wake (sch k) id ;; Ok (set_sch s k).

(** The two [retain] calls of [task_exited], in list order. *)
Fixpoint retain_recvs (dead : Z -> bool) (l : list pending_recv) (k : kernel)
  : res (kernel * list pending_recv) :=
  match l with
  | [] => Ok (k, [])
  | r :: l' =>
      if dead (pr_endpoint r) then
        k <- fail_waiter k (pr_regs r) (pr_task r) ;; retain_recvs dead l' k
      else
        let* (k, kept) := retain_recvs dead l' k in Ok (k, r :: kept)
  end.

Fixpoint retain_sends (dead : Z -> bool) (l : list pending_send) (k : kernel)
  : res (kernel * list pending_send) :=
  match l with
  | [] => Ok (k, [])
  | r :: l' =>
      if dead (ps_endpoint r) then
        k <- fail_waiter k (ps_regs r) (ps_task r) ;; retain_sends dead l' k
      else
        let* (k, kept) := retain_sends dead l' k in Ok (k, r :: kept)
  end.

(** [ipc::task_exited] *)
Definition task_exited (k : kernel) (task_id : Z) : res kernel :=
  let dead := owned_by (endpoints (kipc k)) task_id in
  let* (k, recvs) := retain_recvs dead (pending_recvs (kipc k)) k in
  let k := set_ipc (set_recvs recvs (kipc k)) k in
  let* (k, sends) := retain_sends dead (pending_sends (kipc k)) k in
  let k := set_ipc (set_sends sends (kipc k)) k in
  let events := List.filter (fun e => negb (dead (ev_endpoint e))) (pending_irq_events (kipc k)) in
  Ok (set_ipc (set_events events (kipc k)) k).

(** [scheduler::exit_current], up to its [switch_to]. *)
Definition exit_current (k : kernel) : res kernel :=
  let* (s, id) := exit_switch (sch k) in task_exited (set_sch s k) id.

(** ** Operations of irq.rs and the interrupt handlers *)

(** [irq::register] *)
Definition register (k : kernel) (irq endpoint : Z) : kernel * bool :=
  match zget (handlers k) irq with
  | Some _ =>
      (set_pic (unmask (kpic k) (wrap8 irq)) (set_handlers (zset (handlers k) irq (Some endpoint)) k),
       true)
  | None => (k, false)
  end.

(** [irq::handler_for] *)
Definition handler_for (k : kernel) (irq : Z) : option Z :=
  match zget (handlers k) irq with Some o => o | None => None end.

(** [irq::dispatch]; the end-of-interrupt command leaves no state. *)
Definition dispatch (k : kernel) (irq data : Z) : res kernel :=
  match handler_for k irq with
  | Some endpoint => notify_interrupt (set_pic (mask (kpic k) (wrap8 irq)) k) endpoint irq data
  | None => Ok k
  end.

(** [keyboard::handler] with the scancode it read. *)
Definition keyboard_handler (k : kernel) (scancode : Z) : res kernel :=
  match handler_for k 1 with
  | Some endpoint => notify_interrupt k endpoint 1 scancode
  | None => Ok k
  end.

(** [timer::handler]: the tick counter is not read anywhere. *)
Definition timer_handler (k : kernel) : res kernel :=
  s <- tick (sch k) ;; Ok (set_sch s k).

(** [exceptions::recover_or_halt] for a fault in ring 3. *)
Definition user_fault (k : kernel) : res kernel := exit_current k.

(** ** Invariant *)

(** The tasks ipc.rs holds as waiting. *)
Definition waiting (i : ipc) : list Z :=
  map pr_task (pending_recvs i) ++ map ps_task (pending_sends i).

Record ipc_wf (k : kernel) : Prop := {
  iw_sched : sched_wf (sch k);
  (* the blocked tasks are exactly the waiting ones, each waiting once *)
  iw_nodup : NoDup (waiting (kipc k));
  iw_blocked : forall id, id ∈ waiting (kipc k) <-> state_of (sch k) id = Some Blocked;
  (* a waiter's registers are its own *)
  iw_regs_r : forall r, r ∈ pending_recvs (kipc k) -> pr_regs r = pr_task r;
  iw_regs_s : forall s, s ∈ pending_sends (kipc k) -> ps_regs s = ps_task s;
  (* nobody waits for what is already there *)
  iw_meet_s : forall r s, r ∈ pending_recvs (kipc k) -> s ∈ pending_sends (kipc k) ->
    pr_endpoint r <> ps_endpoint s;
  iw_meet_e : forall r e, r ∈ pending_recvs (kipc k) -> e ∈ pending_irq_events (kipc k) ->
    pr_endpoint r <> ev_endpoint e
}.

(** Some task other than the current one can always run. *)
Definition idle_ok (idle : Z) (k : kernel) : Prop :=
  state_of (sch k) idle = Some Ready \/ state_of (sch k) idle = Some Running.

(** How an operation may change the tasks: states and the current task, and new
    capabilities only from [N]. *)
Definition evolves (N : Z -> Prop) (s s' : sched) : Prop :=
  next_id s' = next_id s /\
  (forall id, is_Some (task_of s id) <-> is_Some (task_of s' id)) /\
  forall id t t', task_of s id = Some t -> task_of s' id = Some t' ->
    page_dir_phys t' = page_dir_phys t /\ allowed_ports t' = allowed_ports t /\
    forall slot n, cspace_get (tcspace t') slot = Some n ->
      cspace_get (tcspace t) slot = Some n \/ N n.

(** The fields no IPC operation changes. *)
Definition ipc_frame (k k' : kernel) : Prop :=
  caps k' = caps k /\ handlers k' = handlers k /\ kmem k' = kmem k /\
  kframes k' = kframes k /\ kimg k' = kimg k /\ mb_info k' = mb_info k /\
  ns_endpoint k' = ns_endpoint k.

(** ** Lemmas *)

Lemma evolves_refl N s : evolves N s s.
Proof. split_and!; [done|done|]. intros id t t' -> [= <-]. auto. Qed.

Lemma evolves_trans N s1 s2 s3 : evolves N s1 s2 -> evolves N s2 s3 -> evolves N s1 s3.
Proof.
  intros (N1 & D1 & E1) (N2 & D2 & E2). split_and!; [congruence|by intros; rewrite D1|].
  intros id t t3 H1 H3. destruct (proj1 (D1 id)) as [t2 H2]; [by eauto|].
  destruct (E2 _ _ _ H2 H3) as (P2 & Q2 & C2). destruct (E1 _ _ _ H1 H2) as (P1 & Q1 & C1).
  split_and!; [congruence|congruence|]. intros slot n Hn. destruct (C2 _ _ Hn) as [Hn'|?]; auto.
Qed.

Lemma evolves_mono (N N' : Z -> Prop) s s' :
  (forall n, N n -> N' n) -> evolves N s s' -> evolves N' s s'.
Proof.
  intros H (? & ? & E). split_and!; [done|done|]. intros id t t' T T'.
  destruct (E _ _ _ T T') as (? & ? & C). split_and!; [done|done|].
  intros slot n Hn. destruct (C _ _ Hn); auto.
Qed.

Lemma restate_evolves N f s s' : restate f s s' -> evolves N s s'.
Proof.
  intros [H1 H2]. split_and!; [done| |].
  - intros id. rewrite H2, fmap_is_Some. done.
  - intros id t t' T. rewrite H2, T. intros [= <-]. cbn. auto.
Qed.

Lemma install_cap_for_evolves s id node t :
  sched_wf s -> task_of s id = Some t ->
  exists s' slot, install_cap_for s id node = Ok (s', slot) /\ sched_wf s' /\
    slot = zlen (slots (tcspace t)) /\
    current s' = current s /\ (forall i, state_of s' i = state_of s i) /\
    evolves (eq node) s s' /\
    (exists t', task_of s' id = Some t' /\ cspace_get (tcspace t') slot = Some node).
Proof.
  intros W T. destruct (install_cap_for_spec s W id node t T)
    as (s' & E & W' & C & _ & Nx & _ & St & Tk).
  exists s', (zlen (slots (tcspace t))). split_and!; try done.
  - split_and!; [done| |].
    + intros i. rewrite Tk. case_decide; [subst; rewrite T|done]. split; by eauto.
    + intros i u u' U. rewrite Tk. case_decide as D; [|intros; simplify_eq; auto].
      subst i. rewrite T in U. apply (inj Some) in U as <-. intros E'.
      apply (inj Some) in E' as <-. split_and!; [done|done|].
      intros slot n. cbn [with_cspace tcspace]. rewrite cspace_get_install.
      case_decide; [intros [= <-]; auto|auto].
  - exists (with_cspace (cspace_install (tcspace t) node).1 t).
    rewrite Tk, decide_True by done. split; [done|]. cbn [with_cspace tcspace].
    by rewrite cspace_get_install, decide_True.
Qed.

Lemma wake_waiters s s' x L L' :
  (forall id, id ∈ L <-> state_of s id = Some Blocked) -> NoDup L -> L ≡ₚ x :: L' ->
  restate (fun i old => if decide (i = x) then Ready else old) s s' ->
  (forall id, id ∈ L' <-> state_of s' id = Some Blocked) /\ NoDup L'.
Proof.
  intros H ND P R. rewrite P in ND. apply NoDup_cons in ND as [Hx ND]. split; [|done].
  intros id. rewrite (restate_state_of _ _ _ _ R). pose proof (H id) as Hid. rewrite P in Hid.
  rewrite elem_of_cons in Hid. destruct (decide (id = x)) as [->|Hne].
  - split; [done|]. destruct (state_of s x); done.
  - destruct (state_of s id) as [st|]; cbn; rewrite <- Hid; (split; [auto|]; by intros [?|?]).
Qed.

Lemma block_waiters s s' c n L L' :
  (forall id, id ∈ L <-> state_of s id = Some Blocked) -> NoDup L -> L' ≡ₚ c :: L ->
  state_of s c = Some Running -> state_of s n = Some Ready ->
  restate (fun id old => if decide (id = c) then Blocked
                         else if decide (id = n) then Running else old) s s' ->
  (forall id, id ∈ L' <-> state_of s' id = Some Blocked) /\ NoDup L'.
Proof.
  intros H ND P Sc Sn R. split.
  - intros id. rewrite P, elem_of_cons, (restate_state_of _ _ _ _ R), H.
    destruct (decide (id = c)) as [->|]; [rewrite Sc; cbn; split; auto|].
    destruct (decide (id = n)) as [->|]; [rewrite Sn; cbn; split; [by intros [?|?]|done]|].
    destruct (state_of s id); cbn; (split; [by intros [?|?]|auto]).
  - rewrite P. apply NoDup_cons. split; [|done]. rewrite H, Sc. done.
Qed.

(** Something is ready whenever a task other than the idle one runs. *)
Lemma ready_nonempty k idle c :
  ipc_wf k -> idle_ok idle k -> current (sch k) = Some c -> c <> idle ->
  exists n q, ready_queue (sch k) = n :: q /\ state_of (sch k) n = Some Ready.
Proof.
  intros W I C Hne. pose proof (iw_sched _ W) as S.
  assert (R : state_of (sch k) idle = Some Ready).
  { destruct I as [?|I]; [done|]. apply (wf_running _ S) in I. congruence. }
  apply (wf_ready _ S) in R. destruct (ready_queue (sch k)) as [|n q] eqn:Q; [set_solver|].
  exists n, q. split; [done|]. apply (wf_ready _ S). rewrite Q. set_solver.
Qed.

Lemma idle_restate idle k k' f :
  restate f (sch k) (sch k') -> (forall old, old = Ready \/ old = Running ->
    f idle old = Ready \/ f idle old = Running) -> idle_ok idle k -> idle_ok idle k'.
Proof.
  intros R F I. unfold idle_ok. rewrite (restate_state_of _ _ _ _ R).
  destruct I as [-> | ->]; cbn; [destruct (F Ready)|destruct (F Running)]; auto; intros; subst;
    rewrite H; auto.
Qed.

(** The capabilities messages in flight carry. *)
Definition transfers (k : kernel) (n : Z) : Prop :=
  exists s, s ∈ pending_sends (kipc k) /\ ps_transfer s = Some n.

(** What every operation of this file guarantees; [tr] is the capability the
    operation itself brings in. *)
Record ipc_ok (idle : Z) (tr : option Z) (k k' : kernel) : Prop := {
  ok_wf : ipc_wf k';
  ok_idle : idle_ok idle k -> idle_ok idle k';
  ok_evolves : evolves (fun n => transfers k n \/ tr = Some n) (sch k) (sch k');
  ok_frame : ipc_frame k k';
  ok_transfers : forall n, transfers k' n -> transfers k n \/ tr = Some n;
  ok_owners : map owner (endpoints (kipc k')) = map owner (endpoints (kipc k))
}.

(** [i'] holds no waiter, message or event that [i] does not. *)
Definition ipc_sub (i' i : ipc) : Prop :=
  (forall r, r ∈ pending_recvs i' -> r ∈ pending_recvs i) /\
  (forall s, s ∈ pending_sends i' -> s ∈ pending_sends i) /\
  (forall e, e ∈ pending_irq_events i' -> e ∈ pending_irq_events i).

(** A waiter leaves the lists and is woken. *)
Lemma ipc_wf_wake k i' s1 x :
  ipc_wf k -> waiting (kipc k) ≡ₚ x :: waiting i' -> ipc_sub i' (kipc k) ->
  sched_wf s1 -> (forall id, state_of s1 id = state_of (sch k) id) ->
  exists s', wake s1 x = Ok s' /\
    restate (fun i old => if decide (i = x) then Ready else old) s1 s' /\
    current s' = current s1 /\
    forall k', kipc k' = i' -> sch k' = s' -> ipc_wf k'.
Proof.
  intros [W1 W2 W3 W4 W5 W6 W7] P (Sr & Ss & Se) S1 Same.
  assert (B : state_of s1 x = Some Blocked).
  { rewrite Same. apply W3. rewrite P. set_solver. }
  destruct (wake_spec s1 S1 x B) as (s' & E & S' & C & _ & _ & R).
  exists s'. split_and!; [done|done|done|]. intros k' <- <-.
  destruct (wake_waiters s1 (sch k') x (waiting (kipc k)) (waiting (kipc k'))) as [B' N'];
    [by intros; rewrite Same|done|done|done|].
  by split; eauto.
Qed.

(** The running task joins the lists and blocks. *)
Lemma ipc_wf_block k idle c i' :
  ipc_wf k -> idle_ok idle k -> current (sch k) = Some c -> c <> idle ->
  waiting i' ≡ₚ c :: waiting (kipc k) ->
  (forall r, r ∈ pending_recvs i' -> pr_regs r = pr_task r) ->
  (forall s, s ∈ pending_sends i' -> ps_regs s = ps_task s) ->
  (forall r s, r ∈ pending_recvs i' -> s ∈ pending_sends i' -> pr_endpoint r <> ps_endpoint s) ->
  (forall r e, r ∈ pending_recvs i' -> e ∈ pending_irq_events i' -> pr_endpoint r <> ev_endpoint e) ->
  exists s' n q, block_current (sch k) = Ok s' /\ ready_queue (sch k) = n :: q /\
    restate (fun id old => if decide (id = c) then Blocked
                           else if decide (id = n) then Running else old) (sch k) s' /\
    forall k', kipc k' = i' -> sch k' = s' -> ipc_wf k' /\ idle_ok idle k'.
Proof.
  intros W I C Hne P H1 H2 H3 H4.
  destruct (ready_nonempty k idle c W I C Hne) as (n & q & Q & Rn).
  destruct (block_current_spec (sch k) (iw_sched _ W) c n q C Q) as (s' & E & S' & _ & _ & _ & R).
  exists s', n, q. split_and!; [done|done|done|]. intros k' <- <-.
  assert (Sc : state_of (sch k) c = Some Running) by (by apply (wf_running _ (iw_sched _ W))).
  destruct (block_waiters (sch k) (sch k') c n (waiting (kipc k)) (waiting (kipc k')))
    as [B' N']; [apply W|apply W|done|done|done|done|].
  split; [by split|]. eapply (idle_restate idle k k'); [exact R| |done].
  intros old Ho. cbn beta. rewrite decide_False by (intros E'; by subst). case_decide; auto.
Qed.

(** [take_first] on the waiting receivers and senders. *)
Lemma take_recv_spec i ep r recvs :
  take_first (fun r => pr_endpoint r =? ep) (pending_recvs i) = Some (r, recvs) ->
  waiting i ≡ₚ pr_task r :: waiting (set_recvs recvs i) /\ ipc_sub (set_recvs recvs i) i /\
  r ∈ pending_recvs i /\ pr_endpoint r = ep.
Proof.
  intros (l1 & l2 & E & -> & Er & _)%take_first_spec. bool_simp. unfold waiting, ipc_sub.
  cbn. rewrite E. split_and!; try set_solver.
  rewrite !map_app. cbn. rewrite <- !app_assoc. cbn. symmetry. apply Permutation_middle.
Qed.

Lemma take_send_spec i ep s sends :
  take_first (fun s => ps_endpoint s =? ep) (pending_sends i) = Some (s, sends) ->
  waiting i ≡ₚ ps_task s :: waiting (set_sends sends i) /\ ipc_sub (set_sends sends i) i /\
  s ∈ pending_sends i /\ ps_endpoint s = ep.
Proof.
  intros (l1 & l2 & E & -> & Er & _)%take_first_spec. bool_simp. unfold waiting, ipc_sub.
  cbn. rewrite E. split_and!; try set_solver.
  rewrite !map_app. cbn. rewrite !(app_assoc (map pr_task _)). symmetry. apply Permutation_middle.
Qed.

Lemma take_None_endpoint {A} (f : A -> Z) ep l :
  take_first (fun x => f x =? ep) l = None -> forall x, x ∈ l -> f x <> ep.
Proof.
  rewrite take_first_None, Forall_forall. intros H x Hx. specialize (H x Hx). cbn in H.
  by bool_simp.
Qed.

(** Installing what a message carries, before the wake. *)
Lemma install_transfer_ok k id tr t :
  sched_wf (sch k) -> task_of (sch k) id = Some t ->
  exists k1 slot, install_transfer k id tr = Ok (k1, slot) /\ sched_wf (sch k1) /\
    (forall i, state_of (sch k1) i = state_of (sch k) i) /\ current (sch k1) = current (sch k) /\
    evolves (fun n => tr = Some n) (sch k) (sch k1) /\ k1 = set_sch (sch k1) k /\
    match tr with
    | None => slot = 0
    | Some n => exists t', task_of (sch k1) id = Some t' /\ cspace_get (tcspace t') slot = Some n
    end.
Proof.
  intros S T. destruct tr as [node|]; cbn.
  - destruct (install_cap_for_evolves (sch k) id node t S T) as (s' & slot & -> & S' & _ & C & St & Ev & G).
    do 2 eexists. split; [done|]. cbn. split_and!; try done.
    eapply evolves_mono; [|exact Ev]. by intros n ->.
  - do 2 eexists. split; [done|]. split_and!; try done; [apply evolves_refl|]. by destruct k.
Qed.

Lemma idle_wake idle k k' s1 x :
  (forall i, state_of s1 i = state_of (sch k) i) ->
  restate (fun i old => if decide (i = x) then Ready else old) s1 (sch k') ->
  idle_ok idle k -> idle_ok idle k'.
Proof.
  intros Same R I. unfold idle_ok. rewrite (restate_state_of _ _ _ _ R), Same.
  destruct I as [-> | ->]; cbn; case_decide; auto.
Qed.

(** A capability [n] the message carried is in the receiver's table at [slot]. *)
Definition received (s : sched) (id slot : Z) (tr : option Z) : Prop :=
  match tr with
  | None => slot = 0
  | Some n => exists t, task_of s id = Some t /\ cspace_get (tcspace t) slot = Some n
  end.

Lemma received_restate f s s' id slot tr :
  restate f s s' -> received s id slot tr -> received s' id slot tr.
Proof.
  intros [_ R]. destruct tr as [n|]; cbn; [|done]. intros (t & T & G). rewrite R, T. cbn.
  eexists. split; [done|]. done.
Qed.

Lemma ipc_ok_trans idle tr k1 k2 k3 :
  ipc_ok idle None k1 k2 -> ipc_ok idle tr k2 k3 -> ipc_ok idle tr k1 k3.
Proof.
  intros [A1 A2 A3 A4 A5 A6] [B1 B2 B3 B4 B5 B6].
  assert (T : forall n, transfers k2 n \/ tr = Some n -> transfers k1 n \/ tr = Some n).
  { intros n [Hn|]; [|auto]. destruct (A5 n Hn); [auto|done]. }
  split; [done|auto| | |auto|congruence].
  - eapply evolves_trans; [eapply evolves_mono; [|exact A3]|eapply evolves_mono; [|exact B3]]; [|done].
    intros n [?|?]; [auto|done].
  - unfold ipc_frame in *. destruct_and!. split_and!; congruence.
Qed.

(** Operations that touch neither the tasks nor the three lists. *)
Lemma ipc_ok_same idle k k' :
  ipc_wf k -> sch k' = sch k -> pending_recvs (kipc k') = pending_recvs (kipc k) ->
  pending_sends (kipc k') = pending_sends (kipc k) ->
  (forall e, e ∈ pending_irq_events (kipc k') -> e ∈ pending_irq_events (kipc k) \/
     forall r, r ∈ pending_recvs (kipc k) -> pr_endpoint r <> ev_endpoint e) ->
  map owner (endpoints (kipc k')) = map owner (endpoints (kipc k)) ->
  ipc_frame k k' -> ipc_ok idle None k k'.
Proof.
  intros [W1 W2 W3 W4 W5 W6 W7] S Er Es Ee O F. split; try done.
  - split; rewrite ?S, ?Er, ?Es; try done.
    + unfold waiting. by rewrite Er, Es.
    + unfold waiting. by rewrite Er, Es.
    + intros r e Hr He. destruct (Ee e He); eauto.
  - unfold idle_ok. by rewrite S.
  - rewrite S. apply evolves_refl.
  - unfold transfers. rewrite Es. auto.
Qed.

Lemma map_owner_set_ack es ep v : map owner (set_ack es ep v) = map owner es.
Proof.
  unfold set_ack. destruct (zget es ep) as [e|] eqn:E; [|done].
  pose proof (zget_Some _ _ _ E) as R. apply zget_lookup in E as [_ E].
  unfold zset. replace ((0 <=? ep) && (ep <? zlen es)) with true by lia.
  apply list_eq. intros i. rewrite !list_lookup_fmap.
  destruct (decide (i = Z.to_nat ep)) as [->|].
  - rewrite list_lookup_insert_eq by (by eapply lookup_lt_Some). by rewrite E.
  - by rewrite list_lookup_insert_ne.
Qed.

Lemma ack_irq_set_ack k ep :
  (exists p, ack_irq k ep =
     set_pic p (set_ipc (set_endpoints (set_ack (endpoints (kipc k)) ep None) (kipc k)) k))
  \/ ack_irq k ep = k.
Proof.
  unfold ack_irq, set_ack. destruct (zget _ ep) as [[own [irq|]]|]; [left; by eexists|by right..].
Qed.

Lemma ack_irq_ok idle k ep : ipc_wf k -> ipc_ok idle None k (ack_irq k ep).
Proof.
  intros W. destruct (ack_irq_set_ack k ep) as [[p ->]| ->].
  - apply ipc_ok_same; try done; [by auto|]. apply map_owner_set_ack.
  - apply ipc_ok_same; try done. by auto.
Qed.

Lemma ack_irq_fields k ep :
  sch (ack_irq k ep) = sch k /\ regs (ack_irq k ep) = regs k /\
  pending_recvs (kipc (ack_irq k ep)) = pending_recvs (kipc k) /\
  pending_sends (kipc (ack_irq k ep)) = pending_sends (kipc k) /\
  pending_irq_events (kipc (ack_irq k ep)) = pending_irq_events (kipc k).
Proof. destruct (ack_irq_set_ack k ep) as [[p ->]| ->]; done. Qed.

Section ops.
Context (k : kernel) (idle c : Z) (W : ipc_wf k) (I : idle_ok idle k).
Context (C : current (sch k) = Some c) (Hc : c <> idle).

Lemma waiter_not_current id : id ∈ waiting (kipc k) -> id <> c.
Proof.
  intros B%(iw_blocked _ W) ->. apply (wf_running _ (iw_sched _ W)) in C. congruence.
Qed.

Lemma waiter_task id : id ∈ waiting (kipc k) -> exists t, task_of (sch k) id = Some t.
Proof. intros (t & ? & _)%(iw_blocked _ W)%fmap_Some. eauto. Qed.

(** [send] to an endpoint a task is receiving on. *)
Lemma send_match ep msg tr r recvs :
  take_first (fun r => pr_endpoint r =? ep) (pending_recvs (kipc k)) = Some (r, recvs) ->
  exists k' slot, send k c ep msg tr c = Ok k' /\ ipc_ok idle tr k k' /\
    current (sch k') = Some c /\ state_of (sch k') (pr_task r) = Some Ready /\
    regs k' (pr_task r) = deliver_msg c msg slot (regs k (pr_task r)) /\
    received (sch k') (pr_task r) slot tr /\ regs k' c = with_eax 0 (regs k c) /\
    kipc k' = set_recvs recvs (kipc k) /\
    forall q, q <> pr_task r -> q <> c -> regs k' q = regs k q.
Proof.
  intros E. unfold send. rewrite E.
  destruct (take_recv_spec _ _ _ _ E) as (P & Sub & Hin & Ep).
  assert (Hw : pr_task r ∈ waiting (kipc k)) by (rewrite P; set_solver).
  destruct (waiter_task _ Hw) as [t T]. pose proof (waiter_not_current _ Hw) as Hne.
  set (k0 := set_ipc (set_recvs recvs (kipc k)) k).
  destruct (install_transfer_ok k0 (pr_task r) tr t (iw_sched _ W) T)
    as (k1 & slot & -> & S1 & St1 & C1 & Ev1 & -> & G1).
  change (sch k0) with (sch k) in *.
  destruct (ipc_wf_wake k (set_recvs recvs (kipc k)) (sch k1) (pr_task r) W P Sub S1 St1)
    as (s' & Ew & R & C' & Wf). cbn [sch set_sch write_regs set_regs k0] in *. rewrite Ew.
  rewrite (iw_regs_r _ W r Hin).
  do 2 eexists. split; [reflexivity|]. split_and!.
  - split; [by apply Wf| | |done| |done].
    + by apply (idle_wake idle k _ (sch k1) (pr_task r)).
    + eapply evolves_trans; [|by eapply restate_evolves].
      eapply evolves_mono; [|exact Ev1]. auto.
    + intros n Hn. by left.
  - cbn. congruence.
  - cbn. rewrite (restate_state_of _ _ _ _ R), St1. unfold state_of. rewrite T. cbn.
    by rewrite decide_True.
  - cbn. replace (pr_task r =? c) with false by lia. by rewrite Z.eqb_refl.
  - by eapply received_restate.
  - cbn. rewrite Z.eqb_refl. by replace (c =? pr_task r) with false by lia.
  - done.
  - intros q Hq1 Hq2. cbn. by rewrite !(proj2 (Z.eqb_neq _ _)).
Qed.

(** [send] with no receiver waiting: the sender blocks. *)
Lemma send_block ep msg tr :
  take_first (fun r => pr_endpoint r =? ep) (pending_recvs (kipc k)) = None ->
  exists k', send k c ep msg tr c = Ok k' /\ ipc_ok idle tr k k' /\
    state_of (sch k') c = Some Blocked /\
    pending_sends (kipc k') = pending_sends (kipc k) ++ [PendingSend c ep msg tr c] /\
    regs k' = regs k.
Proof.
  intros E. unfold send. rewrite E. pose proof (take_None_endpoint _ _ _ E) as N. cbn in N.
  set (i' := set_sends _ _).
  destruct (ipc_wf_block k idle c i' W I C Hc) as (s' & n & q & Eb & Q & R & Wf).
  - unfold waiting. cbn. rewrite map_app. cbn. rewrite app_assoc. by rewrite Permutation_app_comm.
  - apply W.
  - cbn. intros s [Hs|Hs]%elem_of_app; [by apply W|]. by apply list_elem_of_singleton in Hs as ->.
  - cbn. intros r s Hr [Hs|Hs]%elem_of_app; [by apply W|].
    apply list_elem_of_singleton in Hs as ->. cbn. by apply N.
  - apply W.
  - cbn [sch set_ipc]. rewrite Eb. eexists. split; [reflexivity|].
    destruct (Wf (set_sch s' (set_ipc i' k)) eq_refl eq_refl) as [W' I'].
    split_and!; [|cbn|done|done].
    + split; [done|done|by eapply restate_evolves|done| |done].
      intros m (s & Hs & Ht). cbn in Hs. apply elem_of_app in Hs as [Hs|Hs]; [left; by exists s|].
      apply list_elem_of_singleton in Hs as ->. by right.
    + rewrite (restate_state_of _ _ _ _ R). apply (wf_running _ (iw_sched _ W)) in C.
      rewrite C. cbn. by rewrite decide_True.
Qed.

(** [try_deliver] when a sender is waiting. *)
Lemma try_deliver_send ep m sends :
  take_first (fun s => ps_endpoint s =? ep) (pending_sends (kipc k)) = Some (m, sends) ->
  exists k' slot, try_deliver k ep c = Ok (k', true) /\ ipc_ok idle None k k' /\
    current (sch k') = Some c /\ state_of (sch k') (ps_task m) = Some Ready /\
    regs k' c = deliver_msg (ps_task m) (ps_msg m) slot (regs k c) /\
    received (sch k') c slot (ps_transfer m) /\
    regs k' (ps_task m) = with_eax 0 (regs k (ps_task m)) /\
    kipc k' = set_sends sends (kipc k) /\
    forall q, q <> ps_task m -> q <> c -> regs k' q = regs k q.
Proof.
  intros E. unfold try_deliver. rewrite E.
  destruct (take_send_spec _ _ _ _ E) as (P & Sub & Hin & Ep).
  assert (Hw : ps_task m ∈ waiting (kipc k)) by (rewrite P; set_solver).
  destruct (waiter_task _ Hw) as [t T]. pose proof (waiter_not_current _ Hw) as Hne.
  destruct (current_task (sch k) (iw_sched _ W) c C) as (tc & Tc & _).
  set (k0 := set_ipc (set_sends sends (kipc k)) k).
  destruct (install_transfer_ok k0 c (ps_transfer m) tc (iw_sched _ W) Tc)
    as (k1 & slot & Ei & S1 & St1 & C1 & Ev1 & Ek & G1).
  change (sch k0) with (sch k) in *. unfold install_transfer in Ei.
  unfold current_cspace_install. change (sch k0) with (sch k) in Ei. cbn [sch set_ipc].
  rewrite C. cbn [expect]. cbn [sch set_ipc k0] in Ei. fold k0. rewrite Ei.
  destruct (ipc_wf_wake k (set_sends sends (kipc k)) (sch k1) (ps_task m) W P Sub S1 St1)
    as (s' & Ew & R & C' & Wf). rewrite Ek. cbn [sch set_sch write_regs set_regs]. rewrite Ew.
  rewrite (iw_regs_s _ W m Hin).
  do 2 eexists. split; [reflexivity|]. split_and!.
  - split; [by apply Wf| | |done| |done].
    + by apply (idle_wake idle k _ (sch k1) (ps_task m)).
    + eapply evolves_trans; [|by eapply restate_evolves].
      eapply evolves_mono; [|exact Ev1]. intros n Hn. left. by exists m.
    + intros n (s & Hs & Ht). left. exists s. split; [by apply Sub|done].
  - cbn. congruence.
  - cbn. rewrite (restate_state_of _ _ _ _ R), St1. unfold state_of. rewrite T. cbn.
    by rewrite decide_True.
  - cbn. replace (c =? ps_task m) with false by lia. by rewrite Z.eqb_refl.
  - by eapply received_restate.
  - cbn. rewrite Z.eqb_refl. by replace (ps_task m =? c) with false by lia.
  - done.
  - intros q Hq1 Hq2. cbn. by rewrite !(proj2 (Z.eqb_neq _ _)).
Qed.

(** [try_deliver] when an interrupt is queued. *)
Lemma try_deliver_event ep e events :
  take_first (fun s => ps_endpoint s =? ep) (pending_sends (kipc k)) = None ->
  take_first (fun e => ev_endpoint e =? ep) (pending_irq_events (kipc k)) = Some (e, events) ->
  exists k', try_deliver k ep c = Ok (k', true) /\ ipc_ok idle None k k' /\
    sch k' = sch k /\ regs k' c = deliver_irq (ev_irq e) (ev_data e) (regs k c) /\
    pending_irq_events (kipc k') = events.
Proof.
  intros E1 E2. unfold try_deliver. rewrite E1, E2. eexists. split; [reflexivity|].
  apply take_first_spec in E2 as (l1 & l2 & El & -> & _).
  split_and!; [|done|cbn; by rewrite Z.eqb_refl|done].
  apply ipc_ok_same; try done.
  - cbn. rewrite El. intros e' He. left. set_solver.
  - cbn. apply map_owner_set_ack.
Qed.

Lemma try_deliver_none ep :
  take_first (fun s => ps_endpoint s =? ep) (pending_sends (kipc k)) = None ->
  take_first (fun e => ev_endpoint e =? ep) (pending_irq_events (kipc k)) = None ->
  try_deliver k ep c = Ok (k, false).
Proof. intros E1 E2. unfold try_deliver. by rewrite E1, E2. Qed.

(** The two outcomes of [try_deliver]. *)
Lemma try_deliver_ok ep :
  (exists k', try_deliver k ep c = Ok (k', true) /\ ipc_ok idle None k k' /\
     current (sch k') = Some c) \/
  (try_deliver k ep c = Ok (k, false) /\
   (forall s, s ∈ pending_sends (kipc k) -> ps_endpoint s <> ep) /\
   (forall e, e ∈ pending_irq_events (kipc k) -> ev_endpoint e <> ep)).
Proof.
  destruct (take_first (fun s => ps_endpoint s =? ep) (pending_sends (kipc k))) as [[m sends]|] eqn:E1.
  { left. destruct (try_deliver_send _ _ _ E1) as (k' & slot & ? & ? & ? & _). eauto. }
  destruct (take_first (fun e => ev_endpoint e =? ep) (pending_irq_events (kipc k))) as [[e evs]|] eqn:E2.
  { left. destruct (try_deliver_event _ _ _ E1 E2) as (k' & ? & ? & Es & _).
    exists k'. by rewrite Es. }
  right. split_and!; [by apply try_deliver_none| |]; by eapply take_None_endpoint.
Qed.

Lemma recv_block ep :
  (forall s, s ∈ pending_sends (kipc k) -> ps_endpoint s <> ep) ->
  (forall e, e ∈ pending_irq_events (kipc k) -> ev_endpoint e <> ep) ->
  exists s', block_current (sch k) = Ok s' /\
    let k' := set_sch s' (set_ipc (set_recvs (pending_recvs (kipc k) ++ [PendingRecv c ep c]) (kipc k)) k) in
    ipc_ok idle None k k' /\ state_of (sch k') c = Some Blocked.
Proof.
  intros N1 N2. set (i' := set_recvs _ _).
  destruct (ipc_wf_block k idle c i' W I C Hc) as (s' & n & q & Eb & Q & R & Wf).
  - unfold waiting. cbn. rewrite map_app. cbn. rewrite <- app_assoc. cbn.
    symmetry. apply Permutation_middle.
  - cbn. intros r [Hr|Hr]%elem_of_app; [by apply W|]. by apply list_elem_of_singleton in Hr as ->.
  - apply W.
  - cbn. intros r s [Hr|Hr]%elem_of_app Hs; [by apply W|].
    apply list_elem_of_singleton in Hr as ->. cbn. by apply not_eq_sym, N1.
  - cbn. intros r e [Hr|Hr]%elem_of_app He; [by apply W|].
    apply list_elem_of_singleton in Hr as ->. cbn. by apply not_eq_sym, N2.
  - exists s'. split; [done|]. cbn zeta.
    destruct (Wf (set_sch s' (set_ipc i' k)) eq_refl eq_refl) as [W' I']. split.
    + split; [done|done|by eapply restate_evolves|done|by left|done].
    + cbn. rewrite (restate_state_of _ _ _ _ R). apply (wf_running _ (iw_sched _ W)) in C.
      rewrite C. cbn. by rewrite decide_True.
Qed.
End ops.

Section ops2.
Context (k : kernel) (idle c : Z) (W : ipc_wf k) (I : idle_ok idle k).
Context (C : current (sch k) = Some c) (Hc : c <> idle).

Lemma send_ok ep msg tr : exists k', send k c ep msg tr c = Ok k' /\ ipc_ok idle tr k k'.
Proof.
  destruct (take_first (fun r => pr_endpoint r =? ep) (pending_recvs (kipc k))) as [[r recvs]|] eqn:E.
  - destruct (send_match k idle c W I C Hc ep msg tr r recvs E) as (k' & ? & ? & ? & _). eauto.
  - destruct (send_block k idle c W I C Hc ep msg tr E) as (k' & ? & ? & _). eauto.
Qed.

Lemma recv_ok ep : exists k', recv k c ep c = Ok k' /\ ipc_ok idle None k k'.
Proof.
  pose proof (ack_irq_ok idle k ep W) as A. destruct (ack_irq_fields k ep) as (Es & _).
  unfold recv. set (k1 := ack_irq k ep) in *. pose proof (ok_wf _ _ _ _ A) as W1.
  assert (C1 : current (sch k1) = Some c) by (by rewrite Es).
  pose proof (ok_idle _ _ _ _ A I) as I1.
  destruct (try_deliver_ok k1 idle c W1 I1 C1 Hc ep) as [(k' & -> & K & _)|(-> & N1 & N2)].
  - eexists. split; [done|]. by eapply ipc_ok_trans.
  - destruct (recv_block k1 idle c W1 I1 C1 Hc ep N1 N2) as (s' & Eb & K & _).
    cbn [sch set_ipc]. rewrite Eb. eexists. split; [reflexivity|]. by eapply ipc_ok_trans.
Qed.

Lemma try_recv_ok ep :
  exists k', try_recv k ep c = Ok k' /\ ipc_ok idle None k k' /\ current (sch k') = Some c.
Proof.
  pose proof (ack_irq_ok idle k ep W) as A. destruct (ack_irq_fields k ep) as (Es & _).
  unfold try_recv. set (k1 := ack_irq k ep) in *. pose proof (ok_wf _ _ _ _ A) as W1.
  assert (C1 : current (sch k1) = Some c) by (by rewrite Es).
  pose proof (ok_idle _ _ _ _ A I) as I1.
  destruct (try_deliver_ok k1 idle c W1 I1 C1 Hc ep) as [(k' & -> & K & C')|(-> & N1 & N2)].
  - eexists. split; [done|]. split; [by eapply ipc_ok_trans|done].
  - eexists. split; [reflexivity|]. split; [|done]. eapply ipc_ok_trans; [exact A|].
    apply ipc_ok_same; try done. by auto.
Qed.
End ops2.

(** ** Interrupts *)

(** [notify_interrupt] when a task is receiving on the endpoint. *)
Lemma notify_match k idle ep irq data r recvs :
  ipc_wf k ->
  take_first (fun r => pr_endpoint r =? ep) (pending_recvs (kipc k)) = Some (r, recvs) ->
  exists k', notify_interrupt k ep irq data = Ok k' /\ ipc_ok idle None k k' /\
    current (sch k') = current (sch k) /\ state_of (sch k') (pr_task r) = Some Ready /\
    regs k' (pr_task r) = deliver_irq irq data (regs k (pr_task r)) /\
    endpoints (kipc k') = set_ack (endpoints (kipc k)) ep (Some irq) /\
    pending_irq_events (kipc k') = pending_irq_events (kipc k) /\ kpic k' = kpic k.
Proof.
  intros W E. unfold notify_interrupt. rewrite E.
  destruct (take_recv_spec _ _ _ _ E) as (P & Sub & Hin & Ep).
  assert (Hb : state_of (sch k) (pr_task r) = Some Blocked) by (apply W; rewrite P; set_solver).
  destruct (ipc_wf_wake k (set_endpoints (set_ack (endpoints (kipc k)) ep (Some irq))
     (set_recvs recvs (kipc k))) (sch k) (pr_task r) W P Sub (iw_sched _ W) ltac:(done))
    as (s' & Ew & R & C' & Wf).
  cbn [sch set_ipc write_regs set_regs]. rewrite Ew, (iw_regs_r _ W r Hin).
  eexists. split; [reflexivity|]. split_and!; try done.
  - split; [by apply Wf|by apply (idle_wake idle k _ (sch k) (pr_task r))|by eapply restate_evolves
      |done|by left|apply map_owner_set_ack].
  - cbn. rewrite (restate_state_of _ _ _ _ R), Hb. cbn. by rewrite decide_True.
  - cbn. by rewrite Z.eqb_refl.
Qed.

(** With nobody receiving, the event is queued behind the earlier ones. *)
Lemma notify_queue k idle ep irq data :
  ipc_wf k ->
  take_first (fun r => pr_endpoint r =? ep) (pending_recvs (kipc k)) = None ->
  exists k', notify_interrupt k ep irq data = Ok k' /\ ipc_ok idle None k k' /\
    sch k' = sch k /\ endpoints (kipc k') = endpoints (kipc k) /\
    pending_irq_events (kipc k') = pending_irq_events (kipc k) ++ [PendingIrqEvent ep irq data] /\
    kpic k' = kpic k.
Proof.
  intros W E. unfold notify_interrupt. rewrite E. eexists. split; [reflexivity|].
  split_and!; try done. apply ipc_ok_same; try done. cbn.
  intros e [He|He]%elem_of_app; [by left|]. right. apply list_elem_of_singleton in He as ->.
  by apply (take_None_endpoint _ _ _ E).
Qed.

Lemma notify_ok k idle ep irq data :
  ipc_wf k -> exists k', notify_interrupt k ep irq data = Ok k' /\ ipc_ok idle None k k' /\
    current (sch k') = current (sch k).
Proof.
  intros W.
  destruct (take_first (fun r => pr_endpoint r =? ep) (pending_recvs (kipc k))) as [[r recvs]|] eqn:E.
  - destruct (notify_match k idle ep irq data r recvs W E) as (k' & ? & ? & ? & _). eauto.
  - destruct (notify_queue k idle ep irq data W E) as (k' & ? & ? & Es & _).
    exists k'. by rewrite Es.
Qed.

Lemma dispatch_ok k idle irq data :
  ipc_wf k -> exists k', dispatch k irq data = Ok k' /\ ipc_ok idle None k k' /\
    current (sch k') = current (sch k).
Proof.
  intros W. unfold dispatch. destruct (handler_for k irq) as [ep|].
  - assert (K : ipc_ok idle None k (set_pic (mask (kpic k) (wrap8 irq)) k))
      by (apply ipc_ok_same; try done; by auto).
    destruct (notify_ok _ idle ep irq data (ok_wf _ _ _ _ K)) as (k' & -> & K' & Cs).
    eexists. split; [done|]. split; [by eapply ipc_ok_trans|done].
  - exists k. split; [done|]. split; [|done]. apply ipc_ok_same; try done. by auto.
Qed.

Lemma keyboard_ok k idle scancode :
  ipc_wf k -> exists k', keyboard_handler k scancode = Ok k' /\ ipc_ok idle None k k' /\
    current (sch k') = current (sch k).
Proof.
  intros W. unfold keyboard_handler. destruct (handler_for k 1) as [ep|]; [by apply notify_ok|].
  exists k. split; [done|]. split; [|done]. apply ipc_ok_same; try done. by auto.
Qed.

Lemma timer_ok k idle :
  ipc_wf k -> exists k', timer_handler k = Ok k' /\ ipc_ok idle None k k'.
Proof.
  intros W. pose proof (iw_sched _ W) as S. unfold timer_handler.
  assert (Same : exists k', (s <- Ok (sch k) ;; Ok (set_sch s k)) = Ok k' /\ ipc_ok idle None k k').
  { eexists. split; [done|]. apply ipc_ok_same; try done; by auto. }
  destruct (current (sch k)) as [c|] eqn:C; [|by rewrite tick_idle by auto].
  destruct (ready_queue (sch k)) as [|n q] eqn:Q; [by rewrite tick_idle by auto|].
  destruct (tick_spec (sch k) S c n q C Q) as (s' & -> & S' & _ & _ & _ & R).
  eexists. split; [reflexivity|].
  assert (Sc : state_of (sch k) c = Some Running) by (by apply (wf_running _ S)).
  assert (Sn : state_of (sch k) n = Some Ready) by (apply (wf_ready _ S); rewrite Q; set_solver).
  split; [|eapply (idle_restate idle k (set_sch s' k)); [exact R|]|by eapply restate_evolves|done|by left|done].
  - destruct W as [_ W2 W3 W4 W5 W6 W7]. split; try done. intros id. rewrite W3. cbn.
    rewrite (restate_state_of _ _ _ _ R).
    destruct (decide (id = n)) as [->|]; [by rewrite Sn|].
    destruct (decide (id = c)) as [->|]; [by rewrite Sc|]. by destruct (state_of (sch k) id).
  - intros old Ho. cbn beta. repeat case_decide; auto.
Qed.

(** ** Exit *)

Section retain.
Context (idle : Z) (dead : Z -> bool).

(** One waiter failed and woken, with [i'] the lists without it. *)
Lemma fail_waiter_ok k i i' x :
  ipc_wf (set_ipc i k) -> waiting i ≡ₚ x :: waiting i' -> ipc_sub i' i ->
  exists k', fail_waiter k x x = Ok k' /\ ipc_wf (set_ipc i' k') /\ kipc k' = kipc k /\
    ipc_frame k k' /\ kpic k' = kpic k /\ current (sch k') = current (sch k) /\
    (forall q, regs k' q = if q =? x then with_eax U32_MAX (regs k q) else regs k q) /\
    restate (fun i old => if decide (i = x) then Ready else old) (sch k) (sch k').
Proof.
  intros W P Sub. unfold fail_waiter.
  destruct (ipc_wf_wake (set_ipc i k) i' (sch k) x W P Sub (iw_sched _ W) ltac:(done))
    as (s' & Ew & R & C' & Wf).
  cbn [sch write_regs set_regs]. rewrite Ew. eexists. split; [reflexivity|].
  split_and!; try done. by apply Wf.
Qed.

Lemma idle_fail k k' x :
  restate (fun i old => if decide (i = x) then Ready else old) (sch k) (sch k') ->
  idle_ok idle k -> idle_ok idle k'.
Proof. intros R. by apply (idle_wake idle k k' (sch k) x). Qed.

(** What the two loops do, for the lists [l] still to visit. *)
Definition failed {A} (ep reg : A -> Z) (l : list A) (q : Z) : bool :=
  existsb (fun r => dead (ep r) && (reg r =? q)) l.

Record retain_ok {A} (ep task : A -> Z) (l : list A) (k k' : kernel) : Prop := {
  ro_ipc : kipc k' = kipc k;
  ro_frame : ipc_frame k k';
  ro_pic : kpic k' = kpic k;
  ro_current : current (sch k') = current (sch k);
  ro_idle : idle_ok idle k -> idle_ok idle k';
  ro_regs : forall q, regs k' q =
    if failed ep task l q then with_eax U32_MAX (regs k q) else regs k q;
  ro_states : restate (fun i old => if failed ep task l i then Ready else old) (sch k) (sch k')
}.

Lemma retain_ok_nil {A} (ep task : A -> Z) k : retain_ok ep task [] k k.
Proof. split; try done. apply restate_id. Qed.

Lemma retain_ok_skip {A} (ep task : A -> Z) r l k k' :
  dead (ep r) = false -> retain_ok ep task l k k' -> retain_ok ep task (r :: l) k k'.
Proof.
  intros D [H1 H2 H3 H4 H5 H6 H7].
  assert (E : forall q, failed ep task (r :: l) q = failed ep task l q)
    by (intros q; unfold failed; cbn; by rewrite D).
  split; try done.
  - intros q. by rewrite E.
  - eapply restate_ext; [|exact H7]. intros id old _. cbn beta. by rewrite E.
Qed.

Lemma retain_ok_cons {A} (ep task : A -> Z) r l k k1 k' :
  dead (ep r) = true -> kipc k1 = kipc k -> ipc_frame k k1 -> kpic k1 = kpic k ->
  current (sch k1) = current (sch k) ->
  (forall q, regs k1 q = if q =? task r then with_eax U32_MAX (regs k q) else regs k q) ->
  restate (fun i old => if decide (i = task r) then Ready else old) (sch k) (sch k1) ->
  retain_ok ep task l k1 k' -> retain_ok ep task (r :: l) k k'.
Proof.
  intros D E1 E2 E3 E4 E5 E6 [H1 H2 H3 H4 H5 H6 H7].
  assert (E : forall q, failed ep task (r :: l) q = (task r =? q) || failed ep task l q)
    by (intros q; unfold failed; cbn; by rewrite D).
  split; try congruence.
  - unfold ipc_frame in *. destruct_and!. split_and!; congruence.
  - intros Hi. apply H5. by eapply idle_fail.
  - intros q. rewrite E, H6, E5, Z.eqb_sym.
    destruct (task r =? q), (failed ep task l q); done.
  - eapply restate_ext; [|eapply restate_trans; [exact E6|exact H7]].
    intros id old _. cbn beta. rewrite E. case_decide as Dc.
    + subst id. rewrite Z.eqb_refl. by destruct (failed ep task l (task r)).
    + by replace (task r =? id) with false by lia.
Qed.

Lemma retain_recvs_ok l kept k :
  ipc_wf (set_ipc (set_recvs (kept ++ l) (kipc k)) k) ->
  exists k', let l' := List.filter (fun r => negb (dead (pr_endpoint r))) l in
    retain_recvs dead l k = Ok (k', l') /\
    ipc_wf (set_ipc (set_recvs (kept ++ l') (kipc k)) k') /\
    retain_ok pr_endpoint pr_task l k k'.
Proof.
  revert kept k. induction l as [|r l IH]; intros kept k W; cbn [retain_recvs List.filter].
  { exists k. split_and!; [done|done|apply retain_ok_nil]. }
  destruct (dead (pr_endpoint r)) eqn:D; cbn [negb].
  - assert (Er : pr_regs r = pr_task r) by (apply (iw_regs_r _ W); cbn; set_solver).
    rewrite Er.
    destruct (fail_waiter_ok k (set_recvs (kept ++ r :: l) (kipc k)) (set_recvs (kept ++ l) (kipc k))
                (pr_task r) W) as (k1 & -> & W1 & E1 & F1 & P1 & C1 & R1 & S1).
    { unfold waiting. cbn. rewrite !map_app. cbn. rewrite <- !app_assoc. cbn.
      symmetry. apply Permutation_middle. }
    { unfold ipc_sub. cbn. split_and!; set_solver. }
    rewrite <- E1 in W1. destruct (IH kept k1 W1) as (k' & -> & W' & K).
    exists k'. split_and!; [done|by rewrite E1 in W'|by eapply retain_ok_cons].
  - replace (kept ++ r :: l) with ((kept ++ [r]) ++ l) in W by (by rewrite <- app_assoc).
    destruct (IH _ _ W) as (k' & -> & W' & K).
    exists k'. split_and!; [done|by rewrite <- app_assoc in W'|by apply retain_ok_skip].
Qed.

Lemma retain_sends_ok l kept k :
  ipc_wf (set_ipc (set_sends (kept ++ l) (kipc k)) k) ->
  exists k', let l' := List.filter (fun r => negb (dead (ps_endpoint r))) l in
    retain_sends dead l k = Ok (k', l') /\
    ipc_wf (set_ipc (set_sends (kept ++ l') (kipc k)) k') /\
    retain_ok ps_endpoint ps_task l k k'.
Proof.
  revert kept k. induction l as [|r l IH]; intros kept k W; cbn [retain_sends List.filter].
  { exists k. split_and!; [done|done|apply retain_ok_nil]. }
  destruct (dead (ps_endpoint r)) eqn:D; cbn [negb].
  - assert (Er : ps_regs r = ps_task r) by (apply (iw_regs_s _ W); cbn; set_solver).
    rewrite Er.
    destruct (fail_waiter_ok k (set_sends (kept ++ r :: l) (kipc k)) (set_sends (kept ++ l) (kipc k))
                (ps_task r) W) as (k1 & -> & W1 & E1 & F1 & P1 & C1 & R1 & S1).
    { unfold waiting. cbn. rewrite !map_app. cbn. rewrite !(app_assoc (map pr_task _)).
      symmetry. apply Permutation_middle. }
    { unfold ipc_sub. cbn. split_and!; set_solver. }
    rewrite <- E1 in W1. destruct (IH kept k1 W1) as (k' & -> & W' & K).
    exists k'. split_and!; [done|by rewrite E1 in W'|by eapply retain_ok_cons].
  - replace (kept ++ r :: l) with ((kept ++ [r]) ++ l) in W by (by rewrite <- app_assoc).
    destruct (IH _ _ W) as (k' & -> & W' & K).
    exists k'. split_and!; [done|by rewrite <- app_assoc in W'|by apply retain_ok_skip].
Qed.
End retain.

Lemma task_exited_ok k idle id :
  ipc_wf k ->
  let dead := owned_by (endpoints (kipc k)) id in
  exists k', task_exited k id = Ok k' /\ ipc_ok idle None k k' /\
    current (sch k') = current (sch k) /\
    pending_recvs (kipc k') = List.filter (fun r => negb (dead (pr_endpoint r))) (pending_recvs (kipc k)) /\
    pending_sends (kipc k') = List.filter (fun r => negb (dead (ps_endpoint r))) (pending_sends (kipc k)) /\
    pending_irq_events (kipc k') =
      List.filter (fun e => negb (dead (ev_endpoint e))) (pending_irq_events (kipc k)) /\
    (forall q, failed dead pr_endpoint pr_task (pending_recvs (kipc k)) q
               || failed dead ps_endpoint ps_task (pending_sends (kipc k)) q = true ->
       regs k' q = with_eax U32_MAX (regs k q) /\ state_of (sch k') q = Some Ready) /\
    (forall q, failed dead pr_endpoint pr_task (pending_recvs (kipc k)) q
               || failed dead ps_endpoint ps_task (pending_sends (kipc k)) q = false ->
       regs k' q = regs k q /\ state_of (sch k') q = state_of (sch k) q) /\
    kpic k' = kpic k /\ endpoints (kipc k') = endpoints (kipc k).
Proof.
  intros W dead. unfold task_exited. fold dead.
  destruct (retain_recvs_ok idle dead (pending_recvs (kipc k)) [] k) as (k1 & -> & W1 & K1).
  { by destruct k as [? ? []]. }
  cbn [app] in W1. rewrite (ro_ipc _ _ _ _ _ _ _ K1).
  set (recvs := List.filter (fun r => negb (dead (pr_endpoint r))) (pending_recvs (kipc k))) in *.
  set (k2 := set_ipc (set_recvs recvs (kipc k)) k1) in *. cbn zeta.
  change (pending_sends (kipc k2)) with (pending_sends (kipc k)).
  destruct (retain_sends_ok idle dead (pending_sends (kipc k)) [] k2) as (k3 & -> & W3 & K3);
    [done|].
  cbn [app] in W3. rewrite (ro_ipc _ _ _ _ _ _ _ K3).
  eexists. split; [reflexivity|].
  pose proof (restate_trans _ _ _ _ _ (ro_states _ _ _ _ _ _ _ K1) (ro_states _ _ _ _ _ _ _ K3)) as R.
  change (sch k2) with (sch k1) in *.
  destruct K1 as [A1 A2 A3 A4 A5 A6 A7], K3 as [B1 B2 B3 B4 B5 B6 B7]. cbn [k2 sch set_ipc kpic] in *.
  split_and!.
  - split; cbn; try done.
    + destruct W3 as [X1 X2 X3 X4 X5 X6 X7]. split; try done. cbn in *.
      intros r e Hr He. apply list_elem_of_In, filter_In in He as [He _].
      apply X7; [done|]. by apply list_elem_of_In.
    + auto.
    + by eapply restate_evolves.
    + unfold ipc_frame in *. cbn in *. destruct_and!. split_and!; congruence.
    + intros n (s & Hs & Ht). left. exists s. split; [|done]. cbn in Hs.
      apply list_elem_of_In, filter_In in Hs as [Hs _]. by apply list_elem_of_In.
  - cbn. congruence.
  - done.
  - done.
  - done.
  - cbn. intros q Hq. rewrite B6. cbn. rewrite A6. rewrite (restate_state_of _ _ _ _ R).
    assert (Bl : state_of (sch k) q = Some Blocked).
    { apply W. unfold waiting, failed in *. apply elem_of_app.
      apply orb_true_iff in Hq as [Hq|Hq]; apply existsb_exists in Hq as (x & Hx & Hd); bool_simp;
        subst q; [left|right]; apply list_elem_of_In, in_map; done. }
    rewrite Bl. cbn.
    destruct (failed dead pr_endpoint _ _ q), (failed dead ps_endpoint _ _ q); done.
  - cbn. intros q [Q1 Q2]%orb_false_iff. rewrite B6. cbn. rewrite A6, Q1, Q2.
    split; [done|]. rewrite (restate_state_of _ _ _ _ R), Q1, Q2. by destruct (state_of (sch k) q).
  - cbn. congruence.
  - done.
Qed.

(** The scheduler's part of an exit changes no waiter. *)
Lemma exit_switch_ok k idle c :
  ipc_wf k -> idle_ok idle k -> current (sch k) = Some c -> c <> idle ->
  exists s', exit_switch (sch k) = Ok (s', c) /\ ipc_ok idle None k (set_sch s' k) /\
    state_of s' c = Some Zombie.
Proof.
  intros W I C Hne. destruct (ready_nonempty k idle c W I C Hne) as (n & q & Q & Rn).
  destruct (exit_switch_spec (sch k) (iw_sched _ W) c n q C Q) as (s' & E & S' & _ & _ & _ & R).
  assert (Sc : state_of (sch k) c = Some Running) by (by apply (wf_running _ (iw_sched _ W))).
  exists s'. split_and!; [done| |].
  - split; [|eapply (idle_restate idle k (set_sch s' k)); [exact R|]|by eapply restate_evolves|done
      |by left|done].
    + destruct W as [_ W2 W3 W4 W5 W6 W7]. split; try done. intros id. rewrite W3. cbn.
      rewrite (restate_state_of _ _ _ _ R).
      destruct (decide (id = c)) as [->|]; [by rewrite Sc|].
      destruct (decide (id = n)) as [->|]; [by rewrite Rn|]. by destruct (state_of (sch k) id).
    + intros old Ho. cbn beta. rewrite decide_False by (intros E'; by subst). case_decide; auto.
  - rewrite (restate_state_of _ _ _ _ R), Sc. cbn. by rewrite decide_True.
Qed.

Lemma exit_current_ok k idle c :
  ipc_wf k -> idle_ok idle k -> current (sch k) = Some c -> c <> idle ->
  exists k', exit_current k = Ok k' /\ ipc_ok idle None k k'.
Proof.
  intros W I C Hne. unfold exit_current.
  destruct (exit_switch_ok k idle c W I C Hne) as (s' & -> & K & _).
  destruct (task_exited_ok (set_sch s' k) idle c (ok_wf _ _ _ _ K)) as (k' & -> & K' & _).
  exists k'. split; [done|]. by eapply ipc_ok_trans.
Qed.

(** ** Theorems *)

(** C14: [send] is a rendezvous.  If a task is receiving on the endpoint, the one that
    has waited longest gets the sender's id, the three words and the transferred
    capability's slot, becomes ready, and the sender continues with [eax = 0]; nobody
    else's registers change.  If none is, the sender blocks with its message queued
    last.  It never fails. *)
Theorem send_correct k idle c ep msg tr :
  ipc_wf k -> idle_ok idle k -> current (sch k) = Some c -> c <> idle ->
  exists k', send k c ep msg tr c = Ok k' /\ ipc_wf k' /\
    match take_first (fun r => pr_endpoint r =? ep) (pending_recvs (kipc k)) with
    | Some (r, recvs) => exists slot,
        regs k' (pr_task r) = deliver_msg c msg slot (regs k (pr_task r)) /\
        received (sch k') (pr_task r) slot tr /\ state_of (sch k') (pr_task r) = Some Ready /\
        regs k' c = with_eax 0 (regs k c) /\ current (sch k') = Some c /\
        (forall q, q <> pr_task r -> q <> c -> regs k' q = regs k q) /\
        kipc k' = set_recvs recvs (kipc k)
    | None =>
        state_of (sch k') c = Some Blocked /\ regs k' = regs k /\
        pending_sends (kipc k') = pending_sends (kipc k) ++ [PendingSend c ep msg tr c]
    end.
Proof.
  intros W I C Hc.
  destruct (take_first (fun r => pr_endpoint r =? ep) (pending_recvs (kipc k))) as [[r recvs]|] eqn:E.
  - destruct (send_match k idle c W I C Hc ep msg tr r recvs E)
      as (k' & slot & Es & O & H1 & H2 & H3 & H4 & H5 & H6 & H7).
    exists k'. split_and!; [done|apply O|]. by exists slot.
  - destruct (send_block k idle c W I C Hc ep msg tr E) as (k' & Es & O & H1 & H2 & H3).
    exists k'. split_and!; [done|apply O|done|done|done].
Qed.

(** C15: [recv] takes the longest-waiting message for the endpoint, or else the oldest
    queued interrupt, and only if there is neither blocks.  A message arrives with its
    sender, words and capability, and unblocks the sender with [eax = 0].  It never
    fails. *)
Theorem recv_correct k idle c ep :
  ipc_wf k -> idle_ok idle k -> current (sch k) = Some c -> c <> idle ->
  exists k', recv k c ep c = Ok k' /\ ipc_wf k' /\
    match take_first (fun s => ps_endpoint s =? ep) (pending_sends (kipc k)) with
    | Some (m, sends) => exists slot,
        regs k' c = deliver_msg (ps_task m) (ps_msg m) slot (regs k c) /\
        received (sch k') c slot (ps_transfer m) /\
        regs k' (ps_task m) = with_eax 0 (regs k (ps_task m)) /\
        state_of (sch k') (ps_task m) = Some Ready /\ current (sch k') = Some c /\
        pending_sends (kipc k') = sends
    | None =>
        match take_first (fun e => ev_endpoint e =? ep) (pending_irq_events (kipc k)) with
        | Some (e, events) =>
            regs k' c = deliver_irq (ev_irq e) (ev_data e) (regs k c) /\
            current (sch k') = Some c /\ pending_irq_events (kipc k') = events
        | None =>
            state_of (sch k') c = Some Blocked /\ regs k' = regs k /\
            pending_recvs (kipc k') = pending_recvs (kipc k) ++ [PendingRecv c ep c]
        end
    end.
Proof.
  intros W I C Hc. pose proof (ack_irq_ok idle k ep W) as A.
  destruct (ack_irq_fields k ep) as (Es & Er & Ep & Eps & Ee). unfold recv.
  set (k1 := ack_irq k ep) in *. pose proof (ok_wf _ _ _ _ A) as W1.
  assert (C1 : current (sch k1) = Some c) by (by rewrite Es).
  pose proof (ok_idle _ _ _ _ A I) as I1. rewrite <- Eps, <- Ee, <- Ep, <- Er.
  destruct (take_first _ (pending_sends (kipc k1))) as [[m sends]|] eqn:T1.
  - destruct (try_deliver_send k1 idle c W1 I1 C1 Hc ep m sends T1)
      as (k' & slot & -> & O & H1 & H2 & H3 & H4 & H5 & H6 & _).
    exists k'. split_and!; [done|apply O|]. exists slot. split_and!; try done. by rewrite H6.
  - destruct (take_first _ (pending_irq_events (kipc k1))) as [[e events]|] eqn:T2.
    + destruct (try_deliver_event k1 idle c W1 I1 C1 Hc ep e events T1 T2) as (k' & -> & O & H1 & H2 & H3).
      exists k'. split_and!; [done|apply O|done|by rewrite H1|done].
    + rewrite (try_deliver_none k1 c ep T1 T2).
      destruct (recv_block k1 idle c W1 I1 C1 Hc ep (take_None_endpoint _ _ _ T1) (take_None_endpoint _ _ _ T2))
        as (s' & Eb & K & Sb).
      cbn [sch set_ipc]. rewrite Eb. eexists. split; [reflexivity|]. split; [apply K|]. by split_and!.
Qed.

(** C28: a task that exits, or faults in ring 3, leaves nobody waiting for it: every
    task blocked on one of its endpoints is ready again with [eax = u32::MAX], no other
    task's registers change, and no message or event for its endpoints remains. *)
Theorem exit_fails_waiters k idle c :
  ipc_wf k -> idle_ok idle k -> current (sch k) = Some c -> c <> idle ->
  exists k', exit_current k = Ok k' /\ ipc_wf k' /\ state_of (sch k') c = Some Zombie /\
    let owned := owned_by (endpoints (kipc k)) c in
    let fails q := failed owned pr_endpoint pr_task (pending_recvs (kipc k)) q
                   || failed owned ps_endpoint ps_task (pending_sends (kipc k)) q in
    (forall q, fails q = true ->
       regs k' q = with_eax U32_MAX (regs k q) /\ state_of (sch k') q = Some Ready) /\
    (forall q, fails q = false -> regs k' q = regs k q) /\
    Forall (fun r => owned (pr_endpoint r) = false) (pending_recvs (kipc k')) /\
    Forall (fun s => owned (ps_endpoint s) = false) (pending_sends (kipc k')) /\
    Forall (fun e => owned (ev_endpoint e) = false) (pending_irq_events (kipc k')).
Proof.
  intros W I C Hne. unfold exit_current.
  destruct (exit_switch_ok k idle c W I C Hne) as (s' & -> & K & Z).
  pose proof (ok_wf _ _ _ _ K) as W1.
  destruct (task_exited_ok (set_sch s' k) idle c W1)
    as (k' & -> & K' & _ & P1 & P2 & P3 & F1 & F2 & _).
  cbn [kipc set_sch regs] in *. set (owned := owned_by (endpoints (kipc k)) c) in *.
  exists k'. split_and!; [done|apply K'| |exact F1| | | |].
  - destruct (failed owned pr_endpoint pr_task (pending_recvs (kipc k)) c
              || failed owned ps_endpoint ps_task (pending_sends (kipc k)) c) eqn:Ef.
    + exfalso. assert (B : c ∈ waiting (kipc k)).
      { apply orb_true_iff in Ef as [Ef|Ef]; apply existsb_exists in Ef as (x & Hx & E%andb_true_iff);
          destruct E as [_ E%Z.eqb_eq]; subst; unfold waiting; apply elem_of_app; [left|right];
          apply list_elem_of_fmap; exists x; (split; [done|by apply list_elem_of_In]). }
      apply (iw_blocked _ W) in B. apply (wf_running _ (iw_sched _ W)) in C. congruence.
    + by destruct (F2 c Ef) as [_ ->].
  - intros q Hq. by apply F2.
  - rewrite P1. apply Forall_forall. intros r [_ Hr%negb_true_iff]%list_elem_of_In%filter_In. done.
  - rewrite P2. apply Forall_forall. intros r [_ Hr%negb_true_iff]%list_elem_of_In%filter_In. done.
  - rewrite P3. apply Forall_forall. intros r [_ Hr%negb_true_iff]%list_elem_of_In%filter_In. done.
Qed.

Lemma set_ack_get es ep v m :
  zget es ep = Some m -> zget (set_ack es ep v) ep = Some (EndpointMeta (owner m) v).
Proof.
  intros E. unfold set_ack. rewrite E. apply zget_zset_eq. by eapply zget_Some.
Qed.

(** an interrupt line handed to a driver stays off until the driver asks for the
    next one.  [dispatch] masks exactly that line and wakes the receiver with the
    line's number; when the driver receives on the endpoint again, the line (and, for a
    slave line, the cascade) is unmasked, no other line is touched, and the
    acknowledgement is spent. *)
Theorem irq_line_lifecycle k irq ep data meta r recvs :
  ipc_wf k -> 0 <= irq < 16 -> handler_for k irq = Some ep ->
  zget (endpoints (kipc k)) ep = Some meta ->
  take_first (fun r => pr_endpoint r =? ep) (pending_recvs (kipc k)) = Some (r, recvs) ->
  exists k', dispatch k irq data = Ok k' /\
    regs k' (pr_task r) = deliver_irq irq data (regs k (pr_task r)) /\
    state_of (sch k') (pr_task r) = Some Ready /\
    (forall i, 0 <= i < 16 -> masked (kpic k') i = masked (kpic k) i || (i =? irq)) /\
    let k2 := ack_irq k' ep in
    (forall i, 0 <= i < 16 ->
       masked (kpic k2) i = masked (kpic k') i && negb ((i =? irq) || (8 <=? irq) && (i =? 2))) /\
    zget (endpoints (kipc k2)) ep = Some (EndpointMeta (owner meta) None).
Proof.
  intros W Hi Hh Hm T. unfold dispatch. rewrite Hh.
  assert (Ew : wrap8 irq = irq) by (unfold wrap; rewrite Z.mod_small; lia). rewrite Ew.
  set (k0 := set_pic (mask (kpic k) irq) k).
  assert (W0 : ipc_wf k0) by (by destruct W; split).
  destruct (notify_match k0 0 ep irq data r recvs W0 T) as (k' & E & O & _ & St & Rg & En & _ & Pk).
  assert (Eg : zget (endpoints (kipc k')) ep = Some (EndpointMeta (owner meta) (Some irq)))
    by (rewrite En; by apply set_ack_get).
  assert (Ek : ack_irq k' ep = set_pic (unmask (kpic k') irq) (set_ipc (set_endpoints
    (zset (endpoints (kipc k')) ep (EndpointMeta (owner meta) None)) (kipc k')) k'))
    by (unfold ack_irq; by rewrite Eg, Ew).
  exists k'. split; [done|]. do 2 (split; [done|]). split; [|cbv zeta; rewrite Ek; split].
  - intros i Hr. rewrite Pk. cbn. rewrite masked_mask by lia. f_equal. lia.
  - intros i Hr. cbn. rewrite masked_unmask by lia. do 3 f_equal. lia.
  - cbn. apply zget_zset_eq. by eapply zget_Some.
Qed.

(** *** A small kernel state for the witnesses: task 1 runs, tasks 2 and 3 are ready
    (3 stands for the idle task), and endpoint 0, owned by task 2, gets line 11. *)

Definition ex_kernel : kernel :=
  Kernel [] ex_sched (Ipc [EndpointMeta 2 None] [] [] []) (fun q => SavedRegs q 0 0 0 0 0 0)
    (zset (replicate NUM_IRQS None) 11 (Some 0)) pic_init (fun _ => 0) (Bitmap [] 0)
    (KernelImage 0 0 0 0) 0 None.

Lemma ex_kernel_wf : ipc_wf ex_kernel.
Proof.
  split; try set_solver; [apply ex_sched_wf|constructor|].
  intros id. split; [set_solver|]. rewrite state_of_map.
  replace (map state (tasks (sch ex_kernel))) with [Running; Ready; Ready] by (vm_compute; reflexivity).
  intros E. apply zget_lookup in E as [_ E]. apply list_elem_of_lookup_2 in E. set_solver.
Qed.

(** Task 1 has blocked receiving on endpoint 0; task 2 runs. *)
Definition ex_waiting : kernel :=
  match recv ex_kernel 1 0 1 with Ok k => k | Panicked _ => ex_kernel end.

Lemma ex_waiting_wf : ipc_wf ex_waiting.
Proof.
  destruct (recv_ok ex_kernel 3 1 ex_kernel_wf ltac:(by left) eq_refl ltac:(done) 0) as (k' & E & O).
  unfold ex_waiting. rewrite E. apply O.
Qed.

Lemma send_correct_witness :
  exists k', send ex_waiting 2 0 (7, 8, 9) None 2 = Ok k' /\ ecx (regs k' 1) = 8.
Proof.
  destruct (send_correct ex_waiting 3 2 0 (7, 8, 9) None ex_waiting_wf ltac:(by left) eq_refl ltac:(done))
    as (k' & E & _ & slot & R & _).
  exists k'. split; [exact E|]. change (take_first _ _) with (Some (PendingRecv 1 0 1, @nil pending_recv)) in R.
  cbn in R. by rewrite R.
Defined.

Lemma recv_correct_witness :
  exists k', recv ex_kernel 1 0 1 = Ok k' /\ state_of (sch k') 1 = Some Blocked.
Proof.
  destruct (recv_correct ex_kernel 3 1 0 ex_kernel_wf ltac:(by left) eq_refl ltac:(done))
    as (k' & E & _ & St & _). by exists k'.
Defined.

(** The owner of endpoint 0 exits while task 1 waits on it. *)
Lemma exit_fails_waiters_witness :
  exists k', exit_current ex_waiting = Ok k' /\ eax (regs k' 1) = U32_MAX.
Proof.
  destruct (exit_fails_waiters ex_waiting 3 2 ex_waiting_wf ltac:(by left) eq_refl ltac:(done))
    as (k' & E & _ & _ & F & _). exists k'. split; [exact E|].
  destruct (F 1 eq_refl) as [-> _]. reflexivity.
Defined.

Lemma irq_line_lifecycle_witness :
  exists k', dispatch ex_waiting 11 0 = Ok k' /\ ebx (regs k' 1) = 11 /\
    masked (kpic (ack_irq k' 0)) 11 = false.
Proof.
  destruct (irq_line_lifecycle ex_waiting 11 0 0 (EndpointMeta 2 None) (PendingRecv 1 0 1) [] ex_waiting_wf)
    as (k' & E & R & _ & M & U & _); [lia|reflexivity|reflexivity|reflexivity|].
  exists k'. split; [exact E|]. cbn [pr_task] in R. rewrite R. split; [reflexivity|].
  rewrite U by lia. apply andb_false_r.
Defined.
