(* ===== verification/Loader.v ===== *)
(** * Loading programs (kernel/src/loader.rs, multiboot.rs)

    [spawn_with_code_pages] and its two callers, with the multiboot structures
    read the way the code reads them: through the address space that is active
    at the time.  A kernel read of an unmapped address is a ring-0 page fault,
    which halts the machine. *)

From stdpp Require Import base list numbers sets.
From Stdlib Require Import Lia.
From S2P Require Import Prelude Cap Hw Sched Frame Paging Ipc.
Open Scope Z_scope.

(** ** Kernel reads through the active page tables *)

Definition kread32 (m : mem) (cr3 va : Z) : res Z :=
  match translate m cr3 va with
  | Some t => Ok (load32 m (tr_phys t))
  | None => Panicked KernelPageFault
  end.

Definition is_mapped (m : mem) (cr3 va : Z) : bool :=
  match translate m cr3 va with Some _ => true | None => false end.

Definition read_byte (m : mem) (cr3 va : Z) : Z :=
  match translate m cr3 va with Some t => m (tr_phys t) | None => 0 end.

(** [copy_nonoverlapping] from virtual [src] to the frame at physical [dst]. *)
Definition copy_in (m : mem) (cr3 src dst n : Z) : res mem :=
  if forallb (fun i => is_mapped m cr3 (wrap32 (src + i))) (seqZ 0 n) then
    Ok (fun x => if (dst <=? x) && (x <? dst + n) then read_byte m cr3 (wrap32 (src + (x - dst)))
                 else m x)
  else Panicked KernelPageFault.

(** ** multiboot.rs: offsets of [RawInfo] and [RawModule] fields *)

Definition FLAG_MEM : Z := Z.shiftl 1 0.
Definition FLAG_MODS : Z := Z.shiftl 1 3.

(** [MultibootInfo::total_memory_bytes] *)
Definition total_memory_bytes (m : mem) (cr3 raw : Z) : res (option Z) :=
  flags <- kread32 m cr3 raw ;;
  if Z.land flags FLAG_MEM =? 0 then Ok None
  else
    mem_upper <- kread32 m cr3 (wrap32 (raw + 8)) ;;
    Ok (Some (wrap32 (1024 * 1024 + wrap32 (mem_upper * 1024)))).

(** [MultibootInfo::module_count] *)
Definition module_count (m : mem) (cr3 raw : Z) : res Z :=
  flags <- kread32 m cr3 raw ;;
  if Z.land flags FLAG_MODS =? 0 then Ok 0 else kread32 m cr3 (wrap32 (raw + 20)).

(** [MultibootInfo::module]: the module's start and end. *)
Definition module (m : mem) (cr3 raw index : Z) : res (option (Z * Z)) :=
  flags <- kread32 m cr3 raw ;;
  if Z.land flags FLAG_MODS =? 0 then Ok None
  else
    mods_count <- kread32 m cr3 (wrap32 (raw + 20)) ;;
    if index >=? mods_count then Ok None
    else
      mods_addr <- kread32 m cr3 (wrap32 (raw + 24)) ;;
      let entry := wrap32 (mods_addr + wrap32 (index * 16)) in
      mod_start <- kread32 m cr3 entry ;;
      mod_end <- kread32 m cr3 (wrap32 (entry + 4)) ;;
      Ok (Some (mod_start, mod_end)).

(** ** loader.rs *)

Definition USER_CODE_BASE : Z := 0x00400000.
Definition USER_STACK_TOP : Z := 0x00800000.
Definition USER_STACK_PAGES : nat := 4.

(** The loop of [reserve_all_modules] over the modules from [i] on. *)
Fixpoint reserve_modules (n : nat) (m : mem) (b : bitmap) (cr3 raw i : Z) : res bitmap :=
  match n with
  | O => Ok b
  | S n' =>
      o <- module m cr3 raw i ;;
      b' <- match o with
            | Some (s, e) => reserve_range b s e
            | None => Ok b
            end ;;
      reserve_modules n' m b' cr3 raw (i + 1)
  end.

Definition reserve_all_modules (m : mem) (b : bitmap) (cr3 raw : Z) : res bitmap :=
  n <- module_count m cr3 raw ;; reserve_modules (Z.to_nat n) m b cr3 raw 0.

Section spawn.
Context (cr3 : Z) (total_len : Z) (page_phys : Z -> res Z) (pd : Z).

(** One code page, once its frame is allocated: map it, copy its part of the
    image in, zero the rest. *)
Definition load_page (m : mem) (b : bitmap) (i phys : Z) : res (mem * bitmap) :=
  let* (m1, b1) := map_page m b pd (wrap32 (USER_CODE_BASE + i * FRAME_SIZE)) phys true true in
  let page_offset := i * FRAME_SIZE in
  let copy_len := Z.min (Z.max 0 (total_len - page_offset)) FRAME_SIZE in
  m2 <- (if 0 <? copy_len then
           src <- page_phys i ;; copy_in m1 cr3 (phys_to_virt src) phys copy_len
         else Ok m1) ;;
  let m3 := if copy_len <? FRAME_SIZE
            then write_bytes m2 (phys + copy_len) 0 (FRAME_SIZE - copy_len) else m2 in
  Ok (m3, b1).

(** The code loop; [false] is the early [return None] of [alloc_frame()?]. *)
Fixpoint load_code (n : nat) (m : mem) (b : bitmap) (i : Z) : res (mem * bitmap * bool) :=
  match n with
  | O => Ok (m, b, true)
  | S n' =>
      let* (b1, o) := alloc_frame b in
      match o with
      | None => Ok (m, b1, false)
      | Some phys =>
          let* (m1, b2) := load_page m b1 i phys in load_code n' m1 b2 (i + 1)
      end
  end.

(** The stack loop. *)
Fixpoint load_stack (n : nat) (m : mem) (b : bitmap) (i : Z) : res (mem * bitmap * bool) :=
  match n with
  | O => Ok (m, b, true)
  | S n' =>
      let* (b1, o) := alloc_frame b in
      match o with
      | None => Ok (m, b1, false)
      | Some phys =>
          let* (m1, b2) := map_page m b1 pd (USER_STACK_TOP - (i + 1) * FRAME_SIZE) phys true true in
          load_stack n' m1 b2 (i + 1)
      end
  end.

(** The address space of a new task: [false] when memory ran out. *)
Definition load_image (m : mem) (b : bitmap) : res (mem * bitmap * bool) :=
  let code_pages := Z.max (div_ceil total_len FRAME_SIZE) 1 in
  let* (m1, b1, ok) := load_code (Z.to_nat code_pages) m b 0 in
  if ok : bool then load_stack USER_STACK_PAGES m1 b1 0 else Ok (m1, b1, false).
End spawn.

(** The end of [spawn_with_code_pages]: the task and its name-service capability. *)
Definition spawn_task (k : kernel) (pd : Z) (ports : list Z) : res (kernel * option Z) :=
  let (s, id) := alloc_task_id (sch k) in
  let (s, task_id) := spawn s (new_user id USER_CODE_BASE USER_STACK_TOP pd ports) in
  let k := set_sch s k in
  match ns_endpoint k with
  | None => Ok (k, Some task_id)
  | Some ns =>
      let (nodes, node) := mint_root (caps k) (Endpoint ns) in
      let* (s, _) := install_cap_for (sch k) task_id node in
      Ok (set_sch s (set_caps nodes k), Some task_id)
  end.

(** [spawn_with_code_pages] *)
Definition spawn_with_code_pages (k : kernel) (total_len : Z) (page_phys : Z -> res Z)
  (ports : list Z) : res (kernel * option Z) :=
  let* (m, b, pd) := page_directory_new (kmem k) (kframes k) (boot_pd (kimg k)) in
  let* (m, b, ok) := load_image (cr3 (scpu (sch k))) total_len page_phys pd m b in
  if ok : bool then spawn_task (set_mem m b k) pd ports else Ok (set_mem m b k, None).

(** [spawn_from_module] *)
Definition spawn_from_module (k : kernel) (index : Z) (ports : list Z) : res (kernel * option Z) :=
  o <- module (kmem k) (cr3 (scpu (sch k))) (mb_info k) index ;;
  match o with
  | None => Ok (k, None)
  | Some (start, end_) =>
      spawn_with_code_pages k (wrap32 (end_ - start))
        (fun i => Ok (wrap32 (start + i * FRAME_SIZE))) ports
  end.

(** [spawn_from_memory] *)
Definition spawn_from_memory (k : kernel) (grants : list Z) (total_len : Z)
  : res (kernel * option Z) :=
  if (zlen grants =? 0) || (total_len =? 0) || (zlen grants * FRAME_SIZE <? total_len)
  then Ok (k, None)
  else spawn_with_code_pages k total_len (fun i => expect IndexOutOfBounds (zget grants i)) [].

(** ** Building an address space *)

(** Mapping at the base of the kernel half is refused. *)
Lemma map_page_kernel_panics K m b pds pd phys u w :
  vm_wf K m b pds -> pd ∈ pds ->
  map_page m b pd KERNEL_VMA phys u w = Panicked AssertionFailed.
Proof.
  intros W Hpd. unfold map_page. change (KERNEL_VMA mod FRAME_SIZE =? 0) with true.
  change (Z.shiftr KERNEL_VMA 22) with KERNEL_VMA_PDE_INDEX. cbn [negb].
  fold (pde_at m pd KERNEL_VMA_PDE_INDEX). case_match; [done|].
  rewrite (vm_kernel _ _ _ _ W) by (done || rewrite KERNEL_VMA_PDE_INDEX_eq; lia).
  pose proof (vm_kernel_base _ _ _ _ W) as P.
  pose proof (vm_kernel_ps _ _ _ _ W KERNEL_VMA_PDE_INDEX ltac:(rewrite KERNEL_VMA_PDE_INDEX_eq; lia) P) as [S _].
  by rewrite negb_orb, present_land, ps_land, P, S.
Qed.

Definition code_page (i : Z) : Z := USER_CODE_BASE + i * FRAME_SIZE.

Definition copy_len (total_len i : Z) : Z :=
  Z.min (Z.max 0 (total_len - i * FRAME_SIZE)) FRAME_SIZE.

Lemma copy_in_ok m cr3 src dst n m' :
  mem_ok m -> copy_in m cr3 src dst n = Ok m' ->
  mem_ok m' /\ (forall x, ~ (dst <= x < dst + n) -> m' x = m x) /\
  (forall j, 0 <= j < n -> m' (dst + j) = read_byte m cr3 (wrap32 (src + j))).
Proof.
  intros M. unfold copy_in. case_match; [|done]. intros [= <-]. split_and!.
  - intros x. cbn. case_match; [|apply M]. unfold read_byte. case_match; [apply M|unfold is_u8; lia].
  - intros x Hx. cbn. case_match; [bool_simp; lia|done].
  - intros j Hj. cbn. replace ((dst <=? dst + j) && (dst + j <? dst + n)) with true by lia.
    do 2 f_equal. lia.
Qed.

Section load.
Context (K : kernel_image) (pds : list Z) (pd cr3 total_len : Z) (page_phys : Z -> res Z).
Context (Hpd : pd ∈ pds).

Definition in_page (virt : Z) (pd' va : Z) : Prop :=
  pd' = pd /\ va / FRAME_SIZE = virt / FRAME_SIZE.

(** Whatever user code of the new task reaches in [m'] and did not reach in [m] lies in
    frames that were free in [b]. *)
Definition fills (m m' : mem) (b : bitmap) : Prop :=
  forall va x w, is_u32 va -> translate m' pd va = Some (Translation x true w) ->
    translate m pd va = Some (Translation x true w) \/ ~ claimed b (frame_base x).

Lemma fills_refl m b : fills m m b.
Proof. intros va x w _ E. by left. Qed.

Lemma fills_trans m m1 m2 b b1 : bitmap_le b b1 -> fills m m1 b -> fills m1 m2 b1 -> fills m m2 b.
Proof.
  intros L F1 F2 va x w Hva E. destruct (F2 va x w Hva E) as [E1|N]; [by apply F1|].
  right. intros C. by apply N, (claimed_le b).
Qed.

(** Allocating a frame and mapping it. *)
Lemma alloc_map_ok m b b1 phys virt :
  vm_wf K m b pds -> alloc_frame b = Ok (b1, Some phys) ->
  virt mod FRAME_SIZE = 0 -> 0 <= virt < KERNEL_VMA ->
  map_page m b1 pd virt phys true true = Panicked OutOfPhysicalMemory \/
  exists m' b', map_page m b1 pd virt phys true true = Ok (m', b') /\
    vm_kept K m m' b b' pds (in_page virt) /\ user_page K m' b' pds phys /\
    (forall q, user_page K m b pds q -> q <> phys) /\ fills m m' b /\
    (forall va, is_u32 va -> va / FRAME_SIZE = virt / FRAME_SIZE ->
       translate m' pd va = Some (Translation (phys + va mod FRAME_SIZE) true true)).
Proof.
  intros W E Hm Hv. destruct (alloc_fresh K m b pds b1 phys W E) as (W1 & L & F & N).
  pose proof (fresh_user_page K m b1 pds phys F) as U.
  pose proof (allocated_u32 _ _ (vm_bitmap _ _ _ _ W1) (fresh_alloc _ _ _ _ _ F)) as Pu.
  destruct (map_page_ok K m b1 pds pd W1 Hpd virt phys true Hm Hv Pu U)
    as [?|(m' & b' & E' & [V1 V2 V3 V4 V5] & T)]; [by left|].
  right. exists m', b'. split_and!; [done| |by apply V3| | |done].
  - split; [done|by eapply bitmap_le_trans| | |done].
    + intros q Uq. apply V3. by eapply user_page_bitmap.
    + intros q x Uq Hx. apply (V4 q); [by eapply user_page_bitmap|done].
  - intros q Uq. apply N, Uq.
  - intros va x w Hva Tr. destruct (decide (va / FRAME_SIZE = virt / FRAME_SIZE)) as [Hp|Hp].
    + right. rewrite T in Tr by done. injection Tr as <- <-. intros Cl. apply (N _ Cl).
      apply frame_base_page; [|by apply Z.mod_pos_bound].
      by apply (allocated_mod _ _ (fresh_alloc _ _ _ _ _ F)).
    + left. rewrite <- Tr. symmetry. apply V5; [done|done|]. by intros [_ ?].
Qed.

(** A mapped page filled: everything else is kept. *)
Lemma fill_ok m m1 m2 b b1 phys P :
  vm_kept K m m1 b b1 pds P -> user_page K m1 b1 pds phys ->
  (forall q, user_page K m b pds q -> q <> phys) -> mem_ok m2 ->
  (forall x, ~ (phys <= x < phys + FRAME_SIZE) -> m2 x = m1 x) ->
  vm_kept K m m2 b b1 pds P /\ user_page K m2 b1 pds phys /\
  (forall pd' va, pd' ∈ pds -> is_u32 va -> translate m2 pd' va = translate m1 pd' va).
Proof.
  intros [V1 V2 V3 V4 V5] U N M O.
  destruct (user_write K m1 b1 pds phys m2 V1 U M O) as (W2 & U2 & T2).
  split_and!; [|by apply U2|done]. split; [done|done|auto| |].
  - intros q x Uq Hx. rewrite O; [by apply (V4 q)|].
    apply (frames_disjoint phys q); [by eapply user_page_mod|by eapply user_page_mod| |done].
    by apply not_eq_sym, N.
  - intros pd' va H1 H2 H3. rewrite T2 by done. auto.
Qed.

(** The source of page [i] is a page of user memory inside the window. *)
Definition source_ok (m : mem) (b : bitmap) (i : Z) : Prop :=
  forall src, page_phys i = Ok src ->
    user_page K m b pds src /\ 0 <= src /\ src + FRAME_SIZE <= phys_entries K * 2 ^ 22.

Lemma source_ok_kept m m' b b' P i :
  vm_kept K m m' b b' pds P -> source_ok m b i -> source_ok m' b' i.
Proof. intros V S src E. destruct (S src E) as (U & ?). split; [by apply V|done]. Qed.

(** Page [i] can be loaded: it lies below the kernel, and if part of the image goes
    there, its source is readable through the window. *)
Definition page_ready (m : mem) (b : bitmap) (i : Z) : Prop :=
  code_page i < KERNEL_VMA /\ (cr3 ∈ pds \/ cr3 = boot_pd K) /\
  (i * FRAME_SIZE < total_len -> is_ok (page_phys i) = true /\ source_ok m b i).

Lemma page_ready_kept m m' b b' P i :
  vm_kept K m m' b b' pds P -> page_ready m b i -> page_ready m' b' i.
Proof.
  intros V (H1 & H2 & H3). split_and!; [done|done|]. intros Hi. destruct (H3 Hi) as [Ho So].
  split; [done|]. by eapply source_ok_kept.
Qed.

(** Reading a page of the window does not fault. *)
Lemma copy_in_window m b src dst n :
  vm_wf K m b pds -> cr3 ∈ pds \/ cr3 = boot_pd K -> 0 <= n <= FRAME_SIZE -> 0 <= src ->
  src + FRAME_SIZE <= phys_entries K * 2 ^ 22 ->
  is_ok (copy_in m cr3 (phys_to_virt src) dst n) = true.
Proof.
  intros W Hcr Hn H0 H1. unfold copy_in. pose proof (vm_window _ _ _ _ W) as [Hw _].
  rewrite (proj2 (forallb_forall _ _)); [done|]. intros j Hj%list_elem_of_In%elem_of_seqZ.
  unfold is_mapped, FRAME_SIZE in *.
  replace (wrap32 (phys_to_virt src + j)) with (phys_to_virt (src + j)).
  - by rewrite (translate_window K m b pds) by (done || lia).
  - rewrite !phys_to_virt_eq by lia. unfold wrap, PHYS_MAP_BASE. rewrite Z.mod_small; lia.
Qed.

Lemma load_page_ok m b b1 i phys :
  vm_wf K m b pds -> alloc_frame b = Ok (b1, Some phys) ->
  0 <= i -> code_page i <= KERNEL_VMA ->
  (exists e, load_page cr3 total_len page_phys pd m b1 i phys = Panicked e /\
     (page_ready m b i -> e = OutOfPhysicalMemory)) \/
  code_page i < KERNEL_VMA /\
  exists m' b' m1, load_page cr3 total_len page_phys pd m b1 i phys = Ok (m', b') /\
    vm_kept K m m' b b' pds (in_page (code_page i)) /\ user_page K m' b' pds phys /\
    vm_kept K m m1 b b' pds (in_page (code_page i)) /\ fills m m' b /\
    (forall va, is_u32 va -> va / FRAME_SIZE = code_page i / FRAME_SIZE ->
       translate m' pd va = Some (Translation (phys + va mod FRAME_SIZE) true true)) /\
    (forall j, copy_len total_len i <= j < FRAME_SIZE -> m' (phys + j) = 0) /\
    (forall j, 0 <= j < copy_len total_len i ->
       exists src, page_phys i = Ok src /\
         m' (phys + j) = read_byte m1 cr3 (wrap32 (phys_to_virt src + j))).
Proof.
  intros W E Hi Hb. unfold load_page. fold (code_page i).
  replace (wrap32 (code_page i)) with (code_page i)
    by (unfold wrap, code_page, KERNEL_VMA, USER_CODE_BASE, FRAME_SIZE in *; rewrite Z.mod_small; lia).
  destruct (decide (code_page i = KERNEL_VMA)) as [Heq|Hne].
  { left. destruct (alloc_fresh K m b pds b1 phys W E) as (W1 & _).
    rewrite Heq, (map_page_kernel_panics K m b1 pds pd) by done. eexists. split; [done|].
    intros [Hr _]. lia. }
  assert (Hv : 0 <= code_page i < KERNEL_VMA)
    by (unfold code_page, USER_CODE_BASE, FRAME_SIZE in *; lia).
  assert (Hm : code_page i mod FRAME_SIZE = 0)
    by (unfold code_page; rewrite Z.mod_add by done; done).
  destruct (alloc_map_ok m b b1 phys (code_page i) W E Hm Hv)
    as [-> |(m1 & b' & -> & V & U & N & Fi & T)]; [left; by eexists|].
  fold (copy_len total_len i). set (n := copy_len total_len i).
  assert (Hn : 0 <= n <= FRAME_SIZE) by (subst n; unfold copy_len, FRAME_SIZE; lia).
  pose proof (vm_mem _ _ _ _ (kept_wf _ _ _ _ _ _ _ V)) as M1.
  assert (S2 : (exists e, (if 0 <? n then src <- page_phys i ;; copy_in m1 cr3 (phys_to_virt src) phys n
                           else Ok m1) = Panicked e /\ ~ page_ready m b i) \/
    exists m2, (if 0 <? n then src <- page_phys i ;; copy_in m1 cr3 (phys_to_virt src) phys n
                else Ok m1) = Ok m2 /\ mem_ok m2 /\
      (forall x, ~ (phys <= x < phys + n) -> m2 x = m1 x) /\
      (forall j, 0 <= j < n -> exists src, page_phys i = Ok src /\
         m2 (phys + j) = read_byte m1 cr3 (wrap32 (phys_to_virt src + j)))).
  { destruct (0 <? n) eqn:E0; bool_simp; [|right; exists m1; split_and!; try done; lia].
    assert (Hi1 : i * FRAME_SIZE < total_len) by (subst n; unfold copy_len in E0; lia).
    destruct (page_phys i) as [src|e] eqn:Ep.
    2: { left. exists e. split; [done|]. intros (_ & _ & R). by destruct (R Hi1) as [R1 _]; rewrite Ep in R1. }
    destruct (copy_in m1 cr3 (phys_to_virt src) phys n) as [m2|e] eqn:Ec.
    2: { left. exists e. split; [done|]. intros (_ & Hcr & R). destruct (R Hi1) as [_ R2].
         destruct (R2 src Ep) as (_ & Q1 & Q2).
         pose proof (copy_in_window m1 b' src phys n (kept_wf _ _ _ _ _ _ _ V) Hcr Hn Q1 Q2) as Q.
         by rewrite Ec in Q. }
    destruct (copy_in_ok _ _ _ _ _ _ M1 Ec) as (M2 & O & R). right. exists m2.
    split_and!; try done. intros j Hj. exists src. split; [done|]. by apply R. }
  destruct S2 as [(e & -> & Nr)|(m2 & -> & M2 & O2 & R2)]; [left; by exists e|].
  right. split; [lia|].
  set (m3 := if n <? FRAME_SIZE then write_bytes m2 (phys + n) 0 (FRAME_SIZE - n) else m2).
  assert (M3 : mem_ok m3).
  { subst m3. case_match; [|done]. intros x. unfold write_bytes.
    case_match; [unfold is_u8; lia|apply M2]. }
  assert (X3 : forall x, m3 x = if decide (phys + n <= x < phys + FRAME_SIZE) then 0 else m2 x).
  { intros x. subst m3. destruct (n <? FRAME_SIZE) eqn:E1; bool_simp; unfold write_bytes.
    - case_decide; case_match; bool_simp; try done; lia.
    - by rewrite decide_False by lia. }
  assert (O3 : forall x, ~ (phys <= x < phys + FRAME_SIZE) -> m3 x = m1 x).
  { intros x Hx. rewrite X3, decide_False, O2 by lia. done. }
  destruct (fill_ok m m1 m3 b b' phys _ V U N M3 O3) as (V3 & U3 & T3).
  exists m3, b', m1. split_and!; try done.
  - intros va x w Hva Tr. rewrite T3 in Tr by done. by apply Fi.
  - intros va Hva Ep. rewrite T3 by done. by apply T.
  - intros j Hj. rewrite X3, decide_True by lia. done.
  - intros j Hj. destruct (R2 j Hj) as (src & ? & Rj). exists src. split; [done|].
    rewrite X3, decide_False by lia. done.
Qed.

(** The byte of the program at offset [off], as it lies in memory [m]. *)
Definition image_byte (m : mem) (off : Z) : Z :=
  if off <? total_len then
    match page_phys (off / FRAME_SIZE) with
    | Ok src => m (src + off mod FRAME_SIZE)
    | Panicked _ => 0
    end
  else 0.

(** In memory [m'], user code of the new task sees [v] at [va]. *)
Definition user_sees (m' : mem) (b' : bitmap) (va v : Z) : Prop :=
  exists phys, user_page K m' b' pds phys /\
    translate m' pd va = Some (Translation (phys + va mod FRAME_SIZE) true true) /\
    m' (phys + va mod FRAME_SIZE) = v.

Lemma user_sees_kept m m' b b' P va v :
  vm_kept K m m' b b' pds P -> is_u32 va -> ~ P pd va ->
  user_sees m b va v -> user_sees m' b' va v.
Proof.
  intros [V1 V2 V3 V4 V5] Hva N (phys & U & T & B). exists phys.
  split_and!; [by apply V3|by rewrite V5|]. rewrite (V4 phys); [done|done|].
  pose proof (Z.mod_pos_bound va FRAME_SIZE ltac:(done)). lia.
Qed.

Lemma image_byte_kept m m' b b' P off :
  vm_kept K m m' b b' pds P -> 0 <= off -> source_ok m b (off / FRAME_SIZE) ->
  image_byte m' off = image_byte m off.
Proof.
  intros V Ho S. unfold image_byte. case_match; [|done].
  destruct (page_phys (off / FRAME_SIZE)) as [src|] eqn:E; [|done].
  destruct (S src E) as (U & _). apply (kept_bytes _ _ _ _ _ _ _ V src); [done|].
  pose proof (Z.mod_pos_bound off FRAME_SIZE ltac:(done)). lia.
Qed.

Lemma code_page_div va i : code_page i <= va < code_page (i + 1) ->
  (va - USER_CODE_BASE) / FRAME_SIZE = i /\
  (va - USER_CODE_BASE) mod FRAME_SIZE = va mod FRAME_SIZE /\
  va / FRAME_SIZE = code_page i / FRAME_SIZE.
Proof. unfold code_page, USER_CODE_BASE, FRAME_SIZE. intros. split_and!; dlia. Qed.

Lemma code_page_mono i j : i <= j -> code_page i <= code_page j.
Proof. unfold code_page, FRAME_SIZE. lia. Qed.

(** One page of the image, seen by the new task. *)
Lemma load_page_bytes m b b1 i phys m' b' m1 va :
  vm_wf K m b pds -> 0 <= i -> code_page i < KERNEL_VMA ->
  vm_kept K m m1 b b' pds (in_page (code_page i)) ->
  user_page K m' b' pds phys ->
  (forall va, is_u32 va -> va / FRAME_SIZE = code_page i / FRAME_SIZE ->
     translate m' pd va = Some (Translation (phys + va mod FRAME_SIZE) true true)) ->
  (forall j, copy_len total_len i <= j < FRAME_SIZE -> m' (phys + j) = 0) ->
  (forall j, 0 <= j < copy_len total_len i ->
     exists src, page_phys i = Ok src /\
       m' (phys + j) = read_byte m1 cr3 (wrap32 (phys_to_virt src + j))) ->
  alloc_frame b = Ok (b1, Some phys) ->
  cr3 ∈ pds \/ cr3 = boot_pd K -> source_ok m b i ->
  code_page i <= va < code_page (i + 1) ->
  user_sees m' b' va (image_byte m (va - USER_CODE_BASE)).
Proof.
  intros W Hi Hk V U T Z0 R _ Hcr S Hva.
  destruct (code_page_div va i Hva) as (D1 & D2 & D3).
  assert (Hu : is_u32 va)
    by (unfold is_u32, code_page, USER_CODE_BASE, FRAME_SIZE, KERNEL_VMA in *; lia).
  set (j := va mod FRAME_SIZE) in *.
  assert (Hj : 0 <= j < FRAME_SIZE) by (apply Z.mod_pos_bound; done).
  exists phys. split_and!; [done|by apply T|]. unfold image_byte. fold j. rewrite D1, D2.
  assert (Ho : va - USER_CODE_BASE = i * FRAME_SIZE + j).
  { rewrite (Z.div_mod (va - USER_CODE_BASE) FRAME_SIZE) by done. rewrite D1, D2. lia. }
  rewrite Ho. destruct (decide (j < copy_len total_len i)) as [Hlt|Hge].
  - destruct (R j ltac:(lia)) as (src & Es & ->). rewrite Es.
    replace (i * FRAME_SIZE + j <? total_len) with true
      by (unfold copy_len, FRAME_SIZE in *; lia).
    destruct (S src Es) as (Us & S0 & S1).
    pose proof (kept_wf _ _ _ _ _ _ _ V) as W1. pose proof (vm_window _ _ _ _ W1) as [Hw _].
    assert (Ev : wrap32 (phys_to_virt src + j) = phys_to_virt (src + j)).
    { unfold FRAME_SIZE in *. rewrite !phys_to_virt_eq by lia.
      unfold wrap, PHYS_MAP_BASE. rewrite Z.mod_small; lia. }
    unfold read_byte. rewrite Ev, (translate_window K m1 b' pds) by (done || lia). cbn.
    apply (kept_bytes _ _ _ _ _ _ _ V src); [done|lia].
  - rewrite Z0 by lia. case_match; [|done]. bool_simp. unfold copy_len, FRAME_SIZE in *. lia.
Qed.

Definition in_pages (i n : Z) (pd' va : Z) : Prop :=
  pd' = pd /\ code_page i <= va < code_page (i + n).

Lemma load_code_ok n m b i :
  vm_wf K m b pds -> 0 <= i -> code_page i <= KERNEL_VMA ->
  (exists e, load_code cr3 total_len page_phys pd n m b i = Panicked e /\
     ((forall i', i <= i' < i + Z.of_nat n -> page_ready m b i') -> e = OutOfPhysicalMemory)) \/
  exists m' b' ok, load_code cr3 total_len page_phys pd n m b i = Ok (m', b', ok) /\
    vm_kept K m m' b b' pds (in_pages i (Z.of_nat n)) /\ fills m m' b /\
    (ok = true -> code_page (i + Z.of_nat n) <= KERNEL_VMA /\
      ((cr3 ∈ pds \/ cr3 = boot_pd K) ->
       (forall i', i <= i' < i + Z.of_nat n -> source_ok m b i') ->
       forall va, code_page i <= va < code_page (i + Z.of_nat n) ->
         user_sees m' b' va (image_byte m (va - USER_CODE_BASE)))).
Proof.
  revert m b i. induction n as [|n IH]; intros m b i W Hi Hb; cbn [load_code].
  { right. exists m, b, true. split_and!; [done|by apply vm_kept_refl|apply fills_refl|].
    intros _. replace (i + Z.of_nat 0) with i by lia. split; [done|]. lia. }
  destruct (alloc_frame_ok b (vm_bitmap _ _ _ _ W)) as (b1 & [phys|] & Ea & Sp); rewrite Ea.
  2: { destruct Sp as [-> _]. right. exists m, b, false.
       split_and!; [done|by apply vm_kept_refl|apply fills_refl|done]. }
  destruct (load_page_ok m b b1 i phys W Ea Hi Hb)
    as [(e & -> & He)|(Hk & m1 & b2 & mr & -> & V & U & Vr & F1 & T & Z0 & R)].
  { left. exists e. split; [done|]. intros H. apply He, H. lia. }
  assert (Hb' : code_page (i + 1) <= KERNEL_VMA).
  { unfold code_page, USER_CODE_BASE, FRAME_SIZE, KERNEL_VMA in *. lia. }
  pose proof (kept_wf _ _ _ _ _ _ _ V) as W1.
  destruct (IH m1 b2 (i + 1) W1 ltac:(lia) Hb') as [(e & -> & He)|(m' & b' & ok & -> & V' & F2 & H)].
  { left. exists e. split; [done|]. intros H. apply He. intros i' Hi'.
    eapply page_ready_kept; [exact V|]. apply H. lia. }
  replace (i + 1 + Z.of_nat n) with (i + Z.of_nat (S n)) in H by lia.
  assert (P1 : forall pd' va, in_page (code_page i) pd' va -> in_pages i (Z.of_nat (S n)) pd' va).
  { intros pd' va [-> E]. split; [done|].
    unfold code_page, USER_CODE_BASE, FRAME_SIZE in *. dlia. }
  right. exists m', b', ok. split_and!; [done| | |].
  - eapply vm_kept_trans; [exact V|exact V'|]. intros pd' va [?|[-> ?]]; [auto|]. split; [done|].
    replace (i + Z.of_nat (S n)) with (i + 1 + Z.of_nat n) by lia.
    pose proof (code_page_mono i (i + 1)). lia.
  - eapply fills_trans; [apply V|exact F1|exact F2].
  - intros ->. destruct (H eq_refl) as [Hend Hbytes]. split; [done|].
    intros Hcr Src va Hva.
    assert (Src' : forall i', i + 1 <= i' < i + Z.of_nat (S n) -> source_ok m1 b2 i')
      by (intros; eapply source_ok_kept; [exact V|]; apply Src; lia).
    destruct (decide (va < code_page (i + 1))) as [Hlt|Hge].
    + assert (Hu : is_u32 va)
        by (unfold is_u32, code_page, USER_CODE_BASE, FRAME_SIZE, KERNEL_VMA in *; lia).
      eapply user_sees_kept; [exact V'|done|intros [_ ?]; lia|].
      eapply load_page_bytes; try done; [apply Src; lia|lia].
    + assert (0 <= va - USER_CODE_BASE) by (unfold code_page, FRAME_SIZE in *; lia).
      assert (Hr : i + 1 <= (va - USER_CODE_BASE) / FRAME_SIZE < i + Z.of_nat (S n)).
      { unfold code_page, FRAME_SIZE in *. dlia. }
      rewrite <- (image_byte_kept m m1 b b2 _ _ V) by (done || apply Src; lia).
      apply Hbytes; [done|done|lia].
Qed.

Lemma load_stack_ok n m b i :
  vm_wf K m b pds -> 0 <= i -> i + Z.of_nat n <= 1024 ->
  load_stack pd n m b i = Panicked OutOfPhysicalMemory \/
  exists m' b' ok, load_stack pd n m b i = Ok (m', b', ok) /\
    vm_kept K m m' b b' pds (fun pd' va => pd' = pd /\
      USER_STACK_TOP - (i + Z.of_nat n) * FRAME_SIZE <= va < USER_STACK_TOP - i * FRAME_SIZE) /\
    fills m m' b /\
    (ok = true -> forall va,
      USER_STACK_TOP - (i + Z.of_nat n) * FRAME_SIZE <= va < USER_STACK_TOP - i * FRAME_SIZE ->
      exists v, user_sees m' b' va v).
Proof.
  revert m b i. induction n as [|n IH]; intros m b i W Hi Hn; cbn [load_stack].
  { right. exists m, b, true. split_and!; [done|by apply vm_kept_refl|apply fills_refl|]. lia. }
  destruct (alloc_frame_ok b (vm_bitmap _ _ _ _ W)) as (b1 & [phys|] & Ea & Sp); rewrite Ea.
  2: { destruct Sp as [-> _]. right. exists m, b, false.
       split_and!; [done|by apply vm_kept_refl|apply fills_refl|done]. }
  set (virt := USER_STACK_TOP - (i + 1) * FRAME_SIZE).
  assert (Hv : 0 <= virt < KERNEL_VMA) by (subst virt; unfold USER_STACK_TOP, FRAME_SIZE, KERNEL_VMA; lia).
  assert (Hm : virt mod FRAME_SIZE = 0) by (subst virt; unfold USER_STACK_TOP, FRAME_SIZE; dlia).
  destruct (alloc_map_ok m b b1 phys virt W Ea Hm Hv)
    as [-> |(m1 & b2 & -> & V & U & N & F1 & T)]; [by left|].
  destruct (IH m1 b2 (i + 1) (kept_wf _ _ _ _ _ _ _ V)) as [-> |(m' & b' & ok & -> & V' & F2 & H)];
    [lia|lia|by left|].
  replace (i + 1 + Z.of_nat n) with (i + Z.of_nat (S n)) in * by lia.
  assert (Pg : forall va, va / FRAME_SIZE = virt / FRAME_SIZE <-> virt <= va < USER_STACK_TOP - i * FRAME_SIZE).
  { intros va. subst virt. unfold USER_STACK_TOP, FRAME_SIZE. dlia. }
  right. exists m', b', ok. split_and!; [done| | |].
  - eapply vm_kept_trans; [exact V|exact V'|].
    intros pd' va [[-> E]|[-> ?]]; (split; [done|]); [apply Pg in E|];
      subst virt; unfold FRAME_SIZE in *; lia.
  - eapply fills_trans; [apply V|exact F1|exact F2].
  - intros Hok va Hva. destruct (decide (va < virt)) as [Hlt|Hge].
    + apply H; [done|]. subst virt. unfold FRAME_SIZE in *. lia.
    + assert (Hu : is_u32 va) by (subst virt; unfold is_u32, USER_STACK_TOP, FRAME_SIZE in *; lia).
      exists (m1 (phys + va mod FRAME_SIZE)).
      eapply user_sees_kept; [exact V'|done|intros [_ ?]; subst virt; lia|].
      exists phys. split_and!; [done| |done]. apply T; [done|]. apply Pg. lia.
Qed.

(** The whole image: the code from [USER_CODE_BASE] and a four-page stack. *)
Lemma load_image_ok m b :
  vm_wf K m b pds -> 0 <= total_len ->
  (exists e, load_image cr3 total_len page_phys pd m b = Panicked e /\
     ((forall i, 0 <= i < Z.max (div_ceil total_len FRAME_SIZE) 1 -> page_ready m b i) ->
      e = OutOfPhysicalMemory)) \/
  exists m' b' ok, load_image cr3 total_len page_phys pd m b = Ok (m', b', ok) /\
    vm_kept K m m' b b' pds (fun pd' _ => pd' = pd) /\ fills m m' b /\
    (ok = true -> (cr3 ∈ pds \/ cr3 = boot_pd K) ->
       (forall i, 0 <= i < div_ceil total_len FRAME_SIZE -> source_ok m b i) ->
       total_len <= USER_STACK_TOP - 4 * FRAME_SIZE - USER_CODE_BASE ->
       (forall off, 0 <= off < total_len -> user_sees m' b' (USER_CODE_BASE + off) (image_byte m off)) /\
       (forall va, USER_STACK_TOP - 4 * FRAME_SIZE <= va < USER_STACK_TOP -> exists v, user_sees m' b' va v)).
Proof.
  intros W Hl. unfold load_image. set (pages := Z.max (div_ceil total_len FRAME_SIZE) 1).
  assert (Hp : 1 <= pages /\ total_len <= pages * FRAME_SIZE).
  { subst pages. unfold div_ceil, FRAME_SIZE. split; [lia|dlia]. }
  destruct (load_code_ok (Z.to_nat pages) m b 0 W ltac:(lia) ltac:(done))
    as [(e & -> & He)|(m1 & b1 & ok & -> & V & F1 & H)].
  { left. exists e. split; [done|]. intros H. apply He. intros i' Hi'. apply H. lia. }
  replace (0 + Z.of_nat (Z.to_nat pages)) with pages in * by lia.
  assert (V1 : vm_kept K m m1 b b1 pds (fun pd' _ => pd' = pd)).
  { eapply vm_kept_trans; [by apply vm_kept_refl with (P := fun _ _ => False)|exact V|].
    by intros ? ? [[]|[? _]]. }
  destruct ok.
  2: { right. exists m1, b1, false. by split_and!. }
  destruct (load_stack_ok USER_STACK_PAGES m1 b1 0 (kept_wf _ _ _ _ _ _ _ V)) as [-> |(m2 & b2 & ok & -> & V' & F2 & H')];
    [lia|unfold USER_STACK_PAGES; lia|left; by eexists|].
  right. exists m2, b2, ok. split_and!; [done| | |].
  - eapply vm_kept_trans; [exact V1|exact V'|]. by intros ? ? [?|[? _]].
  - eapply fills_trans; [apply V1|exact F1|exact F2].
  - intros -> Hcr S Hfit. destruct (H eq_refl) as [Hend Hc]. split.
    + intros off Ho.
      assert (Hoff : code_page 0 <= USER_CODE_BASE + off < code_page pages)
        by (unfold code_page, FRAME_SIZE in *; lia).
      eapply user_sees_kept; [exact V'| | |].
      * unfold is_u32, USER_CODE_BASE, USER_STACK_TOP, FRAME_SIZE in *. lia.
      * intros [_ ?]. unfold USER_STACK_PAGES, FRAME_SIZE in *. lia.
      * replace off with (USER_CODE_BASE + off - USER_CODE_BASE) at 2 by lia.
        destruct (decide (total_len = 0)); [lia|].
        assert (Pe : pages = div_ceil total_len FRAME_SIZE)
          by (subst pages; unfold div_ceil, FRAME_SIZE in *; dlia).
        apply Hc; [done| |done]. intros i' Hi'. apply S. rewrite <- Pe. lia.
    + intros va Hva. apply H'; [done|]. unfold USER_STACK_PAGES, FRAME_SIZE in *. lia.
Qed.
End load.
