(* ===== verification/Syscall.v ===== *)
(** * System calls (kernel/src/syscall.rs)

    [syscall_dispatch] on the saved registers of the running task, branch by
    branch, with the memory syscalls' own functions.  The registers are read
    when the syscall enters and written back through the same block. *)

From stdpp Require Import base list numbers sets.
From Stdlib Require Import Lia.
From S2P Require Import Prelude Cap Hw Sched Frame Paging Ipc Loader.
Open Scope Z_scope.

Definition SYS_EXIT : Z := 0.
Definition SYS_YIELD : Z := 1.
Definition SYS_SEND : Z := 2.
Definition SYS_RECV : Z := 3.
Definition SYS_GETPID : Z := 4.
Definition SYS_REGISTER_IRQ : Z := 6.
Definition SYS_MAP_MEMORY : Z := 7.
Definition SYS_CREATE_TASK : Z := 8.
Definition SYS_ENDPOINT_CREATE : Z := 9.
Definition SYS_CAP_MINT_BADGED : Z := 10.
Definition SYS_CAP_REVOKE : Z := 11.
Definition SYS_MEM_ALLOC : Z := 12.
Definition SYS_SPAWN_FROM_MEMORY : Z := 13.
Definition SYS_REBOOT : Z := 14.
Definition SYS_TRY_RECV : Z := 15.
Definition ERR : Z := U32_MAX.

(** How a syscall ends: back in the kernel's main line, or in [reboot::reset]. *)
Inductive outcome := Returned (k : kernel) | Reset.

(** [current_cap_node] *)
Definition current_cap_node (k : kernel) (slot : Z) : res (option Z) :=
  current_cspace_get (sch k) slot.

(** [resolve_current_cap] *)
Definition resolve_current_cap (k : kernel) (slot : Z) : res (option (cap_kind * Z)) :=
  o <- current_cap_node k slot ;;
  Ok (match o with Some node => resolve (caps k) node | None => None end).

(** [page_dir.map_page(virt + i * FRAME_SIZE, phys + i * FRAME_SIZE, true, writable)] for
    [n] pages from [i] on. *)
Fixpoint map_pages (n : nat) (m : mem) (b : bitmap) (pd virt phys i : Z) (w : bool)
  : res (mem * bitmap) :=
  match n with
  | O => Ok (m, b)
  | S n' =>
      let offset := i * FRAME_SIZE in
      let* (m1, b1) := map_page m b pd (wrap32 (virt + offset)) (wrap32 (phys + offset)) true w in
      map_pages n' m1 b1 pd virt phys (i + 1) w
  end.

(** [sys_map_memory]: the state and the value for [eax]. *)
Definition sys_map_memory (k : kernel) (phys_addr virt_addr len : Z) (writable : bool)
  : res (kernel * Z) :=
  if negb (phys_addr mod FRAME_SIZE =? 0) || negb (virt_addr mod FRAME_SIZE =? 0) || (len =? 0)
  then Ok (k, ERR)
  else
    match checked_add virt_addr len with
    | None => Ok (k, ERR)
    | Some virt_end =>
        if KERNEL_VMA <? virt_end then Ok (k, ERR)
        else
          pd <- current_page_dir_phys (sch k) ;;
          let pages := div_ceil len FRAME_SIZE in
          let* (m, b) := map_pages (Z.to_nat pages) (kmem k) (kframes k) pd virt_addr phys_addr 0
                           writable in
          Ok (set_mem m b k, 0)
    end.

(** The failure [sys_mem_alloc] reports: both registers zero. *)
Definition mem_alloc_fail (rp : Z) (k : kernel) : res kernel :=
  Ok (write_regs rp (fun r => SavedRegs 0 (ebx r) 0 (edx r) (esi r) (edi r) (ebp r)) k).

(** [sys_mem_alloc] on the registers at [rp]. *)
Definition sys_mem_alloc (k : kernel) (rp : Z) : res kernel :=
  let r := regs k rp in
  let virt_addr := ebx r in
  let page_count := if ecx r =? 0 then 1 else ecx r in
  match checked_mul page_count FRAME_SIZE with
  | None => mem_alloc_fail rp k
  | Some len =>
      let virt_end_ok := match checked_add virt_addr len with
                         | Some end_ => end_ <=? KERNEL_VMA
                         | None => false
                         end in
      if negb (virt_addr mod FRAME_SIZE =? 0) || negb virt_end_ok then mem_alloc_fail rp k
      else
        let* (b, allocated) := if page_count =? 1 then alloc_frame (kframes k)
                               else alloc_frames_contiguous (kframes k) page_count in
        match allocated with
        | None => mem_alloc_fail rp (set_mem (kmem k) b k)
        | Some phys =>
            pd <- current_page_dir_phys (sch k) ;;
            let* (m, b) := map_pages (Z.to_nat page_count) (kmem k) b pd virt_addr phys 0 true in
            let k := set_mem m b k in
            let (nodes, node) := mint_root (caps k) (MemoryGrant phys len true) in
            let k := set_caps nodes k in
            let* (s, slot) := current_cspace_install (sch k) node in
            Ok (write_regs rp (fun r => SavedRegs slot (ebx r) phys (edx r) (esi r) (edi r) (ebp r))
                  (set_sch s k))
        end
  end.

(** The loop of [sys_spawn_from_memory] over the slots; [None] is its
    [return 0]. *)
Fixpoint collect_grants (k : kernel) (slots : list Z) : res (option (list Z)) :=
  match slots with
  | [] => Ok (Some [])
  | slot :: slots' =>
      if slot =? 0 then Ok (Some [])
      else
        c <- resolve_current_cap k slot ;;
        match c with
        | Some (MemoryGrant phys_base _ _, _) =>
            rest <- collect_grants k slots' ;;
            Ok (match rest with Some l => Some (phys_base :: l) | None => None end)
        | _ => Ok None
        end
  end.

(** [sys_spawn_from_memory]: the state and the value for [eax]. *)
Definition sys_spawn_from_memory (k : kernel) (r : saved_regs) : res (kernel * Z) :=
  grants <- collect_grants k [ebx r; ecx r; edx r; esi r] ;;
  match grants with
  | None => Ok (k, 0)
  | Some grants =>
      let* (k, o) := spawn_from_memory k grants (edi r) in
      Ok (k, default 0 o)
  end.

(** The [transfer] of [SYS_SEND]: the table and the derived node. *)
Definition derive_transfer (k : kernel) (slot : Z) : res (kernel * option Z) :=
  if slot =? 0 then Ok (k, None)
  else
    o <- current_cap_node k slot ;;
    Ok (match o with
        | None => (k, None)
        | Some src =>
            match resolve (caps k) src with
            | None => (k, None)
            | Some (_, badge) =>
                match mint_derived (caps k) src badge with
                | None => (k, None)
                | Some (nodes, node) => (set_caps nodes k, Some node)
                end
            end
        end).

Definition set_eax (rp v : Z) (k : kernel) : res outcome :=
  Ok (Returned (write_regs rp (with_eax v) k)).

(** [syscall_dispatch]. [SYS_YIELD]'s [eax] is written to the yielding task's own
    block, which nothing reads before that task runs again. *)
Definition syscall_dispatch (k : kernel) (rp : Z) : res outcome :=
  let r := regs k rp in
  let num := eax r in
  self_id <- expect NoCurrentTask (current_id (sch k)) ;;
  if num =? SYS_EXIT then k <- exit_current k ;; Ok (Returned k)
  else if num =? SYS_YIELD then
    s <- yield_now (sch k) ;; set_eax rp 0 (set_sch s k)
  else if num =? SYS_SEND then
    c <- resolve_current_cap k (ebx r) ;;
    match c with
    | Some (Endpoint id, _) =>
        let* (k, transfer) := derive_transfer k (edi r) in
        k <- send k self_id id (ecx r, edx r, esi r) transfer rp ;; Ok (Returned k)
    | _ => set_eax rp ERR k
    end
  else if num =? SYS_RECV then
    c <- resolve_current_cap k (ebx r) ;;
    match c with
    | Some (Endpoint id, _) => k <- recv k self_id id rp ;; Ok (Returned k)
    | _ => set_eax rp ERR k
    end
  else if num =? SYS_TRY_RECV then
    c <- resolve_current_cap k (ebx r) ;;
    match c with
    | Some (Endpoint id, _) => k <- try_recv k id rp ;; Ok (Returned k)
    | _ => set_eax rp TRY_RECV_ERR k
    end
  else if num =? SYS_GETPID then set_eax rp self_id k
  else if num =? SYS_REGISTER_IRQ then
    c <- resolve_current_cap k (ebx r) ;;
    match c with
    | Some (IrqControl irq_num endpoint, _) =>
        let (k, ok) := register k irq_num endpoint in set_eax rp (if ok then 0 else ERR) k
    | _ => set_eax rp ERR k
    end
  else if num =? SYS_MAP_MEMORY then
    c <- resolve_current_cap k (ebx r) ;;
    match c with
    | Some (MemoryGrant phys_base len writable, _) =>
        let* (k, v) := sys_map_memory k phys_base (ecx r) len writable in set_eax rp v k
    | _ => set_eax rp ERR k
    end
  else if num =? SYS_CREATE_TASK then
    let* (k, o) := spawn_from_module k (ebx r) [] in set_eax rp (default 0 o) k
  else if num =? SYS_ENDPOINT_CREATE then
    let (k, endpoint) := create_endpoint k self_id in
    let (nodes, node) := mint_root (caps k) (Endpoint endpoint) in
    let k := set_caps nodes k in
    let* (s, slot) := current_cspace_install (sch k) node in
    set_eax rp slot (set_sch s k)
  else if num =? SYS_CAP_MINT_BADGED then
    o <- current_cap_node k (ebx r) ;;
    match (match o with Some src => mint_derived (caps k) src (ecx r) | None => None end) with
    | Some (nodes, node) =>
        let k := set_caps nodes k in
        let* (s, slot) := current_cspace_install (sch k) node in
        set_eax rp slot (set_sch s k)
    | None => set_eax rp ERR k
    end
  else if num =? SYS_CAP_REVOKE then
    o <- current_cap_node k (ebx r) ;;
    let k := match o with Some node => set_caps (revoke (caps k) node) k | None => k end in
    set_eax rp 0 k
  else if num =? SYS_MEM_ALLOC then k <- sys_mem_alloc k rp ;; Ok (Returned k)
  else if num =? SYS_SPAWN_FROM_MEMORY then
    let* (k, v) := sys_spawn_from_memory k r in set_eax rp v k
  else if num =? SYS_REBOOT then
    c <- resolve_current_cap k (ebx r) ;;
    match c with
    | Some (RebootControl, _) => Ok Reset
    | _ => set_eax rp ERR k
    end
  else set_eax rp ERR k.

(** ** When the kernel heap is full

    The tables of the model ([tasks], [caps], [endpoints], the queues) are the kernel's
    [Vec]s, and each new task has a 16 KiB boxed stack: all of them come from the 256 KiB
    kernel heap, and an allocation the heap refuses goes to [alloc_error], which panics.
    [takes_heap] are the calls that push onto one of them, collect into one or make a
    task. *)
Definition takes_heap (num : Z) : bool :=
  (num =? SYS_EXIT) || (num =? SYS_YIELD) || (num =? SYS_SEND) || (num =? SYS_RECV) ||
  (num =? SYS_TRY_RECV) || (num =? SYS_CREATE_TASK) || (num =? SYS_ENDPOINT_CREATE) ||
  (num =? SYS_CAP_MINT_BADGED) || (num =? SYS_CAP_REVOKE) || (num =? SYS_MEM_ALLOC) ||
  (num =? SYS_SPAWN_FROM_MEMORY).

(** A syscall on a machine whose heap serves ([heap_ok]) or refuses one of the requests
    the call makes.  A panic ends the machine, so the point of the call it happens at
    leaves nothing behind. *)
Definition syscall_with_heap (heap_ok : bool) (k : kernel) (rp : Z) : res outcome :=
  if takes_heap (eax (regs k rp)) && negb heap_ok then Panicked OutOfHeap
  else syscall_dispatch k rp.
