(* ===== verification/KernelInv.v ===== *)
(** * The kernel's global invariant

    [kernel_wf] ties the components together: the scheduler and IPC invariant,
    the capability table, every task's capability slots, the page tables of
    every user task, and the memory every [MemoryGrant] names.  The lemmas show
    that each way a syscall changes one part of the state keeps the whole. *)

From stdpp Require Import base list numbers sets.
From Stdlib Require Import Lia.
From S2P Require Import Prelude Cap Hw Sched Frame Paging Ipc Loader Syscall.
Open Scope Z_scope.

(** The page directories of the user tasks, in task order. *)
Definition user_pds (k : kernel) : list Z :=
  List.filter (fun p => negb (p =? boot_pd (kimg k))) (map page_dir_phys (tasks (sch k))).

Abbreviation kuser_page k := (user_page (kimg k) (kmem k) (kframes k) (user_pds k)).

(** The pages of a grant are user pages inside the physical window. *)
Definition grant_ok (k : kernel) (base len : Z) : Prop :=
  0 <= base /\ 0 < len /\ base + div_ceil len FRAME_SIZE * FRAME_SIZE <= phys_entries (kimg k) * 2 ^ 22 /\
  forall j, 0 <= j < div_ceil len FRAME_SIZE -> kuser_page k (base + j * FRAME_SIZE).

Definition in_table (k : kernel) (n : Z) : Prop := 0 <= n < zlen (caps k).

Record kernel_wf (idle : Z) (k : kernel) : Prop := {
  kw_ipc : ipc_wf k;
  (* there is an idle task, except while the kernel boots *)
  kw_idle : (current (sch k) = None /\ idle = 0) \/ idle_ok idle k;
  (* only the idle task runs on the boot directory *)
  kw_user : forall id t, task_of (sch k) id = Some t -> id <> idle ->
    page_dir_phys t <> boot_pd (kimg k);
  kw_caps : cap_wf (caps k);
  kw_vm : vm_wf (kimg k) (kmem k) (kframes k) (user_pds k);
  (* slots and messages in flight name nodes of the table *)
  kw_slots : forall id t slot n, task_of (sch k) id = Some t ->
    cspace_get (tcspace t) slot = Some n -> in_table k n;
  kw_transfers : forall n, transfers k n -> in_table k n;
  kw_grants : forall i n base len w, zget (caps k) i = Some n ->
    kind n = MemoryGrant base len w -> grant_ok k base len
}.

(** Task [id] can use a capability of kind [kd]. *)
Definition holds (k : kernel) (id : Z) (kd : cap_kind) : Prop :=
  exists t slot n b, task_of (sch k) id = Some t /\ cspace_get (tcspace t) slot = Some n /\
    resolve (caps k) n = Some (kd, b).

(** A blocked send carries a capability of kind [kd]. *)
Definition in_flight (k : kernel) (kd : cap_kind) : Prop :=
  exists n b, transfers k n /\ resolve (caps k) n = Some (kd, b).

(** The table [nodes] gives the nodes of [k]'s table no more than [k]'s table does. *)
Definition caps_le (k : kernel) (nodes : list cap_node) : Prop :=
  forall n x, in_table k n -> resolve nodes n = Some x -> resolve (caps k) n = Some x.

(** *** Memory of one's own, and shared memory *)

(** The capability table has a grant of [len] bytes from [base], with write access or not. *)
Definition grant_in (nodes : list cap_node) (base len : Z) (w : bool) : Prop :=
  exists i n, zget nodes i = Some n /\ kind n = MemoryGrant base len w.

Definition same_grants (nodes nodes' : list cap_node) : Prop :=
  forall base len w, grant_in nodes' base len w <-> grant_in nodes base len w.

(** A capability keeps its node, kind and badge; it may only be revoked. *)
Definition kept_caps (nodes nodes' : list cap_node) : Prop :=
  forall i n, zget nodes i = Some n ->
    exists n', zget nodes' i = Some n' /\ kind n' = kind n /\ badge n' = badge n.

Definition covers (base len x : Z) : Prop := base <= x < base + div_ceil len FRAME_SIZE * FRAME_SIZE.

Definition granted (k : kernel) (x : Z) (w : bool) : Prop :=
  exists base len, grant_in (caps k) base len w /\ covers base len x.

Definition ungranted (k : kernel) (x : Z) : Prop :=
  forall base len w, grant_in (caps k) base len w -> ~ covers base len x.

(** User code of the address space [pd] reaches byte [x] of physical memory at [va]. *)
Definition reaches (k : kernel) (pd va x : Z) (w : bool) : Prop :=
  pd ∈ user_pds k /\ is_u32 va /\ translate (kmem k) pd va = Some (Translation x true w).

(** No other address space reaches the page of [x]. *)
Definition private (k : kernel) (pd x : Z) : Prop :=
  ungranted k x /\
  forall pd' va' x' w', reaches k pd' va' x' w' -> frame_base x' = frame_base x -> pd' = pd.

(** What user code reaches was granted, with the access it has, or is its own. *)
Definition isolated (k : kernel) : Prop :=
  forall pd va x w, reaches k pd va x w -> granted k x w \/ private k pd x.

(** ** Tasks *)

Lemma evolves_page_dirs N s s' :
  ids_wf s -> ids_wf s' -> evolves N s s' ->
  map page_dir_phys (tasks s') = map page_dir_phys (tasks s).
Proof.
  intros W W' (Nx & D & E). apply list_eq. intros i. rewrite !list_lookup_fmap.
  assert (T : forall s0, tasks s0 !! i = task_of s0 (Z.of_nat i + 1)).
  { intros s0. unfold task_of, zget. replace (Z.of_nat i + 1 - 1) with (Z.of_nat i) by lia.
    rewrite Nat2Z.id. case_match eqn:B; [done|]. apply lookup_ge_None.
    unfold zlen in B. bool_simp. lia. }
  rewrite !T. specialize (D (Z.of_nat i + 1)).
  destruct (task_of s (Z.of_nat i + 1)) as [t|] eqn:T1,
    (task_of s' (Z.of_nat i + 1)) as [t'|] eqn:T2; cbn.
  - f_equal. by destruct (E _ _ _ T1 T2) as (-> & _).
  - destruct (proj1 D) as [? ?]; [by eauto|done].
  - destruct (proj2 D) as [? ?]; [by eauto|done].
  - done.
Qed.

Lemma user_pds_evolves N k k' :
  ipc_wf k -> ipc_wf k' -> evolves N (sch k) (sch k') -> kimg k' = kimg k ->
  user_pds k' = user_pds k.
Proof.
  intros W W' E I. unfold user_pds. rewrite I.
  by rewrite (evolves_page_dirs N (sch k) (sch k')) by (apply W || apply W' || done).
Qed.

Lemma task_pd_user idle k id t :
  kernel_wf idle k -> task_of (sch k) id = Some t -> id <> idle -> page_dir_phys t ∈ user_pds k.
Proof.
  intros W T Hne. unfold user_pds. apply list_elem_of_In, filter_In. split.
  - apply list_elem_of_In, list_elem_of_fmap. exists t. split; [done|].
    apply task_of_lookup in T as [_ T]. by eapply list_elem_of_lookup_2.
  - apply negb_true_iff, Z.eqb_neq. by eapply kw_user.
Qed.

Lemma kernel_wf_idle idle k c : kernel_wf idle k -> current (sch k) = Some c -> idle_ok idle k.
Proof. intros W C. destruct (kw_idle _ _ W) as [[? _]|?]; [congruence|done]. Qed.

Lemma current_user_task idle k c :
  kernel_wf idle k -> current (sch k) = Some c -> c <> idle ->
  exists t, task_of (sch k) c = Some t /\ page_dir_phys t ∈ user_pds k /\
    cr3 (scpu (sch k)) = page_dir_phys t /\ current_page_dir_phys (sch k) = Ok (page_dir_phys t) /\
    forall slot, current_cspace_get (sch k) slot = Ok (cspace_get (tcspace t) slot).
Proof.
  intros W C Hne. pose proof (iw_sched _ (kw_ipc _ _ W)) as S.
  destruct (current_task _ S c C) as (t & T & _).
  destruct (wf_cpu _ S c C) as (t' & T' & Cr & _). rewrite T in T'. apply (inj Some) in T' as <-.
  exists t. split_and!; [done|by eapply task_pd_user|done| |].
  - unfold current_page_dir_phys. rewrite C. cbn [expect].
    rewrite (index_of_ok _ c t) by (done || apply S). by rewrite (task_at_ok _ c t T).
  - intros slot. unfold current_cspace_get. rewrite C. cbn [expect].
    rewrite (index_of_ok _ c t) by (done || apply S). by rewrite (task_at_ok _ c t T).
Qed.

(** ** How the parts may change *)

(** IPC operations. *)
Lemma kernel_wf_ipc idle tr k k' :
  kernel_wf idle k -> ipc_ok idle tr k k' -> (forall n, tr = Some n -> in_table k n) ->
  (idle = 0 -> current (sch k) = None -> current (sch k') = None) -> kernel_wf idle k'.
Proof.
  intros W [O1 O2 O3 O4 O5 O6] Htr Hcur. pose proof W as [W1 W2 W3 W4 W5 W6 W7 W8].
  destruct O4 as (Fc & Fh & Fm & Ff & Fi & Fb & Fn).
  assert (Up : user_pds k' = user_pds k) by (by eapply user_pds_evolves).
  assert (T : forall n, transfers k n \/ tr = Some n -> in_table k' n).
  { intros n Hn. unfold in_table. rewrite Fc. destruct Hn as [Hn|Hn]; [by apply W7|by apply Htr]. }
  pose proof O3 as (_ & D & E).
  split; [done|tauto| |by rewrite Fc|by rewrite Up, Fm, Ff, Fi| |auto|].
  - intros id t' T' Hne. destruct (proj2 (D id)) as [t Ht]; [by eauto|].
    destruct (E _ _ _ Ht T') as (-> & _). rewrite Fi. by eapply W3.
  - intros id t' slot n T' G. destruct (proj2 (D id)) as [t Ht]; [by eauto|].
    destruct (E _ _ _ Ht T') as (_ & _ & C). destruct (C _ _ G) as [G'|Hn]; [|by apply T].
    unfold in_table. rewrite Fc. by eapply W6.
  - intros i n base len w. rewrite Fc. unfold grant_ok. rewrite Up, Fm, Ff, Fi. by apply W8.
Qed.

(** The capability table grows or loses rights, keeping kinds. *)
Lemma kernel_wf_caps idle k nodes :
  kernel_wf idle k -> cap_wf nodes -> zlen (caps k) <= zlen nodes ->
  (forall i n, zget nodes i = Some n ->
     (exists j m, zget (caps k) j = Some m /\ kind n = kind m) \/
     (forall base len w, kind n = MemoryGrant base len w -> grant_ok k base len)) ->
  kernel_wf idle (set_caps nodes k).
Proof.
  intros [W1 W2 W3 W4 W5 W6 W7 W8] Cw L H.
  split; try done; [by destruct W1; split| | |].
  - intros id t slot n T G. pose proof (W6 _ _ _ _ T G). unfold in_table in *. cbn. lia.
  - intros n Hn. pose proof (W7 n Hn). unfold in_table in *. cbn. lia.
  - intros i n base len w Hi Hk. destruct (H i n Hi) as [(j & m & Hj & E)|G].
    + rewrite Hk in E. by eapply W8.
    + by eapply G.
Qed.

Lemma kernel_wf_mint_root idle k kd :
  kernel_wf idle k -> (forall base len w, kd = MemoryGrant base len w -> grant_ok k base len) ->
  kernel_wf idle (set_caps (mint_root (caps k) kd).1 k).
Proof.
  intros W G. apply kernel_wf_caps; [done|apply mint_root_wf, W| |].
  - cbn. rewrite zlen_snoc. lia.
  - intros i n. cbn. rewrite zget_snoc. case_decide; [intros [= <-]; by right|].
    intros Hn. left. eauto.
Qed.

Lemma kernel_wf_mint_derived idle k p b nodes id :
  kernel_wf idle k -> mint_derived (caps k) p b = Some (nodes, id) ->
  kernel_wf idle (set_caps nodes k) /\ id = zlen (caps k) /\ zlen nodes = zlen (caps k) + 1.
Proof.
  intros W E. pose proof E as (e & He & Hl & -> & ->)%mint_derived_Some.
  assert (L : zlen (zset (caps k ++ [CapNode (kind e) b [] false]) p (push_child e (zlen (caps k))))
              = zlen (caps k) + 1) by (by rewrite zlen_zset, zlen_snoc).
  split_and!; [|done|done].
  apply kernel_wf_caps; [done|eapply mint_derived_wf; [done|apply W]|lia|].
  intros i n. rewrite (zget_derived _ _ _ _ He) by done. intros Hn. left.
  repeat case_decide; simplify_eq; eauto.
Qed.

Lemma kernel_wf_revoke idle k node :
  kernel_wf idle k -> kernel_wf idle (set_caps (revoke (caps k) node) k).
Proof.
  intros W. destruct (revoke_spec (caps k) node (kw_caps _ _ W)) as ([L S] & _).
  apply kernel_wf_caps; [done|apply revoke_wf, W|lia|].
  intros i n Hn. left. pose proof (zget_Some _ _ _ Hn) as R. rewrite L in R.
  apply zget_in_range in R as [n0 Hn0]. destruct (S _ _ Hn0) as (n' & Hn' & Kd & _).
  simplify_eq. eauto.
Qed.

(** Memory and the allocator, as mapping operations change them. *)
Lemma kernel_wf_mem idle k m b P :
  kernel_wf idle k ->
  vm_kept (kimg k) (kmem k) m (kframes k) b (user_pds k) P ->
  kernel_wf idle (set_mem m b k).
Proof.
  intros [W1 W2 W3 W4 W5 W6 W7 W8] V. split; try done; [by destruct W1; split|apply V|].
  intros i n base len w Hi Hk. destruct (W8 _ _ _ _ _ Hi Hk) as (? & ? & ? & G).
  split_and!; [done|done|done|]. intros j Hj. by apply V, G.
Qed.

Lemma kernel_wf_regs idle k f : kernel_wf idle k -> kernel_wf idle (set_regs f k).
Proof. intros [W1 W2 W3 W4 W5 W6 W7 W8]. split; try done. by destruct W1; split. Qed.

Lemma kernel_wf_pic idle k p h :
  kernel_wf idle k -> kernel_wf idle (set_pic p (set_handlers h k)).
Proof. intros [W1 W2 W3 W4 W5 W6 W7 W8]. split; try done. by destruct W1; split. Qed.

(** Installing a node of the table into a task's slots. *)
Lemma kernel_wf_install_for idle k id node t :
  kernel_wf idle k -> task_of (sch k) id = Some t -> in_table k node ->
  exists s slot, install_cap_for (sch k) id node = Ok (s, slot) /\
    kernel_wf idle (set_sch s k) /\ current s = current (sch k) /\
    slot = zlen (slots (tcspace t)) /\ user_pds (set_sch s k) = user_pds k /\
    evolves (eq node) (sch k) s /\
    (exists t', task_of s id = Some t' /\ cspace_get (tcspace t') slot = Some node).
Proof.
  intros W T Hn. pose proof (kw_ipc _ _ W) as I.
  destruct (install_cap_for_evolves _ id node t (iw_sched _ I) T)
    as (s & slot & -> & S & Sl & Cs & St & Ev & G).
  exists s, slot. split_and!; try done.
  2: { unfold user_pds. cbn. f_equal.
       exact (evolves_page_dirs _ _ _ (wf_ids_wf _ (iw_sched _ I)) (wf_ids_wf _ S) Ev). }
  eapply (kernel_wf_ipc idle (Some node) k); [done| |by intros n [= <-]|by cbn; rewrite Cs].
  split; cbn; try done.
  - destruct I as [I1 I2 I3 I4 I5 I6 I7]. split; try done. intros i. cbn. by rewrite St.
  - unfold idle_ok. cbn. by rewrite St.
  - eapply evolves_mono; [|exact Ev]. intros n <-. by right.
  - by left.
Qed.

Lemma kernel_wf_install idle k c node :
  kernel_wf idle k -> current (sch k) = Some c -> in_table k node ->
  exists s slot, current_cspace_install (sch k) node = Ok (s, slot) /\
    kernel_wf idle (set_sch s k) /\ current s = Some c.
Proof.
  intros W C Hn. destruct (current_task _ (iw_sched _ (kw_ipc _ _ W)) c C) as (t & T & _).
  unfold current_cspace_install. rewrite C. cbn [expect].
  destruct (kernel_wf_install_for idle k c node t W T Hn) as (s & slot & -> & ? & Cs & _).
  exists s, slot. split_and!; [done|done|congruence].
Qed.

(** ** Authority *)

Lemma holds_evolves N k k' id kd :
  caps k' = caps k -> evolves N (sch k) (sch k') -> holds k' id kd ->
  holds k id kd \/ exists n b, N n /\ resolve (caps k) n = Some (kd, b).
Proof.
  intros Ec (_ & D & E) (t' & slot & n & b & T' & G & R). rewrite Ec in R.
  destruct (proj2 (D id)) as [t T]; [by eauto|].
  destruct (E _ _ _ T T') as (_ & _ & Cs).
  destruct (Cs _ _ G) as [G'|Hn]; [|by eauto]. left. by exists t, slot, n, b.
Qed.

Lemma holds_caps idle k nodes id kd :
  kernel_wf idle k -> caps_le k nodes -> holds (set_caps nodes k) id kd -> holds k id kd.
Proof.
  intros W L (t & slot & n & b & T & G & R). exists t, slot, n, b. split_and!; [done|done|].
  apply L; [|done]. by eapply (kw_slots _ _ W).
Qed.

Lemma in_flight_caps idle k nodes kd :
  kernel_wf idle k -> caps_le k nodes -> in_flight (set_caps nodes k) kd -> in_flight k kd.
Proof.
  intros W L (n & b & Tn & R). exists n, b. split; [done|]. apply L; [|done].
  by apply (kw_transfers _ _ W).
Qed.

Lemma mint_root_keeps nodes kd n x :
  resolve nodes n = Some x -> resolve (mint_root nodes kd).1 n = Some x.
Proof.
  rewrite resolve_mint_root. case_decide as E; [|done]. subst. unfold resolve. by rewrite zget_out by lia.
Qed.

Lemma caps_le_mint_root k kd : caps_le k (mint_root (caps k) kd).1.
Proof.
  intros n x Hn. rewrite resolve_mint_root, decide_False; [done|]. unfold in_table in Hn. lia.
Qed.

Lemma caps_le_mint_derived k p b nodes id :
  mint_derived (caps k) p b = Some (nodes, id) ->
  caps_le k nodes /\
  exists kd b0, resolve (caps k) p = Some (kd, b0) /\ resolve nodes id = Some (kd, b).
Proof.
  intros E. pose proof E as (e & He & Hl & -> & _)%mint_derived_Some. split.
  - intros n x Hn. unfold in_table in Hn. by rewrite (resolve_mint_derived _ _ _ _ _ _ E), decide_False by lia.
  - exists (kind e), (badge e). rewrite (resolve_mint_derived _ _ _ _ _ _ E), decide_True by done.
    unfold resolve. by rewrite He, Hl.
Qed.

Lemma caps_le_revoke idle k node : kernel_wf idle k -> caps_le k (revoke (caps k) node).
Proof.
  intros W n x Hn. destruct (revoke_spec (caps k) node (kw_caps _ _ W)) as ([L S] & _).
  apply zget_in_range in Hn as [e He]. destruct (S _ _ He) as (e' & He' & Kd & Bd & _ & Rv).
  unfold resolve. rewrite He, He'. destruct (revoked e') eqn:R'; [done|].
  destruct (revoked e); [by specialize (Rv eq_refl)|]. by rewrite Kd, Bd.
Qed.

(** *** Isolation *)

Lemma same_grants_refl nodes : same_grants nodes nodes.
Proof. by intros base len w. Qed.

Lemma same_grants_trans a b c : same_grants a b -> same_grants b c -> same_grants a c.
Proof. intros H1 H2 base len w. rewrite (H2 base len w). apply H1. Qed.

Lemma grant_in_snoc nodes kd b base len w :
  grant_in (nodes ++ [CapNode kd b [] false]) base len w <-> grant_in nodes base len w \/ kd = MemoryGrant base len w.
Proof.
  split.
  - intros (i & n & H & K). rewrite zget_snoc in H. case_decide; [|left; by exists i, n].
    injection H as <-. by right.
  - intros [(i & n & H & K)| ->].
    + exists i, n. split; [|done]. rewrite zget_app_l; [done|by eapply zget_Some].
    + exists (zlen nodes). eexists. split; [apply zget_app_last|done].
Qed.

Lemma same_grants_mint_root nodes kd :
  (forall base len w, kd <> MemoryGrant base len w) -> same_grants nodes (mint_root nodes kd).1.
Proof. intros N base len w. cbn. rewrite grant_in_snoc. split; [|by left]. intros [?| ->]; [done|by destruct (N base len w)]. Qed.

Lemma same_grants_mint_derived nodes p b nodes' id :
  mint_derived nodes p b = Some (nodes', id) -> same_grants nodes nodes'.
Proof.
  intros (e & He & Hl & _ & ->)%mint_derived_Some base len w. split.
  - intros (i & n & Hn & K). rewrite (zget_derived _ _ _ _ He) in Hn by done. repeat case_decide; simplify_eq.
    + exists p, e. by split.
    + exists p, e. by split.
    + by exists i, n.
  - intros (i & n & Hn & K). pose proof (zget_Some _ _ _ Hn). destruct (decide (i = p)) as [->|Hne].
    + exists p. eexists. rewrite (zget_derived _ _ _ _ He) by done. rewrite decide_True by done. split; [reflexivity|]. cbn. congruence.
    + exists i, n. rewrite (zget_derived _ _ _ _ He) by done. rewrite !decide_False by (done || lia). done.
Qed.

Lemma kept_caps_refl nodes : kept_caps nodes nodes.
Proof. intros i n Hn. by exists n. Qed.

Lemma kept_caps_trans a b c : kept_caps a b -> kept_caps b c -> kept_caps a c.
Proof.
  intros H1 H2 i n Hn. destruct (H1 i n Hn) as (n1 & Hn1 & K1 & B1).
  destruct (H2 i n1 Hn1) as (n2 & Hn2 & K2 & B2). exists n2. split_and!; congruence.
Qed.

Lemma kept_caps_mint_root nodes kd : kept_caps nodes (mint_root nodes kd).1.
Proof. intros i n Hn. exists n. cbn. by rewrite zget_app_l by (by eapply zget_Some). Qed.

Lemma kept_caps_mint_derived nodes p b nodes' id :
  mint_derived nodes p b = Some (nodes', id) -> kept_caps nodes nodes'.
Proof.
  intros (e & He & Hl & _ & ->)%mint_derived_Some i n Hn. pose proof (zget_Some _ _ _ Hn).
  rewrite (zget_derived _ _ _ _ He) by done. case_decide; [|rewrite decide_False by lia; by exists n].
  subst. rewrite He in Hn. injection Hn as <-. eexists. by split_and!.
Qed.

Lemma kept_caps_revoke nodes node : cap_wf nodes -> kept_caps nodes (revoke nodes node).
Proof.
  intros W i n Hn. destruct (revoke_spec nodes node W) as ([_ S] & _).
  destruct (S _ _ Hn) as (n' & Hn' & Kd & Bd & _). by exists n'.
Qed.

Lemma same_grants_revoke nodes node : cap_wf nodes -> same_grants nodes (revoke nodes node).
Proof.
  intros W. destruct (revoke_spec nodes node W) as ([L S] & _). intros base len w. split.
  - intros (i & n & Hn & K). pose proof (zget_Some _ _ _ Hn) as R. rewrite L in R.
    apply zget_in_range in R as [n0 Hn0]. destruct (S _ _ Hn0) as (n' & Hn' & Kd & _). exists i, n0. split; [done|].
    rewrite <- Kd. congruence.
  - intros (i & n & Hn & K). destruct (S _ _ Hn) as (n' & Hn' & Kd & _). exists i, n'. split; [done|]. congruence.
Qed.

Lemma covers_frame base len x y :
  base mod FRAME_SIZE = 0 -> frame_base x = frame_base y -> covers base len x -> covers base len y.
Proof. unfold covers, frame_base, FRAME_SIZE, div_ceil. intros. dlia. Qed.

Lemma grant_ok_claimed k base len :
  grant_ok k base len ->
  base mod FRAME_SIZE = 0 /\ forall x, covers base len x -> claimed (kframes k) (frame_base x).
Proof.
  intros (G1 & G2 & G3 & G4).
  assert (D : 1 <= div_ceil len FRAME_SIZE) by (unfold div_ceil, FRAME_SIZE; dlia).
  assert (M : base mod FRAME_SIZE = 0).
  { destruct (G4 0 ltac:(lia)) as ((f & Ef & _) & _). replace base with (f * FRAME_SIZE) by lia. by apply Z.mod_mul. }
  split; [done|]. intros x [X1 X2]. destruct (G4 ((x - base) / FRAME_SIZE)) as [C _]; [unfold FRAME_SIZE in *; dlia|].
  replace (frame_base x) with (base + (x - base) / FRAME_SIZE * FRAME_SIZE); [done|]. unfold frame_base, FRAME_SIZE in *. dlia.
Qed.

Lemma grant_in_ok idle k base len w :
  kernel_wf idle k -> grant_in (caps k) base len w ->
  base mod FRAME_SIZE = 0 /\ forall x, covers base len x -> claimed (kframes k) (frame_base x).
Proof. intros W (i & n & Hn & K). by eapply grant_ok_claimed, (kw_grants _ _ W). Qed.

Lemma reaches_claimed idle k pd va x w : kernel_wf idle k -> reaches k pd va x w -> claimed (kframes k) (frame_base x).
Proof. intros W (Hpd & Hva & T). by apply (user_translation_page _ _ _ _ _ _ _ _ (kw_vm _ _ W) Hpd Hva T). Qed.

(** The same address spaces, one range of one of them mapped to a grant: one of the table,
    or a new one of frames that were free. *)
Lemma isolated_map idle k k' base len w (R : Z -> Z -> Prop) :
  kernel_wf idle k -> isolated k -> user_pds k' = user_pds k ->
  (forall pd va, pd ∈ user_pds k -> is_u32 va -> R pd va \/ ~ R pd va) ->
  (forall pd va, pd ∈ user_pds k -> is_u32 va -> ~ R pd va -> translate (kmem k') pd va = translate (kmem k) pd va) ->
  (forall pd va x w', pd ∈ user_pds k -> R pd va -> translate (kmem k') pd va = Some (Translation x true w') ->
     w' = w /\ covers base len x) ->
  (forall b l w', grant_in (caps k') b l w' <-> grant_in (caps k) b l w' \/ (b = base /\ l = len /\ w' = w)) ->
  base mod FRAME_SIZE = 0 ->
  (grant_in (caps k) base len w \/ forall x, covers base len x -> ~ claimed (kframes k) (frame_base x)) ->
  isolated k'.
Proof.
  intros W I Up Dec Out In G Bm New pd va x w1 (Hpd & Hva & T). rewrite Up in Hpd.
  assert (Own : forall b l w', grant_in (caps k) b l w' -> grant_in (caps k') b l w') by (intros; apply G; by left).
  destruct (Dec pd va Hpd Hva) as [Hr|Hr].
  { destruct (In pd va x w1 Hpd Hr T) as [-> Cv]. left. exists base, len. split; [apply G; by right|done]. }
  rewrite Out in T by done. assert (Re : reaches k pd va x w1) by done.
  destruct (I pd va x w1 Re) as [(b & l & Gi & Cv)|[Un Pr]]; [left; exists b, l; by split; [apply Own|]|].
  assert (Nb : ~ covers base len x).
  { destruct New as [Gi|Nc]; [by eapply Un|]. intros Cv. by apply (Nc x Cv), (reaches_claimed idle k pd va x w1). }
  right. split.
  - intros b l w' [Gi|(-> & -> & ->)]%G; [by eapply Un|done].
  - intros pd' va' x' w' (Hpd' & Hva' & T') E. rewrite Up in Hpd'. destruct (Dec pd' va' Hpd' Hva') as [Hr'|Hr'].
    + destruct (In pd' va' x' w' Hpd' Hr' T') as [_ Cv]. destruct Nb. by eapply (covers_frame base len x').
    + rewrite Out in T' by done. by apply (Pr pd' va' x' w').
Qed.

(** Nothing mapped, no grant made. *)
Lemma isolated_same k k' :
  isolated k -> user_pds k' = user_pds k -> same_grants (caps k) (caps k') ->
  (forall pd va, pd ∈ user_pds k -> is_u32 va -> translate (kmem k') pd va = translate (kmem k) pd va) -> isolated k'.
Proof.
  intros I Up G Tr. assert (R : forall pd va x w, reaches k' pd va x w -> reaches k pd va x w).
  { intros pd va x w (H1 & H2 & H3). rewrite Up in H1. rewrite Tr in H3 by done. done. }
  intros pd va x w Re. destruct (I pd va x w (R _ _ _ _ Re)) as [(b & l & Gi & Cv)|[Un Pr]].
  - left. exists b, l. by rewrite (G b l w).
  - right. split; [|intros pd' va' x' w' Re'; by eapply Pr, R]. intros b l w' Gi. apply (Un b l w'), G, Gi.
Qed.

Lemma isolated_ipc idle tr k k' : kernel_wf idle k -> ipc_ok idle tr k k' -> isolated k -> isolated k'.
Proof.
  intros W [O1 O2 O3 O4 O5 O6] I. destruct O4 as (Fc & Fh & Fm & Ff & Fi & _).
  apply (isolated_same k); [done|by eapply user_pds_evolves; [apply W| | |]| |by intros; rewrite Fm].
  rewrite Fc. apply same_grants_refl.
Qed.

(** New endpoints belong to nobody's page tables or slots. *)
Lemma kernel_wf_create_endpoint idle k own :
  kernel_wf idle k -> kernel_wf idle (create_endpoint k own).1.
Proof. intros [W1 W2 W3 W4 W5 W6 W7 W8]. split; try done. by destruct W1; split. Qed.

(** ** Mapping ranges *)

(** Frames the allocator hands out become user pages. *)
Lemma claim_frames K m b b' pds P :
  vm_wf K m b pds -> updates b b' P true ->
  (forall f, P f -> 0 <= f < frame_count b /\ used b f = false) ->
  vm_kept K m m b b' pds (fun _ _ => False) /\
  (forall f, P f -> user_page K m b' pds (f * FRAME_SIZE)).
Proof.
  intros W (C & Wb & U) H.
  assert (L : bitmap_le b b').
  { split_and!; [done|done|]. intros f Hf Hu. destruct (U f ltac:(lia)) as [_ U2].
    rewrite U2; [done|]. intros HP. destruct (H f HP). congruence. }
  assert (N : forall f, P f -> ~ claimed b (f * FRAME_SIZE)).
  { intros f HP (g & E & Ug). destruct (H f HP) as [Hr Hu]. unfold FRAME_SIZE in E.
    replace g with f in Ug by lia. rewrite Ug in Hu; done. }
  split.
  - split; try done; [by eapply vm_wf_bitmap|]. intros q. by apply user_page_bitmap.
  - intros f HP. destruct (H f HP) as [Hr _]. split_and!.
    + exists f. split; [done|]. intros _. by apply U; [lia|].
    + intros [A _]%(vm_table _ _ _ _ W). by eapply N, allocated_claimed.
    + intros Hin. eapply N; [exact HP|]. by apply (vm_image _ _ _ _ W).
Qed.

Section map_pages.
Context (K : kernel_image) (pds : list Z) (pd virt phys : Z) (w : bool) (Hpd : pd ∈ pds).
Context (Hv : virt mod FRAME_SIZE = 0) (Hv0 : 0 <= virt) (Hp0 : 0 <= phys).

Definition in_range (i n : Z) (pd' va : Z) : Prop :=
  pd' = pd /\ virt + i * FRAME_SIZE <= va < virt + (i + n) * FRAME_SIZE.

Lemma map_pages_ok n m b i :
  vm_wf K m b pds -> 0 <= i ->
  virt + (i + Z.of_nat n) * FRAME_SIZE <= KERNEL_VMA ->
  phys + (i + Z.of_nat n) * FRAME_SIZE <= 2 ^ 32 ->
  (forall j, i <= j < i + Z.of_nat n -> user_page K m b pds (phys + j * FRAME_SIZE)) ->
  map_pages n m b pd virt phys i w = Panicked OutOfPhysicalMemory \/
  exists m' b', map_pages n m b pd virt phys i w = Ok (m', b') /\
    vm_kept K m m' b b' pds (in_range i (Z.of_nat n)) /\
    forall va, virt + i * FRAME_SIZE <= va < virt + (i + Z.of_nat n) * FRAME_SIZE ->
      translate m' pd va = Some (Translation (phys + (va - virt)) true w).
Proof.
  revert m b i. induction n as [|n IH]; intros m b i W Hi B1 B2 U; cbn [map_pages].
  { right. exists m, b. split_and!; [done|by apply vm_kept_refl|]. lia. }
  unfold KERNEL_VMA, FRAME_SIZE in B1, B2.
  rewrite !wrap_small by (unfold FRAME_SIZE; lia).
  set (v := virt + i * FRAME_SIZE).
  assert (Vm : v mod FRAME_SIZE = 0) by (subst v; rewrite Z.mod_add; done).
  destruct (map_page_ok K m b pds pd W Hpd v (phys + i * FRAME_SIZE) w Vm)
    as [-> |(m1 & b1 & -> & V & T)]; [| | |by left|].
  { subst v. unfold KERNEL_VMA, FRAME_SIZE. lia. }
  { unfold is_u32, FRAME_SIZE. lia. }
  { apply U. lia. }
  destruct (IH m1 b1 (i + 1)) as [-> |(m' & b' & -> & V' & T')].
  { apply V. } { lia. } { unfold KERNEL_VMA, FRAME_SIZE. lia. } { unfold FRAME_SIZE. lia. }
  { intros j Hj. apply V, U. lia. } { by left. }
  replace (i + 1 + Z.of_nat n) with (i + Z.of_nat (S n)) in * by lia.
  assert (Pg : forall va, va / FRAME_SIZE = v / FRAME_SIZE <-> v <= va < virt + (i + 1) * FRAME_SIZE).
  { intros va. subst v. unfold FRAME_SIZE in *. dlia. }
  right. exists m', b'. split_and!; [done| |].
  - eapply vm_kept_trans; [exact V|exact V'|]. unfold in_range.
    intros pd' va [[-> E]|[-> ?]]; (split; [done|]); [apply Pg in E|]; subst v;
      unfold FRAME_SIZE in *; lia.
  - intros va Hva. destruct (decide (va < virt + (i + 1) * FRAME_SIZE)) as [Hlt|Hge].
    + assert (Hu : is_u32 va) by (unfold is_u32, FRAME_SIZE in *; lia).
      rewrite (kept_tr _ _ _ _ _ _ _ V') by (done || intros [_ ?]; lia).
      rewrite T by (done || apply Pg; subst v; lia). do 2 f_equal.
      subst v. unfold FRAME_SIZE in *. dlia.
    + apply T'. lia.
Qed.
End map_pages.

(** Pages [i] to [i + n] of an address range mapped to those of a new grant. *)
Lemma isolated_alloc idle k k' pd virt phys n :
  kernel_wf idle k -> isolated k -> user_pds k' = user_pds k ->
  (forall pd' va, pd' ∈ user_pds k -> is_u32 va -> ~ in_range pd virt 0 n pd' va ->
     translate (kmem k') pd' va = translate (kmem k) pd' va) ->
  (forall va, virt <= va < virt + n * FRAME_SIZE ->
     translate (kmem k') pd va = Some (Translation (phys + (va - virt)) true true)) ->
  (forall b l w, grant_in (caps k') b l w <-> grant_in (caps k) b l w \/
     MemoryGrant phys (n * FRAME_SIZE) true = MemoryGrant b l w) ->
  phys mod FRAME_SIZE = 0 -> (forall j, 0 <= j < n -> ~ claimed (kframes k) (phys + j * FRAME_SIZE)) ->
  isolated k'.
Proof.
  intros W I Up Out In G Pm N. assert (Dv : div_ceil (n * FRAME_SIZE) FRAME_SIZE = n) by (unfold div_ceil, FRAME_SIZE; dlia).
  apply (isolated_map idle k k' phys (n * FRAME_SIZE) true (in_range pd virt 0 n)); try done.
  - intros pd' va _ _. unfold in_range. destruct (decide (pd' = pd)), (decide (virt + 0 * FRAME_SIZE <= va < virt + (0 + n) * FRAME_SIZE)); tauto.
  - intros pd' va x w' Hpd' [-> Hr] T. rewrite In in T by lia. injection T as <- <-. unfold covers. rewrite Dv. split; [done|lia].
  - intros b l w'. rewrite (G b l w'). split; (intros [?|E]; [by left|right]); [by injection E|destruct E as (-> & -> & ->); done].
  - right. intros x [X1 X2]. rewrite Dv in X2. replace (frame_base x) with (phys + (x - phys) / FRAME_SIZE * FRAME_SIZE).
    + apply N. unfold FRAME_SIZE in *. dlia.
    + unfold frame_base, FRAME_SIZE in *. dlia.
Qed.

(** ** Spawning *)

(** What a spawn does for the other components: the new task is the next id, holds
    the name service's endpoint and nothing else, and nobody else gains anything. *)
Record spawned (idle : Z) (ports : list Z) (k k' : kernel) (o : option Z) : Prop := {
  sp_wf : kernel_wf idle k';
  sp_current : current (sch k') = current (sch k);
  sp_cpu : scpu (sch k') = scpu (sch k);
  sp_ipc : kipc k' = kipc k;
  sp_img : kimg k' = kimg k;
  sp_mb : mb_info k' = mb_info k;
  sp_ns : ns_endpoint k' = ns_endpoint k;
  sp_caps : caps_le k (caps k');
  sp_others : forall i, i <> next_id (sch k) -> task_of (sch k') i = task_of (sch k) i;
  sp_user : forall q, kuser_page k q -> kuser_page k' q;
  sp_queue : ready_queue (sch k') = ready_queue (sch k) ++ match o with Some id => [id] | None => [] end;
  sp_holds : forall id kd, holds k' id kd <->
    holds k id kd \/ o = Some id /\ exists ns, ns_endpoint k = Some ns /\ kd = Endpoint ns;
  sp_grants : same_grants (caps k) (caps k');
  sp_kept : kept_caps (caps k) (caps k');
  (* the other address spaces are as they were, and the new one has frames that were free *)
  sp_tr : forall pd va, pd ∈ user_pds k -> is_u32 va -> translate (kmem k') pd va = translate (kmem k) pd va;
  sp_fresh : match o with
    | None => user_pds k' = user_pds k
    | Some id => exists t, task_of (sch k') id = Some t /\
        user_pds k' = user_pds k ++ [page_dir_phys t] /\ (page_dir_phys t ∉ user_pds k) /\
        forall va x w, is_u32 va -> translate (kmem k') (page_dir_phys t) va = Some (Translation x true w) ->
          ~ claimed (kframes k) (frame_base x)
    end;
  sp_new : match o with
    | None => next_id (sch k') = next_id (sch k)
    | Some id => id = next_id (sch k) /\ next_id (sch k') = next_id (sch k) + 1 /\
        exists t, task_of (sch k') id = Some t /\ state t = Ready /\ allowed_ports t = ports /\
          page_dir_phys t ∈ user_pds k' /\
          zlen (slots (tcspace t)) = match ns_endpoint k with Some _ => 2 | None => 1 end
    end
}.

Lemma spawned_refl idle ports k : kernel_wf idle k -> spawned idle ports k k None.
Proof.
  intros W. split; try done; [by intros n x Hn|by rewrite app_nil_r| |apply kept_caps_refl].
  intros id kd. split; [by left|]. by intros [?|[? _]].
Qed.

Lemma isolated_spawned idle ports k k' o : kernel_wf idle k -> isolated k -> spawned idle ports k k' o -> isolated k'.
Proof.
  intros W I S. pose proof (sp_fresh _ _ _ _ _ S) as F. pose proof (sp_tr _ _ _ _ _ S) as Tr.
  pose proof (sp_grants _ _ _ _ _ S) as G. destruct o as [id|]; [|by eapply isolated_same].
  destruct F as (t & _ & Up & Np & Fr). set (p := page_dir_phys t) in *.
  assert (Old : forall pd va x w, reaches k' pd va x w -> pd <> p -> reaches k pd va x w).
  { intros pd va x w (H1 & H2 & H3) Hne. rewrite Up in H1. assert (pd ∈ user_pds k) by set_solver.
    rewrite Tr in H3 by done. done. }
  intros pd va x w Re. destruct (decide (pd = p)) as [->|Hne].
  - pose proof Re as (_ & Hva & T). pose proof (Fr va x w Hva T) as Fx. right. split.
    + intros b l w' Gi Cv. apply G in Gi. by apply Fx, (grant_in_ok idle k b l w').
    + intros pd' va' x' w' Re' E. destruct (decide (pd' = p)) as [|Hne']; [done|]. exfalso. apply Fx. rewrite <- E.
      by eapply (reaches_claimed idle k), Old.
  - pose proof (Old _ _ _ _ Re Hne) as Re0. destruct (I _ _ _ _ Re0) as [(b & l & Gi & Cv)|[Un Pr]].
    + left. exists b, l. by rewrite (G b l w).
    + right. split; [intros b l w' Gi; by apply (Un b l w'), G|]. intros pd' va' x' w' Re' E.
      destruct (decide (pd' = p)) as [->|Hne']; [|by eapply Pr; [by apply Old|]].
      pose proof Re' as (_ & Hva' & T'). exfalso. apply (Fr va' x' w' Hva' T'). rewrite E. by eapply reaches_claimed.
Qed.

Lemma spawned_holds idle k k' ns new t :
  kernel_wf idle k -> caps_le k (caps k') ->
  (forall n x, resolve (caps k) n = Some x -> resolve (caps k') n = Some x) ->
  task_of (sch k) new = None ->
  (forall i, i <> new -> task_of (sch k') i = task_of (sch k) i) ->
  task_of (sch k') new = Some t ->
  match ns with
  | None => slots (tcspace t) = [None]
  | Some ep => slots (tcspace t) = [None; Some (zlen (caps k))] /\
      resolve (caps k') (zlen (caps k)) = Some (Endpoint ep, 0)
  end ->
  forall id kd, holds k' id kd <->
    holds k id kd \/ Some new = Some id /\ exists ep, ns = Some ep /\ kd = Endpoint ep.
Proof.
  intros W L M Nt To Tn Sl id kd. split.
  - intros (t0 & slot & n & b & T & G & R). destruct (decide (id = new)) as [->|Hne].
    + right. rewrite Tn in T. apply (inj Some) in T as <-.
      pose proof (cspace_get_new slot) as Gn. unfold cspace_get in *.
      destruct ns as [ep|]; [destruct Sl as [Sl Re]|]; rewrite Sl in G; [|cbn in Gn; by rewrite Gn in G].
      change [None; Some (zlen (caps k))] with ([None] ++ [Some (zlen (caps k))]) in G.
      rewrite zget_snoc in G. case_decide; [|cbn in Gn; by rewrite Gn in G].
      apply (inj Some) in G as <-. rewrite Re in R. split; [done|]. exists ep. split; [done|]. congruence.
    + left. rewrite To in T by done. exists t0, slot, n, b. split_and!; [done|done|].
      apply L; [|done]. by eapply (kw_slots _ _ W).
  - intros [(t0 & slot & n & b & T & G & R)|([= <-] & ep & -> & ->)].
    + exists t0, slot, n, b. split_and!; [|done|by apply M]. rewrite To; [done|]. intros ->. congruence.
    + destruct Sl as [Sl Re]. exists t, 1, (zlen (caps k)), 0. split_and!; [done| |done].
      unfold cspace_get. by rewrite Sl.
Qed.

Lemma spawned_intro idle k k' ns ports new t :
  kernel_wf idle k' -> kernel_wf idle k -> new = next_id (sch k) -> ns_endpoint k = ns ->
  current (sch k') = current (sch k) -> scpu (sch k') = scpu (sch k) ->
  kipc k' = kipc k -> kimg k' = kimg k -> mb_info k' = mb_info k -> ns_endpoint k' = ns_endpoint k ->
  caps_le k (caps k') ->
  (forall n x, resolve (caps k) n = Some x -> resolve (caps k') n = Some x) ->
  (forall i, i <> new -> task_of (sch k') i = task_of (sch k) i) ->
  (forall q, kuser_page k q -> kuser_page k' q) ->
  ready_queue (sch k') = ready_queue (sch k) ++ [new] ->
  next_id (sch k') = new + 1 -> task_of (sch k') new = Some t -> state t = Ready ->
  allowed_ports t = ports -> page_dir_phys t ∈ user_pds k' ->
  match ns with
  | None => slots (tcspace t) = [None]
  | Some ep => slots (tcspace t) = [None; Some (zlen (caps k))] /\
      resolve (caps k') (zlen (caps k)) = Some (Endpoint ep, 0)
  end ->
  same_grants (caps k) (caps k') -> kept_caps (caps k) (caps k') ->
  (forall pd va, pd ∈ user_pds k -> is_u32 va -> translate (kmem k') pd va = translate (kmem k) pd va) ->
  user_pds k' = user_pds k ++ [page_dir_phys t] -> page_dir_phys t ∉ user_pds k ->
  (forall va x w, is_u32 va -> translate (kmem k') (page_dir_phys t) va = Some (Translation x true w) ->
     ~ claimed (kframes k) (frame_base x)) ->
  spawned idle ports k k' (Some new).
Proof.
  intros W' W -> Ns ? ? ? ? ? ? L M To Us Q Nx Tn St Po Pd Sl Gr Kc Tr Up Np Fr. split; try done.
  - rewrite Ns. eapply spawned_holds; try done. apply zget_out.
    pose proof (wf_next_id _ (wf_ids_wf _ (iw_sched _ (kw_ipc _ _ W)))). lia.
  - exists t. by split_and!.
  - split_and!; [done|done|]. exists t. split_and!; try done. rewrite Ns.
    destruct ns; [destruct Sl as [Sl _]|]; by rewrite Sl.
Qed.

Section spawn_task.
Context (idle : Z) (k : kernel) (m : mem) (b : bitmap) (p : Z) (ports : list Z).
Context (W : kernel_wf idle k) (Hid : next_id (sch k) < U32_MAX) (Hports : Forall is_u16 ports).
Context (V : vm_wf (kimg k) m b (user_pds k ++ [p])).
Context (U : forall q, kuser_page k q -> user_page (kimg k) m b (user_pds k ++ [p]) q).
Context (Tr : forall pd va, pd ∈ user_pds k -> is_u32 va -> translate m pd va = translate (kmem k) pd va).
Context (Fr : forall va x w, is_u32 va -> translate m p va = Some (Translation x true w) ->
  ~ claimed (kframes k) (frame_base x)).

Let mk (id : Z) : task := new_user id USER_CODE_BASE USER_STACK_TOP p ports.
Let new := next_id (sch k).
Let s1 : sched := (spawn (alloc_task_id (sch k)).1 (mk new)).1.

Lemma new_pd_not_boot : p <> boot_pd (kimg k).
Proof.
  intros E. destruct (vm_table _ _ _ _ V p) as [_ O]; [left; set_solver|].
  apply O. rewrite E. apply (vm_boot _ _ _ _ V).
Qed.

Lemma spawn_sched_spec :
  sched_wf s1 /\ current s1 = current (sch k) /\
  (forall i, task_of s1 i = if decide (i = new) then Some (mk new) else task_of (sch k) i) /\
  task_of (sch k) new = None /\ scpu s1 = scpu (sch k) /\ next_id s1 = new + 1 /\
  ready_queue s1 = ready_queue (sch k) ++ [new].
Proof.
  pose proof (iw_sched _ (kw_ipc _ _ W)) as S.
  pose proof (spawn_spec (sch k) S mk Hid) as H. cbn in H.
  destruct H as (_ & S1 & C1 & Q1 & N1 & P1 & T1); [by intros id; split_and!|].
  split_and!; try done. apply zget_out. pose proof (wf_next_id _ (wf_ids_wf _ S)).
  unfold new. lia.
Qed.

Lemma spawn_user_pds : user_pds (set_sch s1 (set_mem m b k)) = user_pds k ++ [p].
Proof.
  unfold user_pds, s1. cbn. rewrite map_app, List.filter_app. f_equal. cbn.
  pose proof new_pd_not_boot. by replace (p =? boot_pd (kimg k)) with false by lia.
Qed.

Lemma spawn_kernel_wf : kernel_wf idle (set_sch s1 (set_mem m b k)).
Proof.
  destruct spawn_sched_spec as (S1 & C1 & T1 & Nw & _). pose proof W as [W1 W2 W3 W4 W5 W6 W7 W8].
  assert (Hni : idle <> new).
  { destruct W2 as [[_ ->]|W2].
    - pose proof (wf_next_id _ (wf_ids_wf _ (iw_sched _ W1))). pose proof (zlen_nonneg (tasks (sch k))).
      unfold new. lia.
    - intros ->. unfold idle_ok, state_of in W2. rewrite Nw in W2. by destruct W2. }
  assert (St : forall i, i <> new -> state_of s1 i = state_of (sch k) i).
  { intros i Hi. unfold state_of. rewrite T1. by rewrite decide_False. }
  split.
  - destruct W1 as [I1 I2 I3 I4 I5 I6 I7]. split; try done. intros id. rewrite I3. cbn.
    destruct (decide (id = new)) as [->|]; [|by rewrite St].
    unfold state_of. rewrite T1, decide_True, Nw by done. done.
  - destruct W2 as [[W2 ->]|W2]; [left; by rewrite <- W2|right]. unfold idle_ok. cbn. by rewrite St.
  - cbn. intros id t. rewrite T1. case_decide; [|by apply W3].
    intros E _. apply (inj Some) in E as <-. cbn. apply new_pd_not_boot.
  - done.
  - rewrite spawn_user_pds. done.
  - cbn. intros id t slot n. rewrite T1. case_decide; [|by apply W6].
    intros E. apply (inj Some) in E as <-. cbn. by rewrite cspace_get_new.
  - done.
  - intros i n base len w Hi Hk. unfold grant_ok. rewrite spawn_user_pds. cbn.
    destruct (W8 _ _ _ _ _ Hi Hk) as (? & ? & ? & G). split_and!; auto.
Qed.

Lemma spawn_task_ok :
  exists k' t, spawn_task (set_mem m b k) p ports = Ok (k', Some new) /\
    spawned idle ports k k' (Some new) /\ kmem k' = m /\ kframes k' = b /\
    user_pds k' = user_pds k ++ [p] /\ task_of (sch k') new = Some t /\
    page_dir_phys t = p /\ stack t = stack (mk new).
Proof.
  destruct spawn_sched_spec as (S1 & C1 & T1 & Nw & P1 & N1 & Q1).
  pose proof spawn_kernel_wf as W1. pose proof spawn_user_pds as Up.
  assert (Np : p ∉ user_pds k).
  { intros Hp. pose proof (vm_nodup _ _ _ _ V) as (_ & N & _)%NoDup_app. apply (N p Hp). set_solver. }
  assert (Tn : task_of s1 new = Some (mk new)) by (by rewrite T1, decide_True).
  unfold spawn_task. cbn [sch set_mem alloc_task_id spawn]. fold new. cbn [tid new_user].
  change (set_tasks _ _) with s1. cbn [ns_endpoint set_sch set_mem].
  destruct (ns_endpoint k) as [ns|] eqn:Ns.
  - cbn [caps set_sch set_mem mint_root].
    set (k1 := set_caps (caps k ++ [CapNode (Endpoint ns) 0 [] false]) (set_sch s1 (set_mem m b k))).
    assert (W2 : kernel_wf idle k1) by (by apply (kernel_wf_mint_root idle _ (Endpoint ns) W1)).
    assert (Hin : in_table k1 (zlen (caps k))).
    { unfold in_table. cbn. rewrite zlen_snoc. pose proof (zlen_nonneg (caps k)). lia. }
    destruct (install_cap_for_spec s1 S1 new (zlen (caps k)) (mk new) Tn)
      as (s2 & E2 & _ & C2 & Q2 & N2 & P2 & _ & T2).
    destruct (kernel_wf_install_for idle k1 new (zlen (caps k)) (mk new) W2 Tn Hin)
      as (s2' & slot & E2' & W3 & _ & _ & Up2 & _ & _). change (sch k1) with s1 in E2'. rewrite E2 in E2'.
    injection E2' as <- _. cbn [sch set_sch]. rewrite E2.
    change (user_pds k1) with (user_pds (set_sch s1 (set_mem m b k))) in Up2. rewrite Up in Up2.
    set (t := with_cspace (cspace_install (tcspace (mk new)) (zlen (caps k))).1 (mk new)) in *.
    assert (T3 : task_of s2 new = Some t) by (by rewrite T2, decide_True).
    exists (set_sch s2 k1), t. split; [reflexivity|].
    split_and!; try done. apply (spawned_intro idle k _ (Some ns) _ new t W3); try done.
    all: try (by change (sch (set_sch s2 k1)) with s2; congruence).
    + apply (caps_le_mint_root k).
    + by apply (mint_root_keeps (caps k) (Endpoint ns)).
    + intros i Hi. change (task_of s2 i = task_of (sch k) i). by rewrite T2, T1, !decide_False.
    + rewrite Up2. exact U.
    + rewrite Up2. set_solver.
    + split; [done|]. unfold resolve. cbn. by rewrite zget_app_last.
    + by apply (same_grants_mint_root (caps k) (Endpoint ns)).
    + apply (kept_caps_mint_root (caps k) (Endpoint ns)).
  - eexists _, (mk new). split; [done|]. split_and!; try done.
    apply (spawned_intro idle k _ None _ new (mk new) W1); try done.
    + by intros n x Hn.
    + intros i Hi. change (task_of s1 i = task_of (sch k) i). by rewrite T1, decide_False.
    + rewrite Up. exact U.
    + rewrite Up. set_solver.
    + apply kept_caps_refl.
Qed.
End spawn_task.

(** Page [i] of the program can be loaded by the running task. *)
Definition can_load (k : kernel) (total_len : Z) (page_phys : Z -> res Z) (i : Z) : Prop :=
  page_ready (kimg k) (user_pds k) (cr3 (scpu (sch k))) total_len page_phys (kmem k) (kframes k) i.

(** The address space a spawn builds, against the ones there were. *)
Lemma new_space k m1 b1 m2 b2 p (W : vm_wf (kimg k) (kmem k) (kframes k) (user_pds k)) :
  vm_wf (kimg k) m1 b1 (user_pds k ++ [p]) ->
  vm_kept (kimg k) (kmem k) m1 (kframes k) b1 (user_pds k) (fun _ _ => False) ->
  (forall va, 0 <= va < KERNEL_VMA -> translate m1 p va = None) ->
  vm_kept (kimg k) m1 m2 b1 b2 (user_pds k ++ [p]) (fun pd' _ => pd' = p) -> fills p m1 m2 b1 ->
  (forall pd va, pd ∈ user_pds k -> is_u32 va -> translate m2 pd va = translate (kmem k) pd va) /\
  (forall va x w, is_u32 va -> translate m2 p va = Some (Translation x true w) -> ~ claimed (kframes k) (frame_base x)).
Proof.
  intros V1 K1 E1 K2 F. split.
  - intros pd va Hpd Hva. assert (pd <> p).
    { intros ->. pose proof (vm_nodup _ _ _ _ V1) as (_ & N & _)%NoDup_app. apply (N p Hpd). set_solver. }
    rewrite (kept_tr _ _ _ _ _ _ _ K2) by (set_solver || done).
    apply (kept_tr _ _ _ _ _ _ _ K1); [done|done|tauto].
  - intros va x w Hva T.
    pose proof (user_translation_low _ _ _ _ p va x w (kept_wf _ _ _ _ _ _ _ K2) ltac:(set_solver) Hva T) as Lo.
    destruct (F va x w Hva T) as [T1|N]; [unfold is_u32 in Hva; rewrite E1 in T1 by lia; done|].
    intros C. apply N. eapply claimed_le; [apply K1|done].
Qed.

Lemma spawn_with_code_pages_ok idle k total_len page_phys ports :
  kernel_wf idle k -> next_id (sch k) < U32_MAX -> Forall is_u16 ports -> 0 <= total_len ->
  (exists e, spawn_with_code_pages k total_len page_phys ports = Panicked e /\
     ((forall i, 0 <= i < Z.max (div_ceil total_len FRAME_SIZE) 1 -> can_load k total_len page_phys i) ->
      e = OutOfPhysicalMemory)) \/
  exists k' o, spawn_with_code_pages k total_len page_phys ports = Ok (k', o) /\ spawned idle ports k k' o.
Proof.
  intros W Hid Hp Hl. unfold spawn_with_code_pages.
  destruct (page_directory_new_ok (kimg k) (kmem k) (kframes k) (user_pds k) (kw_vm _ _ W))
    as [-> |(m1 & b1 & p & -> & V1 & K1 & U1 & E1)]; [left; by eexists|].
  assert (Hin : p ∈ user_pds k ++ [p]) by set_solver.
  destruct (load_image_ok (kimg k) (user_pds k ++ [p]) p (cr3 (scpu (sch k))) total_len page_phys
              Hin m1 b1 V1 Hl) as [(e & -> & He)|(m2 & b2 & ok & -> & K2 & F2 & _)].
  { left. exists e. split; [done|]. intros H. apply He. intros i Hi.
    destruct (H i Hi) as (H1 & H2 & H3). split_and!; [done|set_solver|]. intros Hlt.
    destruct (H3 Hlt) as [Ho So]. split; [done|]. intros src Es. destruct (So src Es) as (Us & ?).
    split; [by apply U1|done]. }
  pose proof (kept_wf _ _ _ _ _ _ _ K2) as V2.
  assert (U2 : forall q, kuser_page k q -> user_page (kimg k) m2 b2 (user_pds k ++ [p]) q)
    by (intros q Uq; by apply K2, U1).
  destruct (new_space k m1 b1 m2 b2 p (kw_vm _ _ W) V1 K1 E1 K2 F2) as [Tr Fr].
  right. destruct ok.
  - destruct (spawn_task_ok idle k m2 b2 p ports W Hid Hp V2 U2 Tr Fr) as (k' & t & -> & S & _). eauto.
  - do 2 eexists. split; [done|]. split; try done.
    2: { by intros n x Hn. } 2: { intros q Uq. eapply user_page_drop. by apply U2. }
    2: { by rewrite app_nil_r. } 2: { intros id kd. split; [by left|]. by intros [?|[? _]]. } 2: { apply kept_caps_refl. }
    eapply (kernel_wf_mem idle k m2 b2 (fun _ _ => False)); [done|]. split.
    + by eapply vm_wf_drop.
    + eapply bitmap_le_trans; [apply K1|apply K2].
    + intros q Uq. eapply user_page_drop. by apply U2.
    + intros q x Uq Hx. rewrite (kept_bytes _ _ _ _ _ _ _ K2 q) by (done || by apply U1).
      by apply (kept_bytes _ _ _ _ _ _ _ K1 q).
    + intros pd va Hpd Hva _. by apply Tr.
Qed.

Lemma spawn_from_module_ok idle k index ports :
  kernel_wf idle k -> next_id (sch k) < U32_MAX -> Forall is_u16 ports ->
  (exists e, spawn_from_module k index ports = Panicked e) \/
  exists k' o, spawn_from_module k index ports = Ok (k', o) /\ spawned idle ports k k' o.
Proof.
  intros W Hid Hp. unfold spawn_from_module.
  destruct (module _ _ _ _) as [[[st en]|]|e]; [| |left; by eexists].
  - destruct (spawn_with_code_pages_ok idle k (wrap32 (en - st))
      (fun i => Ok (wrap32 (st + i * FRAME_SIZE))) ports W Hid Hp) as [(e & ? & _)|?];
      [unfold wrap; dlia|left; by exists e|by right].
  - right. do 2 eexists. split; [done|]. by apply spawned_refl.
Qed.

Lemma spawn_from_memory_ok idle k grants total_len :
  kernel_wf idle k -> next_id (sch k) < U32_MAX -> 0 <= total_len ->
  (exists e, spawn_from_memory k grants total_len = Panicked e /\
     (cr3 (scpu (sch k)) ∈ user_pds k -> zlen grants <= 4 ->
      (forall g, g ∈ grants -> exists len, grant_ok k g len) -> e = OutOfPhysicalMemory)) \/
  exists k' o, spawn_from_memory k grants total_len = Ok (k', o) /\ spawned idle [] k k' o.
Proof.
  intros W Hid Hl. unfold spawn_from_memory. case_match.
  - right. do 2 eexists. split; [done|]. by apply spawned_refl.
  - destruct (spawn_with_code_pages_ok idle k total_len
                (fun i => expect IndexOutOfBounds (zget grants i)) [] W Hid) as [(e & -> & He)|?];
      [constructor|done| |by right].
    left. exists e. split; [done|]. intros Hcr H4 G. apply He. intros i Hi. bool_simp.
    unfold div_ceil, FRAME_SIZE in *. split_and!; [|by left|].
    + unfold code_page, KERNEL_VMA, USER_CODE_BASE, FRAME_SIZE. dlia.
    + intros Hlt. destruct (zget_in_range grants i) as [g Hg]; [unfold FRAME_SIZE in *; lia|].
      split; [by rewrite Hg|]. intros src Es. rewrite Hg in Es. injection Es as Es.
      rewrite <- Es. apply zget_lookup in Hg as [_ Hg].
      destruct (G g) as (len & G1 & G2 & G3 & G4); [by eapply list_elem_of_lookup_2|].
      assert (1 <= div_ceil len FRAME_SIZE) by (unfold div_ceil, FRAME_SIZE; dlia).
      specialize (G4 0 ltac:(lia)). replace (g + 0 * FRAME_SIZE) with g in G4 by lia.
      split_and!; [done|done|]. unfold FRAME_SIZE in *. lia.
Qed.

(** ** What a spawned program finds in memory *)

Section loaded.
Context (idle : Z) (k : kernel) (total_len : Z) (page_phys : Z -> res Z) (ports : list Z).
Context (W : kernel_wf idle k) (Hid : next_id (sch k) < U32_MAX) (Hp : Forall is_u16 ports).
Context (Hl : 0 <= total_len <= USER_STACK_TOP - 4 * FRAME_SIZE - USER_CODE_BASE).
Context (Hcr : cr3 (scpu (sch k)) ∈ user_pds k \/ cr3 (scpu (sch k)) = boot_pd (kimg k)).
Context (Src : forall i, 0 <= i < div_ceil total_len FRAME_SIZE ->
  source_ok (kimg k) (user_pds k) page_phys (kmem k) (kframes k) i).

Lemma spawn_with_code_pages_bytes k' id :
  spawn_with_code_pages k total_len page_phys ports = Ok (k', Some id) ->
  exists t, task_of (sch k') id = Some t /\
    stack t = stack (new_user id USER_CODE_BASE USER_STACK_TOP (page_dir_phys t) ports) /\
    (forall off, 0 <= off < total_len ->
       user_sees (kimg k) (user_pds k') (page_dir_phys t) (kmem k') (kframes k')
         (USER_CODE_BASE + off) (image_byte total_len page_phys (kmem k) off)) /\
    (forall va, USER_STACK_TOP - 4 * FRAME_SIZE <= va < USER_STACK_TOP ->
       exists v, user_sees (kimg k) (user_pds k') (page_dir_phys t) (kmem k') (kframes k') va v) /\
    (forall va x w, is_u32 va -> translate (kmem k') (page_dir_phys t) va = Some (Translation x true w) ->
       ~ claimed (kframes k) (frame_base x)).
Proof.
  unfold spawn_with_code_pages.
  destruct (page_directory_new_ok (kimg k) (kmem k) (kframes k) (user_pds k) (kw_vm _ _ W))
    as [-> |(m1 & b1 & p & -> & V1 & K1 & U1 & E1)]; [done|].
  assert (Hin : p ∈ user_pds k ++ [p]) by set_solver.
  destruct (load_image_ok (kimg k) (user_pds k ++ [p]) p (cr3 (scpu (sch k))) total_len page_phys
              Hin m1 b1 V1 ltac:(lia)) as [(e & -> & He)|(m2 & b2 & ok & -> & K2 & F2 & H)]; [done|].
  destruct ok; [|done]. pose proof (kept_wf _ _ _ _ _ _ _ K2) as V2.
  assert (U2 : forall q, kuser_page k q -> user_page (kimg k) m2 b2 (user_pds k ++ [p]) q)
    by (intros q Uq; by apply K2, U1).
  destruct (new_space k m1 b1 m2 b2 p (kw_vm _ _ W) V1 K1 E1 K2 F2) as [Tr Fr].
  destruct (spawn_task_ok idle k m2 b2 p ports W Hid Hp V2 U2 Tr Fr) as (k2 & t & -> & _ & Em & Eb & Eu & T & Ep & Es).
  intros [= <- <-]. exists t. rewrite Em, Eb, Eu, Ep.
  destruct (H eq_refl) as [Hb Hs].
  - destruct Hcr; [left; set_solver|by right].
  - intros i Hi src E. destruct (Src i Hi src E) as (Us & ?). split; [by apply U1|done].
  - lia.
  - split_and!; [done|done| |done|done].
    intros off Ho. rewrite <- (image_byte_kept _ _ _ _ _ _ _ _ _ off K1); [by apply Hb|lia|].
    apply Src. unfold div_ceil, FRAME_SIZE in *. dlia.
Qed.
End loaded.
