(* ===== verification/Kernel.v ===== *)
(** * The kernel as a transition system

    Every syscall, interrupt and ring-3 fault as a step from one kernel state
    to the next, together with what user code itself may do: write to memory
    its own page tables let it write.  The invariant of [KernelInv] holds in
    every state such steps reach. *)

From stdpp Require Import base list numbers sets.
From Stdlib Require Import Lia.
From S2P Require Import Prelude Cap Hw Sched Frame Paging Ipc Loader Syscall KernelInv.
Open Scope Z_scope.

Definition regs_u32 (r : saved_regs) : Prop :=
  is_u32 (eax r) /\ is_u32 (ebx r) /\ is_u32 (ecx r) /\ is_u32 (edx r) /\ is_u32 (esi r) /\
  is_u32 (edi r) /\ is_u32 (ebp r).

(** ** The memory syscalls *)

Section memory.
Context (idle : Z) (k : kernel) (c : Z) (t : task).
Context (W : kernel_wf idle k) (C : current (sch k) = Some c) (Hc : c <> idle).
Context (T : task_of (sch k) c = Some t).

Lemma running_pd : current_page_dir_phys (sch k) = Ok (page_dir_phys t) /\
  page_dir_phys t ∈ user_pds k.
Proof.
  destruct (current_user_task idle k c W C Hc) as (t' & T' & Hin & _ & E & _).
  rewrite T in T'. by apply (inj Some) in T' as <-.
Qed.

Lemma mapping_fits virt len :
  virt mod FRAME_SIZE = 0 -> virt + len <= KERNEL_VMA ->
  virt + div_ceil len FRAME_SIZE * FRAME_SIZE <= KERNEL_VMA.
Proof. unfold div_ceil, FRAME_SIZE, KERNEL_VMA. intros. dlia. Qed.

Lemma checked_add_Some a b v : checked_add a b = Some v -> v = a + b.
Proof. unfold checked_add. case_match; congruence. Qed.

Lemma checked_mul_Some a b v : checked_mul a b = Some v -> v = a * b.
Proof. unfold checked_mul. case_match; congruence. Qed.

(** [SYS_MAP_MEMORY] *)
Lemma sys_map_memory_ok phys virt len w :
  grant_ok k phys len -> is_u32 virt ->
  sys_map_memory k phys virt len w = Panicked OutOfPhysicalMemory \/
  sys_map_memory k phys virt len w = Ok (k, ERR) \/
  exists m b, sys_map_memory k phys virt len w = Ok (set_mem m b k, 0) /\
    virt + len <= KERNEL_VMA /\
    vm_kept (kimg k) (kmem k) m (kframes k) b (user_pds k)
      (in_range (page_dir_phys t) virt 0 (div_ceil len FRAME_SIZE)) /\
    forall va, virt <= va < virt + div_ceil len FRAME_SIZE * FRAME_SIZE ->
      translate m (page_dir_phys t) va = Some (Translation (phys + (va - virt)) true w).
Proof.
  intros (G1 & G2 & G3 & G4) Hv. unfold sys_map_memory.
  case_match eqn:B1; [by right; left|]. destruct (checked_add virt len) as [ve|] eqn:Ea; [|by right; left].
  apply checked_add_Some in Ea. case_match eqn:B2; [by right; left|].
  destruct running_pd as [-> Hpd]. bool_simp.
  pose proof (mapping_fits virt len ltac:(done) ltac:(lia)) as Hf.
  pose proof (vm_window _ _ _ _ (kw_vm _ _ W)) as [Hw _].
  assert (Hn : Z.of_nat (Z.to_nat (div_ceil len FRAME_SIZE)) = div_ceil len FRAME_SIZE).
  { apply Z2Nat.id. unfold div_ceil, FRAME_SIZE. dlia. }
  destruct (map_pages_ok (kimg k) (user_pds k) (page_dir_phys t) virt phys w Hpd ltac:(done)
    ltac:(unfold is_u32 in Hv; lia) G1 (Z.to_nat (div_ceil len FRAME_SIZE)) (kmem k) (kframes k) 0
    (kw_vm _ _ W)) as [-> |(m & b & -> & V & Tr)]; rewrite ?Hn; [lia|lia|lia| |by left|].
  { intros j Hj. apply G4. lia. }
  right. right. exists m, b. rewrite Hn in *. split_and!; [done|lia|done|].
  intros va Hva. apply Tr. lia.
Qed.

(** What [SYS_MEM_ALLOC]'s allocator returns. *)
Lemma alloc_pages_ok n :
  1 <= n ->
  exists b o, (if n =? 1 then alloc_frame (kframes k) else alloc_frames_contiguous (kframes k) n)
    = Ok (b, o) /\
    match o with
    | None => b = kframes k
    | Some phys => 
        vm_kept (kimg k) (kmem k) (kmem k) (kframes k) b (user_pds k) (fun _ _ => False) /\
        0 <= phys /\ phys + n * FRAME_SIZE <= frame_count (kframes k) * FRAME_SIZE /\
        (forall j, 0 <= j < n -> user_page (kimg k) (kmem k) b (user_pds k) (phys + j * FRAME_SIZE)) /\
        (forall j, 0 <= j < n -> ~ claimed (kframes k) (phys + j * FRAME_SIZE))
    end.
Proof.
  intros Hn. pose proof (kw_vm _ _ W) as V. pose proof (vm_bitmap _ _ _ _ V) as Wb.
  assert (H : exists b o, (if n =? 1 then alloc_frame (kframes k)
                           else alloc_frames_contiguous (kframes k) n) = Ok (b, o) /\
    match o with
    | None => b = kframes k
    | Some phys => exists s, phys = s * FRAME_SIZE /\ free_run (kframes k) s n /\
        updates (kframes k) b (fun i => s <= i < s + n) true
    end).
  { destruct (n =? 1) eqn:E1; bool_simp.
    - destruct (alloc_frame_ok (kframes k) Wb) as (b & [p|] & -> & H).
      + destruct H as (f & -> & Hf & Hu & _ & U1 & U2 & U3). eexists _, _. split; [done|].
        exists f. split; [done|]. split; [|split_and!; [done|done|]].
        * split; [lia|]. split; [lia|]. intros g Hg. by replace g with f by lia.
        * intros g Hg. destruct (U3 g Hg) as [Ua Ub]. split; intros; [apply Ua; lia|apply Ub; lia].
      + destruct H as [-> _]. by exists (kframes k), None.
    - destruct (alloc_contiguous_ok (kframes k) n Wb ltac:(lia)) as (b & [p|] & -> & H).
      + destruct H as (s & -> & Fr & _ & U). exists b, (Some (s * FRAME_SIZE)). eauto.
      + destruct H as [-> _]. by exists (kframes k), None. }
  destruct H as (b & [phys|] & E & H); [|by exists b, None].
  destruct H as (s & -> & (F1 & F2 & F3) & U). exists b, (Some (s * FRAME_SIZE)). split; [done|].
  destruct (claim_frames (kimg k) (kmem k) (kframes k) b (user_pds k) _ V U) as [Kp Up].
  { intros f Hf. split; [lia|]. by apply F3. }
  unfold FRAME_SIZE. split_and!; [done|lia|lia| |].
  - intros j Hj. replace (s * 4096 + j * 4096) with ((s + j) * 4096) by lia. apply Up. lia.
  - intros j Hj (f & E2 & Hu). unfold FRAME_SIZE in *.
    assert (f = s + j) as -> by lia. specialize (F3 (s + j) ltac:(lia)).
    rewrite Hu in F3; [done|lia].
Qed.
End memory.

(** ** What one syscall may do *)

(** Kinds of capability a syscall of task [c] makes out of nothing for task [id]: for
    itself a new endpoint, or writable memory every frame of which the allocator had free;
    for a task that did not exist the name service's endpoint. *)
Definition new_kind (k : kernel) (c id : Z) (kd : cap_kind) : Prop :=
  (id = c /\ kd = Endpoint (zlen (endpoints (kipc k)))) \/
  (id = c /\ exists base n, kd = MemoryGrant base (n * FRAME_SIZE) true /\ 1 <= n /\
     forall j, 0 <= j < n -> ~ claimed (kframes k) (base + j * FRAME_SIZE)) \/
  (task_of (sch k) id = None /\ exists ns, ns_endpoint k = Some ns /\ kd = Endpoint ns).

(** A step of task [c]: the invariant, authority only from what [c] holds, what was in
    flight, or what is new, and isolation. *)
Record sys_ok (idle c : Z) (k k' : kernel) : Prop := {
  so_wf : kernel_wf idle k';
  so_holds : forall id kd, holds k' id kd ->
    holds k id kd \/ in_flight k kd \/ holds k c kd \/ new_kind k c id kd;
  so_flight : forall kd, in_flight k' kd -> in_flight k kd \/ holds k c kd;
  so_isolated : isolated k -> isolated k';
  so_kept : kept_caps (caps k) (caps k')
}.

Section syscalls.
Context (idle : Z) (k : kernel) (c : Z).
Context (W : kernel_wf idle k) (C : current (sch k) = Some c) (Hc : c <> idle).

Lemma sys_ok_regs k' f : sys_ok idle c k k' -> sys_ok idle c k (set_regs f k').
Proof. intros [S1 S2 S3 S4 S5]. split; [by apply kernel_wf_regs|exact S2|exact S3|exact S4|exact S5]. Qed.

Lemma sys_ok_refl : sys_ok idle c k k.
Proof. split; auto. apply kept_caps_refl. Qed.

Lemma resolve_current slot :
  exists o, resolve_current_cap k slot = Ok o /\
    forall kd b, o = Some (kd, b) -> holds k c kd /\
      exists n, current_cap_node k slot = Ok (Some n) /\ in_table k n /\
        resolve (caps k) n = Some (kd, b).
Proof.
  destruct (current_user_task idle k c W C Hc) as (t & T & _ & _ & _ & G).
  unfold resolve_current_cap, current_cap_node. rewrite G. eexists. split; [reflexivity|].
  intros kd b. destruct (cspace_get (tcspace t) slot) as [n|] eqn:E; [|done]. intros R.
  split; [by exists t, slot, n, b|]. exists n. split_and!; [done|by eapply (kw_slots _ _ W)|done].
Qed.

Lemma current_node slot :
  exists o, current_cap_node k slot = Ok o /\
    forall n, o = Some n -> in_table k n /\
      forall kd b, resolve (caps k) n = Some (kd, b) -> holds k c kd.
Proof.
  destruct (current_user_task idle k c W C Hc) as (t & T & _ & _ & _ & G).
  unfold current_cap_node. rewrite G. eexists. split; [reflexivity|].
  intros n E. split; [by eapply (kw_slots _ _ W)|]. intros kd b R. by exists t, slot, n, b.
Qed.

(** An IPC operation that brings in a capability [c] holds. *)
Lemma sys_ok_ipc tr k' :
  ipc_ok idle tr k k' ->
  (forall n, tr = Some n -> in_table k n /\ forall kd b, resolve (caps k) n = Some (kd, b) -> holds k c kd) ->
  sys_ok idle c k k'.
Proof.
  intros O H. pose proof O as [O1 O2 O3 O4 O5 O6]. destruct O4 as (Fc & _). split.
  - eapply kernel_wf_ipc; [done|done| |congruence]. intros n Hn. by apply H.
  - intros id kd Hh. destruct (holds_evolves _ _ _ _ _ Fc O3 Hh) as [?|(n & b & [Ht|Ht] & R)].
    + by left. + right. left. by exists n, b. + right. right. left. by eapply H.
  - intros kd (n & b & Tn & R). rewrite Fc in R. destruct (O5 _ Tn) as [Ht|Ht].
    + left. by exists n, b. + right. by eapply H.
  - by eapply isolated_ipc.
  - rewrite Fc. apply kept_caps_refl.
Qed.

(** Changing the table without giving anyone more. *)
Lemma sys_ok_caps nodes :
  kernel_wf idle (set_caps nodes k) -> caps_le k nodes -> same_grants (caps k) nodes ->
  kept_caps (caps k) nodes -> sys_ok idle c k (set_caps nodes k).
Proof.
  intros W' L G Kc. split; [done| | | |done].
  - intros id kd Hh. left. by eapply holds_caps.
  - intros kd Hf. left. by eapply in_flight_caps.
  - intros I. by eapply isolated_same.
Qed.

Lemma sys_ok_spawned ports k' o : spawned idle ports k k' o -> sys_ok idle c k k'.
Proof.
  intros S. split; [apply S| | |intros I; by eapply isolated_spawned|apply S].
  - intros id kd Hh. apply (sp_holds _ _ _ _ _ S) in Hh as [?|(-> & ns & ? & ->)]; [by left|].
    destruct (sp_new _ _ _ _ _ S) as (-> & _).
    right. right. right. right. right. split; [|by exists ns]. apply zget_out.
    pose proof (wf_next_id _ (wf_ids_wf _ (iw_sched _ (kw_ipc _ _ W)))). lia.
  - intros kd (n & b & (s & Hs & Ht) & R). left. exists n, b. rewrite (sp_ipc _ _ _ _ _ S) in Hs.
    assert (Tn : transfers k n) by (by exists s). split; [done|].
    apply (sp_caps _ _ _ _ _ S); [|done]. by apply (kw_transfers _ _ W).
Qed.
End syscalls.

(** Installing a node for the running task. *)
Lemma sys_ok_install idle k k1 c node kd :
  sys_ok idle c k k1 -> current (sch k1) = Some c -> in_table k1 node ->
  (forall kd' b, resolve (caps k1) node = Some (kd', b) -> kd' = kd) ->
  holds k c kd \/ new_kind k c c kd ->
  exists s slot, current_cspace_install (sch k1) node = Ok (s, slot) /\
    sys_ok idle c k (set_sch s k1).
Proof.
  intros [S1 S2 S3 S4 S5] C1 Hn Hk Hh.
  destruct (current_task _ (iw_sched _ (kw_ipc _ _ S1)) c C1) as (t & T & _).
  unfold current_cspace_install. rewrite C1. cbn [expect].
  destruct (kernel_wf_install_for idle k1 c node t S1 T Hn) as (s & slot & Es & W' & _ & _ & Up & Ev & _).
  rewrite Es. exists s, slot. split; [done|]. split; [done| |exact S3| |exact S5].
  2: { intros I. by apply (isolated_same k1); [apply S4| |apply same_grants_refl|]. }
  intros id kd' Hd. destruct (decide (id = c)) as [->|Hid].
  2: { destruct (install_cap_for_spec _ (iw_sched _ (kw_ipc _ _ S1)) c node t T) as (s2 & E2 & _ & _ & _ & _ & _ & _ & T2).
       rewrite Es in E2. injection E2 as <- _. apply S2. destruct Hd as (t0 & sl & n & b & T0 & Hd).
       exists t0, sl, n, b. split; [|done]. cbn in T0. by rewrite T2, decide_False in T0. }
  destruct (holds_evolves (eq node) k1 (set_sch s k1) c kd' eq_refl Ev Hd)
    as [?|(n & b & <- & R)]; [by apply S2|]. rewrite (Hk _ _ R). tauto.
Qed.

Section mem_alloc.
Context (idle : Z) (k : kernel) (c : Z) (t : task).
Context (W : kernel_wf idle k) (C : current (sch k) = Some c) (Hc : c <> idle).
Context (T : task_of (sch k) c = Some t).

Definition mem_alloc_pages (r : saved_regs) : Z := if ecx r =? 0 then 1 else ecx r.

Lemma set_mem_same : set_mem (kmem k) (kframes k) k = k.
Proof. by destruct k. Qed.

(** [SYS_MEM_ALLOC] *)
Lemma sys_mem_alloc_ok :
  regs_u32 (regs k c) ->
  let virt := ebx (regs k c) in
  let n := mem_alloc_pages (regs k c) in
  sys_mem_alloc k c = Panicked OutOfPhysicalMemory \/
  (exists k', sys_mem_alloc k c = Ok k' /\ sys_ok idle c k k' /\
     eax (regs k' c) = 0 /\ ecx (regs k' c) = 0 /\ kmem k' = kmem k /\ sch k' = sch k) \/
  exists k' m b phys slot, sys_mem_alloc k c = Ok k' /\ sys_ok idle c k k' /\
    kmem k' = m /\ kframes k' = b /\ kimg k' = kimg k /\ user_pds k' = user_pds k /\
    eax (regs k' c) = slot /\ ecx (regs k' c) = phys /\ current (sch k') = Some c /\
    resolve_current_cap k' slot = Ok (Some (MemoryGrant phys (n * FRAME_SIZE) true, 0)) /\
    (forall j, 0 <= j < n -> ~ claimed (kframes k) (phys + j * FRAME_SIZE)) /\
    vm_kept (kimg k) (kmem k) m (kframes k) b (user_pds k) (in_range (page_dir_phys t) virt 0 n) /\
    forall va, virt <= va < virt + n * FRAME_SIZE ->
      translate m (page_dir_phys t) va = Some (Translation (phys + (va - virt)) true true).
Proof.
  intros Hr virt n. unfold sys_mem_alloc. fold (mem_alloc_pages (regs k c)). fold n virt.
  destruct Hr as (_ & Hv & Hn & _). fold virt in Hv.
  assert (N1 : 1 <= n) by (subst n; unfold mem_alloc_pages, is_u32 in *; case_match; bool_simp; lia).
  assert (F : exists k', mem_alloc_fail c k = Ok k' /\ sys_ok idle c k k' /\
     eax (regs k' c) = 0 /\ ecx (regs k' c) = 0 /\ kmem k' = kmem k /\ sch k' = sch k).
  { eexists. split; [reflexivity|]. split; [by apply sys_ok_regs, sys_ok_refl|]. cbn. by rewrite Z.eqb_refl. }
  destruct (checked_mul n FRAME_SIZE) as [len|] eqn:Bm; [|right; left; exact F].
  apply checked_mul_Some in Bm. rewrite Bm.
  destruct (negb (virt mod FRAME_SIZE =? 0) || _) eqn:Bv; [right; left; exact F|]. bool_simp.
  destruct (checked_add virt (n * FRAME_SIZE)) as [ve|] eqn:Ea; [|done].
  apply checked_add_Some in Ea. bool_simp.
  destruct (alloc_pages_ok idle k W n N1) as (b & [phys|] & -> & A).
  2: { rewrite A, set_mem_same. by right; left. }
  destruct A as (Kb & P0 & P1 & Up & Un). destruct (running_pd idle k c t W C Hc T) as [-> Hpd].
  pose proof (vm_window _ _ _ _ (kw_vm _ _ W)) as [Hw1 Hw2].
  pose proof (Z2Nat.id n ltac:(lia)) as Hnn.
  destruct (map_pages_ok (kimg k) (user_pds k) (page_dir_phys t) virt phys true Hpd ltac:(done)
    ltac:(unfold is_u32 in Hv; lia) P0 (Z.to_nat n) (kmem k) b 0
    (kept_wf _ _ _ _ _ _ _ Kb)) as [-> |(m & b' & -> & V & Tr)]; rewrite ?Hnn;
    [lia|lia|lia|intros j Hj; apply Up; lia|by left|].
  rewrite Hnn in *.
  assert (V' : vm_kept (kimg k) (kmem k) m (kframes k) b' (user_pds k)
                 (in_range (page_dir_phys t) virt 0 n))
    by (eapply vm_kept_trans; [exact Kb|exact V|by intros ? ? [[]|?]]).
  pose proof (kernel_wf_mem idle k m b' _ W V') as W1.
  assert (G : grant_ok (set_mem m b' k) phys (n * FRAME_SIZE)).
  { unfold grant_ok. cbn. replace (div_ceil (n * FRAME_SIZE) FRAME_SIZE) with n
      by (unfold div_ceil, FRAME_SIZE; dlia).
    unfold FRAME_SIZE in *. split_and!; [done|lia|lia|]. intros j Hj. by apply V, Up. }
  pose proof (kernel_wf_mint_root idle _ (MemoryGrant phys (n * FRAME_SIZE) true) W1
    ltac:(by intros ? ? ? [= <- <- <-])) as W2. cbn [mint_root fst] in W2. cbn [mint_root].
  right. right. set (k2 := set_caps _ _) in *.
  assert (Hin : in_table k2 (zlen (caps k))).
  { unfold in_table. cbn. rewrite zlen_snoc. pose proof (zlen_nonneg (caps k)). lia. }
  assert (O2 : sys_ok idle c k k2).
  { split; [done| | | |apply (kept_caps_mint_root (caps k))].
    - intros id kd Hh. left. exact (holds_caps idle (set_mem m b' k) _ id kd W1 (caps_le_mint_root k _) Hh).
    - intros kd Hf. left. exact (in_flight_caps idle (set_mem m b' k) _ kd W1 (caps_le_mint_root k _) Hf).
    - intros I. refine (isolated_alloc idle k k2 (page_dir_phys t) virt phys n W I eq_refl _ _ _ _ _); cbn [kmem set_caps set_mem k2].
      + apply V'.
      + intros va Hva. apply Tr. lia.
      + intros b0 l0 w0. unfold k2. cbn. by rewrite grant_in_snoc.
      + destruct (Up 0 ltac:(lia)) as ((f & Ef & _) & _). replace phys with (f * FRAME_SIZE) by lia. by apply Z.mod_mul.
      + exact Un. }
  destruct (sys_ok_install idle k k2 c (zlen (caps k)) (MemoryGrant phys (n * FRAME_SIZE) true) O2 C Hin)
    as (s & slot & E & O3).
  { intros kd' b0. unfold resolve, k2. cbn [caps set_caps set_mem]. rewrite zget_app_last. by intros [= <- <-]. }
  { right. right. left. split; [done|]. exists phys, n. by split_and!. }
  destruct (kernel_wf_install_for idle k2 c (zlen (caps k)) t W2 T Hin)
    as (s' & slot' & E' & W3 & C3 & _ & U3 & Ev & t' & T' & G').
  unfold current_cspace_install in *. change (current (sch k2)) with (current (sch k)) in *.
  rewrite C in *. cbn [expect] in *. rewrite E in E'. injection E' as <- <-. change (caps (set_mem m b' k)) with (caps k). rewrite E.
  eexists _, m, b', phys, slot. split; [reflexivity|]. cbn. rewrite Z.eqb_refl.
  split_and!; try done; [by apply sys_ok_regs| |intros va Hva; apply Tr; lia].
  unfold resolve_current_cap, current_cap_node.
  destruct (current_user_task idle (set_sch s k2) c W3) as (t3 & T3 & _ & _ & _ & Gt); [done|done|].
  cbn in T3, Gt. rewrite T' in T3. apply (inj Some) in T3 as <-. cbn. rewrite Gt, G'. unfold resolve.
  by rewrite zget_app_last.
Qed.
End mem_alloc.

(** ** Every syscall *)

(** Syscalls that take physical memory may find none left, which halts the kernel;
    [SYS_CREATE_TASK] reads the multiboot structures through the caller's tables. *)
Definition may_panic (num : Z) (e : panic) : Prop :=
  num = SYS_CREATE_TASK \/
  e = OutOfPhysicalMemory /\
    (num = SYS_MAP_MEMORY \/ num = SYS_MEM_ALLOC \/ num = SYS_SPAWN_FROM_MEMORY).

Definition sys_good (idle c : Z) (k : kernel) (o : res outcome) : Prop :=
  match o with
  | Panicked e => may_panic (eax (regs k c)) e
  | Ok Reset => eax (regs k c) = SYS_REBOOT /\ holds k c RebootControl
  | Ok (Returned k') => sys_ok idle c k k'
  end.

Section dispatch.
Context (idle : Z) (k : kernel) (c : Z).
Context (W : kernel_wf idle k) (C : current (sch k) = Some c) (Hc : c <> idle).
Context (Hid : next_id (sch k) < U32_MAX) (Hr : regs_u32 (regs k c)).
Let r := regs k c.

Lemma good_eax k' v : sys_ok idle c k k' -> sys_good idle c k (set_eax c v k').
Proof. intros O. unfold set_eax. cbn. by apply sys_ok_regs. Qed.

Lemma good_err v : sys_good idle c k (set_eax c v k).
Proof. by apply good_eax, sys_ok_refl. Qed.

(** [SYS_SEND]'s transfer. *)
Lemma derive_transfer_ok slot :
  exists k1 tr, derive_transfer k slot = Ok (k1, tr) /\ sys_ok idle c k k1 /\
    sch k1 = sch k /\ kipc k1 = kipc k /\ regs k1 = regs k /\
    forall n, tr = Some n -> in_table k1 n /\
      forall kd b, resolve (caps k1) n = Some (kd, b) -> holds k c kd.
Proof.
  pose proof (sys_ok_refl idle k c W) as R. unfold derive_transfer.
  destruct (slot =? 0); [by exists k, None|].
  destruct (current_node idle k c W C Hc slot) as ([n|] & -> & H); [|by exists k, None].
  destruct (H n eq_refl) as [Hin Hn]. destruct (resolve (caps k) n) as [[kd b]|] eqn:Rn; [|by exists k, None].
  destruct (mint_derived (caps k) n b) as [[nodes id]|] eqn:M; [|by exists k, None].
  destruct (kernel_wf_mint_derived idle k n b nodes id W M) as (W' & -> & Ln).
  destruct (caps_le_mint_derived k n b nodes _ M) as (L & kd' & b' & R1 & R2).
  exists (set_caps nodes k), (Some (zlen (caps k))). split_and!; try done; [by apply sys_ok_caps; [..|eapply same_grants_mint_derived|eapply kept_caps_mint_derived]|].
  intros m [= <-]. split; [unfold in_table; cbn; rewrite Ln; pose proof (zlen_nonneg (caps k)); lia|].
  intros kd2 b2 R3. cbn in R3. rewrite R2 in R3. rewrite Rn in R1. simplify_eq. by eapply Hn.
Qed.

(** A step to [k1] that gives [c] nothing new, followed by one from [k1]. *)
Lemma sys_ok_ipc_after k1 tr k' :
  sys_ok idle c k k1 -> current (sch k1) = Some c -> ipc_ok idle tr k1 k' ->
  (forall n, tr = Some n -> in_table k1 n /\ forall kd b, resolve (caps k1) n = Some (kd, b) -> holds k c kd) ->
  sys_ok idle c k k'.
Proof.
  intros [S1 S2 S3 S4 S5] C1 O H. pose proof O as [O1 O2 O3 O4 O5 O6]. destruct O4 as (Fc & _). split.
  - eapply kernel_wf_ipc; [done|done| |congruence]. intros n Hn. by apply H.
  - intros id kd Hh. destruct (holds_evolves _ _ _ _ _ Fc O3 Hh) as [?|(n & b & [Ht|Ht] & R)].
    + by apply S2.
    + destruct (S3 kd) as [?|?]; [by exists n, b|tauto|tauto].
    + destruct (H n Ht) as [_ Hk]. right. right. left. by eapply Hk.
  - intros kd (n & b & Tn & R). rewrite Fc in R. destruct (O5 _ Tn) as [Ht|Ht].
    + apply S3. by exists n, b.
    + right. destruct (H n Ht) as [_ Hk]. by eapply Hk.
  - intros I. eapply isolated_ipc; [exact S1|exact O|by apply S4].
  - by rewrite Fc.
Qed.

Lemma good_send ep :
  sys_good idle c k (let* (k1, tr) := derive_transfer k (edi r) in
    k' <- send k1 c ep (ecx r, edx r, esi r) tr c ;; Ok (Returned k')).
Proof.
  destruct (derive_transfer_ok (edi r)) as (k1 & tr & -> & S & Es & Ei & Er & H).
  pose proof (so_wf _ _ _ _ S) as W1.
  assert (C1 : current (sch k1) = Some c) by (by rewrite Es).
  destruct (send_ok k1 idle c (kw_ipc _ _ W1) (kernel_wf_idle _ _ _ W1 C1) C1 Hc ep
              (ecx r, edx r, esi r) tr) as (k' & -> & O). cbn. by eapply sys_ok_ipc_after.
Qed.

Lemma good_recv ep : sys_good idle c k (k' <- recv k c ep c ;; Ok (Returned k')).
Proof.
  destruct (recv_ok k idle c (kw_ipc _ _ W) (kernel_wf_idle _ _ _ W C) C Hc ep) as (k' & -> & O). cbn.
  by eapply sys_ok_ipc.
Qed.

Lemma good_try_recv ep : sys_good idle c k (k' <- try_recv k ep c ;; Ok (Returned k')).
Proof.
  destruct (try_recv_ok k idle c (kw_ipc _ _ W) (kernel_wf_idle _ _ _ W C) C Hc ep) as (k' & -> & O & _). cbn.
  by eapply sys_ok_ipc.
Qed.

Lemma good_exit : sys_good idle c k (k' <- exit_current k ;; Ok (Returned k')).
Proof.
  destruct (exit_current_ok k idle c (kw_ipc _ _ W) (kernel_wf_idle _ _ _ W C) C Hc) as (k' & -> & O). cbn.
  by eapply sys_ok_ipc.
Qed.

Lemma good_yield : sys_good idle c k (s <- yield_now (sch k) ;; set_eax c 0 (set_sch s k)).
Proof.
  destruct (timer_ok k idle (kw_ipc _ _ W)) as (k' & E & O). unfold timer_handler in E.
  change (yield_now (sch k)) with (tick (sch k)). destruct (tick (sch k)) as [s|]; [|done].
  injection E as <-. apply good_eax. by eapply sys_ok_ipc.
Qed.

Lemma good_register irq ep :
  sys_good idle c k (let (k', ok) := register k irq ep in set_eax c (if ok : bool then 0 else ERR) k').
Proof.
  unfold register. destruct (zget (handlers k) irq); [|apply good_err]. apply good_eax.
  split; [by apply kernel_wf_pic| | | |apply kept_caps_refl]; auto.
Qed.

Lemma resolved_grant n base len w b :
  resolve (caps k) n = Some (MemoryGrant base len w, b) -> grant_ok k base len.
Proof.
  unfold resolve. destruct (zget (caps k) n) as [e|] eqn:E; [|done].
  destruct (revoked e); [done|]. intros [= Hk _]. by eapply (kw_grants _ _ W).
Qed.

Lemma sys_ok_mem m b P :
  vm_kept (kimg k) (kmem k) m (kframes k) b (user_pds k) P -> (isolated k -> isolated (set_mem m b k)) ->
  sys_ok idle c k (set_mem m b k).
Proof.
  intros V I. split; [by eapply kernel_wf_mem| | |done|apply kept_caps_refl].
  - intros id kd Hh. by left.
  - intros kd Hf. by left.
Qed.

Lemma good_map_memory base len w n b :
  eax r = SYS_MAP_MEMORY -> resolve (caps k) n = Some (MemoryGrant base len w, b) ->
  sys_good idle c k (let* (k', v) := sys_map_memory k base (ecx r) len w in set_eax c v k').
Proof.
  intros En R. apply resolved_grant in R as G. destruct Hr as (_ & _ & Hx & _).
  destruct (current_user_task idle k c W C Hc) as (t & T & _).
  destruct (sys_map_memory_ok idle k c t W C Hc T base (ecx r) len w G Hx)
    as [-> |[-> |(m & b' & -> & _ & V & Tr)]].
  - cbn. right. split; [done|]. by left.
  - apply good_err.
  - apply good_eax. eapply sys_ok_mem; [done|]. intros I.
    assert (Gi : grant_in (caps k) base len w).
    { unfold resolve in R. destruct (zget (caps k) n) as [e|] eqn:Ez; [|done]. destruct (revoked e); [done|].
      exists n, e. split; [done|]. congruence. }
    apply (isolated_map idle k (set_mem m b' k) base len w (in_range (page_dir_phys t) (ecx r) 0 (div_ceil len FRAME_SIZE)) W I eq_refl).
    + intros pd' va _ _. unfold in_range. destruct (decide (pd' = page_dir_phys t)),
        (decide (ecx r + 0 * FRAME_SIZE <= va < ecx r + (0 + div_ceil len FRAME_SIZE) * FRAME_SIZE)); tauto.
    + intros pd va Hpd Hva Hn. by apply V.
    + intros pd va x w' Hpd [-> Hv] T'. cbn in T'. rewrite Tr in T' by lia. injection T' as <- <-. split; [done|]. unfold covers. lia.
    + intros b0 l0 w0. cbn. split; [by left|]. intros [?|(-> & -> & ->)]; done.
    + by apply (grant_in_ok idle k base len w).
    + by left.
Qed.

Lemma good_create_task :
  eax r = SYS_CREATE_TASK ->
  sys_good idle c k (let* (k', o) := spawn_from_module k (ebx r) [] in set_eax c (default 0 o) k').
Proof.
  intros En. destruct (spawn_from_module_ok idle k (ebx r) [] W Hid (List.Forall_nil _)) as [[e ->]|(k' & o & -> & S)].
  - cbn. by left.
  - apply good_eax. by eapply sys_ok_spawned.
Qed.

Lemma good_endpoint_create :
  sys_good idle c k (let (k', endpoint) := create_endpoint k c in
    let (nodes, node) := mint_root (caps k') (Endpoint endpoint) in
    let k' := set_caps nodes k' in
    let* (s, slot) := current_cspace_install (sch k') node in set_eax c slot (set_sch s k')).
Proof.
  pose proof (kernel_wf_create_endpoint idle k c W) as W1. unfold create_endpoint in *. cbn [fst] in W1.
  set (k1 := set_ipc _ k) in *. cbn [mint_root].
  pose proof (kernel_wf_mint_root idle k1 (Endpoint (zlen (endpoints (kipc k)))) W1 ltac:(done)) as W2.
  cbn [mint_root fst] in W2. set (k2 := set_caps _ k1) in *.
  assert (O : sys_ok idle c k k2).
  { split; [done| | | |apply (kept_caps_mint_root (caps k))].
    - intros id kd Hh. left. exact (holds_caps idle k1 _ id kd W1 (caps_le_mint_root k1 _) Hh).
    - intros kd Hf. left. exact (in_flight_caps idle k1 _ kd W1 (caps_le_mint_root k1 _) Hf).
    - intros I. apply (isolated_same k); [done|done| |done].
      by apply (same_grants_mint_root (caps k) (Endpoint (zlen (endpoints (kipc k))))). }
  destruct (sys_ok_install idle k k2 c (zlen (caps k)) (Endpoint (zlen (endpoints (kipc k)))) O C)
    as (s & slot & E & O').
  { unfold in_table. cbn. rewrite zlen_snoc. pose proof (zlen_nonneg (caps k)). lia. }
  { intros kd b. unfold resolve, k2. cbn [caps set_caps k1 set_ipc]. rewrite zget_app_last. by intros [= <- <-]. }
  { right. by left. }
  change (caps k1) with (caps k). rewrite E. by apply good_eax.
Qed.

Lemma good_mint_badged :
  sys_good idle c k (o <- current_cap_node k (ebx r) ;;
    match (match o with Some src => mint_derived (caps k) src (ecx r) | None => None end) with
    | Some (nodes, node) =>
        let k' := set_caps nodes k in
        let* (s, slot) := current_cspace_install (sch k') node in set_eax c slot (set_sch s k')
    | None => set_eax c ERR k
    end).
Proof.
  destruct (current_node idle k c W C Hc (ebx r)) as ([n|] & -> & H); [|apply good_err].
  destruct (mint_derived (caps k) n (ecx r)) as [[nodes id]|] eqn:M; [|apply good_err].
  destruct (kernel_wf_mint_derived idle k _ _ nodes id W M) as (W' & -> & Ln).
  destruct (caps_le_mint_derived k _ _ nodes _ M) as (L & kd & b' & R1 & R2).
  cbv zeta. destruct (sys_ok_install idle k (set_caps nodes k) c (zlen (caps k)) kd) as (s & slot & -> & O).
  - by apply sys_ok_caps; [..|eapply same_grants_mint_derived|eapply kept_caps_mint_derived].
  - done.
  - unfold in_table. cbn. rewrite Ln. pose proof (zlen_nonneg (caps k)). lia.
  - intros kd' b. cbn. rewrite R2. by intros [= <- <-].
  - left. destruct (H n eq_refl) as [_ Hk]. by eapply Hk.
  - by apply good_eax.
Qed.

Lemma good_revoke :
  sys_good idle c k (o <- current_cap_node k (ebx r) ;;
    let k' := match o with Some node => set_caps (revoke (caps k) node) k | None => k end in
    set_eax c 0 k').
Proof.
  destruct (current_node idle k c W C Hc (ebx r)) as ([n|] & -> & _); [|apply good_err].
  apply good_eax, sys_ok_caps; [done|by apply kernel_wf_revoke|by eapply caps_le_revoke|by apply same_grants_revoke, W|by apply kept_caps_revoke, W].
Qed.

Lemma good_mem_alloc :
  eax r = SYS_MEM_ALLOC -> sys_good idle c k (k' <- sys_mem_alloc k c ;; Ok (Returned k')).
Proof.
  intros En. destruct (current_user_task idle k c W C Hc) as (t & T & _).
  destruct (sys_mem_alloc_ok idle k c t W C Hc T Hr) as [-> |[(k' & -> & O & _)|(k' & m & b & p & sl & -> & O & _)]];
    [|done|done].
  cbn. right. split; [done|]. by auto.
Qed.

(** The grants [SYS_SPAWN_FROM_MEMORY] collects are the caller's. *)
Lemma collect_grants_ok l :
  exists o, collect_grants k l = Ok o /\
    forall gs, o = Some gs -> zlen gs <= zlen l /\ forall g, g ∈ gs -> exists len, grant_ok k g len.
Proof using W C Hc.
  clear Hid Hr.
  induction l as [|slot l IH]; cbn [collect_grants].
  { eexists. split; [reflexivity|]. intros gs [= <-]. split; [done|set_solver]. }
  pose proof (zlen_nonneg l). rewrite zlen_cons. destruct (slot =? 0).
  { eexists. split; [reflexivity|]. intros gs [= <-]. split; [unfold zlen in *; cbn; lia|set_solver]. }
  destruct (resolve_current idle k c W C Hc slot) as (o & -> & H1).
  destruct o as [[[e|base len w|i e|] b]|]; try (by eexists).
  destruct IH as (o & -> & H2). eexists. split; [reflexivity|].
  destruct o as [gs|]; [|done]. intros gs' [= <-]. destruct (H2 gs eq_refl) as [L G].
  rewrite zlen_cons. split; [lia|]. intros g [-> |Hg]%elem_of_cons; [|by apply G].
  exists len. destruct (H1 _ _ eq_refl) as (_ & n & _ & _ & R). by eapply resolved_grant.
Qed.

Lemma good_spawn_from_memory :
  eax r = SYS_SPAWN_FROM_MEMORY ->
  sys_good idle c k (let* (k', v) := sys_spawn_from_memory k r in set_eax c v k').
Proof.
  intros En. unfold sys_spawn_from_memory.
  destruct (collect_grants_ok [ebx r; ecx r; edx r; esi r]) as ([gs|] & -> & H); [|apply good_err].
  destruct (H gs eq_refl) as [L G]. destruct Hr as (_ & _ & _ & _ & _ & Hd & _).
  destruct (current_user_task idle k c W C Hc) as (t & T & Hin & Cr & _).
  destruct (spawn_from_memory_ok idle k gs (edi r) W Hid) as [(e & -> & He)|(k' & o & -> & S)].
  - unfold is_u32 in Hd. subst r. lia.
  - cbn. right. split; [|by auto]. apply He; [by rewrite Cr|exact L|exact G].
  - apply good_eax. by eapply sys_ok_spawned.
Qed.
End dispatch.

(** Every syscall a user task makes. *)
Lemma syscall_dispatch_good idle k c :
  kernel_wf idle k -> current (sch k) = Some c -> c <> idle ->
  next_id (sch k) < U32_MAX -> regs_u32 (regs k c) ->
  sys_good idle c k (syscall_dispatch k c).
Proof.
  intros W C Hc Hid Hr. unfold syscall_dispatch, current_id. rewrite C. cbn [expect].
  destruct (resolve_current idle k c W C Hc (ebx (regs k c))) as (o & Er & Ho).
  pose proof (good_err idle k c W) as Err. rewrite !Er.
  case_match eqn:B0; [by apply good_exit|].
  case_match eqn:B1; [by apply good_yield|].
  case_match eqn:B2; [destruct o as [[[ep|base len w|i e|] b]|]; try apply Err; by apply good_send|].
  case_match eqn:B3; [destruct o as [[[ep|base len w|i e|] b]|]; try apply Err; by apply good_recv|].
  case_match eqn:B4; [destruct o as [[[ep|base len w|i e|] b]|]; try apply Err; by apply good_try_recv|].
  case_match eqn:B5; [apply Err|].
  case_match eqn:B6; [destruct o as [[[ep|base len w|i e|] b]|]; try apply Err; by apply good_register|].
  case_match eqn:B7.
  { destruct o as [[[ep|base len w|i e|] b]|]; try apply Err.
    destruct (Ho _ _ eq_refl) as (_ & n & _ & _ & R). apply Z.eqb_eq in B7. by eapply good_map_memory. }
  case_match eqn:B8; [apply Z.eqb_eq in B8; by apply good_create_task|].
  case_match eqn:B9; [by apply good_endpoint_create|].
  case_match eqn:B10; [by apply good_mint_badged|].
  case_match eqn:B11; [by apply good_revoke|].
  case_match eqn:B12; [apply Z.eqb_eq in B12; by apply good_mem_alloc|].
  case_match eqn:B13; [apply Z.eqb_eq in B13; by apply good_spawn_from_memory|].
  case_match eqn:B14; [|apply Err]. apply Z.eqb_eq in B14.
  destruct o as [[[ep|base len w|i e|] b]|]; try apply Err. cbn. split; [done|].
  by destruct (Ho _ _ eq_refl).
Qed.

(** ** Steps *)

(** Ring-3 code stores a byte: the processor checks both levels' rights. *)
Definition user_store (k : kernel) (va v : Z) : option kernel :=
  match translate (kmem k) (cr3 (scpu (sch k))) va with
  | Some t =>
      if tr_user t && tr_writable t then
        Some (set_mem (fun x => if x =? tr_phys t then v else kmem k x) (kframes k) k)
      else None
  | None => None
  end.

(** The registers the syscall stub saved for the running task. *)
Definition enter (c : Z) (r : saved_regs) (k : kernel) : kernel := write_regs c (fun _ => r) k.

Inductive kstep (idle : Z) : kernel -> kernel -> Prop :=
| step_syscall k c r k' :
    current (sch k) = Some c -> c <> idle -> regs_u32 r -> next_id (sch k) < U32_MAX ->
    syscall_dispatch (enter c r k) c = Ok (Returned k') -> kstep idle k k'
| step_timer k k' : current (sch k) <> None -> timer_handler k = Ok k' -> kstep idle k k'
| step_keyboard k scancode k' :
    current (sch k) <> None -> keyboard_handler k scancode = Ok k' -> kstep idle k k'
| step_irq k irq k' :
    current (sch k) <> None -> 2 <= irq < 16 -> dispatch k irq 0 = Ok k' -> kstep idle k k'
| step_fault k c k' :
    current (sch k) = Some c -> c <> idle -> user_fault k = Ok k' -> kstep idle k k'
| step_store k c va v k' :
    current (sch k) = Some c -> c <> idle -> is_u32 va -> is_u8 v ->
    user_store k va v = Some k' -> kstep idle k k'.

(** A store by ring-3 code reaches a user page of the task's own mapping. *)
Lemma user_store_ok idle k c va v k' :
  kernel_wf idle k -> current (sch k) = Some c -> c <> idle -> is_u32 va -> is_u8 v ->
  user_store k va v = Some k' ->
  kernel_wf idle k' /\
  exists p, kuser_page k p /\ (forall x, ~ (p <= x < p + FRAME_SIZE) -> kmem k' x = kmem k x) /\
    forall pd w, pd ∈ user_pds k -> is_u32 w -> translate (kmem k') pd w = translate (kmem k) pd w.
Proof.
  intros W C Hc Hva Hv. unfold user_store.
  destruct (current_user_task idle k c W C Hc) as (t & T & Hin & Cr & _). rewrite Cr.
  destruct (translate (kmem k) (page_dir_phys t) va) as [tr|] eqn:E; [|done].
  destruct (tr_user tr && tr_writable tr) eqn:B; [|done]. bool_simp. intros Hk.
  apply (inj Some) in Hk as <-.
  destruct (user_translation _ _ _ _ _ _ _ (kw_vm _ _ W) Hin Hva E ltac:(done)) as (p & Up & Hp).
  set (m' := fun x : Z => _). 
  assert (M : mem_ok m').
  { intros x. unfold m'. case_match; [done|]. apply (vm_mem _ _ _ _ (kw_vm _ _ W)). }
  assert (O : forall x, ~ (p <= x < p + FRAME_SIZE) -> m' x = kmem k x).
  { intros x Hx. unfold m'. case_match; [bool_simp; lia|done]. }
  destruct (user_write _ _ _ _ p m' (kw_vm _ _ W) Up M O) as (V & U & Tr).
  split; [|by exists p]. destruct W as [W1 W2 W3 W4 W5 W6 W7 W8].
  split; try done; [by destruct W1; split|].
  intros i n base len w Hi Hk. destruct (W8 _ _ _ _ _ Hi Hk) as (? & ? & ? & G).
  split_and!; [done|done|done|]. intros j Hj. by apply U, G.
Qed.

(** The byte a store changes. *)
Lemma user_store_reaches idle k c t va v k' :
  kernel_wf idle k -> current (sch k) = Some c -> c <> idle -> task_of (sch k) c = Some t ->
  is_u32 va -> is_u8 v -> user_store k va v = Some k' ->
  exists x, reaches k (page_dir_phys t) va x true /\ kmem k' x = v /\
    (forall y, y <> x -> kmem k' y = kmem k y) /\
    forall p va', p ∈ user_pds k -> is_u32 va' -> translate (kmem k') p va' = translate (kmem k) p va'.
Proof.
  intros W C Hc T Hva Hv E. destruct (user_store_ok idle k c va v k' W C Hc Hva Hv E) as (_ & _ & _ & _ & Tr).
  destruct (current_user_task idle k c W C Hc) as (t' & T' & Hin & Cr & _).
  rewrite T in T'. apply (inj Some) in T' as <-. unfold user_store in E. rewrite Cr in E.
  destruct (translate (kmem k) (page_dir_phys t) va) as [[x u w]|] eqn:Et; [|done]. cbn in E.
  destruct (u && w) eqn:B; [|done]. bool_simp. subst. apply (inj Some) in E as <-.
  exists x. split; [done|]. cbn. rewrite Z.eqb_refl. split_and!; [done| |done].
  intros y Hy. by replace (y =? x) with false by lia.
Qed.

(** The invariant is inductive. *)
Lemma kernel_wf_step idle : preserved (kstep idle) (kernel_wf idle).
Proof.
  intros k k' W H. destruct H as [k c r k' C Hc Hr Hid E|k k' C E|k sc k' C E|k irq k' C Hi E|k c k' C Hc E|k c va v k' C Hc Hva Hv E].
  - pose proof (syscall_dispatch_good idle (enter c r k) c (kernel_wf_regs _ _ _ W) C Hc Hid) as G.
    rewrite E in G. apply G. cbn. by rewrite Z.eqb_refl.
  - destruct (timer_ok k idle (kw_ipc _ _ W)) as (k2 & E2 & O). rewrite E in E2. injection E2 as <-.
    by eapply kernel_wf_ipc.
  - destruct (keyboard_ok k idle sc (kw_ipc _ _ W)) as (k2 & E2 & O & _). rewrite E in E2. injection E2 as <-.
    by eapply kernel_wf_ipc.
  - destruct (dispatch_ok k idle irq 0 (kw_ipc _ _ W)) as (k2 & E2 & O & _). rewrite E in E2. injection E2 as <-.
    by eapply kernel_wf_ipc.
  - destruct (exit_current_ok k idle c (kw_ipc _ _ W) (kernel_wf_idle _ _ _ W C) C Hc) as (k2 & E2 & O).
    unfold user_fault in E. rewrite E in E2. injection E2 as <-. eapply kernel_wf_ipc; [done|done|done|congruence].
  - by eapply user_store_ok.
Qed.

Lemma kernel_wf_steps idle k k' :
  steps (kstep idle) k k' -> kernel_wf idle k -> kernel_wf idle k'.
Proof. intros H. induction H; [done|]. intros W. apply IHsteps. by eapply kernel_wf_step. Qed.

(** Isolation is inductive too, and capabilities stay what they are. *)
Lemma kstep_isolated idle k k' :
  kernel_wf idle k -> kstep idle k k' -> (isolated k -> isolated k') /\ kept_caps (caps k) (caps k').
Proof.
  intros W H.
  assert (Ipc : forall k2, ipc_ok idle None k k2 -> (isolated k -> isolated k2) /\ kept_caps (caps k) (caps k2)).
  { intros k2 O. split; [by eapply isolated_ipc|]. destruct (ok_frame _ _ _ _ O) as (-> & _). apply kept_caps_refl. }
  destruct H as [k c r k' C Hc Hr Hid E|k k' C E|k sc k' C E|k irq k' C Hi E|k c k' C Hc E|k c va v k' C Hc Hva Hv E].
  - pose proof (syscall_dispatch_good idle (enter c r k) c (kernel_wf_regs _ _ _ W) C Hc Hid) as G.
    rewrite E in G. destruct G as [_ _ _ G1 G2]; [cbn; by rewrite Z.eqb_refl|]. by split.
  - destruct (timer_ok k idle (kw_ipc _ _ W)) as (k2 & E2 & O). rewrite E in E2. injection E2 as <-. auto.
  - destruct (keyboard_ok k idle sc (kw_ipc _ _ W)) as (k2 & E2 & O & _). rewrite E in E2. injection E2 as <-. auto.
  - destruct (dispatch_ok k idle irq 0 (kw_ipc _ _ W)) as (k2 & E2 & O & _). rewrite E in E2. injection E2 as <-. auto.
  - destruct (exit_current_ok k idle c (kw_ipc _ _ W) (kernel_wf_idle _ _ _ W C) C Hc) as (k2 & E2 & O).
    unfold user_fault in E. rewrite E in E2. injection E2 as <-. auto.
  - destruct (user_store_ok idle k c va v k' W C Hc Hva Hv E) as (_ & p & _ & _ & Tr).
    unfold user_store in E. destruct (translate _ _ _); [|done]. case_match; [|done].
    apply (inj Some) in E as <-. split; [|apply kept_caps_refl].
    intros I. by apply (isolated_same k); [| |apply same_grants_refl|].
Qed.

Lemma kept_caps_steps idle k k' :
  steps (kstep idle) k k' -> kernel_wf idle k -> kept_caps (caps k) (caps k').
Proof.
  intros H. induction H as [|k1 k2 k3 S _ IH]; [intros _; apply kept_caps_refl|]. intros W.
  eapply kept_caps_trans; [by eapply kstep_isolated|]. apply IH. by eapply kernel_wf_step.
Qed.

Lemma isolated_steps idle k k' :
  steps (kstep idle) k k' -> kernel_wf idle k -> isolated k -> isolated k'.
Proof.
  intros H. induction H as [|k1 k2 k3 S _ IH]; [done|]. intros W I.
  apply IH; [by eapply kernel_wf_step|by eapply kstep_isolated].
Qed.

(** One step moves authority only along capabilities. *)
Lemma kstep_authority idle k k' :
  kernel_wf idle k -> kstep idle k k' ->
  (forall id kd, holds k' id kd -> holds k id kd \/ in_flight k kd \/
     exists c, current (sch k) = Some c /\ (holds k c kd \/ new_kind k c id kd)) /\
  (forall kd, in_flight k' kd -> in_flight k kd \/
     exists c, current (sch k) = Some c /\ holds k c kd).
Proof.
  intros W H.
  assert (Ipc : forall k2, ipc_ok idle None k k2 ->
    (forall id kd, holds k2 id kd -> holds k id kd \/ in_flight k kd) /\
    (forall kd, in_flight k2 kd -> in_flight k kd)).
  { intros k2 [O1 O2 O3 O4 O5 O6]. destruct O4 as (Fc & _). split.
    - intros id kd Hh. destruct (holds_evolves _ _ _ _ _ Fc O3 Hh) as [?|(n & b & [Ht|Ht] & R)]; [by left| |done].
      right. by exists n, b.
    - intros kd (n & b & Tn & R). rewrite Fc in R. destruct (O5 _ Tn) as [Ht|Ht]; [|done]. by exists n, b. }
  destruct H as [k c r k' C Hc Hr Hid E|k k' C E|k sc k' C E|k irq k' C Hi E|k c k' C Hc E|k c va v k' C Hc Hva Hv E].
  - pose proof (syscall_dispatch_good idle (enter c r k) c (kernel_wf_regs _ _ _ W) C Hc Hid) as G.
    rewrite E in G. destruct G as [_ G1 G2 _ _]; [cbn; by rewrite Z.eqb_refl|]. split.
    + intros id kd Hh. destruct (G1 id kd Hh) as [?|[?|?]]; [by left|by right; left|]. right. right. by exists c.
    + intros kd Hf. destruct (G2 kd Hf) as [?|?]; [by left|]. right. by exists c.
  - destruct (timer_ok k idle (kw_ipc _ _ W)) as (k2 & E2 & O). rewrite E in E2. injection E2 as <-.
    destruct (Ipc _ O) as [I1 I2]. split; [intros id kd Hh; destruct (I1 id kd Hh)|intros kd Hf; left]; auto.
  - destruct (keyboard_ok k idle sc (kw_ipc _ _ W)) as (k2 & E2 & O & _). rewrite E in E2. injection E2 as <-.
    destruct (Ipc _ O) as [I1 I2]. split; [intros id kd Hh; destruct (I1 id kd Hh)|intros kd Hf; left]; auto.
  - destruct (dispatch_ok k idle irq 0 (kw_ipc _ _ W)) as (k2 & E2 & O & _). rewrite E in E2. injection E2 as <-.
    destruct (Ipc _ O) as [I1 I2]. split; [intros id kd Hh; destruct (I1 id kd Hh)|intros kd Hf; left]; auto.
  - destruct (exit_current_ok k idle c (kw_ipc _ _ W) (kernel_wf_idle _ _ _ W C) C Hc) as (k2 & E2 & O).
    unfold user_fault in E. rewrite E in E2. injection E2 as <-.
    destruct (Ipc _ O) as [I1 I2]. split; [intros id kd Hh; destruct (I1 id kd Hh)|intros kd Hf; left]; auto.
  - unfold user_store in E. destruct (translate _ _ _); [|done]. case_match; [|done].
    apply (inj Some) in E as <-. split; [intros id kd Hh; by left|intros kd Hf; by left].
Qed.

(** Nobody holds or carries a capability of a kind in [P]. *)
Definition nobody_has (P : cap_kind -> Prop) (k : kernel) : Prop :=
  forall kd, P kd -> (forall id, ~ holds k id kd) /\ ~ in_flight k kd.

(** Control of interrupt lines and of the machine cannot be made out of nothing. *)
Definition control (kd : cap_kind) : Prop :=
  match kd with IrqControl _ _ => True | RebootControl => True | _ => False end.

Lemma nobody_has_step idle P k k' :
  (forall kd, P kd -> control kd) -> kernel_wf idle k -> kstep idle k k' ->
  nobody_has P k -> nobody_has P k'.
Proof.
  intros Pc W H N kd Hp. destruct (N kd Hp) as [N1 N2].
  destruct (kstep_authority idle k k' W H) as [A1 A2]. split.
  - intros id Hh. destruct (A1 id kd Hh) as [?|[?|(c & _ & [?|Nk])]]; [by eapply N1|done|by eapply N1|].
    apply Pc in Hp. destruct Nk as [[_ ->]|[(_ & b & n & -> & _)|(_ & ns & _ & ->)]]; done.
  - intros Hf. destruct (A2 kd Hf) as [?|(c & _ & ?)]; [done|by eapply N1].
Qed.

Lemma nobody_has_steps idle P k k' :
  (forall kd, P kd -> control kd) -> steps (kstep idle) k k' -> kernel_wf idle k ->
  nobody_has P k -> nobody_has P k'.
Proof.
  intros Pc H. induction H as [|k1 k2 k3 S _ IH]; [done|]. intros W N.
  apply IH; [by eapply kernel_wf_step|by eapply nobody_has_step].
Qed.

(** ** Theorems *)

(** C3: whatever registers ring-3 code makes a syscall with, the kernel ends in a
    well-formed state, or resets the machine for a task that holds [RebootControl], or
    stops.  It stops when the kernel heap refuses an allocation, in the calls that make
    one; when no physical memory is left for a page table, in the three calls that map;
    and in [SYS_CREATE_TASK], which may also find the multiboot structures unmapped. *)
Theorem syscall_outcomes idle heap_ok k c :
  kernel_wf idle k -> current (sch k) = Some c -> c <> idle ->
  next_id (sch k) < U32_MAX -> regs_u32 (regs k c) ->
  match syscall_with_heap heap_ok k c with
  | Ok (Returned k') => kernel_wf idle k'
  | Ok Reset => eax (regs k c) = SYS_REBOOT /\ holds k c RebootControl
  | Panicked e =>
      e = OutOfHeap /\ heap_ok = false /\ takes_heap (eax (regs k c)) = true \/
      eax (regs k c) = SYS_CREATE_TASK \/
      e = OutOfPhysicalMemory /\
        (eax (regs k c) = SYS_MAP_MEMORY \/ eax (regs k c) = SYS_MEM_ALLOC \/
         eax (regs k c) = SYS_SPAWN_FROM_MEMORY)
  end.
Proof.
  intros W C Hc Hid Hr. unfold syscall_with_heap.
  destruct (takes_heap _ && negb heap_ok) eqn:B.
  { left. apply andb_true_iff in B as [-> B]. by destruct heap_ok. }
  pose proof (syscall_dispatch_good idle k c W C Hc Hid Hr) as G.
  destruct (syscall_dispatch k c) as [[k'|]|e]; [apply G|exact G|right; exact G].
Qed.

(** C2: authority moves only along capabilities.  If a task holds a capability of some
    kind after a step, it held one before, or one was travelling in a blocked send, or the
    running task held one to give, or the step made it: a fresh endpoint or writable memory
    for the running task itself, every frame of it free in the frame allocator before (so
    no kernel, table or user page), or the name service's endpoint for a task that did not
    exist before.  A blocked send carries nothing its sender did not hold. *)
Theorem authority_confined idle k k' :
  kernel_wf idle k -> kstep idle k k' ->
  (forall id kd, holds k' id kd -> holds k id kd \/ in_flight k kd \/
     exists c, current (sch k) = Some c /\ (holds k c kd \/ new_kind k c id kd)) /\
  (forall kd, in_flight k' kd -> in_flight k kd \/
     exists c, current (sch k) = Some c /\ holds k c kd).
Proof. apply kstep_authority. Qed.

(** C25: [SYS_MEM_ALLOC] that succeeds maps pages nobody had: none was a user page of any
    task, the caller's range translates to them writable, every other address of every
    task translates as before, and the returned slot is a grant of exactly them. *)
Theorem mem_alloc_correct idle k c t k' :
  kernel_wf idle k -> current (sch k) = Some c -> c <> idle -> task_of (sch k) c = Some t ->
  regs_u32 (regs k c) -> sys_mem_alloc k c = Ok k' -> eax (regs k' c) <> 0 ->
  let virt := ebx (regs k c) in
  let n := mem_alloc_pages (regs k c) in
  let phys := ecx (regs k' c) in
  resolve_current_cap k' (eax (regs k' c)) = Ok (Some (MemoryGrant phys (n * FRAME_SIZE) true, 0)) /\
  (forall q j, kuser_page k q -> 0 <= j < n -> q <> phys + j * FRAME_SIZE) /\
  (forall va, virt <= va < virt + n * FRAME_SIZE ->
     translate (kmem k') (page_dir_phys t) va = Some (Translation (phys + (va - virt)) true true)) /\
  (forall pd va, pd ∈ user_pds k -> is_u32 va ->
     ~ (pd = page_dir_phys t /\ virt <= va < virt + n * FRAME_SIZE) ->
     translate (kmem k') pd va = translate (kmem k) pd va).
Proof.
  intros W C Hc T Hr E Hs virt n phys.
  destruct (sys_mem_alloc_ok idle k c t W C Hc T Hr) as [E2|[(k2 & E2 & _ & Z & _)|H]].
  - congruence.
  - rewrite E in E2. injection E2 as <-. done.
  - destruct H as (k2 & m & b & p & sl & E2 & _ & Em & _ & _ & _ & Es & Ep & _ & R & N & V & Tr).
    rewrite E in E2. injection E2 as <-. subst phys. rewrite Es, Ep, Em. split_and!; try done.
    { intros q j [Cq _] Hj ->. by apply (N j Hj). }
    intros pd va Hpd Hva Hn. apply (kept_tr _ _ _ _ _ _ _ V); [done|done|].
    intros [-> H]. apply Hn. split; [done|]. fold virt n in H. lia.
Qed.

(** [SYS_MAP_MEMORY] of a grant the caller holds either refuses and changes nothing
    (also when the kernel half would be reached), finds no memory for a table, or maps
    exactly the grant's pages at the address asked for, with the grant's own rights, in
    the caller's address space only. *)
Theorem map_memory_correct idle k c t slot base len w b virt :
  kernel_wf idle k -> current (sch k) = Some c -> c <> idle -> task_of (sch k) c = Some t ->
  resolve_current_cap k slot = Ok (Some (MemoryGrant base len w, b)) -> is_u32 virt ->
  sys_map_memory k base virt len w = Panicked OutOfPhysicalMemory \/
  sys_map_memory k base virt len w = Ok (k, ERR) \/
  exists k', sys_map_memory k base virt len w = Ok (k', 0) /\ virt + len <= KERNEL_VMA /\
    (forall va, virt <= va < virt + div_ceil len FRAME_SIZE * FRAME_SIZE ->
       translate (kmem k') (page_dir_phys t) va = Some (Translation (base + (va - virt)) true w)) /\
    (forall pd va, pd ∈ user_pds k -> is_u32 va ->
       ~ (pd = page_dir_phys t /\ virt <= va < virt + div_ceil len FRAME_SIZE * FRAME_SIZE) ->
       translate (kmem k') pd va = translate (kmem k) pd va).
Proof.
  intros W C Hc T R Hv. destruct (resolve_current idle k c W C Hc slot) as (o & E & H).
  rewrite R in E. injection E as <-. destruct (H _ _ eq_refl) as (_ & n & _ & _ & Rn).
  pose proof (resolved_grant idle k W n base len w b Rn) as G.
  destruct (sys_map_memory_ok idle k c t W C Hc T base virt len w G Hv) as [?|[?|(m & b' & E & L & V & Tr)]];
    [by left|by right; left|].
  right. right. exists (set_mem m b' k). split_and!; try done. cbn.
  intros pd va Hpd Hva Hn. apply (kept_tr _ _ _ _ _ _ _ V); [done|done|].
  intros [-> H2]. apply Hn. split; [done|]. lia.
Qed.

(** [SYS_CREATE_TASK] by a task whose address space does not map the page the
    multiboot information lies in stops the whole kernel with a page fault: the loader
    reads that information through the caller's page tables. *)
Theorem create_task_faults k c :
  current (sch k) = Some c -> eax (regs k c) = SYS_CREATE_TASK ->
  translate (kmem k) (cr3 (scpu (sch k))) (mb_info k) = None ->
  syscall_dispatch k c = Panicked KernelPageFault.
Proof.
  intros C E T. unfold syscall_dispatch, current_id. rewrite C. cbn [expect]. rewrite E.
  cbn -[spawn_from_module]. unfold spawn_from_module, module, kread32. by rewrite T.
Qed.

(** C26: [SYS_SPAWN_FROM_MEMORY] runs what its grants contain.  When the spawn succeeds,
    the new task's code region reads, byte for byte, as the granted pages did; every page
    its code can reach lies in a frame that was free before the call, so none of them is a
    granted page; it has a four-page stack; and it starts at the first byte of the image
    with its stack pointer at the top. *)
Theorem spawned_program_is_the_grants idle k c s1 s2 s3 s4 grants total_len k' id :
  kernel_wf idle k -> current (sch k) = Some c -> c <> idle -> next_id (sch k) < U32_MAX ->
  is_u32 total_len -> collect_grants k [s1; s2; s3; s4] = Ok (Some grants) ->
  spawn_from_memory k grants total_len = Ok (k', Some id) ->
  exists t, task_of (sch k') id = Some t /\
    stack t = stack (new_user id USER_CODE_BASE USER_STACK_TOP (page_dir_phys t) []) /\
    (forall off, 0 <= off < total_len ->
       exists g phys, zget grants (off / FRAME_SIZE) = Some g /\
         translate (kmem k') (page_dir_phys t) (USER_CODE_BASE + off) = Some (Translation phys true true) /\
         kmem k' phys = kmem k (g + off mod FRAME_SIZE)) /\
    (forall va phys w, is_u32 va ->
       translate (kmem k') (page_dir_phys t) va = Some (Translation phys true w) ->
       ~ claimed (kframes k) (frame_base phys)) /\
    (forall va, USER_STACK_TOP - 4 * FRAME_SIZE <= va < USER_STACK_TOP ->
       exists phys, translate (kmem k') (page_dir_phys t) va = Some (Translation phys true true)).
Proof.
  intros W C Hc Hid Ht Ec E.
  destruct (collect_grants_ok idle k c W C Hc [s1; s2; s3; s4]) as (o & Eo & G).
  rewrite Ec in Eo. injection Eo as <-. destruct (G grants eq_refl) as [L Gr].
  change (zlen [s1; s2; s3; s4]) with 4 in L.
  unfold spawn_from_memory in E.
  destruct ((zlen grants =? 0) || (total_len =? 0) || (zlen grants * FRAME_SIZE <? total_len)) eqn:B; [done|].
  bool_simp. destruct (current_user_task idle k c W C Hc) as (tc & _ & Hin & Cr & _).
  assert (Zr : forall off, 0 <= off < total_len -> 0 <= off / FRAME_SIZE < zlen grants).
  { intros off Ho. unfold FRAME_SIZE in *. dlia. }
  destruct (spawn_with_code_pages_bytes idle k total_len
    (fun i => expect IndexOutOfBounds (zget grants i)) [] W Hid ltac:(constructor)) with (k' := k') (id := id)
    as (t & T & St & Hb & Hs & Fr); [| | |exact E|].
  - unfold is_u32, USER_STACK_TOP, USER_CODE_BASE, FRAME_SIZE in *. lia.
  - left. by rewrite Cr.
  - intros i Hi src Es. destruct (zget grants i) as [g|] eqn:Eg; [|done]. injection Es as <-.
    apply zget_lookup in Eg as [_ Eg]. apply list_elem_of_lookup_2 in Eg.
    destruct (Gr g Eg) as (len & G1 & G2 & G3 & G4).
    assert (1 <= div_ceil len FRAME_SIZE) by (unfold div_ceil, FRAME_SIZE; dlia).
    specialize (G4 0 ltac:(lia)). replace (g + 0 * FRAME_SIZE) with g in G4 by lia.
    split_and!; [done|done|]. unfold FRAME_SIZE in *. lia.
  - exists t. split_and!; [done|done| |exact Fr|].
    + intros off Ho. destruct (Hb off Ho) as (phys & _ & Tr & B2).
      destruct (zget_in_range grants (off / FRAME_SIZE) (Zr off Ho)) as [g Hg].
      exists g, (phys + (USER_CODE_BASE + off) mod FRAME_SIZE). split_and!; [done|done|].
      rewrite B2. unfold image_byte. replace (off <? total_len) with true by lia. by rewrite Hg.
    + intros va Hva. destruct (Hs va Hva) as (v & phys & _ & Tr & _). eauto.
Qed.
