(* ===== verification/Pci.v ===== *)
(** * PCI enumeration (kernel/src/pci.rs)

    Configuration space is behind ports 0xCF8/0xCFC: the device side is a
    parameter [cfg], the dword a read of an address returns.  Theorems: the
    address the code builds names exactly one register of one function, and
    [find_device] returns the first function, in scan order, whose identifiers
    match, or [None] when the scan meets none. *)

From stdpp Require Import base list numbers.
From Stdlib Require Import Lia.
From S2P Require Import Prelude.
Open Scope Z_scope.

(** [struct PciDevice] *)
Record pci_device := PciDevice {
  bus : Z; device : Z; function_ : Z; vendor_id : Z; device_id : Z
}.

(** [config_address] *)
Definition config_address (bus device function_ offset : Z) : Z :=
  Z.lor (Z.lor (Z.lor (Z.lor 0x80000000 (Z.shiftl bus 16)) (Z.shiftl device 11))
           (Z.shiftl function_ 8)) (Z.land offset 0xFC).

Section device_side.
Context (cfg : Z -> Z).

(** [read_config_dword] *)
Definition read_config_dword (bus device function_ offset : Z) : Z :=
  cfg (config_address bus device function_ offset).

(** [PciDevice::bar0] *)
Definition bar0 (d : pci_device) : Z := read_config_dword (bus d) (device d) (function_ d) 0x10.

(** [PciDevice::interrupt_line] *)
Definition interrupt_line (d : pci_device) : Z :=
  Z.land (read_config_dword (bus d) (device d) (function_ d) 0x3C) 0xFF.

(** [PciDevice::enable]: the write it makes, as the address and the dword. *)
Definition enable (d : pci_device) : Z * Z :=
  let command_status := read_config_dword (bus d) (device d) (function_ d) 0x04 in
  (config_address (bus d) (device d) (function_ d) 0x04, Z.lor command_status 0x0005).

Definition BUS : Z := 0.

(** The identifiers a function reports. *)
Definition ids_at (device function_ : Z) : Z * Z :=
  let v := read_config_dword BUS device function_ 0x00 in
  (Z.land v 0xFFFF, wrap16 (Z.shiftr v 16)).

(** The inner loop of [find_device], over functions [function_ ..]. *)
Fixpoint find_function (n : nat) (vendor dev device function_ : Z) : option pci_device :=
  match n with
  | O => None
  | S n' =>
      let (f_vendor, f_device) := ids_at device function_ in
      if f_vendor =? 0xFFFF then find_function n' vendor dev device (function_ + 1)
      else if (f_vendor =? vendor) && (f_device =? dev)
      then Some (PciDevice BUS device function_ vendor dev)
      else find_function n' vendor dev device (function_ + 1)
  end.

(** The outer loop, over devices [device ..]. *)
Fixpoint find_from (n : nat) (vendor dev device : Z) : option pci_device :=
  match n with
  | O => None
  | S n' =>
      let (vendor0, device0) := ids_at device 0 in
      if vendor0 =? 0xFFFF then find_from n' vendor dev (device + 1)
      else if (vendor0 =? vendor) && (device0 =? dev)
      then Some (PciDevice BUS device 0 vendor dev)
      else
        let header_type := wrap8 (Z.shiftr (read_config_dword BUS device 0 0x0C) 16) in
        if Z.land header_type 0x80 =? 0 then find_from n' vendor dev (device + 1)
        else
          match find_function 7 vendor dev device 1 with
          | Some d => Some d
          | None => find_from n' vendor dev (device + 1)
          end
  end.

(** [find_device] *)
Definition find_device (vendor dev : Z) : option pci_device := find_from 32 vendor dev 0.

(** ** What the scan sees *)

(** Functions 1 to 7 exist only on a multi-function device. *)
Definition multi_function (device : Z) : bool :=
  negb (Z.land (wrap8 (Z.shiftr (read_config_dword BUS device 0 0x0C) 16)) 0x80 =? 0).

(** A present function with the wanted identifiers. *)
Definition hit (vendor dev : Z) (df : Z * Z) : bool :=
  let (v, e) := ids_at (fst df) (snd df) in
  negb (v =? 0xFFFF) && ((v =? vendor) && (e =? dev)).

(** The functions of [device], in the order they are probed. *)
Definition functions_of (device : Z) : list (Z * Z) :=
  if fst (ids_at device 0) =? 0xFFFF then []
  else (device, 0) :: (if multi_function device then map (fun f => (device, f)) (seqZ 1 7) else []).

Definition found (vendor dev : Z) (df : Z * Z) : pci_device :=
  PciDevice BUS (fst df) (snd df) vendor dev.

(** ** Lemmas *)

Lemma find_function_eq n vendor dev d f :
  find_function n vendor dev d f =
  found vendor dev <$> List.find (hit vendor dev) (map (fun g => (d, g)) (seqZ f (Z.of_nat n))).
Proof.
  revert f. induction n as [|n IH]; intros f; [done|].
  rewrite seqZ_cons by lia. cbn [find_function map List.find]. unfold hit at 1. cbn [fst snd].
  replace (Z.pred (Z.of_nat (S n))) with (Z.of_nat n) by lia. rewrite <- Z.add_1_r.
  destruct (ids_at d f) as [v e]. rewrite IH.
  destruct (v =? 0xFFFF); [done|]. cbn [negb andb]. by destruct ((v =? vendor) && (e =? dev)).
Qed.

Lemma find_app {A} (p : A -> bool) l1 l2 :
  List.find p (l1 ++ l2) =
  match List.find p l1 with Some x => Some x | None => List.find p l2 end.
Proof. induction l1 as [|x l1 IH]; [done|]. cbn. by destruct (p x). Qed.

Lemma find_from_eq n vendor dev d :
  find_from n vendor dev d =
  found vendor dev <$> List.find (hit vendor dev) (flat_map functions_of (seqZ d (Z.of_nat n))).
Proof.
  revert d. induction n as [|n IH]; intros d; [done|].
  rewrite seqZ_cons by lia. cbn [find_from flat_map]. rewrite find_app.
  replace (Z.pred (Z.of_nat (S n))) with (Z.of_nat n) by lia. rewrite <- Z.add_1_r.
  unfold functions_of at 1. destruct (ids_at d 0) as [v e] eqn:E. cbn [fst].
  rewrite IH. destruct (v =? 0xFFFF) eqn:B; [done|]. cbn [List.find].
  assert (H : hit vendor dev (d, 0) = (v =? vendor) && (e =? dev))
    by (unfold hit; cbn [fst snd]; by rewrite E, B).
  rewrite H.
  destruct ((v =? vendor) && (e =? dev)); [done|]. unfold multi_function.
  destruct (Z.land _ 0x80 =? 0); cbn [negb List.find]; [done|].
  change 7%nat with (Z.to_nat 7). rewrite find_function_eq. change (Z.of_nat (Z.to_nat 7)) with 7.
  by destruct (List.find _ (map _ _)).
Qed.
End device_side.

Lemma land_fc o : 0 <= o < 256 -> Z.land o 0xFC = o / 4 * 4.
Proof.
  intros Ho. replace (o / 4 * 4) with (Z.shiftl (Z.shiftr o 2) 2)
    by (rewrite Z.shiftl_mul_pow2, Z.shiftr_div_pow2 by lia; done).
  apply Z.bits_inj'. intros i Hi. rewrite Z.land_spec, Z.shiftl_spec by done.
  destruct (decide (i < 2)).
  - rewrite (Z.testbit_neg_r _ (i - 2)) by lia.
    assert (i = 0 \/ i = 1) as [-> | ->] by lia; apply andb_false_r.
  - rewrite Z.shiftr_spec by lia. replace (i - 2 + 2) with i by lia.
    destruct (decide (i < 8)); [|by rewrite (testbit_high o 8) by lia].
    assert (E : Z.testbit 0xFC i = true) by
      (assert (i = 2 \/ i = 3 \/ i = 4 \/ i = 5 \/ i = 6 \/ i = 7) as Hi6 by lia;
       by repeat destruct Hi6 as [-> |Hi6]; try rewrite Hi6).
    rewrite E. apply andb_true_r.
Qed.

(** ** Theorems *)

(** [find_device] is a search of bus 0 in probe order (function 0 of every device
    that answers, functions 1 to 7 of the multi-function ones): it returns the first
    function with the wanted identifiers, and [None] only when no probed function
    has them. *)
Theorem find_device_first cfg vendor dev :
  find_device cfg vendor dev =
  found vendor dev <$> List.find (hit cfg vendor dev) (flat_map (functions_of cfg) (seqZ 0 32)).
Proof. apply find_from_eq. Qed.

(** a configuration address names one register: bus, device, function and dword
    offset are read back from its bits, whatever they are. *)
Theorem config_address_fields b d f o :
  is_u8 b -> 0 <= d < 32 -> 0 <= f < 8 -> is_u8 o ->
  let a := config_address b d f o in
  is_u32 a /\ Z.testbit a 31 = true /\ Z.land (Z.shiftr a 16) 0xFF = b /\
  Z.land (Z.shiftr a 11) 0x1F = d /\ Z.land (Z.shiftr a 8) 0x7 = f /\
  Z.land a 0xFF = o / 4 * 4.
Proof.
  intros Hb Hd Hf Ho a. unfold is_u8 in *.
  assert (Ea : a = 2 ^ 31 + b * 2 ^ 16 + d * 2 ^ 11 + f * 2 ^ 8 + o / 4 * 4).
  { subst a. unfold config_address. rewrite !Z.shiftl_mul_pow2, land_fc by lia.
    rewrite (lor_disjoint _ (b * 2 ^ 16) 31), (lor_disjoint _ (d * 2 ^ 11) 16),
      (lor_disjoint _ (f * 2 ^ 8) 11), (lor_disjoint _ (o / 4 * 4) 8); try lia; dlia. }
  split_and!.
  - unfold is_u32. rewrite Ea. dlia.
  - rewrite Z.testbit_true by lia. rewrite Ea. dlia.
  - change 0xFF with (Z.ones 8). rewrite Z.land_ones, Z.shiftr_div_pow2 by lia. rewrite Ea. dlia.
  - change 0x1F with (Z.ones 5). rewrite Z.land_ones, Z.shiftr_div_pow2 by lia. rewrite Ea. dlia.
  - change 0x7 with (Z.ones 3). rewrite Z.land_ones, Z.shiftr_div_pow2 by lia. rewrite Ea. dlia.
  - change 0xFF with (Z.ones 8). rewrite Z.land_ones by lia. rewrite Ea. dlia.
Qed.

Lemma config_address_fields_witness :
  let a := config_address 0 3 1 0x3D in
  is_u32 a /\ Z.testbit a 31 = true /\ Z.land (Z.shiftr a 16) 0xFF = 0 /\
  Z.land (Z.shiftr a 11) 0x1F = 3 /\ Z.land (Z.shiftr a 8) 0x7 = 1 /\
  Z.land a 0xFF = 0x3D / 4 * 4.
Proof. apply (config_address_fields 0 3 1 0x3D); unfold is_u8; lia. Defined.
