(* ===== verification/Boot.v ===== *)
(** * Booting the system (kernel/src/main.rs)

    [kernel_main] of the production build from the point where memory is sized
    to [scheduler::start]: the allocators, the smoke test, the servers with the
    capabilities each is given, the idle task.  A debug build differs in its
    [debug_assert]s, so [debug] is a parameter.  Theorems: the state boot ends
    in satisfies the kernel invariant, who holds which capability in it, no
    debug assertion can fail, and what the order of the first steps means for
    the modules. *)

From stdpp Require Import base list numbers sets.
From Stdlib Require Import Lia.
From S2P Require Import Prelude Cap Hw Sched Frame Paging Ipc Loader Syscall KernelInv Kernel Pci.
Open Scope Z_scope.

Definition assert_ (cond : bool) : res unit := if cond then Ok tt else Panicked AssertionFailed.

(** [frame_and_paging_smoke_test] *)
Definition frame_and_paging_smoke_test (m : mem) (b : bitmap) (boot_pd : Z) : res (mem * bitmap) :=
  let* (b, f1) := alloc_or_panic b in
  let* (b, f2) := alloc_or_panic b in
  _ <- assert_ (negb (f1 =? f2)) ;;
  b <- free_frame b f1 ;;
  let* (b, f3) := alloc_or_panic b in
  _ <- assert_ (f3 =? f1) ;;
  b <- free_frame b f2 ;;
  b <- free_frame b f3 ;;
  let* (m, b, _) := page_directory_new m b boot_pd in
  Ok (m, b).

(** [kernel_main] from [total_memory_bytes] to [reserve_all_modules]: memory, the
    bitmap and the number of window entries. *)
Definition boot_memory (m : mem) (boot_pd kernel_end raw : Z) : res (mem * bitmap * Z) :=
  total <- total_memory_bytes m boot_pd raw ;;
  total_memory <- expect NotInitialised total ;;
  b <- frame_init kernel_end total_memory ;;
  m <- paging_init m boot_pd total_memory ;;
  let* (m, b) := frame_and_paging_smoke_test m b boot_pd in
  b <- reserve_all_modules m b boot_pd raw ;;
  Ok (m, b, div_ceil total_memory (4 * 1024 * 1024)).

(** The statics before the first task. *)
Definition boot_kernel (m : mem) (b : bitmap) (lo kernel_end boot_pd entries raw : Z) : kernel :=
  Kernel [] (sched_init boot_pd) (Ipc [] [] [] []) (fun _ => SavedRegs 0 0 0 0 0 0 0)
    (replicate NUM_IRQS None) pic_init m b (KernelImage lo kernel_end boot_pd entries) raw None.

(** [cap::mint_root] and [scheduler::install_cap_for]. *)
Definition grant (k : kernel) (task_id : Z) (kd : cap_kind) : res (kernel * Z) :=
  let (nodes, node) := mint_root (caps k) kd in
  let k := set_caps nodes k in
  let* (s, slot) := install_cap_for (sch k) task_id node in
  Ok (set_sch s k, slot).

(** [grant_endpoint_cap] *)
Definition grant_endpoint_cap (k : kernel) (task_id endpoint : Z) : res (kernel * Z) :=
  grant k task_id (Endpoint endpoint).

(** [loader::spawn_from_module(index, ports).expect(..)] *)
Definition spawn_or_panic (k : kernel) (index : Z) (ports : list Z) : res (kernel * Z) :=
  let* (k, o) := spawn_from_module k index ports in
  id <- expect ModuleMissing o ;; Ok (k, id).

(** [ipc::create_endpoint] and its capability for the owner: the inbox. *)
Definition give_inbox (k : kernel) (id : Z) : res (kernel * Z * Z) :=
  let (k, endpoint) := create_endpoint k id in
  let* (k, slot) := grant_endpoint_cap k id endpoint in
  Ok (k, endpoint, slot).

Definition CONSOLE_SERVER_PORTS : list Z := [0x60; 0x64; 0x3D4; 0x3D5].
Definition STORAGE_ATA_PORTS : list Z :=
  [0x1F0; 0x1F1; 0x1F2; 0x1F3; 0x1F4; 0x1F5; 0x1F6; 0x1F7; 0x3F6].
Definition VGA_BUFFER_PHYS : Z := 0xB8000.
Definition VGA_BUFFER_LEN : Z := 0x1000.

Section main.
Context (debug : bool) (cfg : Z -> Z).

(** [debug_assert_eq!] *)
Definition debug_assert_eq (a b : Z) : res unit :=
  if debug then assert_ (a =? b) else Ok tt.

Definition spawn_nameservice (k : kernel) : res kernel :=
  let* (k, nameservice_id) := spawn_or_panic k 0 [] in
  let* (k, nameservice_endpoint, nameservice_inbox_slot) := give_inbox k nameservice_id in
  _ <- debug_assert_eq nameservice_inbox_slot 1 ;;
  Ok (set_ns_endpoint (Some nameservice_endpoint) k).

Definition spawn_console_server (k : kernel) : res kernel :=
  let* (k, console_id) := spawn_or_panic k 1 CONSOLE_SERVER_PORTS in
  _ <- assert_ (console_id =? 2) ;;
  let* (k, console_endpoint, console_inbox_slot) := give_inbox k console_id in
  _ <- debug_assert_eq console_inbox_slot 2 ;;
  let* (k, vga_slot) := grant k console_id (MemoryGrant VGA_BUFFER_PHYS VGA_BUFFER_LEN true) in
  _ <- debug_assert_eq vga_slot 3 ;;
  let* (k, irq_slot) := grant k console_id (IrqControl 1 console_endpoint) in
  _ <- debug_assert_eq irq_slot 4 ;;
  Ok k.

(** [storage_ata], [fs_fat32] and [shell]: ports and an inbox. *)
Definition spawn_server (k : kernel) (index : Z) (ports : list Z) (expected_id : Z) : res kernel :=
  let* (k, id) := spawn_or_panic k index ports in
  _ <- assert_ (id =? expected_id) ;;
  let* (k, _, _) := give_inbox k id in
  Ok k.

(** [spawn_net_rtl8139] *)
Definition spawn_net_rtl8139 (k : kernel) (module_index : Z) : res (kernel * option Z) :=
  match find_device cfg 0x10EC 0x8139 with
  | None => Ok (k, None)
  | Some nic =>
      let io_base := Z.land (bar0 cfg nic) 0xFFFC in
      let irq := interrupt_line cfg nic in
      let allowed_ports := seqZ io_base (Z.min (io_base + 256) 0xFFFF - io_base) in
      let* (k, o) := spawn_from_module k module_index allowed_ports in
      match o with
      | None => Ok (k, None)
      | Some nic_id =>
          _ <- assert_ (nic_id =? 6) ;;
          let* (k, nic_endpoint, _) := give_inbox k nic_id in
          let* (k, irq_slot) := grant k nic_id (IrqControl irq nic_endpoint) in
          _ <- debug_assert_eq irq_slot 3 ;;
          let* (b, info_phys) := alloc_or_panic (kframes k) in
          let k := set_mem (store32 (kmem k) info_phys io_base) b k in
          let* (k, info_slot) := grant k nic_id (MemoryGrant info_phys FRAME_SIZE false) in
          _ <- debug_assert_eq info_slot 4 ;;
          Ok (k, Some nic_id)
      end
  end.

(** [spawn_netstack] *)
Definition spawn_netstack (k : kernel) (module_index : Z) : res (kernel * Z) :=
  let* (k, netstack_id) := spawn_or_panic k module_index [] in
  let* (k, _, _) := give_inbox k netstack_id in
  Ok (k, netstack_id).

(** The tasks of the production build. *)
Definition spawn_all (k : kernel) : res kernel :=
  k <- spawn_nameservice k ;;
  k <- spawn_console_server k ;;
  k <- spawn_server k 2 STORAGE_ATA_PORTS 3 ;;
  k <- spawn_server k 3 [] 4 ;;
  k <- spawn_server k 4 [] 5 ;;
  let* (k, nic) := spawn_net_rtl8139 k 5 in
  match nic with
  | Some _ => let* (k, _) := spawn_netstack k 6 in Ok k
  | None => Ok k
  end.

(** [scheduler::spawn_kernel_task(idle_task)] and [scheduler::start]. *)
Definition spawn_idle_and_start (k : kernel) (idle_entry : Z) : res (kernel * Z) :=
  let (s, id) := alloc_task_id (sch k) in
  let (s, idle) := spawn s (new_kernel id idle_entry (boot_pd (kimg k))) in
  s <- start s ;;
  Ok (set_sch s k, idle).

(** [kernel_main], from memory to the first task; the result names the idle task. *)
Definition kernel_main (m : mem) (lo kernel_end boot_pd raw idle_entry : Z) : res (kernel * Z) :=
  let* (m, b, entries) := boot_memory m boot_pd kernel_end raw in
  k <- spawn_all (boot_kernel m b lo kernel_end boot_pd entries raw) ;;
  spawn_idle_and_start k idle_entry.
End main.

(** ** Memory at boot *)

(** What boot.s and the linker script leave: the image above 1 MiB, and a page
    directory with entries 0 and 768 (4 MiB each, kernel only). *)
Record boot_image (m : mem) (lo kernel_end boot_pd : Z) : Prop := {
  bi_mem : mem_ok m;
  bi_lo : 0x100000 <= lo;
  bi_end : is_u32 kernel_end;
  bi_pd : lo <= boot_pd < kernel_end /\ boot_pd mod FRAME_SIZE = 0;
  bi_pdes : forall i, 0 <= i < 1024 ->
    pde_at m boot_pd i = if (i =? 0) || (i =? KERNEL_VMA_PDE_INDEX) then PAGE_PRESENT_RW_4M else 0
}.

Lemma physmap_entries_spec n m pd i :
  pd mod FRAME_SIZE = 0 -> mem_ok m -> 0 <= i -> i + Z.of_nat n <= 128 ->
  let m' := physmap_entries n m pd i in
  mem_ok m' /\
  forall j, 0 <= j < 1024 ->
    pde_at m' pd j =
    if decide (PHYS_MAP_PDE_INDEX + i <= j < PHYS_MAP_PDE_INDEX + i + Z.of_nat n)
    then Z.lor ((j - PHYS_MAP_PDE_INDEX) * 2 ^ 22) PAGE_PRESENT_RW_4M else pde_at m pd j.
Proof.
  change PHYS_MAP_PDE_INDEX with 896. intros Hp. revert m i.
  induction n as [|n IH]; intros m i M Hi Hn; cbn [physmap_entries].
  { split; [done|]. intros j Hj. by rewrite decide_False by lia. }
  assert (Ew : wrap32 (i * 4 * 1024 * 1024) = i * 2 ^ 22) by (rewrite wrap_small; lia).
  rewrite Ew.
  assert (V : is_u32 (Z.lor (i * 2 ^ 22) PAGE_PRESENT_RW_4M)).
  { apply (lor_range _ _ 32); [lia|lia|]. unfold PAGE_PRESENT_RW_4M. lia. }
  destruct (IH (store32 m (pd + 4 * (896 + i)) (Z.lor (i * 2 ^ 22) PAGE_PRESENT_RW_4M)) (i + 1))
    as [M' P]; [by apply store32_ok|lia|lia|].
  split; [done|]. intros j Hj. rewrite P by done. unfold pde_at.
  rewrite load32_store_word by (done || lia).
  repeat case_decide; try lia; try done. by replace (j - 896) with i by lia.
Qed.

(** A frame from [alloc_or_panic]: the lowest free one. *)
Lemma alloc_or_panic_spec b :
  bitmap_wf b ->
  alloc_or_panic b = Panicked OutOfPhysicalMemory \/
  exists b' f, alloc_or_panic b = Ok (b', f * FRAME_SIZE) /\ 0 <= f < frame_count b /\
    used b f = false /\ (forall g, 0 <= g < f -> used b g = true) /\ updates b b' (fun i => i = f) true.
Proof.
  intros W. unfold alloc_or_panic. destruct (alloc_frame_ok b W) as (b' & [p|] & -> & H); cbn; [|by left].
  destruct H as (f & -> & ? & ? & ? & ?). right. by exists b', f.
Qed.

Lemma free_frame_spec b f :
  bitmap_wf b -> 0 <= f < frame_count b ->
  exists b', free_frame b (f * FRAME_SIZE) = Ok b' /\ updates b b' (fun i => i = f) false.
Proof.
  intros W Hf. unfold free_frame. rewrite Z.div_mul by done. by apply set_used_ok.
Qed.

(** Extensional equality of allocators, as far as allocation can tell. *)
Definition same_frames (b b' : bitmap) : Prop :=
  frame_count b' = frame_count b /\ bitmap_wf b' /\ forall f, 0 <= f -> used b' f = used b f.

(** Allocating twice and freeing again: the second allocation after the first frame
    is freed returns it, and in the end nothing has changed. *)
Lemma alloc_free_smoke b :
  bitmap_wf b ->
  (exists b1 f, alloc_or_panic b = Ok (b1, f) /\ alloc_or_panic b1 = Panicked OutOfPhysicalMemory) \/
  alloc_or_panic b = Panicked OutOfPhysicalMemory \/
  exists b1 b2 b3 b4 b5 b6 f1 f2,
    alloc_or_panic b = Ok (b1, f1) /\ alloc_or_panic b1 = Ok (b2, f2) /\ f1 <> f2 /\
    free_frame b2 f1 = Ok b3 /\ alloc_or_panic b3 = Ok (b4, f1) /\
    free_frame b4 f2 = Ok b5 /\ free_frame b5 f1 = Ok b6 /\ same_frames b b6 /\ 0 < frame_count b.
Proof.
  intros W.
  destruct (alloc_or_panic_spec b W) as [?|(b1 & f1 & E1 & R1 & U1 & L1 & C1 & W1 & Q1)]; [by auto|].
  destruct (alloc_or_panic_spec b1 W1) as [?|(b2 & f2 & E2 & R2 & U2 & L2 & C2 & W2 & Q2)]; [by left; eauto|].
  assert (N : f2 <> f1) by (intros ->; destruct (Q1 f1 ltac:(lia)) as [Qa _]; rewrite Qa in U2; done).
  destruct (free_frame_spec b2 f1 W2 ltac:(lia)) as (b3 & E3 & C3 & W3 & Q3).
  destruct (alloc_or_panic_spec b3 W3) as [E4|(b4 & f3 & E4 & R4 & U4 & L4 & C4 & W4 & Q4)].
  { exfalso. unfold alloc_or_panic in E4.
    destruct (alloc_frame_ok b3 W3) as (b' & [p|] & Ea & Ha); rewrite Ea in E4; [done|].
    destruct Ha as [_ Ha]. destruct (Q3 f1 ltac:(lia)) as [Qa _]. rewrite Ha in Qa; [by discriminate Qa|lia]. }
  assert (f3 = f1) as ->.
  { destruct (Z.lt_trichotomy f3 f1) as [Hlt|[?|Hgt]]; [|done|].
    - destruct (Q3 f3 ltac:(lia)) as [_ Q3b]. rewrite Q3b in U4 by lia.
      destruct (decide (f3 = f2)) as [->|]; [destruct (Q2 f2 ltac:(lia)) as [Q2a _]; by rewrite Q2a in U4|].
      destruct (Q2 f3 ltac:(lia)) as [_ Q2b]. rewrite Q2b in U4 by done.
      destruct (Q1 f3 ltac:(lia)) as [_ Q1b]. rewrite Q1b, L1 in U4 by lia. done.
    - destruct (Q3 f1 ltac:(lia)) as [Q3a _]. rewrite L4 in Q3a by lia. by discriminate Q3a. }
  destruct (free_frame_spec b4 f2 W4 ltac:(lia)) as (b5 & E5 & C5 & W5 & Q5).
  destruct (free_frame_spec b5 f1 W5 ltac:(lia)) as (b6 & E6 & C6 & W6 & Q6).
  right. right. exists b1, b2, b3, b4, b5, b6, (f1 * FRAME_SIZE), (f2 * FRAME_SIZE).
  unfold FRAME_SIZE in *. split_and!; try done; try lia. split_and!; [lia|done|]. intros f Hf.
  destruct (Q6 f Hf) as [Q6a Q6b]. destruct (decide (f = f1)) as [->|Hn1]; [by rewrite Q6a, U1|].
  destruct (Q5 f Hf) as [Q5a Q5b]. destruct (Q1 f Hf) as [_ Q1b]. rewrite Q6b by done.
  destruct (decide (f = f2)) as [->|Hn2]; [by rewrite Q5a, <- Q1b, U2|].
  destruct (Q2 f Hf) as [_ Q2b]. destruct (Q3 f Hf) as [_ Q3b]. destruct (Q4 f Hf) as [_ Q4b].
  by rewrite Q5b, Q4b, Q3b, Q2b, Q1b.
Qed.

Lemma same_frames_le b b' : same_frames b b' -> bitmap_le b b'.
Proof. intros (C & W & U). split_and!; [done|done|]. intros f Hf Uf. rewrite U; [done|lia]. Qed.

(** The smoke test's assertions hold. *)
Lemma smoke_test_ok K m b :
  vm_wf K m b [] ->
  frame_and_paging_smoke_test m b (boot_pd K) = Panicked OutOfPhysicalMemory \/
  exists m' b', frame_and_paging_smoke_test m b (boot_pd K) = Ok (m', b') /\
    vm_wf K m' b' [] /\ bitmap_le b b' /\ 0 < frame_count b.
Proof.
  intros W. unfold frame_and_paging_smoke_test.
  destruct (alloc_free_smoke b (vm_bitmap _ _ _ _ W)) as [(b1 & f & -> & ->)|[-> |H]]; [by left|by left|].
  destruct H as (b1 & b2 & b3 & b4 & b5 & b6 & f1 & f2 & -> & -> & N & -> & -> & -> & -> & S & Hc).
  replace (f1 =? f2) with false by lia. rewrite Z.eqb_refl. cbn [assert_ negb].
  apply same_frames_le in S.
  destruct (page_directory_new_ok K m b6 [] (vm_wf_bitmap _ _ _ _ _ W S))
    as [-> |(m' & b' & p & -> & V & K1 & _)]; [by left|].
  right. exists m', b'. split_and!; [done|by eapply (vm_wf_drop _ _ _ [])| |done].
  eapply bitmap_le_trans; [exact S|apply K1].
Qed.

Lemma reserve_range_le b s e b' :
  bitmap_wf b -> 0 <= s -> reserve_range b s e = Ok b' -> bitmap_le b b'.
Proof.
  intros W Hs E. destruct (reserve_range_ok b s e W Hs) as (b2 & E2 & C & W2 & U).
  rewrite E in E2. injection E2 as <-. split_and!; [done|done|]. intros f Hf Uf.
  destruct (U f ltac:(lia)) as [U1 U2].
  destruct (decide (s / FRAME_SIZE <= f < Z.min (div_ceil e FRAME_SIZE) (frame_count b))); [by apply U1|].
  by rewrite U2.
Qed.

Lemma kread32_u32 m c va v : mem_ok m -> kread32 m c va = Ok v -> is_u32 v.
Proof. intros M. unfold kread32. case_match; [|done]. intros [= <-]. by apply load32_u32. Qed.

Lemma module_start m c raw i s e : mem_ok m -> module m c raw i = Ok (Some (s, e)) -> is_u32 s.
Proof.
  intros M E. unfold module in E. res_inv E. case_match; [done|]. res_inv E. case_match; [done|].
  res_inv E. by eapply kread32_u32.
Qed.

Lemma reserve_modules_le n m b c raw i b' :
  mem_ok m -> bitmap_wf b -> reserve_modules n m b c raw i = Ok b' -> bitmap_le b b'.
Proof.
  intros M. revert b i. induction n as [|n IH]; intros b i W; cbn [reserve_modules].
  { intros [= <-]. by apply bitmap_le_refl. }
  intros E. destruct (module m c raw i) as [o|] eqn:Em; [|done]. destruct o as [[s e]|].
  - destruct (reserve_range b s e) as [b1|] eqn:Er; [|done].
    pose proof (module_start _ _ _ _ _ _ M Em) as [Hs _].
    pose proof (reserve_range_le _ _ _ _ W Hs Er) as L.
    eapply bitmap_le_trans; [exact L|]. eapply IH; [apply L|exact E].
  - by eapply IH.
Qed.

(** A window entry's flag bits. *)
Lemma window_flags i :
  ps_bit (Z.lor (i * 2 ^ 22) PAGE_PRESENT_RW_4M) = true /\
  user_bit (Z.lor (i * 2 ^ 22) PAGE_PRESENT_RW_4M) = false.
Proof.
  unfold ps_bit, user_bit. rewrite !Z.lor_spec, !(testbit_low_zero (i * 2 ^ 22) 22);
    try done; apply Z.mod_mul; done.
Qed.

(** After [frame::init] and [paging::init]. *)
Lemma boot_vm_wf m lo kernel_end pd total b m1 :
  boot_image m lo kernel_end pd -> is_u32 total ->
  frame_init kernel_end total = Ok b -> paging_init m pd total = Ok m1 ->
  let K := KernelImage lo kernel_end pd (div_ceil total (4 * 1024 * 1024)) in
  vm_wf K m1 b [] /\ frame_count b = total / FRAME_SIZE /\
  (forall f, 0 <= f < frame_count b -> f * FRAME_SIZE < kernel_end -> used b f = true).
Proof.
  intros [B1 B2 B3 B4 B5] Ht Ef Ep K.
  destruct (frame_init_ok kernel_end total B3 Ht) as (b2 & E2 & Wb & Cb & Ub).
  rewrite Ef in E2. injection E2 as <-.
  unfold paging_init in Ep. change PHYS_MAP_PDE_INDEX with 896 in Ep.
  destruct (896 + div_ceil total (4 * 1024 * 1024) <=? 1024) eqn:Hn; [|done]. injection Ep as <-.
  apply Z.leb_le in Hn.
  assert (Hd : 0 <= div_ceil total (4 * 1024 * 1024) /\ total <= div_ceil total (4 * 1024 * 1024) * 2 ^ 22).
  { unfold div_ceil, is_u32 in *. dlia. }
  set (n := div_ceil total (4 * 1024 * 1024)) in *.
  destruct (physmap_entries_spec (Z.to_nat n) m pd 0) as [M P]; [apply B4|done|done|lia|].
  set (m1 := physmap_entries _ _ _ _) in *. change PHYS_MAP_PDE_INDEX with 896 in P.
  rewrite Z2Nat.id in P by lia.
  assert (Hup : forall i, 768 <= i < 1024 ->
    pde_at m1 pd i = if decide (896 <= i < 896 + n) then Z.lor ((i - 896) * 2 ^ 22) PAGE_PRESENT_RW_4M
                     else if i =? 768 then PAGE_PRESENT_RW_4M else 0).
  { intros i Hi. rewrite P by lia. replace (896 + 0) with 896 by lia. case_decide; [done|].
    rewrite B5 by lia. change KERNEL_VMA_PDE_INDEX with 768.
    by replace (i =? 0) with false by lia. }
  split_and!; [|done|].
  - split; cbn; try done.
    + intros f Hf. exists f. split; [done|]. intros Hr. rewrite Ub by done. by apply bool_decide_eq_true; lia.
    + constructor.
    + intros p [Hp|(q & i & Hq & _)]; set_solver.
    + set_solver. + set_solver. + set_solver. + set_solver.
    + change KERNEL_VMA_PDE_INDEX with 768. intros i Hi. rewrite Hup by done.
      case_decide; [intros _; split; by apply window_flags|]. by case_match.
    + change KERNEL_VMA_PDE_INDEX with 768. rewrite Hup by lia. by rewrite decide_False by lia.
    + change PHYS_MAP_PDE_INDEX with 896. intros i Hi. rewrite Hup by lia. rewrite decide_True by lia.
      by replace (896 + i - 896) with i by lia.
    + split; [lia|]. rewrite Cb. unfold FRAME_SIZE, is_u32 in *. dlia.
    + set_solver.
  - intros f Hf Hlt. rewrite Ub by done. by apply bool_decide_eq_true.
Qed.

(** The memory [kernel_main] hands to the first spawn. *)
Lemma boot_memory_ok m lo kernel_end pd raw m' b n :
  boot_image m lo kernel_end pd -> boot_memory m pd kernel_end raw = Ok (m', b, n) ->
  let K := KernelImage lo kernel_end pd n in
  vm_wf K m' b [] /\ 1 <= n /\ claimed b VGA_BUFFER_PHYS.
Proof.
  intros B E K. unfold boot_memory in E.
  destruct (total_memory_bytes m pd raw) as [[total|]|] eqn:Et; cbn [expect] in E; try done.
  assert (Ht : is_u32 total).
  { unfold total_memory_bytes in Et. res_inv Et. destruct (Z.land _ FLAG_MEM =? 0); [done|]. res_inv Et.
    unfold is_u32, wrap. dlia. }
  destruct (frame_init kernel_end total) as [b0|] eqn:Ef; [|done].
  destruct (paging_init m pd total) as [m0|] eqn:Ep; [|done].
  destruct (boot_vm_wf m lo kernel_end pd total b0 m0 B Ht Ef Ep) as (V & Cb & Ub).
  set (K0 := KernelImage lo kernel_end pd (div_ceil total (4 * 1024 * 1024))) in *.
  destruct (smoke_test_ok K0 m0 b0 V) as [Es|(m1 & b1 & Es & V1 & L1 & Hc)];
    cbn [boot_pd K0] in Es; rewrite Es in E; [done|].
  destruct (reserve_all_modules m1 b1 pd raw) as [b2|] eqn:Er; [|done].
  injection E as <- <- <-.
  assert (L2 : bitmap_le b1 b2).
  { unfold reserve_all_modules in Er. destruct (module_count m1 pd raw); [|done].
    eapply reserve_modules_le; [apply V1|apply V1|exact Er]. }
  split_and!.
  - by eapply (vm_wf_bitmap K0).
  - rewrite Cb in Hc. unfold div_ceil, FRAME_SIZE in *. dlia.
  - exists 0xB8. split; [done|]. intros Hr. destruct L1 as (C1 & _ & U1), L2 as (C2 & _ & U2).
    apply U2; [lia|]. apply U1; [lia|]. apply Ub; [lia|].
    destruct (bi_pd _ _ _ _ B) as [? _]. pose proof (bi_lo _ _ _ _ B). unfold FRAME_SIZE. lia.
Qed.

(** ** The invariant while tasks are spawned *)

(** What boot hands out, task by task.  The name service's endpoint is 0, and the inbox
    of task [id] is endpoint [id - 1]; [nic] is the network card's interrupt line and the
    page its driver is told the I/O base in, when there is a driver. *)
Definition server_caps (id : Z) : list (Z * cap_kind) := [(id, Endpoint 0); (id, Endpoint (id - 1))].

Definition boot_caps (nic : option (Z * Z)) : list (Z * cap_kind) :=
  [(1, Endpoint 0)] ++
  server_caps 2 ++ [(2, MemoryGrant VGA_BUFFER_PHYS VGA_BUFFER_LEN true); (2, IrqControl 1 1)] ++
  server_caps 3 ++ server_caps 4 ++ server_caps 5 ++
  match nic with
  | Some (line, page) =>
      server_caps 6 ++ [(6, IrqControl line 5); (6, MemoryGrant page FRAME_SIZE false)] ++ server_caps 7
  | None => []
  end.

(** No address space reaches memory from [base] on. *)
Definition unreached (k : kernel) (base len : Z) : Prop :=
  forall pd va x w, reaches k pd va x w -> ~ covers base len x.

(** While tasks are spawned: [L] is exactly what they hold. *)
Record booting (L : list (Z * cap_kind)) (n : Z) (k : kernel) : Prop := {
  bt_wf : kernel_wf 0 k;
  bt_current : current (sch k) = None;
  bt_next : next_id (sch k) = n;
  bt_queue : ready_queue (sch k) = seqZ 1 (n - 1);
  bt_sends : pending_sends (kipc k) = [];
  bt_holds : forall id kd, holds k id kd <-> (id, kd) ∈ L;
  bt_vga : grant_ok k VGA_BUFFER_PHYS VGA_BUFFER_LEN;
  bt_isolated : isolated k;
  bt_unreached : unreached k VGA_BUFFER_PHYS VGA_BUFFER_LEN
}.

Lemma boot_kernel_wf m b lo kernel_end pd n raw :
  let K := KernelImage lo kernel_end pd n in
  vm_wf K m b [] -> 1 <= n -> claimed b VGA_BUFFER_PHYS -> outside K VGA_BUFFER_PHYS ->
  booting [] 1 (boot_kernel m b lo kernel_end pd n raw).
Proof.
  intros K V Hn C O.
  assert (T : forall id, task_of (sched_init pd) id = None) by (intros id; apply zget_nil).
  split; try done.
  - split; try done.
    + split; cbn; try set_solver.
      * apply sched_init_wf.
      * constructor.
      * intros id. unfold state_of. rewrite T. split; [set_solver|done].
    + by left.
    + cbn. intros id t. by rewrite T.
    + apply cap_wf_nil.
    + cbn. intros id t slot nn. by rewrite T.
    + intros nn (s & Hs & _). set_solver.
    + cbn. intros i nd base len w. by rewrite zget_nil.
  - intros id kd. split; [|set_solver]. intros (t & ? & ? & ? & Tt & _). cbn in Tt. by rewrite T in Tt.
  - unfold grant_ok. cbn. change (div_ceil VGA_BUFFER_LEN FRAME_SIZE) with 1.
    unfold VGA_BUFFER_PHYS, VGA_BUFFER_LEN, FRAME_SIZE in *. split_and!; [done|done|lia|].
    intros j Hj. replace (0xB8000 + j * 4096) with 0xB8000 by lia. split_and!; [done| |].
    + intros [Hp|(q & i & Hq & _)]; set_solver.
    + exact O.
  - intros pd' va x w [Hpd _]. set_solver.
  - intros pd' va x w [Hpd _]. set_solver.
Qed.

Lemma boot_kernel_booting m lo kernel_end pd raw m' b n :
  boot_image m lo kernel_end pd -> boot_memory m pd kernel_end raw = Ok (m', b, n) ->
  booting [] 1 (boot_kernel m' b lo kernel_end pd n raw).
Proof.
  intros B E. destruct (boot_memory_ok _ _ _ _ _ _ _ _ B E) as (V & Hn & C).
  apply boot_kernel_wf; try done. unfold outside, VGA_BUFFER_PHYS. cbn.
  pose proof (bi_lo _ _ _ _ B). lia.
Qed.

(** A capability minted and installed for one task. *)
Lemma installed_holds k k' id t kd :
  kernel_wf 0 k -> caps k' = (mint_root (caps k) kd).1 -> task_of (sch k) id = Some t ->
  (forall i, task_of (sch k') i =
     if decide (i = id) then Some (with_cspace (cspace_install (tcspace t) (zlen (caps k))).1 t)
     else task_of (sch k) i) ->
  forall i kd', holds k' i kd' <-> holds k i kd' \/ i = id /\ kd' = kd.
Proof.
  intros W Ec T T' i kd'. unfold holds. rewrite Ec.
  assert (G : forall sl, cspace_get (cspace_install (tcspace t) (zlen (caps k))).1 sl =
    if decide (sl = zlen (slots (tcspace t))) then Some (zlen (caps k)) else cspace_get (tcspace t) sl).
  { intros sl. unfold cspace_get, cspace_install. cbn. rewrite zget_snoc. by case_decide. }
  split.
  - intros (t0 & sl & nd & b & H & Gt & R).
    assert (Old : in_table k nd -> resolve (caps k) nd = Some (kd', b))
      by (intros Hn; by apply (caps_le_mint_root k kd)).
    rewrite T' in H. case_decide as Ei.
    + apply (inj Some) in H as <-. cbn [tcspace with_cspace] in Gt. rewrite G in Gt. subst i. case_decide.
      * apply (inj Some) in Gt as <-. rewrite resolve_mint_root, decide_True in R by done.
        right. split; [done|congruence].
      * left. exists t, sl, nd, b. split_and!; [done|done|]. apply Old. by eapply (kw_slots _ _ W).
    + left. exists t0, sl, nd, b. split_and!; [done|done|]. apply Old. by eapply (kw_slots _ _ W).
  - intros [(t0 & sl & nd & b & H & Gt & R)|[-> ->]].
    + destruct (decide (i = id)) as [->|Hne].
      * rewrite T in H. apply (inj Some) in H as <-.
        eexists _, sl, nd, b. rewrite T', decide_True by done. split; [done|]. split; [|by apply mint_root_keeps].
        cbn [tcspace with_cspace]. rewrite G, decide_False; [done|].
        intros ->. unfold cspace_get in Gt. rewrite zget_out in Gt by lia. done.
      * exists t0, sl, nd, b. rewrite T', decide_False by done. split_and!; [done|done|by apply mint_root_keeps].
    + eexists _, (zlen (slots (tcspace t))), (zlen (caps k)), 0. rewrite T', decide_True by done. split; [done|].
      cbn [tcspace with_cspace]. rewrite G, decide_True, resolve_mint_root, decide_True by done. done.
Qed.

(** Granting memory nobody reaches. *)
Lemma isolated_mint k k' kd :
  isolated k -> user_pds k' = user_pds k -> kmem k' = kmem k -> caps k' = (mint_root (caps k) kd).1 ->
  (forall base len w, kd = MemoryGrant base len w -> unreached k base len) -> isolated k'.
Proof.
  intros I Up Em Ec N pd va x w Re.
  assert (R : forall pd va x w, reaches k' pd va x w <-> reaches k pd va x w)
    by (intros; unfold reaches; by rewrite Up, Em).
  apply R in Re. destruct (I _ _ _ _ Re) as [(b & l & Gi & Cv)|[Un Pr]].
  - left. exists b, l. split; [|done]. rewrite Ec. apply grant_in_snoc. by left.
  - right. split.
    + intros b l w' Gi. rewrite Ec in Gi. apply grant_in_snoc in Gi as [Gi|Gi]; [by eapply Un|by eapply N].
    + intros pd' va' x' w' Re'. by eapply Pr, R.
Qed.

Section booting.
Context (L : list (Z * cap_kind)) (n : Z).

(** [grant] to an existing task: the next slot of its table. *)
Lemma booting_grant k id t kd :
  booting L n k -> task_of (sch k) id = Some t ->
  (forall base len w, kd = MemoryGrant base len w -> grant_ok k base len /\ unreached k base len) ->
  exists k' t', grant k id kd = Ok (k', zlen (slots (tcspace t))) /\ booting (L ++ [(id, kd)]) n k' /\
    task_of (sch k') id = Some t' /\ zlen (slots (tcspace t')) = zlen (slots (tcspace t)) + 1 /\
    kipc k' = kipc k /\ ns_endpoint k' = ns_endpoint k.
Proof.
  intros [B1 B2 B3 B4 B5 B6 B7 B8 B9] T G. unfold grant. cbn [mint_root sch set_caps].
  pose proof (kernel_wf_mint_root 0 k kd B1 ltac:(by intros; eapply G)) as W1. cbn [mint_root fst] in W1.
  set (k1 := set_caps _ k) in *.
  assert (Hin : in_table k1 (zlen (caps k))).
  { unfold in_table. cbn. rewrite zlen_snoc. pose proof (zlen_nonneg (caps k)). lia. }
  destruct (install_cap_for_spec (sch k) (iw_sched _ (kw_ipc _ _ B1)) id (zlen (caps k)) t T)
    as (s & E & _ & C & Q & N & _ & _ & T').
  destruct (kernel_wf_install_for 0 k1 id (zlen (caps k)) t W1 T Hin)
    as (s2 & slot & E2 & W2 & _ & _ & Up & _). cbn [sch k1 set_caps] in E2.
  rewrite E in E2. injection E2 as <- _. rewrite E.
  change (user_pds k1) with (user_pds k) in Up.
  assert (R : forall pd va x w, reaches (set_sch s k1) pd va x w <-> reaches k pd va x w)
    by (intros; unfold reaches; by rewrite Up).
  exists (set_sch s k1), (with_cspace (cspace_install (tcspace t) (zlen (caps k))).1 t).
  split; [done|]. split.
  - split; try done; [cbn; congruence|cbn; congruence|cbn; congruence| | | |].
    + intros i kd'. rewrite (installed_holds k (set_sch s k1) id t kd B1 eq_refl T T'), B6, elem_of_app, list_elem_of_singleton.
      split; (intros [?|E']; [by left|right]); [by destruct E' as [-> ->]|by injection E'].
    + unfold grant_ok in *. by rewrite Up.
    + apply (isolated_mint k (set_sch s k1) kd B8 Up eq_refl eq_refl). intros. by eapply G.
    + intros pd va x w Re. apply R in Re. by eapply B9.
  - cbn. rewrite T', decide_True by done. split_and!; try done. unfold cspace_install. cbn. by rewrite zlen_snoc.
Qed.

Lemma booting_inbox k id t :
  booting L n k -> task_of (sch k) id = Some t ->
  exists k' t', give_inbox k id = Ok (k', zlen (endpoints (kipc k)), zlen (slots (tcspace t))) /\
    booting (L ++ [(id, Endpoint (zlen (endpoints (kipc k))))]) n k' /\
    task_of (sch k') id = Some t' /\ zlen (slots (tcspace t')) = zlen (slots (tcspace t)) + 1 /\
    zlen (endpoints (kipc k')) = zlen (endpoints (kipc k)) + 1 /\ ns_endpoint k' = ns_endpoint k.
Proof.
  intros [B1 B2 B3 B4 B5 B6 B7 B8 B9] T. unfold give_inbox, create_endpoint, grant_endpoint_cap.
  set (k1 := set_ipc _ k). set (e := zlen (endpoints (kipc k))).
  assert (B : booting L n k1).
  { split; try done. exact (kernel_wf_create_endpoint 0 k id B1). }
  destruct (booting_grant k1 id t (Endpoint e) B T ltac:(done)) as (k' & t' & -> & B' & T' & Ls & Ki & Ns).
  exists k', t'. split_and!; try done. rewrite Ki. cbn. by rewrite zlen_snoc.
Qed.

Lemma booting_ns k e : booting L n k -> booting L n (set_ns_endpoint (Some e) k).
Proof.
  intros [B1 B2 B3 B4 B5 B6 B7 B8 B9]. split; try done. destruct B1 as [W1 W2 W3 W4 W5 W6 W7 W8].
  split; try done. by destruct W1; split.
Qed.
End booting.

(** Granted memory stays out of every new address space. *)
Lemma unreached_spawned ports k k' o base len :
  grant_ok k base len -> unreached k base len -> spawned 0 ports k k' o -> unreached k' base len.
Proof.
  intros G U S pd va x w (Hpd & Hva & T) Cv.
  pose proof (sp_fresh _ _ _ _ _ S) as F. pose proof (sp_tr _ _ _ _ _ S) as Tr.
  assert (Old : pd ∈ user_pds k -> False)
    by (intros H; rewrite Tr in T by done; by eapply (U pd va x w)).
  destruct o as [id|]; [|by rewrite F in Hpd; apply Old].
  destruct F as (t & _ & Up & _ & Fr). rewrite Up in Hpd.
  apply elem_of_app in Hpd as [?| ->%list_elem_of_singleton]; [by apply Old|].
  by apply (Fr va x w Hva T), (grant_ok_claimed k base len).
Qed.

Lemma booting_spawn L n k index ports k' o :
  booting L n k -> 1 <= n < U32_MAX -> Forall is_u16 ports ->
  spawn_from_module k index ports = Ok (k', o) ->
  ns_endpoint k' = ns_endpoint k /\ kipc k' = kipc k /\
  match o with
  | None => booting L n k'
  | Some id => id = n /\
      booting (L ++ match ns_endpoint k with Some ns => [(id, Endpoint ns)] | None => [] end) (n + 1) k' /\
      exists t, task_of (sch k') id = Some t /\ allowed_ports t = ports /\
        zlen (slots (tcspace t)) = match ns_endpoint k with Some _ => 2 | None => 1 end
  end.
Proof.
  intros [B1 B2 B3 B4 B5 B6 B7 B8 B9] Hn Hp E.
  destruct (spawn_from_module_ok 0 k index ports B1 ltac:(lia) Hp) as [[e E2]|(k2 & o2 & E2 & S)];
    rewrite E in E2; [done|]. injection E2 as <- <-.
  split; [apply S|]. split; [apply S|].
  pose proof (isolated_spawned 0 ports k k' o B1 B8 S) as I.
  pose proof (unreached_spawned ports k k' o _ _ B7 B9 S) as U.
  destruct S as [S1 S2 S3 S4 S5 S6 S7 S8 S9 Su Sq S10 _ _ _ _ S11].
  assert (Vga : grant_ok k' VGA_BUFFER_PHYS VGA_BUFFER_LEN).
  { destruct B7 as (? & ? & ? & G). unfold grant_ok. rewrite S5. split_and!; try done.
    intros j Hj. specialize (G j Hj). by apply Su in G; rewrite S5 in G. }
  destruct o as [id|].
  - destruct S11 as (-> & N & t & T & _ & Po & _ & Ls). split; [done|]. split; [|by exists t].
    split; try done; [congruence|lia| |by rewrite S4|].
    + rewrite Sq, B4, B3. replace (n + 1 - 1) with (n - 1 + 1) by lia.
      rewrite seqZ_app by lia. by replace (1 + (n - 1)) with n by lia.
    + intros id kd. rewrite S10, B6, elem_of_app. destruct (ns_endpoint k) as [ns|].
      * rewrite list_elem_of_singleton. split; (intros [?|E']; [by left|right]).
        -- destruct E' as ([= <-] & ns' & [= <-] & ->). done.
        -- injection E' as -> ->. split; [done|]. by exists ns.
      * split; [|set_solver]. intros [?|(_ & ns' & ? & _)]; [by left|done].
  - split; try done; [congruence|congruence|by rewrite Sq, app_nil_r|by rewrite S4|].
    intros id kd. rewrite S10, B6. split; [|by left]. by intros [?|[? _]].
Qed.

(** Between two spawns: every task so far has its inbox, and after the first one the name
    service is known. *)
Definition served (L : list (Z * cap_kind)) (n : Z) (k : kernel) : Prop :=
  booting L n k /\ zlen (endpoints (kipc k)) = n - 1 /\ ns_endpoint k = Some 0.

Section servers.
Context (debug : bool) (cfg : Z -> Z).

(** A server spawned with an inbox, and what its id and next slot then are. *)
Lemma spawned_inbox L n k index ports k1 id :
  served L n k -> 1 <= n < 100 -> Forall is_u16 ports ->
  spawn_from_module k index ports = Ok (k1, Some id) ->
  exists k' t, id = n /\ give_inbox k1 id = Ok (k', n - 1, 2) /\ served (L ++ server_caps n) (n + 1) k' /\
    task_of (sch k') id = Some t /\ zlen (slots (tcspace t)) = 3.
Proof.
  intros (B & Ne & En) Hn Hp E.
  destruct (booting_spawn L n k index ports k1 (Some id) B ltac:(unfold U32_MAX; lia) Hp E)
    as (Ns & Ki & -> & B1 & t & T & _ & Ls). rewrite En in *.
  destruct (booting_inbox _ (n + 1) k1 n t B1 T) as (k' & t' & Ei & B' & T' & L' & Ne' & Ns').
  rewrite Ki, Ne in *. exists k', t'. rewrite Ls in *. split_and!; try done.
  split_and!; [by rewrite <- app_assoc in B'|lia|congruence].
Qed.

Lemma nameservice_ok k :
  booting [] 1 k -> ns_endpoint k = None -> zlen (endpoints (kipc k)) = 0 ->
  spawn_nameservice debug k = spawn_nameservice false k /\
  forall k', spawn_nameservice debug k = Ok k' -> served [(1, Endpoint 0)] 2 k'.
Proof.
  intros B En Ne. unfold spawn_nameservice, spawn_or_panic.
  destruct (spawn_from_module k 0 []) as [[k1 [id|]]|] eqn:E; cbn [expect]; [|by split|by split].
  destruct (booting_spawn [] 1 k 0 [] k1 (Some id) B ltac:(unfold U32_MAX; lia) ltac:(constructor) E)
    as (Ns & Ki & -> & B1 & t & T & _ & Ls). rewrite En in *.
  destruct (booting_inbox _ 2 k1 1 t B1 T) as (k' & t' & -> & B' & T' & L' & Ne' & Ns').
  rewrite Ki, Ne, Ls in *.
  unfold debug_assert_eq. cbn. destruct debug; (split; [done|]); intros k2 [= <-];
    (split_and!; [by apply booting_ns|cbn; lia|done]).
Qed.

Lemma console_ok L k :
  served L 2 k ->
  spawn_console_server debug k = spawn_console_server false k /\
  forall k', spawn_console_server debug k = Ok k' ->
    served (L ++ server_caps 2 ++ [(2, MemoryGrant VGA_BUFFER_PHYS VGA_BUFFER_LEN true); (2, IrqControl 1 1)]) 3 k'.
Proof.
  intros B. unfold spawn_console_server, spawn_or_panic.
  destruct (spawn_from_module k 1 CONSOLE_SERVER_PORTS) as [[k1 [id|]]|] eqn:E; cbn [expect]; [|by split|by split].
  assert (Hp : Forall is_u16 CONSOLE_SERVER_PORTS) by (repeat constructor; unfold is_u16; lia).
  destruct (spawned_inbox L 2 k 1 _ k1 id B ltac:(lia) Hp E) as (k2 & t & -> & -> & (B2 & Ne2 & Ns2) & T & Ls).
  change (assert_ (2 =? 2)) with (Ok tt).
  destruct (booting_grant _ 3 k2 2 t (MemoryGrant VGA_BUFFER_PHYS VGA_BUFFER_LEN true) B2 T)
    as (k3 & t3 & -> & B3 & T3 & L3 & Ki3 & Ns3).
  { intros base len w [= <- <- <-]. split; apply B2. }
  destruct (booting_grant _ 3 k3 2 t3 (IrqControl 1 1) B3 T3 ltac:(done)) as (k4 & t4 & E4 & B4 & T4 & L4 & Ki4 & Ns4).
  change (2 - 1) with 1. rewrite E4, L3, Ls in *. unfold debug_assert_eq. cbn [negb].
  assert (S : served (L ++ server_caps 2 ++ [(2, MemoryGrant VGA_BUFFER_PHYS VGA_BUFFER_LEN true); (2, IrqControl 1 1)]) 3 k4).
  { split_and!; [by rewrite <- !app_assoc in B4|by rewrite Ki4, Ki3|congruence]. }
  destruct debug; (split; [done|]); by intros k' [= <-].
Qed.

Lemma server_ok L n k index ports k' :
  served L n k -> 1 <= n < 100 -> Forall is_u16 ports ->
  spawn_server k index ports n = Ok k' -> served (L ++ server_caps n) (n + 1) k'.
Proof.
  intros B Hn Hp E. unfold spawn_server, spawn_or_panic in E.
  destruct (spawn_from_module k index ports) as [[k1 [id|]]|] eqn:Es; cbn [expect] in E; [|done|done].
  destruct (spawned_inbox L n k index _ k1 id B Hn Hp Es) as (k2 & t & -> & Ei & B2 & _).
  rewrite Z.eqb_refl, Ei in E. by injection E as <-.
Qed.

(** The page that tells the network driver its I/O base: nobody reaches it. *)
Lemma booting_info_page L n k v b p :
  booting L n k -> alloc_or_panic (kframes k) = Ok (b, p) -> is_u32 v ->
  let k' := set_mem (store32 (kmem k) p v) b k in
  booting L n k' /\ grant_ok k' p FRAME_SIZE /\ unreached k' p FRAME_SIZE.
Proof.
  intros [B1 B2 B3 B4 B5 B6 B7 B8 B9] E Hv k'. pose proof (kw_vm _ _ B1) as V.
  destruct (alloc_or_panic_ok _ (vm_bitmap _ _ _ _ V)) as [E2|(b' & p' & E2 & Ea)];
    rewrite E in E2; [done|]. injection E2 as <- <-.
  destruct (alloc_fresh _ _ _ _ _ _ V Ea) as (V1 & Lb & F & N).
  pose proof (fresh_user_page _ _ _ _ _ F) as Up.
  destruct (fill_ok (kimg k) (user_pds k) (kmem k) (kmem k) (store32 (kmem k) p v) (kframes k) b p
              (fun _ _ => False)) as (V2 & Up2 & _).
  { split; try done. intros q. by apply user_page_bitmap. }
  { done. } { intros q Uq. apply N, Uq. } { apply store32_ok, V. }
  { intros x Hx. unfold store32, FRAME_SIZE in *. case_match; [bool_simp; lia|done]. }
  assert (W : kernel_wf 0 k') by (by eapply kernel_wf_mem).
  assert (Tr : forall pd va, pd ∈ user_pds k -> is_u32 va -> translate (kmem k') pd va = translate (kmem k) pd va)
    by (intros pd va Hpd Hva; apply (kept_tr _ _ _ _ _ _ _ V2); [done|done|tauto]).
  assert (R : forall pd va x w, reaches k' pd va x w -> reaches k pd va x w).
  { intros pd va x w (Hpd & Hva & T). change (user_pds k') with (user_pds k) in Hpd.
    rewrite Tr in T by done. done. }
  destruct (fresh_alloc _ _ _ _ _ F) as (f & Ef & Hf & _). split; [|split].
  - split; try done.
    + destruct B7 as (? & ? & ? & G). split_and!; try done. intros j Hj. by apply V2, G.
    + by apply (isolated_same k k' B8 eq_refl (same_grants_refl _)).
    + intros pd va x w Re. apply R in Re. by eapply B9.
  - pose proof (vm_window _ _ _ _ V1) as [_ Hw]. unfold grant_ok.
    change (div_ceil FRAME_SIZE FRAME_SIZE) with 1. unfold FRAME_SIZE in *.
    split_and!; [lia|done|cbn; lia|]. intros j Hj. replace (p + j * 4096) with p by lia. exact Up2.
  - intros pd va x w Re Cv. apply R, (reaches_claimed 0 k pd va x w B1) in Re. apply (N _ Re).
    rewrite Ef in *. unfold covers in Cv. change (div_ceil FRAME_SIZE FRAME_SIZE) with 1 in Cv.
    unfold frame_base, FRAME_SIZE in *. dlia.
Qed.

Lemma ports_u16 base : 0 <= base <= 0xFFFC -> Forall is_u16 (seqZ base (Z.min (base + 256) 0xFFFF - base)).
Proof. intros Hb. apply Forall_forall. intros x Hx%elem_of_seqZ. unfold is_u16. lia. Qed.

Lemma nic_ok L k :
  served L 6 k ->
  spawn_net_rtl8139 debug cfg k 5 = spawn_net_rtl8139 false cfg k 5 /\
  forall k' o, spawn_net_rtl8139 debug cfg k 5 = Ok (k', o) ->
    match o with
    | Some id => id = 6 /\ exists nic page, find_device cfg 0x10EC 0x8139 = Some nic /\
        served (L ++ server_caps 6 ++ [(6, IrqControl (interrupt_line cfg nic) 5); (6, MemoryGrant page FRAME_SIZE false)]) 7 k'
    | None => booting L 6 k'
    end.
Proof.
  intros B. unfold spawn_net_rtl8139.
  destruct (find_device cfg 0x10EC 0x8139) as [nic|] eqn:Ef.
  2: { split; [done|]. intros k' o [= <- <-]. apply B. }
  set (io_base := Z.land (bar0 cfg nic) 0xFFFC).
  assert (Hio : 0 <= io_base <= 0xFFFC) by (apply land_range; lia).
  pose proof (ports_u16 io_base Hio) as Hp.
  destruct (spawn_from_module k 5 _) as [[k1 [id|]]|] eqn:E; [| |by split].
  2: { split; [done|]. intros k' o [= <- <-].
       by destruct (booting_spawn L 6 k 5 _ k1 None (proj1 B) ltac:(unfold U32_MAX; lia) Hp E) as (_ & _ & B1). }
  destruct (spawned_inbox L 6 k 5 _ k1 id B ltac:(lia) Hp E) as (k2 & t & -> & -> & (B2 & Ne2 & Ns2) & T & Ls).
  change (assert_ (6 =? 6)) with (Ok tt). change (6 - 1) with 5.
  destruct (booting_grant _ 7 k2 6 t (IrqControl (interrupt_line cfg nic) 5) B2 T ltac:(done))
    as (k3 & t3 & -> & B3 & T3 & L3 & Ki3 & Ns3).
  rewrite Ls. assert (D : forall x, debug_assert_eq debug x x = Ok tt)
    by (intros x; unfold debug_assert_eq; rewrite Z.eqb_refl; by destruct debug).
  rewrite D. change (debug_assert_eq false 3 3) with (Ok tt).
  destruct (alloc_or_panic (kframes k3)) as [[b p]|] eqn:Ea; [|by split].
  destruct (booting_info_page _ 7 k3 io_base b p B3 Ea) as (B4 & G & U); [unfold is_u32; lia|].
  set (k4 := set_mem _ _ k3) in *.
  destruct (booting_grant _ 7 k4 6 t3 (MemoryGrant p FRAME_SIZE false) B4 T3)
    as (k5 & t5 & -> & B5 & T5 & L5 & Ki5 & Ns5).
  { by intros base len w [= <- <- <-]. }
  rewrite L3, Ls. rewrite D. split; [done|]. intros k' o [= <- <-]. split; [done|]. exists nic, p. split; [done|].
  split_and!; [by rewrite <- !app_assoc in B5|rewrite Ki5; cbn; by rewrite Ki3|rewrite Ns5; cbn; congruence].
Qed.

Lemma netstack_ok L k index k' id :
  served L 7 k -> spawn_netstack k index = Ok (k', id) -> served (L ++ server_caps 7) 8 k'.
Proof.
  intros B E. unfold spawn_netstack, spawn_or_panic in E.
  destruct (spawn_from_module k index []) as [[k1 [i|]]|] eqn:Es; cbn [expect] in E; [|done|done].
  destruct (spawned_inbox L 7 k index _ k1 i B ltac:(lia) ltac:(constructor) Es) as (k2 & t & -> & Ei & B2 & _).
  rewrite Ei in E. by injection E as <- <-.
Qed.
End servers.

(** ** The idle task and the first switch *)

Section start.
Context (L : list (Z * cap_kind)) (n : Z) (k : kernel) (entry : Z).
Context (B : booting L n k) (Hn : 2 <= n < U32_MAX).

Let idle_task := fun id => new_kernel id entry (boot_pd (kimg k)).
Let s1 : sched := (spawn (alloc_task_id (sch k)).1 (idle_task (next_id (sch k)))).1.

Lemma idle_spawned :
  sched_wf s1 /\ current s1 = None /\ ready_queue s1 = seqZ 1 (n - 1) ++ [n] /\
  (forall i, task_of s1 i = if decide (i = n) then Some (idle_task n) else task_of (sch k) i) /\
  task_of (sch k) n = None.
Proof.
  destruct B as [B1 B2 B3 B4 B5 B6 B7 B8 B9]. pose proof (iw_sched _ (kw_ipc _ _ B1)) as S.
  pose proof (spawn_spec (sch k) S idle_task ltac:(lia)) as H. cbn in H.
  destruct H as (_ & S1 & C1 & Q1 & N1 & P1 & T1); [by intros id; split_and!|].
  rewrite B3 in *. subst s1. unfold spawn, alloc_task_id. cbn [fst next_id]. rewrite B3 in *.
  split_and!; try done; [cbn; by rewrite B4|].
  apply zget_out. pose proof (wf_next_id _ (wf_ids_wf _ S)). lia.
Qed.

Lemma idle_user_pds : user_pds (set_sch s1 k) = user_pds k.
Proof.
  unfold user_pds, s1. cbn. rewrite map_app, List.filter_app. cbn. rewrite Z.eqb_refl. cbn.
  by rewrite app_nil_r.
Qed.

Lemma idle_kernel_wf : kernel_wf n (set_sch s1 k).
Proof.
  destruct idle_spawned as (S1 & C1 & Q1 & T1 & Nw). destruct B as [B1 B2 B3 B4 B5 B6 B7 B8 B9].
  destruct B1 as [W1 W2 W3 W4 W5 W6 W7 W8].
  split; try done.
  - destruct W1 as [I1 I2 I3 I4 I5 I6 I7]. split; try done. intros id. rewrite I3. cbn [sch set_sch].
    unfold state_of. rewrite T1. case_decide as E; [|done]. rewrite E, Nw. done.
  - right. left. cbn [sch set_sch]. unfold state_of. by rewrite T1, decide_True.
  - cbn [sch set_sch kimg]. intros id t. rewrite T1. case_decide; [done|]. intros Ht _.
    apply (W3 id t Ht). intros ->. unfold task_of, zget in Ht. by cbn in Ht.
  - by rewrite idle_user_pds.
  - cbn [sch set_sch]. intros id t slot nd. rewrite T1. case_decide; [|by apply W6].
    intros E. apply (inj Some) in E as <-. cbn. by rewrite cspace_get_new.
  - intros i nd base len w Hi Hk. unfold grant_ok. rewrite idle_user_pds. by apply (W8 i nd base len w).
Qed.

Lemma start_ok :
  exists k', spawn_idle_and_start k entry = Ok (k', n) /\ kernel_wf n k' /\
    current (sch k') = Some 1 /\ pending_sends (kipc k') = [] /\ isolated k' /\
    (forall id kd, holds k' id kd <-> (id, kd) ∈ L).
Proof.
  destruct idle_spawned as (S1 & C1 & Q1 & T1 & Nw). pose proof idle_kernel_wf as W1.
  assert (Qu : ready_queue s1 = 1 :: (seqZ 2 (n - 2) ++ [n])).
  { rewrite Q1, (seqZ_cons 1 (n - 1)) by lia. replace (Z.pred (n - 1)) with (n - 2) by lia. done. }
  assert (Qt : quiet s1).
  { pose proof S1 as [w1 w2 w3 w4 w5]. split; try done. intros id. rewrite w4, C1. done. }
  destruct (run_next_spec s1 1 _ Qt Qu) as (s' & E & S' & C' & _ & _ & R).
  assert (S1r : state_of s1 1 = Some Ready) by (apply (wf_ready _ S1); rewrite Qu; set_solver).
  assert (O : ipc_ok n None (set_sch s1 k) (set_sch s' k)).
  { split; try done.
    - destruct (kw_ipc _ _ W1) as [I1 I2 I3 I4 I5 I6 I7]. split; try done. intros id. rewrite I3.
      cbn [sch set_sch]. rewrite (restate_state_of _ _ _ _ R).
      destruct (decide (id = 1)) as [->|]; [by rewrite S1r|]. by destruct (state_of s1 id).
    - eapply (idle_restate n (set_sch s1 k) (set_sch s' k)); [exact R|]. intros old Ho. cbn beta. case_decide; auto.
    - by eapply restate_evolves.
    - by left. }
  exists (set_sch s' k). split_and!.
  - unfold spawn_idle_and_start. cbn [alloc_task_id spawn]. fold (idle_task (next_id (sch k))).
    change (set_tasks _ _) with s1. unfold start. rewrite E. cbn. by rewrite (bt_next _ _ _ B).
  - eapply (kernel_wf_ipc n None (set_sch s1 k)); [done|done|done|lia].
  - done.
  - apply B.
  - apply (isolated_ipc n None (set_sch s1 k)); [done|done|].
    by apply (isolated_same k (set_sch s1 k) (bt_isolated _ _ _ B) idle_user_pds (same_grants_refl _)).
  - intros id kd. rewrite <- (bt_holds _ _ _ B). split.
    + intros Hh. destruct (holds_evolves _ (set_sch s1 k) (set_sch s' k) id kd eq_refl
        (restate_evolves (fun _ => False) _ _ _ R) Hh) as [(t & sl & nd & b & T & G & Rv)|(? & ? & [] & _)].
      cbn [sch set_sch] in T. rewrite T1 in T. case_decide; [|by exists t, sl, nd, b].
      apply (inj Some) in T as <-. cbn in G. by rewrite cspace_get_new in G.
    + intros (t & sl & nd & b & T & G & Rv).
      assert (Ht : task_of s1 id = Some t) by (rewrite T1, decide_False; [done|congruence]).
      destruct R as [_ R]. eexists _, sl, nd, b. cbn [sch set_sch]. by rewrite R, Ht.
Qed.
End start.

(** What [nic] of [boot_caps] and the idle task's id are. *)
Definition boot_nic (cfg : Z -> Z) (nic : option (Z * Z)) (idle : Z) : Prop :=
  match nic with
  | None => idle = 6
  | Some (line, page) => idle = 8 /\
      exists card, find_device cfg 0x10EC 0x8139 = Some card /\ line = interrupt_line cfg card
  end.

Lemma spawn_all_ok debug cfg k :
  booting [] 1 k -> ns_endpoint k = None -> zlen (endpoints (kipc k)) = 0 ->
  spawn_all debug cfg k = spawn_all false cfg k /\
  forall k', spawn_all debug cfg k = Ok k' ->
    exists n nic, booting (boot_caps nic) n k' /\ boot_nic cfg nic n.
Proof.
  intros B Ns Ne. unfold spawn_all.
  destruct (nameservice_ok debug k B Ns Ne) as [<- H1].
  destruct (spawn_nameservice debug k) as [k1|]; [|by split].
  pose proof (H1 k1 eq_refl) as B1. destruct (console_ok debug _ k1 B1) as [<- H2].
  destruct (spawn_console_server debug k1) as [k2|]; [|by split].
  pose proof (H2 k2 eq_refl) as B2.
  assert (Hp : Forall is_u16 STORAGE_ATA_PORTS) by (repeat constructor; unfold is_u16; lia).
  destruct (spawn_server k2 2 STORAGE_ATA_PORTS 3) as [k3|] eqn:E3; [|by split].
  pose proof (server_ok _ 3 k2 2 _ k3 B2 ltac:(lia) Hp E3) as B3.
  destruct (spawn_server k3 3 [] 4) as [k4|] eqn:E4; [|by split].
  pose proof (server_ok _ 4 k3 3 [] k4 B3 ltac:(lia) ltac:(constructor) E4) as B4.
  destruct (spawn_server k4 4 [] 5) as [k5|] eqn:E5; [|by split].
  pose proof (server_ok _ 5 k4 4 [] k5 B4 ltac:(lia) ltac:(constructor) E5) as B5.
  destruct (nic_ok debug cfg _ k5 B5) as [<- H6].
  destruct (spawn_net_rtl8139 debug cfg k5 5) as [[k6 [id|]]|]; [| |by split].
  - destruct (H6 k6 _ eq_refl) as (-> & card & page & Ec & B6). split; [done|]. intros k' E.
    destruct (spawn_netstack k6 6) as [[k7 id]|] eqn:E7; [|done]. injection E as <-.
    destruct (netstack_ok _ k6 6 k7 id B6 E7) as (B7 & _).
    exists 8, (Some (interrupt_line cfg card, page)). rewrite <- !app_assoc in B7. split; [done|].
    split; [done|]. by exists card.
  - pose proof (H6 k6 _ eq_refl) as B6. split; [done|]. intros k' [= <-]. exists 6, None. split; [|done].
    by rewrite <- !app_assoc in B6.
Qed.

Lemma boot_nic_range cfg nic n : boot_nic cfg nic n -> 2 <= n < U32_MAX.
Proof. destruct nic as [[l p]|]; [intros [-> _]|intros ->]; by split. Qed.

(** A boot that gets through: the state, and that debug assertions change nothing. *)
Lemma kernel_main_ok debug cfg m lo kernel_end pd raw entry k idle :
  boot_image m lo kernel_end pd ->
  kernel_main debug cfg m lo kernel_end pd raw entry = Ok (k, idle) ->
  kernel_wf idle k /\ current (sch k) = Some 1 /\ pending_sends (kipc k) = [] /\ isolated k /\
  exists nic, boot_nic cfg nic idle /\ forall id kd, holds k id kd <-> (id, kd) ∈ boot_caps nic.
Proof.
  intros Bi E. unfold kernel_main in E.
  destruct (boot_memory m pd kernel_end raw) as [[[m' b] n]|] eqn:Em; [|done].
  pose proof (boot_kernel_booting m lo kernel_end pd raw m' b n Bi Em) as B.
  destruct (spawn_all_ok debug cfg _ B eq_refl eq_refl) as [_ H].
  destruct (spawn_all debug cfg _) as [k1|]; [|done].
  destruct (H k1 eq_refl) as (n1 & nic & B1 & Hn1).
  destruct (start_ok _ n1 k1 entry B1) as (k' & Es & W & C & P & I & Au).
  { by eapply boot_nic_range. }
  rewrite Es in E. injection E as <- <-. split_and!; try done. by exists nic.
Qed.

(** ** A small system for the witnesses *)

(** The machine of [Paging.ex_mem] with one user task and the idle task: the task has
    an inbox at slot 1 and, at slot 2, one page of memory. *)
Definition ex_boot : res (kernel * Z) :=
  let k := boot_kernel ex_mem ex_frames 0 0x2000 0x1000 1 0x100 in
  let* (k, id) := spawn_or_panic k 0 [0x60] in
  let* (k, _, _) := give_inbox k id in
  let* (k, _) := grant k id (MemoryGrant VGA_BUFFER_PHYS VGA_BUFFER_LEN true) in
  spawn_idle_and_start k 0.

Lemma ex_boot_ok : exists k, ex_boot = Ok (k, 2) /\ kernel_wf 2 k /\ current (sch k) = Some 1 /\
  pending_sends (kipc k) = [].
Proof.
  assert (Es : match spawn_or_panic (boot_kernel ex_mem ex_frames 0 0x2000 0x1000 1 0x100) 0 [0x60] with
               | Ok _ => true | Panicked _ => false end = true) by (vm_compute; reflexivity).
  unfold ex_boot. set (k0 := boot_kernel _ _ _ _ _ _ _) in *.
  assert (B0 : booting [] 1 k0).
  { apply boot_kernel_wf; [apply ex_vm_wf|done| |unfold outside, VGA_BUFFER_PHYS; cbn; lia].
    exists 0xB8. split; [done|]. cbn. lia. }
  unfold spawn_or_panic in *.
  destruct (spawn_from_module k0 0 [0x60]) as [[k1 [id|]]|] eqn:E; [|done|done]. cbn [expect].
  destruct (booting_spawn _ 1 k0 0 [0x60] k1 (Some id) B0) as (_ & _ & -> & B1 & t & T & _);
    [unfold U32_MAX; lia|repeat constructor; unfold is_u16; lia|exact E|].
  destruct (booting_inbox _ 2 k1 1 t B1 T) as (k2 & t2 & -> & B2 & T2 & _).
  destruct (booting_grant _ 2 k2 1 t2 (MemoryGrant VGA_BUFFER_PHYS VGA_BUFFER_LEN true) B2 T2)
    as (k3 & t3 & -> & B3 & _); [intros base len w [= <- <- <-]; split; apply B2|].
  destruct (start_ok _ 2 k3 0 B3) as (k' & -> & W & C & P & _); [unfold U32_MAX; lia|].
  exists k'. split; [reflexivity|]. split; [exact W|]. split; [exact C|exact P].
Qed.

Definition ex_system : kernel :=
  match ex_boot with Ok (k, _) => k | Panicked _ => boot_kernel ex_mem ex_frames 0 0x2000 0x1000 1 0x100 end.

Lemma ex_system_wf : kernel_wf 2 ex_system.
Proof. destruct ex_boot_ok as (k & E & W & _). unfold ex_system. rewrite E. exact W. Qed.

Lemma ex_system_current : current (sch ex_system) = Some 1.
Proof. destruct ex_boot_ok as (k & E & _ & C & _). unfold ex_system. rewrite E. exact C. Qed.

(** Task 1 about to make a syscall. *)
Definition ex_call (num a1 a2 : Z) : kernel := enter 1 (SavedRegs num a1 a2 0 0 0 0) ex_system.

Lemma ex_call_wf num a1 a2 : kernel_wf 2 (ex_call num a1 a2).
Proof. apply kernel_wf_regs, ex_system_wf. Qed.

(** The interrupt lines boot gives control of; nothing it hands out resets the machine. *)
Lemma boot_line cfg nic idle id kd :
  boot_nic cfg nic idle -> (id, kd) ∈ boot_caps nic ->
  match kd with
  | IrqControl irq _ => irq = 1 \/ exists card, find_device cfg 0x10EC 0x8139 = Some card /\ irq = interrupt_line cfg card
  | RebootControl => False
  | _ => True
  end.
Proof.
  intros Hn Hh. unfold boot_caps, server_caps in Hh. destruct kd as [|? ? ?|irq e|]; try done.
  - destruct nic as [[line page]|]; cbn in Hh;
      repeat (apply elem_of_cons in Hh as [Hh|Hh]; [try discriminate Hh; injection Hh as -> -> ->; auto|]);
      try (by apply elem_of_nil in Hh).
    destruct Hn as [_ Hn]. by right.
  - destruct nic as [[line page]|]; cbn in Hh;
      repeat (apply elem_of_cons in Hh as [Hh|Hh]; [discriminate Hh|]); by apply elem_of_nil in Hh.
Qed.

(** ** Theorems *)

(** C1: every state the running system can reach satisfies the kernel invariant: from
    a boot that got through, any sequence of syscalls with any registers, timer and
    device interrupts, ring-3 faults and ring-3 stores keeps the scheduler, the blocked
    tasks, the capability table, every page table and every memory grant consistent. *)
Theorem reachable_wf debug cfg m lo kernel_end pd raw entry k idle k' :
  boot_image m lo kernel_end pd ->
  kernel_main debug cfg m lo kernel_end pd raw entry = Ok (k, idle) ->
  steps (kstep idle) k k' -> kernel_wf idle k'.
Proof.
  intros B E S. destruct (kernel_main_ok _ _ _ _ _ _ _ _ _ _ B E) as (W & _).
  by eapply kernel_wf_steps.
Qed.

(** C23: in the production build nobody ever holds [RebootControl], so no task can reset
    the machine through [SYS_REBOOT], and the only interrupt lines a task can ever
    control are the keyboard's and the network card's, however capabilities are passed
    around. *)
Theorem control_never_appears debug cfg m lo kernel_end pd raw entry k idle k' :
  boot_image m lo kernel_end pd ->
  kernel_main debug cfg m lo kernel_end pd raw entry = Ok (k, idle) ->
  steps (kstep idle) k k' ->
  (forall id, ~ holds k' id RebootControl) /\
  (forall id irq ep, holds k' id (IrqControl irq ep) ->
     irq = 1 \/ exists nic, find_device cfg 0x10EC 0x8139 = Some nic /\ irq = interrupt_line cfg nic).
Proof.
  intros B E S. destruct (kernel_main_ok _ _ _ _ _ _ _ _ _ _ B E) as (W & _ & Ps & _ & nic & Hn & Au).
  assert (Nf : forall kd, ~ in_flight k kd) by (intros kd (n & b & (s & Hs & _) & _); rewrite Ps in Hs; set_solver).
  set (line := fun irq => irq = 1 \/ exists nic, find_device cfg 0x10EC 0x8139 = Some nic /\ irq = interrupt_line cfg nic).
  set (P := fun kd => match kd with RebootControl => True | IrqControl irq _ => ~ line irq | _ => False end).
  assert (N : nobody_has P k).
  { intros kd Hp. split; [|apply Nf]. intros id Hh. apply Au in Hh.
    destruct kd; try done; [|by destruct (boot_line cfg nic idle id RebootControl Hn Hh)]. apply Hp.
    exact (boot_line cfg nic idle id _ Hn Hh). }
  assert (N' : nobody_has P k').
  { eapply nobody_has_steps; [|exact S|exact W|exact N]. intros [| | |]; done. }
  split; [intros id; by apply (N' RebootControl I)|]. intros id irq ep Hh.
  assert (D : irq = 1 \/ irq <> 1) by lia. destruct D as [->|Hne]; [by left|]. right.
  destruct (find_device cfg 0x10EC 0x8139) as [card|] eqn:Ef.
  - exists card. split; [done|]. destruct (decide (irq = interrupt_line cfg card)) as [|Hx]; [done|].
    destruct (N' (IrqControl irq ep)) as [N1 _]; [|by apply N1 in Hh].
    intros [?|(card' & [= <-] & ?)]; done.
  - destruct (N' (IrqControl irq ep)) as [N1 _]; [|by apply N1 in Hh].
    by intros [?|(card' & ? & ?)].
Qed.

(** C24: what boot hands out, exactly.  A task holds a capability after boot if and only
    if [boot_caps] lists it: every server its inbox and the name service's endpoint, the
    console driver (task 2) also the text buffer and the keyboard line, the network driver
    (task 6, when there is one) also the card's line and one read-only page.  The name
    service runs first, and the idle task has the last id. *)
Theorem boot_grants debug cfg m lo kernel_end pd raw entry k idle :
  boot_image m lo kernel_end pd ->
  kernel_main debug cfg m lo kernel_end pd raw entry = Ok (k, idle) ->
  current (sch k) = Some 1 /\
  exists nic, boot_nic cfg nic idle /\ forall id kd, holds k id kd <-> (id, kd) ∈ boot_caps nic.
Proof.
  intros B E. by destruct (kernel_main_ok _ _ _ _ _ _ _ _ _ _ B E) as (_ & C & _ & _ & H).
Qed.

(** C4: memory is isolated in every state the running system can reach.  What the code of
    an address space reaches is no page of the kernel image and no page table, and it is
    covered by a memory grant of the capability table, with write access only if the grant
    has it, or else no other address space reaches any byte of its page.  A store by the
    running task changes one byte it reaches, writable, and no translation of any address
    space. *)
Theorem memory_isolated debug cfg m lo kernel_end pd raw entry k0 idle k :
  boot_image m lo kernel_end pd ->
  kernel_main debug cfg m lo kernel_end pd raw entry = Ok (k0, idle) ->
  steps (kstep idle) k0 k ->
  (forall p va x w, reaches k p va x w ->
     outside (kimg k) (frame_base x) /\ ~ is_table (kmem k) (user_pds k) (frame_base x) /\
     (granted k x w \/ private k p x)) /\
  (forall c t va v k', current (sch k) = Some c -> c <> idle -> task_of (sch k) c = Some t ->
     is_u32 va -> is_u8 v -> user_store k va v = Some k' ->
     exists x, reaches k (page_dir_phys t) va x true /\ kmem k' x = v /\
       (forall y, y <> x -> kmem k' y = kmem k y) /\
       forall p va', p ∈ user_pds k -> is_u32 va' -> translate (kmem k') p va' = translate (kmem k) p va').
Proof.
  intros B E S. destruct (kernel_main_ok _ _ _ _ _ _ _ _ _ _ B E) as (W0 & _ & _ & I0 & _).
  pose proof (kernel_wf_steps idle k0 k S W0) as W. pose proof (isolated_steps idle k0 k S W0 I0) as I. split.
  - intros p va x w Re. split_and!; [..|by apply (I _ _ _ _ Re)]; destruct Re as (Hp & Hva & T);
      by destruct (user_translation_page _ _ _ _ _ _ _ _ (kw_vm _ _ W) Hp Hva T) as (_ & ? & ?).
  - intros c t va v k' C Hc T Hva Hv Es. by eapply user_store_reaches.
Qed.

(** no debug assertion of [kernel_main] can fail: each inbox, the text buffer, the
    interrupt controls and the network driver's page land in the slots the programs
    assume, so a debug build boots exactly as the release build does. *)
Theorem debug_assertions_hold cfg m lo kernel_end pd raw entry :
  boot_image m lo kernel_end pd ->
  kernel_main true cfg m lo kernel_end pd raw entry = kernel_main false cfg m lo kernel_end pd raw entry.
Proof.
  intros B. unfold kernel_main.
  destruct (boot_memory m pd kernel_end raw) as [[[m' b] n]|] eqn:Em; [|done].
  pose proof (boot_kernel_booting m lo kernel_end pd raw m' b n B Em) as Bk.
  by destruct (spawn_all_ok true cfg _ Bk eq_refl eq_refl) as [-> _].
Qed.

Lemma page_directory_new_frame m b pd m' b' p :
  page_directory_new m b pd = Ok (m', b', p) -> alloc_or_panic b = Ok (b', p).
Proof.
  unfold page_directory_new. destruct (alloc_or_panic b) as [[b1 f]|]; [|done].
  generalize (copy_pdes (Z.to_nat (1024 - KERNEL_VMA_PDE_INDEX)) (zero_frame m f) f pd
                KERNEL_VMA_PDE_INDEX). intros m2 E. by injection E as <- <- <-.
Qed.

(** The page directory of the smoke test takes the frame right after the image. *)
Lemma page_directory_zeroes m b pd m' b' p j :
  mem_ok m -> pd mod FRAME_SIZE = 0 -> p <> pd -> p mod FRAME_SIZE = 0 ->
  page_directory_new m b pd = Ok (m', b', p) -> 0 <= j < KERNEL_VMA_PDE_INDEX ->
  load32 m' (p + 4 * j) = 0.
Proof.
  intros M Hpd Hne Hp E Hj. unfold page_directory_new in E.
  assert (KI := KERNEL_VMA_PDE_INDEX_eq).
  destruct (alloc_or_panic b) as [[b1 f]|]; [|done].
  pose proof (copy_pdes_spec (Z.to_nat (1024 - KERNEL_VMA_PDE_INDEX)) (zero_frame m f) f pd
                KERNEL_VMA_PDE_INDEX) as L. revert E L.
  generalize (copy_pdes (Z.to_nat (1024 - KERNEL_VMA_PDE_INDEX)) (zero_frame m f) f pd
                KERNEL_VMA_PDE_INDEX). intros m2 E L. injection E as <- <- <-.
  destruct L as (_ & _ & L); [done|done|done|by apply zero_frame_ok|lia|lia|].
  rewrite L, decide_False by lia. rewrite load32_zero_word, decide_True by (done || lia). done.
Qed.

(** the smoke test runs before the modules are reserved, so what a module loaded
    right after the kernel image held is gone: if boot gets as far as the first spawn,
    the first 3072 bytes of that frame are zero. *)
Theorem smoke_test_zeroes_first_frame m lo kernel_end pd raw m' b n j :
  boot_image m lo kernel_end pd -> boot_memory m pd kernel_end raw = Ok (m', b, n) ->
  0 <= j < KERNEL_VMA_PDE_INDEX ->
  load32 m' (div_ceil kernel_end FRAME_SIZE * FRAME_SIZE + 4 * j) = 0.
Proof.
  intros B E Hj. unfold boot_memory in E.
  destruct (total_memory_bytes m pd raw) as [[total|]|] eqn:Et; cbn [expect] in E; try done.
  assert (Ht : is_u32 total).
  { unfold total_memory_bytes in Et. res_inv Et. destruct (Z.land _ FLAG_MEM =? 0); [done|]. res_inv Et.
    unfold is_u32, wrap. dlia. }
  destruct (frame_init kernel_end total) as [b0|] eqn:Ef; [|done].
  destruct (paging_init m pd total) as [m0|] eqn:Ep; [|done].
  destruct (boot_vm_wf m lo kernel_end pd total b0 m0 B Ht Ef Ep) as (V & Cb & _).
  destruct (frame_init_ok kernel_end total (bi_end _ _ _ _ B) Ht) as (b0' & E0 & Wb & _ & Ub).
  rewrite Ef in E0. injection E0 as <-.
  destruct (frame_and_paging_smoke_test m0 b0 pd) as [[m1 b1]|] eqn:Es; [|done].
  destruct (reserve_all_modules m1 b1 pd raw); [|done]. injection E as <- _ _.
  unfold frame_and_paging_smoke_test in Es.
  destruct (alloc_free_smoke b0 Wb) as [(b2 & f & E1 & E2)|[E1|H]].
  { by rewrite E1, E2 in Es. } { by rewrite E1 in Es. }
  destruct H as (b2 & b3 & b4 & b5 & b6 & b7 & f1 & f2 & E1 & E2 & N & E3 & E4 & E5 & E6 & Sf & Hc).
  rewrite E1, E2 in Es. replace (f1 =? f2) with false in Es by lia. cbn [negb assert_] in Es.
  rewrite E3, E4, Z.eqb_refl in Es. cbn [assert_] in Es. rewrite E5, E6 in Es.
  destruct (page_directory_new m0 b7 pd) as [[[m2 b8] p]|] eqn:Epd; [|done].
  injection Es as <- <-. destruct Sf as (Cf & Wf & Uf).
  assert (Hp : p = div_ceil kernel_end FRAME_SIZE * FRAME_SIZE).
  { apply page_directory_new_frame in Epd.
    destruct (alloc_or_panic_spec b7 Wf) as [Ea|(b9 & f & Ea & R & U & L & _)]; rewrite Ea in Epd; [done|].
    injection Epd as _ <-. f_equal. pose proof (bi_end _ _ _ _ B) as Hk. unfold is_u32 in Hk.
    rewrite Uf, Ub in U by lia. apply bool_decide_eq_false in U.
    destruct (decide (f = 0)) as [->|Hf0].
    { unfold FRAME_SIZE in *. pose proof (bi_pd _ _ _ _ B). pose proof (bi_lo _ _ _ _ B). lia. }
    specialize (L (f - 1) ltac:(lia)). rewrite Uf, Ub in L by lia. apply bool_decide_eq_true in L.
    unfold div_ceil, FRAME_SIZE in *. dlia. }
  rewrite <- Hp. eapply page_directory_zeroes; [apply V|apply B| | |exact Epd|done].
  - intros ->. pose proof (bi_pd _ _ _ _ B) as [? _]. unfold div_ceil, FRAME_SIZE in *. dlia.
  - rewrite Hp. apply Z.mod_mul. done.
Qed.

(** ** Witnesses *)

(** *** A whole boot: 4 MiB of memory, the image in three frames, five modules, no
    network card. *)

Definition machine_words : list (Z * Z * Z) :=
  [(0x101000, 0, PAGE_PRESENT_RW_4M); (0x101000, KERNEL_VMA_PDE_INDEX, PAGE_PRESENT_RW_4M);
   (0x9000, 0, 9); (0x9000, 2, 3072); (0x9000, 5, 5); (0x9000, 6, 0xA000)] ++
  concat (map (fun i => [(0xA000, 4 * i, 0x200000 + 4096 * i); (0xA000, 4 * i + 1, 0x200010 + 4096 * i)])
            [0; 1; 2; 3; 4]).

Definition machine : mem :=
  fold_right (fun '(p, i, v) m => store32 m (p + 4 * i) v) (fun _ => 0) machine_words.

Definition no_card (address : Z) : Z := U32_MAX.

Lemma machine_image : boot_image machine 0x100000 0x103000 0x101000.
Proof.
  assert (KI := KERNEL_VMA_PDE_INDEX_eq).
  split; try done; try (unfold is_u32; lia).
  - unfold machine. induction machine_words as [|[[p i] v] l IH]; [done|]. by apply store32_ok.
  - intros i Hi. rewrite KI. unfold pde_at, machine, machine_words. rewrite KI.
    cbn [fold_right app concat map]. rewrite !load32_store_word by (done || lia).
    repeat case_decide; repeat case_match; bool_simp; try done; lia.
Qed.

Abbreviation booted :=
  (kernel_main true no_card machine 0x100000 0x103000 0x101000 0x9000 0xC0100000).

Lemma machine_boots : is_ok booted = true.
Proof. vm_compute. reflexivity. Qed.

Lemma booted_ok : exists k idle, booted = Ok (k, idle).
Proof. pose proof machine_boots. destruct booted as [[k idle]|]; [by eauto|done]. Qed.

Lemma reachable_wf_witness : exists k idle, booted = Ok (k, idle) /\ kernel_wf idle k.
Proof.
  destruct booted_ok as (k & idle & E). exists k, idle. split; [exact E|].
  apply (reachable_wf true no_card machine 0x100000 0x103000 0x101000 0x9000 0xC0100000 k idle k);
    [exact machine_image|exact E|exact (steps_refl _ _)].
Defined.

Lemma control_never_appears_witness :
  exists k idle, booted = Ok (k, idle) /\ forall id, ~ holds k id RebootControl.
Proof.
  destruct booted_ok as (k & idle & E). exists k, idle. split; [exact E|].
  apply (control_never_appears true no_card machine 0x100000 0x103000 0x101000 0x9000 0xC0100000 k idle k);
    [exact machine_image|exact E|exact (steps_refl _ _)].
Defined.

Lemma boot_grants_witness : exists k idle, booted = Ok (k, idle) /\ current (sch k) = Some 1.
Proof.
  destruct booted_ok as (k & idle & E). exists k, idle. split; [exact E|].
  apply (boot_grants true no_card machine 0x100000 0x103000 0x101000 0x9000 0xC0100000 k idle);
    [exact machine_image|exact E].
Defined.

Lemma memory_isolated_witness :
  exists k idle, booted = Ok (k, idle) /\ forall p va x w, reaches k p va x w -> granted k x w \/ private k p x.
Proof.
  destruct booted_ok as (k & idle & E). exists k, idle. split; [exact E|].
  destruct (memory_isolated true no_card machine 0x100000 0x103000 0x101000 0x9000 0xC0100000 k idle k
    machine_image E (steps_refl _ _)) as [H _].
  intros p va x w Re. apply (H p va x w Re).
Defined.

Lemma debug_assertions_hold_witness :
  booted = kernel_main false no_card machine 0x100000 0x103000 0x101000 0x9000 0xC0100000.
Proof. apply (debug_assertions_hold no_card machine 0x100000), machine_image. Defined.

Lemma machine_memory_ok : is_ok (boot_memory machine 0x101000 0x103000 0x9000) = true.
Proof. vm_compute. reflexivity. Qed.

Lemma smoke_test_zeroes_first_frame_witness :
  exists m b n, boot_memory machine 0x101000 0x103000 0x9000 = Ok (m, b, n) /\ load32 m 0x103000 = 0.
Proof.
  pose proof machine_memory_ok as H.
  destruct (boot_memory machine 0x101000 0x103000 0x9000) as [[[m b] n]|] eqn:E; [|discriminate H].
  exists m, b, n. split; [reflexivity|].
  apply (smoke_test_zeroes_first_frame machine 0x100000 0x103000 0x101000 0x9000 m b n 0);
    [exact machine_image|exact E|]. rewrite KERNEL_VMA_PDE_INDEX_eq. lia.
Defined.

(** *** The small system under the theorems of [Kernel] *)

Lemma ex_system_next : next_id (sch ex_system) = 3.
Proof. vm_compute. reflexivity. Qed.

Lemma sch_enter c r k : sch (enter c r k) = sch k.
Proof. reflexivity. Qed.

Lemma ex_call_current num a1 a2 : current (sch (ex_call num a1 a2)) = Some 1.
Proof. unfold ex_call. rewrite sch_enter. exact ex_system_current. Qed.

Lemma ex_call_task num a1 a2 t :
  task_of (sch ex_system) 1 = Some t -> task_of (sch (ex_call num a1 a2)) 1 = Some t.
Proof. unfold ex_call. by rewrite sch_enter. Qed.

Lemma ex_call_next num a1 a2 : next_id (sch (ex_call num a1 a2)) < U32_MAX.
Proof. unfold ex_call. rewrite sch_enter, ex_system_next. unfold U32_MAX. lia. Qed.

Lemma ex_call_regs num a1 a2 :
  is_u32 num -> is_u32 a1 -> is_u32 a2 -> regs_u32 (regs (ex_call num a1 a2) 1).
Proof. intros H1 H2 H3. unfold regs_u32. cbn. unfold is_u32 in *. lia. Qed.

(** [SYS_MEM_ALLOC] of one page at 5 MiB, [SYS_CREATE_TASK] of module 0. *)
Abbreviation ex_alloc := (ex_call SYS_MEM_ALLOC 0x500000 1).
Abbreviation ex_create := (ex_call SYS_CREATE_TASK 0 0).

Lemma ex_alloc_returns :
  match syscall_with_heap true ex_alloc 1 with Ok (Returned _) => true | _ => false end = true.
Proof. vm_compute. reflexivity. Qed.

Lemma syscall_outcomes_witness :
  exists k', syscall_with_heap true ex_alloc 1 = Ok (Returned k') /\ kernel_wf 2 k'.
Proof.
  pose proof ex_alloc_returns as R.
  pose proof (syscall_outcomes 2 true ex_alloc 1 (ex_call_wf _ _ _) (ex_call_current _ _ _) ltac:(lia)) as H.
  destruct (syscall_with_heap true ex_alloc 1) as [[k'|]|]; [|discriminate R|discriminate R].
  exists k'. split; [reflexivity|]. apply H.
  - apply ex_call_next.
  - apply ex_call_regs; unfold is_u32; vm_compute; split; congruence.
Defined.

Lemma authority_confined_witness :
  exists k', kstep 2 ex_system k' /\ forall id, holds k' id RebootControl ->
    holds ex_system id RebootControl \/ in_flight ex_system RebootControl \/
    exists c, current (sch ex_system) = Some c /\
      (holds ex_system c RebootControl \/ new_kind ex_system c id RebootControl).
Proof.
  destruct (timer_ok ex_system 2 (kw_ipc _ _ ex_system_wf)) as (k' & E & _).
  assert (S : kstep 2 ex_system k')
    by (apply step_timer; [rewrite ex_system_current; discriminate|exact E]).
  exists k'. split; [exact S|]. intros id.
  destruct (authority_confined 2 ex_system k' ex_system_wf S) as [H _]. apply H.
Defined.

Lemma ex_system_task : exists t, task_of (sch ex_system) 1 = Some t.
Proof.
  destruct (current_user_task 2 ex_system 1 ex_system_wf ex_system_current ltac:(lia)) as (t & T & _).
  by exists t.
Qed.

Lemma ex_alloc_slot :
  match sys_mem_alloc ex_alloc 1 with Ok k => negb (eax (regs k 1) =? 0) | Panicked _ => false end = true.
Proof. vm_compute. reflexivity. Qed.

Lemma mem_alloc_correct_witness :
  exists k' t, sys_mem_alloc ex_alloc 1 = Ok k' /\
    translate (kmem k') (page_dir_phys t) 0x500abc = Some (Translation (ecx (regs k' 1) + 0xabc) true true).
Proof.
  destruct ex_system_task as [t T]. pose proof ex_alloc_slot as R.
  destruct (sys_mem_alloc ex_alloc 1) as [k'|] eqn:E; [|discriminate R].
  apply negb_true_iff, Z.eqb_neq in R. exists k', t. split; [reflexivity|].
  destruct (mem_alloc_correct 2 ex_alloc 1 t k' (ex_call_wf _ _ _) (ex_call_current _ _ _) ltac:(lia)
              (ex_call_task _ _ _ t T))
    as (_ & _ & H & _); [|exact E|exact R|].
  - apply ex_call_regs; unfold is_u32; vm_compute; split; congruence.
  - apply (H 0x500abc). vm_compute. split; congruence.
Defined.

Lemma ex_system_grant :
  resolve_current_cap ex_system 2 = Ok (Some (MemoryGrant VGA_BUFFER_PHYS VGA_BUFFER_LEN true, 0)).
Proof. vm_compute. reflexivity. Qed.

Lemma map_memory_correct_witness :
  exists t, task_of (sch ex_system) 1 = Some t /\
    (sys_map_memory ex_system VGA_BUFFER_PHYS 0x600000 VGA_BUFFER_LEN true = Panicked OutOfPhysicalMemory \/
     sys_map_memory ex_system VGA_BUFFER_PHYS 0x600000 VGA_BUFFER_LEN true = Ok (ex_system, ERR) \/
     exists k', sys_map_memory ex_system VGA_BUFFER_PHYS 0x600000 VGA_BUFFER_LEN true = Ok (k', 0) /\
       translate (kmem k') (page_dir_phys t) 0x600000 = Some (Translation VGA_BUFFER_PHYS true true)).
Proof.
  destruct ex_system_task as [t T]. exists t. split; [exact T|].
  destruct (map_memory_correct 2 ex_system 1 t 2 VGA_BUFFER_PHYS VGA_BUFFER_LEN true 0 0x600000
    ex_system_wf ex_system_current ltac:(lia) T ex_system_grant) as [H|[H|(k' & E & _ & H & _)]].
  - unfold is_u32. lia.
  - left. exact H.
  - right. left. exact H.
  - right. right. exists k'. split; [exact E|]. apply (H 0x600000). vm_compute. split; congruence.
Defined.

Lemma ex_create_unmapped : translate (kmem ex_create) (cr3 (scpu (sch ex_create))) (mb_info ex_create) = None.
Proof. vm_compute. reflexivity. Qed.

Lemma create_task_faults_witness : syscall_dispatch ex_create 1 = Panicked KernelPageFault.
Proof. apply (create_task_faults ex_create 1 (ex_call_current _ _ _) eq_refl ex_create_unmapped). Defined.

(** Task 1 spawns the first sixteen bytes of the page it was granted. *)
Lemma ex_collects : collect_grants ex_system [2; 0; 0; 0] = Ok (Some [VGA_BUFFER_PHYS]).
Proof. vm_compute. reflexivity. Qed.

Lemma ex_spawns :
  match spawn_from_memory ex_system [VGA_BUFFER_PHYS] 16 with
  | Ok (_, Some id) => id =? 3
  | _ => false
  end = true.
Proof. vm_compute. reflexivity. Qed.

Lemma spawned_program_is_the_grants_witness :
  exists k' t, spawn_from_memory ex_system [VGA_BUFFER_PHYS] 16 = Ok (k', Some 3) /\
    task_of (sch k') 3 = Some t.
Proof.
  pose proof ex_spawns as R.
  destruct (spawn_from_memory ex_system [VGA_BUFFER_PHYS] 16) as [[k' [id|]]|] eqn:Es;
    [|discriminate R|discriminate R].
  apply Z.eqb_eq in R. rewrite R in *.
  destruct (spawned_program_is_the_grants 2 ex_system 1 2 0 0 0 [VGA_BUFFER_PHYS] 16 k' 3
    ex_system_wf ex_system_current) as (t & T & _).
  - lia.
  - rewrite ex_system_next. unfold U32_MAX. lia.
  - unfold is_u32. lia.
  - exact ex_collects.
  - exact Es.
  - exists k', t. split; [reflexivity|exact T].
Defined.
