(* ===== verification/Libpcern.v ===== *)
(** * The userland system-call library (userland/libpcern/src/lib.rs)

    A userland program is a tree of system calls: each call carries the six
    words [syscall_raw_asm] loads into registers, and continues with the six
    registers it reads back.  A panic of the program ends the tree. *)

From stdpp Require Import base list numbers.
From Stdlib Require Import Lia.
From S2P Require Import Prelude.
Open Scope Z_scope.

(** ** Programs *)

(** The arguments of [syscall_raw]: [eax], [ebx], [ecx], [edx], [esi], [edi]. *)
Record sys_args := SysArgs { num : Z; a1 : Z; a2 : Z; a3 : Z; a4 : Z; a5 : Z }.

#[export] Instance sys_args_eq_dec : EqDecision sys_args.
Proof. solve_decision. Defined.

(** [struct RawResult] *)
Record raw_result := RawResult {
  r_eax : Z; r_ebx : Z; r_ecx : Z; r_edx : Z; r_esi : Z; r_edi : Z
}.

Inductive prog (A : Type) :=
| Ret (a : A)
| Sys (c : sys_args) (k : raw_result -> prog A)
| Stop (p : panic).
Arguments Ret {A} a.
Arguments Sys {A} c k.
Arguments Stop {A} p.

#[export] Instance prog_ret : MRet prog := @Ret.

#[export] Instance prog_bind : MBind prog := fun A B f =>
  fix go (p : prog A) : prog B :=
    match p with
    | Ret a => f a
    | Sys c k => Sys c (fun r => go (k r))
    | Stop e => Stop e
    end.

(** A pure computation that may panic, inside a program. *)
Definition lift {A} (r : res A) : prog A :=
  match r with Ok a => Ret a | Panicked p => Stop p end.

(** What a program does: the calls it makes, with the answers it gets, and its result. *)
Inductive exec {A} : prog A -> list (sys_args * raw_result) -> A -> Prop :=
| exec_ret a : exec (Ret a) [] a
| exec_sys c k r t a : exec (k r) t a -> exec (Sys c k) ((c, r) :: t) a.

(** The same as a function: the answers in, the calls out; [None] when the program
    panics or the answers run out. *)
Fixpoint run {A} (answers : list raw_result) (p : prog A) : option (A * list sys_args) :=
  match p with
  | Ret a => Some (a, [])
  | Stop _ => None
  | Sys c k =>
      match answers with
      | [] => None
      | r :: rs => match run rs (k r) with Some (a, cs) => Some (a, c :: cs) | None => None end
      end
  end.

(** A program that panics on no sequence of answers. *)
Inductive safe {A} : prog A -> Prop :=
| safe_ret a : safe (Ret a)
| safe_sys c k : (forall r, safe (k r)) -> safe (Sys c k).

(** [p] does not panic, and whatever the answers are, its calls and its result satisfy [Q]. *)
Fixpoint wp {A} (p : prog A) (Q : list (sys_args * raw_result) -> A -> Prop) : Prop :=
  match p with
  | Ret a => Q [] a
  | Sys c k => forall r, wp (k r) (fun t a => Q ((c, r) :: t) a)
  | Stop _ => False
  end.

(** ** System calls *)

Definition SYS_EXIT : Z := 0.
Definition SYS_YIELD : Z := 1.
Definition SYS_SEND : Z := 2.
Definition SYS_RECV : Z := 3.
Definition SYS_GETPID : Z := 4.
Definition SYS_REGISTER_IRQ : Z := 6.
Definition SYS_MAP_MEMORY : Z := 7.
Definition SYS_CREATE_TASK : Z := 8.
Definition SYS_ENDPOINT_CREATE : Z := 9.
Definition SYS_CAP_MINT_BADGED : Z := 10.
Definition SYS_CAP_REVOKE : Z := 11.
Definition SYS_MEM_ALLOC : Z := 12.
Definition SYS_SPAWN_FROM_MEMORY : Z := 13.
Definition SYS_REBOOT : Z := 14.
Definition SYS_TRY_RECV : Z := 15.

Definition KERNEL_TASK_ID : Z := 0.
Definition NAMESERVICE_SLOT : Z := 1.
Definition NO_MESSAGE : Z := U32_MAX.
Definition TRY_RECV_ERR : Z := U32_MAX - 1.

Definition as_i32 (v : Z) : Z := if v <? 2 ^ 31 then v else v - 2 ^ 32.

Definition syscall_raw (n b c d e f : Z) : prog raw_result := Sys (SysArgs n b c d e f) Ret.

(** [exit]: the [unreachable!] after it is a panic. *)
Definition exit {A} (code : Z) : prog A :=
  _ ← syscall_raw SYS_EXIT (wrap32 code) 0 0 0 0; Stop AssertionFailed.

Definition yield_now : prog unit := _ ← syscall_raw SYS_YIELD 0 0 0 0 0; mret tt.

Definition send (dest_slot w0 w1 w2 transfer_slot : Z) : prog Z :=
  r ← syscall_raw SYS_SEND dest_slot w0 w1 w2 transfer_slot; mret (as_i32 (r_eax r)).

(** [struct RecvResult] *)
Record recv_result := RecvResult {
  sender : Z; w0 : Z; w1 : Z; w2 : Z; transferred_slot : Z
}.

(** The [RecvResult] built from the registers of a receive. *)
Definition of_raw (r : raw_result) : recv_result :=
  RecvResult (r_eax r) (r_ebx r) (r_ecx r) (r_edx r) (r_edi r).

Definition recv (endpoint_slot : Z) : prog recv_result :=
  r ← syscall_raw SYS_RECV endpoint_slot 0 0 0 0; mret (of_raw r).

Definition try_recv (endpoint_slot : Z) : prog (option recv_result) :=
  r ← syscall_raw SYS_TRY_RECV endpoint_slot 0 0 0 0;
  if r_eax r =? TRY_RECV_ERR then exit 1
  else if r_eax r =? NO_MESSAGE then mret None
  else mret (Some (of_raw r)).

Definition getpid : prog Z := r ← syscall_raw SYS_GETPID 0 0 0 0 0; mret (r_eax r).

Definition register_irq (irq_control_slot : Z) : prog Z :=
  r ← syscall_raw SYS_REGISTER_IRQ irq_control_slot 0 0 0 0; mret (as_i32 (r_eax r)).

Definition map_memory (grant_slot virt_addr : Z) : prog Z :=
  r ← syscall_raw SYS_MAP_MEMORY grant_slot virt_addr 0 0 0; mret (as_i32 (r_eax r)).

Definition mem_alloc (virt_addr : Z) : prog Z :=
  r ← syscall_raw SYS_MEM_ALLOC virt_addr 1 0 0 0; mret (r_eax r).

Definition mem_alloc_pages (virt_addr page_count : Z) : prog (Z * Z) :=
  r ← syscall_raw SYS_MEM_ALLOC virt_addr page_count 0 0 0; mret (r_eax r, r_ecx r).

Definition create_task (module_index : Z) : prog Z :=
  r ← syscall_raw SYS_CREATE_TASK module_index 0 0 0 0; mret (r_eax r).

Definition spawn_from_memory (grant_slots : list Z) (total_len : Z) : prog Z :=
  let slots := put (replicate 4 0) 0 (take 4 grant_slots) in
  r ← syscall_raw SYS_SPAWN_FROM_MEMORY (byte_at slots 0) (byte_at slots 1) (byte_at slots 2)
        (byte_at slots 3) total_len;
  mret (r_eax r).

Definition endpoint_create : prog Z :=
  r ← syscall_raw SYS_ENDPOINT_CREATE 0 0 0 0 0; mret (r_eax r).

Definition cap_mint_badged (source_slot badge : Z) : prog Z :=
  r ← syscall_raw SYS_CAP_MINT_BADGED source_slot badge 0 0 0; mret (r_eax r).

Definition cap_revoke (slot : Z) : prog unit :=
  _ ← syscall_raw SYS_CAP_REVOKE slot 0 0 0 0; mret tt.

Definition reboot (reboot_control_slot : Z) : prog unit :=
  _ ← syscall_raw SYS_REBOOT reboot_control_slot 0 0 0 0; mret tt.

(** ** Names *)

Definition NS_OP_REGISTER : Z := 1.
Definition NS_OP_LOOKUP : Z := 2.

Definition word (b : list Z) (i : Z) : Z :=
  u32_from_le (byte_at b i) (byte_at b (i + 1)) (byte_at b (i + 2)) (byte_at b (i + 3)).

(** [pack_name] *)
Definition pack_name (name : list Z) : Z * Z :=
  let buf := put (replicate 8 0) 0 (take 8 name) in (word buf 0, word buf 4).

Definition register_name (name : list Z) (my_endpoint_slot : Z) : prog unit :=
  let (n0, n1) := pack_name name in
  _ ← send NAMESERVICE_SLOT NS_OP_REGISTER n0 n1 my_endpoint_slot; mret tt.

Definition lookup_name (name : list Z) (my_inbox_slot : Z) : prog (option Z) :=
  let (n0, n1) := pack_name name in
  _ ← send NAMESERVICE_SLOT NS_OP_LOOKUP n0 n1 my_inbox_slot;
  r ← recv my_inbox_slot;
  mret (if w0 r =? 1 then Some (transferred_slot r) else None).

(** [lookup_name_retry]; [max_tries] as the loop's own count. *)
Fixpoint lookup_name_retry (name : list Z) (my_inbox_slot : Z) (max_tries : nat)
  : prog (option Z) :=
  match max_tries with
  | O => mret None
  | S n =>
      o ← lookup_name name my_inbox_slot;
      match o with
      | Some slot => mret (Some slot)
      | None => _ ← yield_now; lookup_name_retry name my_inbox_slot n
      end
  end.

(** ** Console output *)

Definition OP_PUTCHAR : Z := 0.

Fixpoint print (console_slot : Z) (s : list Z) : prog unit :=
  match s with
  | [] => mret tt
  | b :: s' => _ ← send console_slot OP_PUTCHAR b 0 0; print console_slot s'
  end.

(** The [while n > 0] loop of [print_u32]; eleven rounds are more than a 32-bit
    number has digits. *)
Fixpoint digits_loop (fuel : nat) (n : Z) (digits : list Z) (i : Z) : res (list Z * Z) :=
  match fuel with
  | O => Ok (digits, i)
  | S f =>
      if 0 <? n then
        digits <- bset digits i (48 + n mod 10) ;; digits_loop f (n / 10) digits (i + 1)
      else Ok (digits, i)
  end.

(** The [for j in 0..i] loop of [print_u32]: [buf] is [digits] backwards. *)
Fixpoint reverse_loop (count : nat) (j i : Z) (digits buf : list Z) : res (list Z) :=
  match count with
  | O => Ok buf
  | S c =>
      d <- bget digits (i - 1 - j) ;;
      buf <- bset buf j d ;;
      reverse_loop c (j + 1) i digits buf
  end.

(** The bytes [print_u32] prints. *)
Definition decimal (n : Z) : res (list Z) :=
  if n =? 0 then Ok [48]
  else
    let* (digits, i) := digits_loop 11 n (replicate 10 0) 0 in
    buf <- reverse_loop (Z.to_nat i) 0 i digits (replicate 10 0) ;;
    bslice buf 0 i.

Definition print_u32 (console_slot n : Z) : prog unit :=
  ds ← lift (decimal n); print console_slot ds.

(** ** Protocol clients *)

Definition CONSOLE_OP_SET_BUFFER : Z := 1.
Definition CONSOLE_OP_SET_READER : Z := 2.
Definition CONSOLE_OP_READ_LINE : Z := 3.
Definition CONSOLE_OP_SET_MODE : Z := 4.
Definition CONSOLE_OP_READ_KEY : Z := 5.
Definition CONSOLE_LINE_MAX : Z := 256.

Definition KEY_UP : Z := 256.
Definition KEY_DOWN : Z := 257.
Definition KEY_LEFT : Z := 258.
Definition KEY_RIGHT : Z := 259.
Definition KEY_HOME : Z := 260.
Definition KEY_END : Z := 261.
Definition KEY_DELETE : Z := 262.
Definition KEY_PAGE_UP : Z := 263.
Definition KEY_PAGE_DOWN : Z := 264.

Definition console_connect (console_slot buf_grant_slot reader_slot : Z) : prog unit :=
  _ ← send console_slot CONSOLE_OP_SET_BUFFER 0 0 buf_grant_slot;
  _ ← send console_slot CONSOLE_OP_SET_READER 0 0 reader_slot; mret tt.

Definition console_read_line (console_slot reader_slot : Z) : prog Z :=
  _ ← send console_slot CONSOLE_OP_READ_LINE 0 0 0;
  r ← recv reader_slot; mret (w0 r).

Definition console_set_mode (console_slot : Z) (raw : bool) : prog unit :=
  _ ← send console_slot CONSOLE_OP_SET_MODE (if raw then 1 else 0) 0 0; mret tt.

Definition console_read_key (console_slot reader_slot : Z) : prog Z :=
  _ ← send console_slot CONSOLE_OP_READ_KEY 0 0 0;
  r ← recv reader_slot; mret (w0 r).

Definition STORAGE_OP_SET_BUFFER : Z := 1.
Definition STORAGE_OP_SET_REPLY : Z := 2.
Definition STORAGE_OP_READ_BLOCK : Z := 3.
Definition STORAGE_OP_WRITE_BLOCK : Z := 4.

Definition storage_connect (storage_slot buf_grant_slot my_inbox_slot : Z) : prog unit :=
  _ ← send storage_slot STORAGE_OP_SET_BUFFER 0 0 buf_grant_slot;
  _ ← send storage_slot STORAGE_OP_SET_REPLY 0 0 my_inbox_slot; mret tt.

Definition storage_read_block (storage_slot my_inbox_slot lba : Z) : prog bool :=
  _ ← send storage_slot STORAGE_OP_READ_BLOCK lba 0 0;
  r ← recv my_inbox_slot; mret (w0 r =? 1).

Definition storage_write_block (storage_slot my_inbox_slot lba : Z) : prog bool :=
  _ ← send storage_slot STORAGE_OP_WRITE_BLOCK lba 0 0;
  r ← recv my_inbox_slot; mret (w0 r =? 1).

Definition FS_OP_SET_BUFFER : Z := 1.
Definition FS_OP_SET_REPLY : Z := 2.
Definition FS_OP_OPEN_NAME1 : Z := 3.
Definition FS_OP_OPEN_NAME2 : Z := 4.
Definition FS_OP_READ : Z := 5.
Definition FS_OP_WRITE : Z := 6.
Definition FS_OP_TRUNCATE : Z := 7.

(** [u8::to_ascii_uppercase] *)
Definition to_ascii_uppercase (b : Z) : Z := if (97 <=? b) && (b <=? 122) then b - 32 else b.

(** [fat_pack_name] *)
Definition fat_pack_name (name : list Z) : list Z :=
  let '(base, ext) :=
    match position (fun b => b =? 46) name with
    | Some i => (take i name, drop (S i) name)
    | None => (name, [])
    end in
  let out := put (replicate 11 32) 0 (map to_ascii_uppercase (take 8 base)) in
  put out 8 (map to_ascii_uppercase (take 3 ext)).

Definition fs_connect (fs_slot buf_grant_slot my_inbox_slot : Z) : prog unit :=
  _ ← send fs_slot FS_OP_SET_BUFFER 0 0 buf_grant_slot;
  _ ← send fs_slot FS_OP_SET_REPLY 0 0 my_inbox_slot; mret tt.

Definition fs_open_impl (fs_slot my_inbox_slot : Z) (name : list Z) (create : bool)
  : prog (option Z) :=
  let packed := fat_pack_name name in
  _ ← send fs_slot FS_OP_OPEN_NAME1 (word packed 0) (word packed 4) 0;
  let w1b := u32_from_le (byte_at packed 8) (byte_at packed 9) (byte_at packed 10) 0 in
  _ ← send fs_slot FS_OP_OPEN_NAME2 w1b (if create then 1 else 0) 0;
  r ← recv my_inbox_slot;
  mret (if w0 r =? 1 then Some (w1 r) else None).

Definition fs_open (fs_slot my_inbox_slot : Z) (name : list Z) : prog (option Z) :=
  fs_open_impl fs_slot my_inbox_slot name false.

Definition fs_open_for_write (fs_slot my_inbox_slot : Z) (name : list Z) : prog (option Z) :=
  fs_open_impl fs_slot my_inbox_slot name true.

Definition fs_read (fs_slot my_inbox_slot offset len : Z) : prog Z :=
  _ ← send fs_slot FS_OP_READ offset len 0; r ← recv my_inbox_slot; mret (w0 r).

Definition fs_write (fs_slot my_inbox_slot offset len : Z) : prog Z :=
  _ ← send fs_slot FS_OP_WRITE offset len 0; r ← recv my_inbox_slot; mret (w0 r).

Definition fs_truncate (fs_slot my_inbox_slot new_size : Z) : prog bool :=
  _ ← send fs_slot FS_OP_TRUNCATE new_size 0 0; r ← recv my_inbox_slot; mret (w0 r =? 1).

Definition NIC_OP_SET_BUFFER : Z := 1.
Definition NIC_OP_SET_REPLY : Z := 2.
Definition NIC_OP_GET_MAC : Z := 3.
Definition NIC_OP_SEND : Z := 4.
Definition NIC_OP_RECV : Z := 5.
Definition NIC_OP_TRY_RECV : Z := 6.
Definition NIC_MAX_FRAME : Z := 1518.

Definition nic_connect (nic_slot buf_grant_slot my_inbox_slot : Z) : prog unit :=
  _ ← send nic_slot NIC_OP_SET_BUFFER 0 0 buf_grant_slot;
  _ ← send nic_slot NIC_OP_SET_REPLY 0 0 my_inbox_slot; mret tt.

Definition nic_get_mac (nic_slot my_inbox_slot : Z) : prog (list Z) :=
  _ ← send nic_slot NIC_OP_GET_MAC 0 0 0;
  r ← recv my_inbox_slot;
  mret (u32_to_le (w0 r) ++ take 2 (u32_to_le (w1 r))).

Definition nic_send (nic_slot my_inbox_slot len : Z) : prog bool :=
  _ ← send nic_slot NIC_OP_SEND len 0 0; r ← recv my_inbox_slot; mret (w0 r =? 1).

Definition nic_recv (nic_slot my_inbox_slot : Z) : prog Z :=
  _ ← send nic_slot NIC_OP_RECV 0 0 0; r ← recv my_inbox_slot; mret (w0 r).

Definition TCP_OP_SET_BUFFER : Z := 1.
Definition TCP_OP_SET_REPLY : Z := 2.
Definition TCP_OP_CONNECT : Z := 3.
Definition TCP_OP_SEND : Z := 4.
Definition TCP_OP_RECV : Z := 5.
Definition TCP_OP_CLOSE : Z := 6.
Definition TCP_MAX_TRANSFER : Z := 4096.

Definition tcp_connect_setup (tcp_slot buf_grant_slot my_inbox_slot : Z) : prog unit :=
  _ ← send tcp_slot TCP_OP_SET_BUFFER 0 0 buf_grant_slot;
  _ ← send tcp_slot TCP_OP_SET_REPLY 0 0 my_inbox_slot; mret tt.

Definition tcp_open (tcp_slot my_inbox_slot : Z) (dst_ip : list Z) (dst_port : Z) : prog bool :=
  _ ← send tcp_slot TCP_OP_CONNECT (word dst_ip 0) dst_port 0;
  r ← recv my_inbox_slot; mret (w0 r =? 1).

Definition tcp_write (tcp_slot my_inbox_slot len : Z) : prog Z :=
  _ ← send tcp_slot TCP_OP_SEND len 0 0; r ← recv my_inbox_slot; mret (w0 r).

Definition tcp_read (tcp_slot my_inbox_slot : Z) : prog Z :=
  _ ← send tcp_slot TCP_OP_RECV 0 0 0; r ← recv my_inbox_slot; mret (w0 r).

Definition tcp_close (tcp_slot my_inbox_slot : Z) : prog unit :=
  _ ← send tcp_slot TCP_OP_CLOSE 0 0 0; _ ← recv my_inbox_slot; mret tt.

(** ** Programs: lemmas *)

Lemma safe_exec {A} (p : prog A) (env : sys_args -> raw_result) : safe p -> exists t a, exec p t a.
Proof.
  induction 1 as [a|c k _ IH]; [by exists [], a; constructor|].
  destruct (IH (env c)) as (t & a & E). exists ((c, env c) :: t), a. by constructor.
Qed.

Lemma safe_bind {A B} (p : prog A) (f : A -> prog B) : safe p -> (forall a, safe (f a)) -> safe (p ≫= f).
Proof. intros H F. induction H; cbn; [apply F|by constructor]. Qed.

Lemma exec_bind {A B} (p : prog A) (f : A -> prog B) t b :
  exec (p ≫= f) t b <-> exists t1 a t2, t = t1 ++ t2 /\ exec p t1 a /\ exec (f a) t2 b.
Proof.
  split.
  - revert t. induction p as [a|c k IH|e]; intros t E; cbn in E.
    + exists [], a, t. split_and!; [done|constructor|done].
    + inversion E as [|? ? r t' ? E']; subst. destruct (IH _ _ E') as (t1 & a & t2 & -> & H1 & H2).
      exists ((c, r) :: t1), a, t2. split_and!; [done|by constructor|done].
    + inversion E.
  - intros (t1 & a & t2 & -> & E1 & E2). induction E1; cbn; [done|]. constructor. by apply IHE1.
Qed.

Lemma wp_mono {A} (p : prog A) (Q Q' : list (sys_args * raw_result) -> A -> Prop) :
  wp p Q -> (forall t a, Q t a -> Q' t a) -> wp p Q'.
Proof.
  revert Q Q'. induction p as [a|c k IH|e]; cbn; intros Q Q' H HQ; [auto| |done].
  intros r. eapply IH; [apply H|]. cbn. auto.
Qed.

Lemma wp_bind {A B} (p : prog A) (f : A -> prog B) Q :
  wp p (fun t a => wp (f a) (fun t' b => Q (t ++ t') b)) -> wp (p ≫= f) Q.
Proof. revert Q. induction p as [a|c k IH|e]; cbn; intros Q H; [done| |done]. intros r. apply IH, H. Qed.

Lemma wp_exec {A} (p : prog A) Q t a : wp p Q -> exec p t a -> Q t a.
Proof. intros H E. revert Q H. induction E; cbn; intros Q H; [done|]. apply (IHE _ (H r)). Qed.

Lemma wp_safe {A} (p : prog A) Q : wp p Q -> safe p.
Proof. revert Q. induction p as [a|c k IH|e]; cbn; intros Q H; [constructor| |done]. constructor. eauto. Qed.

Lemma wp_lift {A} (c : res A) Q : (exists a, c = Ok a /\ Q [] a) -> wp (lift c) Q.
Proof. by intros (a & -> & H). Qed.

Lemma run_exec {A} answers (p : prog A) a cs :
  run answers p = Some (a, cs) -> exec p (zip cs answers) a.
Proof.
  revert answers cs. induction p as [b|c k IH|e]; intros [|r rs] cs E; cbn in E; try done;
    try (injection E as <- <-; constructor).
  destruct (run rs (k r)) as [[a' cs']|] eqn:Er; [|done]. injection E as <- <-. constructor. by apply IH.
Qed.

Create HintDb safe.
#[export] Hint Constructors safe : safe.
#[export] Hint Resolve safe_bind : safe.

(** ** Decimal numbers *)

(** The digits of [n], least significant first. *)
Fixpoint lsd (fuel : nat) (n : Z) : list Z :=
  match fuel with
  | O => []
  | S f => if 0 <? n then 48 + n mod 10 :: lsd f (n / 10) else []
  end.

Definition is_digit (b : Z) : Prop := 48 <= b <= 57.

(** The number a string of digits denotes. *)
Definition dec_value (ds : list Z) : Z := fold_left (fun v d => v * 10 + (d - 48)) ds 0.

Lemma lsd_pos f n : 0 < n -> lsd (S f) n = 48 + n mod 10 :: lsd f (n / 10).
Proof. intros H. cbn. by rewrite (proj2 (Z.ltb_lt _ _)) by lia. Qed.

Lemma lsd_length fuel n k : n < 10 ^ Z.of_nat k -> (length (lsd fuel n) <= k)%nat.
Proof.
  revert n k. induction fuel as [|f IH]; intros n k Hn; cbn; [lia|].
  case_match eqn:E; bool_simp; cbn; [|lia]. destruct k as [|k]; [cbn in Hn; lia|].
  rewrite Nat2Z.inj_succ, Z.pow_succ_r in Hn by lia. specialize (IH (n / 10) k ltac:(dlia)). lia.
Qed.

Lemma lsd_digits fuel n : Forall is_digit (lsd fuel n).
Proof.
  revert n. induction fuel as [|f IH]; intros n; cbn; [done|]. case_match; [|done].
  constructor; [unfold is_digit; dlia|done].
Qed.

Lemma lsd_value fuel n : 0 <= n < 10 ^ Z.of_nat fuel -> dec_value (rev (lsd fuel n)) = n.
Proof.
  revert n. induction fuel as [|f IH]; intros n Hn; cbn [lsd]; [cbn in *; lia|].
  case_match eqn:E; bool_simp; [|cbn; lia]. cbn [rev]. unfold dec_value. rewrite fold_left_app. cbn [fold_left].
  fold (dec_value (rev (lsd f (n / 10)))).
  rewrite Nat2Z.inj_succ, Z.pow_succ_r in Hn by lia. rewrite IH by dlia. dlia.
Qed.

(** Writing at position [i] extends the prefix of length [i] by one. *)
Lemma take_put {A} (b : list A) (i : nat) x :
  (i < length b)%nat -> take (S i) (put b (Z.of_nat i) [x]) = take i b ++ [x].
Proof.
  intros H. unfold put. rewrite Nat2Z.id.
  rewrite firstn_app, firstn_all2 by (rewrite length_take; lia).
  rewrite length_take, Nat.min_l by lia. by replace (S i - i)%nat with 1%nat by lia.
Qed.

Lemma length_put1 {A} (b : list A) (i : nat) x :
  (i < length b)%nat -> length (put b (Z.of_nat i) [x]) = length b.
Proof.
  intros H. unfold put. rewrite Nat2Z.id, !length_app, length_take, length_drop.
  unfold zlen. cbn. lia.
Qed.

Lemma digits_loop_spec fuel n digits (i : nat) :
  (i + length (lsd fuel n) <= length digits)%nat ->
  exists digits', digits_loop fuel n digits (Z.of_nat i) = Ok (digits', Z.of_nat (i + length (lsd fuel n))) /\
    length digits' = length digits /\
    take (i + length (lsd fuel n)) digits' = take i digits ++ lsd fuel n.
Proof.
  revert n digits i. induction fuel as [|f IH]; intros n digits i L; cbn [digits_loop lsd] in *.
  - exists digits. rewrite Nat.add_0_r, app_nil_r. by split_and!.
  - destruct (0 <? n); cbn [length] in *; [|exists digits; rewrite Nat.add_0_r, app_nil_r; by split_and!].
    rewrite bset_ok by (unfold zlen; lia).
    destruct (IH (n / 10) (put digits (Z.of_nat i) [48 + n mod 10]) (S i)) as (d' & E & L' & T).
    { rewrite length_put1 by lia. lia. }
    replace (Z.of_nat i + 1) with (Z.of_nat (S i)) by lia. rewrite E. exists d'. split; [do 2 f_equal; lia|].
    split; [by rewrite L', length_put1 by lia|].
    replace (i + S (length (lsd f (n / 10))))%nat with (S i + length (lsd f (n / 10)))%nat by lia.
    rewrite T, take_put by lia. by rewrite <- app_assoc.
Qed.

Lemma reverse_loop_spec c j i digits buf :
  (j + c = i)%nat -> (i <= length digits)%nat -> (i <= length buf)%nat ->
  exists buf', reverse_loop c (Z.of_nat j) (Z.of_nat i) digits buf = Ok buf' /\
    length buf' = length buf /\ take i buf' = take j buf ++ rev (take c digits).
Proof.
  revert j buf. induction c as [|c IH]; intros j buf E Ld Lb; cbn [reverse_loop].
  - exists buf. replace j with i by lia. cbn. by rewrite app_nil_r.
  - replace (Z.of_nat i - 1 - Z.of_nat j) with (Z.of_nat c) by lia.
    rewrite bget_ok, bset_ok by (unfold zlen; lia).
    destruct (IH (S j) (put buf (Z.of_nat j) [byte_at digits (Z.of_nat c)])) as (b' & Eb & L' & T);
      [lia|done|by rewrite length_put1 by lia|].
    replace (Z.of_nat j + 1) with (Z.of_nat (S j)) by lia. rewrite Eb. exists b'. split; [done|].
    split; [by rewrite L', length_put1 by lia|]. rewrite T, take_put by lia. rewrite <- app_assoc. f_equal.
    destruct (lookup_lt_is_Some_2 digits c) as [x Hx]; [lia|].
    rewrite (take_S_r _ _ _ Hx), rev_app_distr. cbn. by rewrite byte_at_lookup, Nat2Z.id, Hx.
Qed.

(** [print_u32] prints the number: digits only, at least one, denoting [n]. *)
Lemma decimal_spec n :
  is_u32 n -> exists ds, decimal n = Ok ds /\ ds <> [] /\ Forall is_digit ds /\ dec_value ds = n.
Proof.
  intros Hn. unfold is_u32 in Hn. unfold decimal. case_match eqn:E; bool_simp.
  { exists [48]. subst n. split_and!; [done|done| |done]. by repeat constructor. }
  assert (L : (length (lsd 11 n) <= 10)%nat) by (apply lsd_length; lia).
  destruct (digits_loop_spec 11 n (replicate 10 0) 0 L) as (ds & Ed & Ld & T).
  change (Z.of_nat 0) with 0 in Ed. rewrite Ed. cbn [Nat.add take app] in *.
  set (k := length (lsd 11 n)) in *. rewrite length_replicate in Ld.
  destruct (reverse_loop_spec k 0 k ds (replicate 10 0)) as (buf & Eb & Lb & Tb);
    [lia|lia|by rewrite length_replicate|]. rewrite length_replicate in Lb.
  rewrite Nat2Z.id. change (Z.of_nat 0) with 0 in Eb. rewrite Eb.
  exists (rev (lsd 11 n)). split.
  { unfold bslice. rewrite (proj2 (Z.leb_le 0 0)), !(proj2 (Z.leb_le _ _)) by (unfold zlen; lia). cbn [andb].
    f_equal. unfold sub. rewrite Z.sub_0_r, Nat2Z.id, drop_0, Tb, T. done. }
  split_and!; [|by apply Forall_rev, lsd_digits|apply lsd_value; lia].
  rewrite lsd_pos by lia. cbn [rev]. intros H. by apply app_eq_nil in H as [_ ?].
Qed.
