(* ===== verification/Abi.v ===== *)
(** * The system-call ABI: libpcern programs on the kernel
      (userland/libpcern/src/syscall_asm.s, kernel/src/syscall_asm.s)

    The two assembly stubs move a program's words into the registers the
    dispatcher reads and back.  With them, a message sent with libpcern's [send]
    is shown to be what libpcern's [recv] returns in the receiving task. *)

From stdpp Require Import base list numbers sets.
From Stdlib Require Import Lia.
From S2P Require Import Libpcern.
From S2P Require Import Prelude Cap Hw Sched Frame Paging Ipc Loader Syscall KernelInv Kernel Boot.
Open Scope Z_scope.

(** The registers at [int 0x80]: what [syscall_raw_asm] loads and [syscall_isr] saves. *)
Definition regs_in (a : sys_args) (ebp : Z) : saved_regs :=
  SavedRegs (num a) (a1 a) (a2 a) (a3 a) (a4 a) (a5 a) ebp.

(** The [RawResult] [syscall_raw_asm] stores from what [syscall_isr] restores. *)
Definition regs_out (r : saved_regs) : raw_result :=
  RawResult (eax r) (ebx r) (ecx r) (edx r) (esi r) (edi r).

(** Task [c] executes [syscall_raw a]; [ebp] is whatever its frame pointer is. *)
Definition trap (k : kernel) (c ebp : Z) (a : sys_args) : res outcome :=
  syscall_dispatch (enter c (regs_in a ebp) k) c.

(** What the program of task [id] continues with when it runs again. *)
Definition answer (k : kernel) (id : Z) : raw_result := regs_out (regs k id).

(** The capability in a slot of a task. *)
Definition task_cap (k : kernel) (id slot : Z) : option (cap_kind * Z) :=
  t ← task_of (sch k) id; n ← cspace_get (tcspace t) slot; resolve (caps k) n.

Lemma resolve_current_task_cap idle k c slot :
  kernel_wf idle k -> current (sch k) = Some c -> c <> idle ->
  resolve_current_cap k slot = Ok (task_cap k c slot).
Proof.
  intros W C Hc. destruct (current_user_task idle k c W C Hc) as (t & T & _ & _ & _ & G).
  unfold resolve_current_cap, current_cap_node, task_cap. rewrite G, T. cbn.
  by destruct (cspace_get (tcspace t) slot).
Qed.

Section sender.
Context (idle : Z) (k : kernel) (c : Z).
Context (W : kernel_wf idle k) (C : current (sch k) = Some c) (Hc : c <> idle).

(** The transfer of a send is a fresh copy of the sender's capability, if it has one. *)
Lemma derive_transfer_copy slot :
  exists k1 tr, derive_transfer k slot = Ok (k1, tr) /\
    match (if slot =? 0 then None else task_cap k c slot), tr with
    | Some kb, Some n => resolve (caps k1) n = Some kb
    | None, None => k1 = k
    | _, _ => False
    end.
Proof.
  destruct (current_user_task idle k c W C Hc) as (t & T & _ & _ & _ & G).
  unfold derive_transfer, current_cap_node, task_cap. rewrite G, T.
  destruct (slot =? 0); [by exists k, None|]. cbn.
  destruct (cspace_get (tcspace t) slot) as [n|]; cbn; [|by exists k, None].
  destruct (resolve (caps k) n) as [[kd b]|] eqn:R; [|by exists k, None].
  destruct (mint_derived (caps k) n b) as [[nodes id]|] eqn:M.
  - destruct (caps_le_mint_derived k n b nodes id M) as (_ & kd' & b' & R1 & R2).
    exists (set_caps nodes k), (Some id). split; [done|]. cbn. congruence.
  - exfalso. unfold mint_derived in M. unfold resolve in R.
    destruct (zget (caps k) n) as [e|]; [|done]. by destruct (revoked e).
Qed.

(** The dispatcher on an endpoint of [c]: a send passes the words and the copied
    capability to [ipc::send], a receive goes to [ipc::recv]. *)
Lemma trap_endpoint ebp a ep b :
  task_cap k c (a1 a) = Some (Endpoint ep, b) ->
  let k0 := enter c (regs_in a ebp) k in
  trap k c ebp a =
  if num a =? Libpcern.SYS_SEND then
    let* (k1, tr) := derive_transfer k0 (a5 a) in
    k' <- Ipc.send k1 c ep (a2 a, a3 a, a4 a) tr c ;; Ok (Returned k')
  else if num a =? Libpcern.SYS_RECV then k' <- Ipc.recv k0 c ep c ;; Ok (Returned k')
  else trap k c ebp a.
Proof.
  intros Hcap k0. assert (W0 : kernel_wf idle k0) by apply (kernel_wf_regs _ _ _ W).
  destruct (num a =? Libpcern.SYS_SEND) eqn:E1, (num a =? Libpcern.SYS_RECV) eqn:E2; bool_simp;
    try done; unfold trap, syscall_dispatch, current_id; fold k0.
  1: rewrite E1 in E2; discriminate.
  all: change (current (sch k0)) with (current (sch k)); rewrite C; cbn [expect];
    replace (regs k0 c) with (regs_in a ebp) by (cbn; by rewrite Z.eqb_refl);
    cbn [eax ebx ecx edx esi edi regs_in]; rewrite (resolve_current_task_cap idle k0 c _ W0 C Hc);
    change (task_cap k0 c (a1 a)) with (task_cap k c (a1 a)); rewrite Hcap.
  - by rewrite E1.
  - by rewrite E2.
Qed.
End sender.

(** A libpcern [recv] that gets message [(x0, x1, x2)] of [from] with slot [slot]. *)
Lemma recv_returns inbox r from x0 x1 x2 slot :
  exists a next, Libpcern.recv inbox = Sys a next /\
    next (regs_out (deliver_msg from (x0, x1, x2) slot r)) = Ret (RecvResult from x0 x1 x2 slot).
Proof. do 2 eexists. split; reflexivity. Qed.

(** A transferred node, seen by its receiver. *)
Lemma received_task_cap k id slot tr kb :
  received (sch k) id slot tr ->
  match kb, tr with
  | Some kb, Some n => resolve (caps k) n = Some kb
  | None, None => True
  | _, _ => False
  end ->
  match kb with Some kb => task_cap k id slot = Some kb | None => slot = 0 end.
Proof.
  destruct kb as [kb|], tr as [n|]; try done. intros (t & T & G) R.
  unfold task_cap. rewrite T. cbn. by rewrite G.
Qed.

(** What a send passes on: the sender's capability in slot [tr], unless [tr] is 0. *)
Definition passed (k : kernel) (c tr : Z) : option (cap_kind * Z) :=
  if tr =? 0 then None else task_cap k c tr.

(** The capability table's entry for a slot of a task, revoked or not. *)
Definition task_node (k : kernel) (id slot : Z) : option cap_node :=
  t ← task_of (sch k) id; n ← cspace_get (tcspace t) slot; zget (caps k) n.

(** A transferred node as its receiver finds it in a later state of the table. *)
Lemma received_task_node nodes k id slot tr kb :
  received (sch k) id slot tr -> kept_caps nodes (caps k) ->
  match kb, tr with
  | Some kb, Some n => resolve nodes n = Some kb
  | None, None => True
  | _, _ => False
  end ->
  match kb with
  | Some kb => exists n, task_node k id slot = Some n /\ (kind n, badge n) = kb /\
      (revoked n = false -> task_cap k id slot = Some kb)
  | None => slot = 0
  end.
Proof.
  destruct kb as [kb|], tr as [n|]; try done. intros (t & T & G) Kc R.
  unfold resolve in R. destruct (zget nodes n) as [e|] eqn:En; [|done]. destruct (revoked e); [done|].
  destruct (Kc n e En) as (e' & He' & K & B). injection R as <-.
  unfold task_node, task_cap. rewrite T. cbn. rewrite G. exists e'. split_and!; [done|congruence|].
  intros Rv. unfold resolve. cbn. rewrite He', Rv. congruence.
Qed.

(** [SYS_RECV] of a task whose slot [inbox] is the endpoint of a waiting message. *)
Lemma queued_message_collected idle k t ebp inbox ep b m sends :
  kernel_wf idle k -> current (sch k) = Some t -> t <> idle ->
  task_cap k t inbox = Some (Endpoint ep, b) ->
  take_first (fun s => ps_endpoint s =? ep) (pending_sends (kipc k)) = Some (m, sends) ->
  exists a k' slot, trap k t ebp a = Ok (Returned k') /\
    (exists next, Libpcern.recv inbox = Sys a next /\
       next (answer k' t) =
       Ret (RecvResult (ps_task m) (ps_msg m).1.1 (ps_msg m).1.2 (ps_msg m).2 slot)) /\
    received (sch k') t slot (ps_transfer m) /\ caps k' = caps k /\
    r_eax (answer k' (ps_task m)) = 0 /\ state_of (sch k') (ps_task m) = Some Ready.
Proof.
  intros W C Ht Hcap E.
  set (a := SysArgs Libpcern.SYS_RECV inbox 0 0 0 0). set (k0 := enter t (regs_in a ebp) k).
  assert (W0 : kernel_wf idle k0) by apply (kernel_wf_regs _ _ _ W).
  assert (C0 : current (sch k0) = Some t) by done.
  pose proof (kw_ipc _ _ W0) as I0. pose proof (kernel_wf_idle _ _ _ W0 C0) as Id0.
  pose proof (ack_irq_ok idle k0 ep I0) as A. destruct (ack_irq_fields k0 ep) as (Es & Er & _ & Eps & _).
  destruct (try_deliver_send (ack_irq k0 ep) idle t (ok_wf _ _ _ _ A) (ok_idle _ _ _ _ A Id0))
    with (ep := ep) (m := m) (sends := sends)
    as (k' & slot & Ed & O & _ & St & R & Rc & Rm & _); [by rewrite Es|done|by rewrite Eps|].
  exists a, k', slot. split.
  { rewrite (trap_endpoint idle k t W C Ht ebp a ep b Hcap). fold k0. cbn [num a].
    unfold Ipc.recv. by rewrite Ed. }
  split; [|split_and!; [done| | |done]].
  - eexists. split; [reflexivity|]. unfold answer. rewrite R. by destruct (ps_msg m) as [[? ?] ?].
  - destruct (ok_frame _ _ _ _ O) as (-> & _). by destruct (ok_frame _ _ _ _ A) as (-> & _).
  - unfold answer. by rewrite Rm.
Qed.

(** C36: a message arrives as it was sent.  The three words libpcern's [send] is given,
    the sender's id, and a capability of the kind and badge the sender names are exactly
    what libpcern's [recv] returns in the receiving task, whether that task was already
    waiting or receives later; and the [send] then returns 0.  A capability that is
    received later is the very copy the send queued, with that kind and badge, although it
    may have been revoked on the way. *)
Theorem message_arrives idle k c ebp dest x0 x1 x2 tr ep b :
  kernel_wf idle k -> current (sch k) = Some c -> c <> idle ->
  task_cap k c dest = Some (Endpoint ep, b) ->
  exists a next k', Libpcern.send dest x0 x1 x2 tr = Sys a next /\
    trap k c ebp a = Ok (Returned k') /\
    match take_first (fun r => pr_endpoint r =? ep) (pending_recvs (kipc k)) with
    | Some (r, _) => exists slot,
        (forall inbox, exists a' next', Libpcern.recv inbox = Sys a' next' /\
           next' (answer k' (pr_task r)) = Ret (RecvResult c x0 x1 x2 slot)) /\
        match passed k c tr with
        | Some kb => task_cap k' (pr_task r) slot = Some kb
        | None => slot = 0
        end /\
        state_of (sch k') (pr_task r) = Some Ready /\ next (answer k' c) = Ret 0
    | None =>
        state_of (sch k') c = Some Blocked /\
        exists m, m ∈ pending_sends (kipc k') /\ ps_endpoint m = ep /\
        forall k2 t ebp2 inbox b2 sends,
          steps (kstep idle) k' k2 -> current (sch k2) = Some t -> t <> idle ->
          task_cap k2 t inbox = Some (Endpoint ep, b2) ->
          take_first (fun s => ps_endpoint s =? ep) (pending_sends (kipc k2)) = Some (m, sends) ->
          exists a' next' k3 slot, Libpcern.recv inbox = Sys a' next' /\
            trap k2 t ebp2 a' = Ok (Returned k3) /\
            next' (answer k3 t) = Ret (RecvResult c x0 x1 x2 slot) /\
            match passed k c tr with
            | Some kb => exists n, task_node k3 t slot = Some n /\ (kind n, badge n) = kb /\
                (revoked n = false -> task_cap k3 t slot = Some kb)
            | None => slot = 0
            end /\
            state_of (sch k3) c = Some Ready /\ next (answer k3 c) = Ret 0
    end.
Proof.
  intros W C Hc Hcap.
  set (a := SysArgs Libpcern.SYS_SEND dest x0 x1 x2 tr). set (k0 := enter c (regs_in a ebp) k).
  assert (W0 : kernel_wf idle k0) by apply (kernel_wf_regs _ _ _ W).
  assert (C0 : current (sch k0) = Some c) by done.
  destruct (derive_transfer_ok idle k0 c W0 C0 Hc tr) as (k1 & trn & Ed & S1 & Es & Ei & Er & Hcopy').
  destruct (derive_transfer_copy idle k0 c W0 C0 Hc tr) as (k1' & trn' & Ed' & Hcopy).
  rewrite Ed in Ed'. injection Ed' as <- <-.
  pose proof (so_wf _ _ _ _ S1) as W1. assert (C1 : current (sch k1) = Some c) by (by rewrite Es).
  pose proof (kw_ipc _ _ W1) as I1. pose proof (kernel_wf_idle _ _ _ W1 C1) as Id1.
  assert (D : forall k', Ipc.send k1 c ep (x0, x1, x2) trn c = Ok k' -> trap k c ebp a = Ok (Returned k')).
  { intros k' E. rewrite (trap_endpoint idle k c W C Hc ebp a ep b Hcap). fold k0. cbn [num a a2 a3 a4 a5].
    by rewrite Ed, E. }
  change (pending_recvs (kipc k)) with (pending_recvs (kipc k0)). rewrite <- Ei.
  destruct (take_first _ (pending_recvs (kipc k1))) as [[r recvs]|] eqn:E.
  - destruct (send_match k1 idle c I1 Id1 C1 Hc ep (x0, x1, x2) trn r recvs E)
      as (k' & slot & E' & O & _ & St & R & Rc & Rs & _).
    do 3 eexists. split; [reflexivity|]. split; [by apply D|]. exists slot. split_and!.
    + intros inbox. unfold answer. rewrite R. apply recv_returns.
    + apply (received_task_cap k' _ slot trn); [done|]. destruct (ok_frame _ _ _ _ O) as (Ec & _). rewrite Ec.
      unfold passed. change (task_cap k c tr) with (task_cap k0 c tr). revert Hcopy.
      by destruct (if tr =? 0 then _ else _), trn.
    + done.
    + unfold answer. by rewrite Rs.
  - destruct (send_block k1 idle c I1 Id1 C1 Hc ep (x0, x1, x2) trn E) as (k' & E' & O & St & Ps & _).
    do 3 eexists. split; [reflexivity|]. split; [by apply D|]. split; [done|].
    exists (PendingSend c ep (x0, x1, x2) trn c). split; [rewrite Ps; set_solver|]. split; [done|].
    assert (W' : kernel_wf idle k').
    { eapply kernel_wf_ipc; [exact W1|exact O|by intros n Hn; apply Hcopy'|congruence]. }
    intros k2 t ebp2 inbox b2 sends S2 C2 Ht2 Hcap2 E2.
    pose proof (kernel_wf_steps idle k' k2 S2 W') as W2. pose proof (kept_caps_steps idle k' k2 S2 W') as Kc.
    destruct (queued_message_collected idle k2 t ebp2 inbox ep b2 _ _ W2 C2 Ht2 Hcap2 E2)
      as (a' & k3 & slot & T & (next' & En & Hn) & Rcv & Ec3 & Ra & St3).
    exists a', next', k3, slot. split_and!; try done; [|cbn; cbn in Ra; by rewrite Ra].
    apply (received_task_node (caps k') k3 t slot trn); [done|by rewrite Ec3|].
    destruct (ok_frame _ _ _ _ O) as (-> & _). unfold passed.
    change (task_cap k c tr) with (task_cap k0 c tr). revert Hcopy. by destruct (if tr =? 0 then _ else _), trn.
Qed.

(** Task 1 of the small system sends on its own endpoint, where nobody waits yet. *)
Lemma ex_system_inbox : task_cap ex_system 1 1 = Some (Endpoint 0, 0).
Proof. vm_compute. reflexivity. Qed.

Lemma ex_system_no_recvs : pending_recvs (kipc ex_system) = [].
Proof. vm_compute. reflexivity. Qed.

Lemma message_arrives_witness :
  exists a next k', Libpcern.send 1 7 8 9 2 = Sys a next /\
    trap ex_system 1 0 a = Ok (Returned k') /\ state_of (sch k') 1 = Some Blocked.
Proof.
  destruct (message_arrives 2 ex_system 1 0 1 7 8 9 2 0 0 ex_system_wf ex_system_current ltac:(lia)
              ex_system_inbox) as (a & next & k' & E & T & H).
  rewrite ex_system_no_recvs in H. exists a, next, k'. split; [exact E|]. split; [exact T|]. apply H.
Defined.
