(* ===== verification/NameService.v ===== *)
(** * The name service (userland/services/nameservice/src/main.rs)

    [serve] is one turn of the loop of [_start]: the registry and a received
    message give the calls the service makes and the new registry. *)

From stdpp Require Import base list numbers.
From Stdlib Require Import Lia.
From S2P Require Import Prelude Libpcern.
Open Scope Z_scope.

Definition MAX_ENTRIES : nat := 8.

(** [b"console\0"] and the other names of the allowlist. *)
Definition NAME_console : list Z := [99; 111; 110; 115; 111; 108; 101; 0].
Definition NAME_storage : list Z := [115; 116; 111; 114; 97; 103; 101; 0].
Definition NAME_fs : list Z := [102; 115; 0; 0; 0; 0; 0; 0].
Definition NAME_net : list Z := [110; 101; 116; 0; 0; 0; 0; 0].
Definition NAME_tcp : list Z := [116; 99; 112; 0; 0; 0; 0; 0].

Definition ALLOWLIST : list (Z * list Z) :=
  [(2, NAME_console); (3, NAME_storage); (4, NAME_fs); (6, NAME_net); (7, NAME_tcp)].

(** [struct Entry] *)
Record entry := Entry { ename : list Z; eslot : Z }.

Abbreviation registry := (list (option entry)).

Definition packed_name (x0 x1 : Z) : list Z := u32_to_le x0 ++ u32_to_le x1.

(** [ALLOWLIST.iter().any(..)] *)
Definition allowed (id : Z) (name : list Z) : bool :=
  existsb (fun '(i, n) => (i =? id) && bytes_eqb n name) ALLOWLIST.

(** [slot.map(|entry| entry.name) == Some(name)] *)
Definition is_named (name : list Z) (o : option entry) : bool :=
  match o with Some e => bytes_eqb (ename e) name | None => false end.

Definition is_free (o : option entry) : bool :=
  match o with Some _ => false | None => true end.

(** [slot_to_reuse] *)
Definition slot_to_reuse (reg : registry) (name : list Z) : option nat :=
  match position (is_named name) reg with
  | Some i => Some i
  | None => position is_free reg
  end.

(** [registry.iter().flatten().find(|e| e.name == name)] *)
Fixpoint find_entry (reg : registry) (name : list Z) : option entry :=
  match reg with
  | [] => None
  | Some e :: reg' => if bytes_eqb (ename e) name then Some e else find_entry reg' name
  | None :: reg' => find_entry reg' name
  end.

Definition start : registry := replicate MAX_ENTRIES None.

Definition serve (reg : registry) (r : recv_result) : prog registry :=
  let name := packed_name (w1 r) (w2 r) in
  if w0 r =? NS_OP_REGISTER then
    if allowed (sender r) name && negb (transferred_slot r =? 0) then
      match slot_to_reuse reg name with
      | Some idx => mret (<[idx := Some (Entry name (transferred_slot r))]> reg)
      | None => mret reg
      end
    else mret reg
  else if (w0 r =? NS_OP_LOOKUP) && negb (transferred_slot r =? 0) then
    let reply_slot := transferred_slot r in
    match find_entry reg name with
    | Some e => _ ← send reply_slot 1 0 0 (eslot e); mret reg
    | None => _ ← send reply_slot 0 0 0 0; mret reg
    end
  else mret reg.

(** ** Specification *)

(** The slot message [r] registers under [name], if it may. *)
Definition registration (name : list Z) (r : recv_result) : option Z :=
  if (w0 r =? NS_OP_REGISTER) && bytes_eqb (packed_name (w1 r) (w2 r)) name &&
     allowed (sender r) name && negb (transferred_slot r =? 0)
  then Some (transferred_slot r) else None.

(** What is registered under [name] after the messages [h]: the latest. *)
Definition registered (h : list recv_result) (name : list Z) : option Z :=
  fold_left (fun o r => match registration name r with Some s => Some s | None => o end) h None.

(** The registry after the service has received the messages [h], in this order. *)
Inductive served : list recv_result -> registry -> Prop :=
| served_start : served [] start
| served_next h reg r t reg' :
    served h reg -> exec (serve reg r) t reg' -> served (h ++ [r]) reg'.

(** Names are those of the allowlist, each at most once. *)
Record registry_ok (reg : registry) : Prop := {
  ro_len : length reg = MAX_ENTRIES;
  ro_allowed : forall i e, reg !! i = Some (Some e) -> ename e ∈ ALLOWLIST.*2;
  ro_once : forall i j e f, reg !! i = Some (Some e) -> reg !! j = Some (Some f) ->
    ename e = ename f -> i = j
}.

(** ** Lemmas *)

Lemma position_Some {A} (f : A -> bool) l n :
  position f l = Some n -> exists x, l !! n = Some x /\ f x = true.
Proof.
  revert n. induction l as [|x l IH]; intros n; cbn; [done|]. destruct (f x) eqn:E; [intros [= <-]; eauto|].
  destruct (position f l) as [m|]; cbn; [|done]. intros [= <-]. by apply IH.
Qed.

Lemma position_None {A} (f : A -> bool) l n x : position f l = None -> l !! n = Some x -> f x = false.
Proof.
  revert n. induction l as [|y l IH]; intros [|n]; cbn; try done; destruct (f y) eqn:E; try done.
  - by intros _ [= <-].
  - destruct (position f l); [done|]. intros _. by apply IH.
Qed.

Lemma allowed_name id name : allowed id name = true -> name ∈ ALLOWLIST.*2.
Proof.
  unfold allowed. intros ([i n] & Hin & H)%existsb_exists. bool_simp. apply bytes_eqb_eq in H0 as <-.
  apply list_elem_of_fmap. exists (i, n). split; [done|]. by apply list_elem_of_In.
Qed.

Lemma find_entry_spec reg name :
  registry_ok reg ->
  forall e, find_entry reg name = Some e <-> exists i, reg !! i = Some (Some e) /\ ename e = name.
Proof.
  intros [_ _ U]. revert U. induction reg as [|[x|] reg IH]; intros U e; cbn.
  - split; [done|]. by intros (i & ? & _).
  - destruct (bytes_eqb (ename x) name) eqn:E.
    + apply bytes_eqb_eq in E. split; [intros [= <-]; by exists O|].
      intros (i & Hi & Hn). f_equal. specialize (U O i x e eq_refl Hi ltac:(congruence)).
      subst i. by simplify_eq/=.
    + apply bytes_eqb_neq in E. rewrite IH; [|intros i j ? ? H1 H2 H3; by specialize (U (S i) (S j) _ _ H1 H2 H3) as [= ->]].
      split; [intros (i & Hi); by exists (S i)|]. intros ([|i] & Hi & Hn); cbn in Hi; [naive_solver|by exists i].
  - rewrite IH; [|intros i j ? ? H1 H2 H3; by specialize (U (S i) (S j) _ _ H1 H2 H3) as [= ->]].
    split; [intros (i & Hi); by exists (S i)|]. intros ([|i] & Hi & Hn); cbn in Hi; [naive_solver|by exists i].
Qed.

(** Eight slots are enough for the five names of the allowlist. *)
Lemma position_None_all {A} (f : A -> bool) l : position f l = None -> Forall (fun x => f x = false) l.
Proof. intros H. apply Forall_lookup. intros i x. by apply position_None. Qed.

Lemma registry_has_room reg name : registry_ok reg -> is_Some (slot_to_reuse reg name).
Proof.
  intros [L A O]. unfold slot_to_reuse. destruct (position (is_named name) reg); [by eexists|].
  destruct (position is_free reg) eqn:E; [by eexists|]. exfalso.
  assert (F : exists es, reg = map Some es).
  { apply position_None_all in E. clear -E. induction E as [|[x|] reg Hx _ (es & ->)]; [by exists []| |done].
    by exists (x :: es). }
  destruct F as [es ->].
  assert (ND : NoDup (map ename es)).
  { apply NoDup_alt. intros i j n Hi Hj. apply list_lookup_fmap_Some in Hi as (e & -> & Hi).
    apply list_lookup_fmap_Some in Hj as (f & Hf & Hj).
    apply (O i j e f); [by rewrite list_lookup_fmap, Hi|by rewrite list_lookup_fmap, Hj|done]. }
  assert (Sub : map ename es ⊆+ ALLOWLIST.*2).
  { apply NoDup_submseteq; [done|]. intros n Hn. apply list_elem_of_fmap in Hn as (e & -> & He).
    apply list_elem_of_lookup in He as [i Hi]. apply (A i). by rewrite list_lookup_fmap, Hi. }
  apply submseteq_length in Sub. rewrite !length_map in *. unfold MAX_ENTRIES in L. cbn in Sub. lia.
Qed.

Lemma find_entry_None reg name :
  find_entry reg name = None <-> forall i e, reg !! i = Some (Some e) -> ename e <> name.
Proof.
  induction reg as [|[x|] reg IH]; cbn.
  - split; [|done]. by intros _ [|i].
  - destruct (bytes_eqb (ename x) name) eqn:E.
    + apply bytes_eqb_eq in E. split; [done|]. intros H. by destruct (H O x).
    + apply bytes_eqb_neq in E. rewrite IH. split; [|intros H i e; apply (H (S i))].
      intros H [|i] e; cbn; [by intros [= <-]|apply H].
  - rewrite IH. split; [|intros H i e; apply (H (S i))]. intros H [|i] e; cbn; [done|apply H].
Qed.

(** A slot that is free or holds [name] already is overwritten with a registration. *)
Lemma insert_entry reg name slot idx :
  registry_ok reg -> name ∈ ALLOWLIST.*2 -> slot_to_reuse reg name = Some idx ->
  let reg' := <[idx := Some (Entry name slot)]> reg in
  registry_ok reg' /\
  forall n, find_entry reg' n = if decide (n = name) then Some (Entry name slot) else find_entry reg n.
Proof.
  intros W Hn E reg'. pose proof W as [L A O].
  assert (Hidx : exists o, reg !! idx = Some o /\ (forall e, o = Some e -> ename e = name) /\
    forall i e, reg !! i = Some (Some e) -> ename e = name -> i = idx).
  { unfold slot_to_reuse in E. destruct (position (is_named name) reg) as [j|] eqn:P; simplify_eq.
    - destruct (position_Some _ _ _ P) as ([x|] & Hx & F); [|done]. apply bytes_eqb_eq in F.
      exists (Some x). split_and!; [done|congruence|]. intros i e Hi <-. by apply (O i idx e x).
    - destruct (position_Some _ _ _ E) as ([x|] & Hx & F); [done|]. exists None. split_and!; [done|done|].
      intros i e Hi <-. apply (position_None _ _ _ _ P) in Hi. cbn in Hi. by rewrite bytes_eqb_refl in Hi. }
  destruct Hidx as (o & Ho & Hname & Honly). pose proof (lookup_lt_Some _ _ _ Ho) as Hlt.
  assert (Lk : forall i e, reg' !! i = Some (Some e) <->
    (i = idx /\ e = Entry name slot) \/ (i <> idx /\ reg !! i = Some (Some e))).
  { intros i e. unfold reg'. destruct (decide (i = idx)) as [->|].
    - rewrite list_lookup_insert_eq by done. naive_solver.
    - rewrite list_lookup_insert_ne by done. naive_solver. }
  assert (W' : registry_ok reg').
  { split.
    - unfold reg'. by rewrite length_insert.
    - intros i e [[-> ->]|[_ H]]%Lk; [done|by eapply A].
    - intros i j e f [[-> ->]|[Hi H]]%Lk [[-> ->]|[Hj H']]%Lk Ef; try done; cbn in Ef.
      + symmetry. by apply (Honly _ f).
      + by apply (Honly _ e).
      + by eapply O. }
  split; [done|]. intros n. case_decide as En.
  - subst n. apply (find_entry_spec _ _ W'). exists idx. split; [|done]. apply Lk. by left.
  - destruct (find_entry reg n) as [e|] eqn:F.
    + apply (find_entry_spec _ _ W) in F as (i & Hi & <-). apply (find_entry_spec _ _ W'). exists i.
      split; [|done]. apply Lk. right. split; [|done]. intros ->. rewrite Ho in Hi.
      injection Hi as ->. by rewrite (Hname _ eq_refl) in En.
    + rewrite find_entry_None in F. apply find_entry_None. intros i e [[-> ->]|[Hi H]]%Lk; [done|by eapply F].
Qed.

Lemma registry_start_ok : registry_ok start.
Proof.
  split; [done| |]; intros i; intros; exfalso;
    match goal with H : start !! i = Some _ |- _ => by apply lookup_replicate_1 in H as [? _] end.
Qed.

(** One message: the registry is updated exactly by an allowed registration. *)
Lemma serve_updates reg r t reg' :
  registry_ok reg -> exec (serve reg r) t reg' ->
  registry_ok reg' /\
  forall n, eslot <$> find_entry reg' n =
    match registration n r with Some s => Some s | None => eslot <$> find_entry reg n end.
Proof.
  intros W E. unfold serve in E. unfold registration.
  destruct (w0 r =? NS_OP_REGISTER) eqn:Op; cbn [andb].
  - destruct (allowed (sender r) (packed_name (w1 r) (w2 r))) eqn:Al; cbn [andb] in E.
    + destruct (transferred_slot r =? 0) eqn:Tr; cbn [negb andb] in E.
      * inversion E; subst. split; [done|]. intros n. by rewrite !andb_false_r.
      * destruct (registry_has_room reg (packed_name (w1 r) (w2 r)) W) as [idx Hidx]. rewrite Hidx in E.
        inversion E; subst.
        destruct (insert_entry reg _ (transferred_slot r) idx W (allowed_name _ _ Al) Hidx) as [W' F].
        split; [done|]. intros n. rewrite F. rewrite andb_true_r. case_decide as En.
        -- subst n. by rewrite bytes_eqb_refl, Al.
        -- by rewrite (proj2 (bytes_eqb_neq _ _)) by congruence.
    + inversion E; subst. split; [done|]. intros n.
      destruct (bytes_eqb (packed_name (w1 r) (w2 r)) n) eqn:En; [|done].
      apply bytes_eqb_eq in En as <-. by rewrite Al.
  - assert (reg' = reg) as ->; [|done].
    destruct (_ && _); [|by inversion E].
    destruct (find_entry reg _); inversion E as [|? ? ? ? ? E']; subst; by inversion E'.
Qed.

Lemma served_registered h reg :
  served h reg ->
  registry_ok reg /\ forall n, eslot <$> find_entry reg n = registered h n.
Proof.
  induction 1 as [|h reg r t reg' H [W F] E].
  - split; [apply registry_start_ok|]. intros n. by rewrite (proj2 (find_entry_None start n)) by
      (intros i e Hi; by apply lookup_replicate_1 in Hi as [? _]).
  - destruct (serve_updates reg r t reg' W E) as [W' F']. split; [done|]. intros n.
    unfold registered. rewrite fold_left_app. cbn. rewrite F'. fold (registered h n). rewrite F.
    by destruct (registration n r).
Qed.

(** The service always comes back to its loop. *)
Lemma serve_safe reg r : safe (serve reg r).
Proof. unfold serve. repeat case_match; repeat constructor. Qed.

Lemma served_exists h : exists reg, served h reg.
Proof.
  induction h as [|r h [reg H]] using rev_ind; [eexists; constructor|].
  destruct (safe_exec (serve reg r) (fun _ => RawResult 0 0 0 0 0 0) (serve_safe reg r)) as (t & reg' & E).
  exists reg'. by econstructor.
Qed.

(** C37: the name service answers every lookup with the latest registration.  After any
    sequence of messages it is back in its loop, and a lookup of a name gets, on the
    caller's reply slot, a copy of the capability of the last message that registered
    the name from the one task the allowlist names for it; if there was none, it gets
    the answer 0 with no capability. Nothing else is sent, and the registry is unchanged. *)
Theorem lookup_latest_registration h :
  exists reg, served h reg /\
    forall r, w0 r = NS_OP_LOOKUP -> transferred_slot r <> 0 ->
    serve reg r =
    match registered h (packed_name (w1 r) (w2 r)) with
    | Some slot => _ ← send (transferred_slot r) 1 0 0 slot; mret reg
    | None => _ ← send (transferred_slot r) 0 0 0 0; mret reg
    end.
Proof.
  destruct (served_exists h) as [reg H]. exists reg. split; [done|]. intros r Op Tr.
  destruct (served_registered h reg H) as [_ F]. rewrite <- F. unfold serve. rewrite Op. cbn [Z.eqb].
  rewrite (proj2 (Z.eqb_neq _ _) Tr). cbn. by destruct (find_entry reg _).
Qed.

(** [b"fs"], registered by task 4 and looked up. *)
Lemma lookup_latest_registration_witness :
  exists reg, serve reg (RecvResult 9 NS_OP_LOOKUP 29542 0 5) = (_ ← send 5 1 0 0 3; mret reg).
Proof.
  destruct (lookup_latest_registration [RecvResult 4 NS_OP_REGISTER 29542 0 3]) as (reg & _ & H).
  exists reg. rewrite H; [|reflexivity|discriminate].
  replace (registered _ _) with (Some 3) by (vm_compute; reflexivity). reflexivity.
Defined.

(** a name packed by libpcern's [pack_name] is the name the service unpacks: names
    of up to eight bytes survive the two message words, padded with zeros. *)
Theorem name_roundtrip name :
  zlen name <= 8 -> Forall is_u8 name ->
  packed_name (fst (pack_name name)) (snd (pack_name name)) = name ++ replicate (8 - length name) 0.
Proof.
  intros L F. unfold zlen in L.
  do 9 (destruct name as [|? name]; [by repeat match goal with H : Forall _ (_ :: _) |- _ => inversion_clear H end;
    unfold packed_name, pack_name, word; cbn [fst snd];
    rewrite !u32_to_le_from by (try done; unfold is_u8; vm_compute; (split; congruence))|]).
  cbn in L. lia.
Qed.
