(* ===== verification/Vga.v ===== *)
(** * The text console's screen (userland/drivers/console_server/src/vga.rs,
      kernel/src/vga.rs)

    The buffer is raw memory: [cells] gives the 16-bit word at every offset from
    the buffer's start, so that a write outside the screen would be seen. The
    kernel's copy of the writer differs in mirroring every character to the
    serial port; the bytes so written are the [serial] field, and [mirror] says
    whether they are. *)

From stdpp Require Import base list numbers.
From Stdlib Require Import Lia.
From S2P Require Import Prelude.
Open Scope Z_scope.

Definition VGA_WIDTH : Z := 80.
Definition VGA_HEIGHT : Z := 25.

(** [enum Color] *)
Inductive color :=
| Black | Blue | Green | Cyan | Red | Magenta | Brown | LightGray
| DarkGray | LightBlue | LightGreen | LightCyan | LightRed | Pink | Yellow | White.

(** [c as u8] *)
Definition color_code (c : color) : Z :=
  match c with
  | Black => 0 | Blue => 1 | Green => 2 | Cyan => 3 | Red => 4 | Magenta => 5 | Brown => 6
  | LightGray => 7 | DarkGray => 8 | LightBlue => 9 | LightGreen => 10 | LightCyan => 11
  | LightRed => 12 | Pink => 13 | Yellow => 14 | White => 15
  end.

(** [transmute] of a value below 16. *)
Definition color_of (v : Z) : color :=
  nth (Z.to_nat v)
    [Black; Blue; Green; Cyan; Red; Magenta; Brown; LightGray; DarkGray; LightBlue; LightGreen;
     LightCyan; LightRed; Pink; Yellow; White] White.

(** [Color::from_low3] *)
Definition from_low3 (code : Z) : color :=
  match Z.land code 7 with
  | 0 => Black | 1 => Red | 2 => Green | 3 => Brown | 4 => Blue | 5 => Magenta | 6 => Cyan
  | _ => LightGray
  end.

(** [Color::bright] *)
Definition bright (c : color) : color := color_of (Z.lor (color_code c) 8).

(** [ScreenChar::new] *)
Definition screen_char (ascii : Z) (fg bg : color) : Z :=
  let attr := Z.lor (Z.shiftl (Z.land (color_code bg) 7) 4) (Z.land (color_code fg) 15) in
  Z.lor (Z.shiftl attr 8) ascii.

(** [struct Writer] *)
Record writer := Writer {
  col : Z; row : Z; fg : color; bg : color; bold : bool;
  cells : Z -> Z;
  serial : list Z
}.

Definition set_pos (r c : Z) (w : writer) : writer :=
  Writer c r (fg w) (bg w) (bold w) (cells w) (serial w).
Definition set_cells f (w : writer) : writer :=
  Writer (col w) (row w) (fg w) (bg w) (bold w) f (serial w).
Definition set_attr f b d (w : writer) : writer :=
  Writer (col w) (row w) f b d (cells w) (serial w).

(** [Writer::new] on a buffer with contents [m]. *)
Definition writer_new (m : Z -> Z) : writer := Writer 0 0 LightGray Black false m [].

Definition index (r c : Z) : Z := r * VGA_WIDTH + c.

(** [write_volatile(self.buffer.add(i), v)] *)
Definition poke (i v : Z) (w : writer) : writer :=
  set_cells (fun j => if j =? i then v else cells w j) w.

Definition write_cell (r c sc : Z) (w : writer) : writer := poke (index r c) sc w.
Definition read_cell (r c : Z) (w : writer) : Z := cells w (index r c).

Definition effective_fg (w : writer) : color := if bold w then bright (fg w) else fg w.

Definition set_fg (c : color) (w : writer) : writer := set_attr c (bg w) (bold w) w.
Definition set_bg (c : color) (w : writer) : writer := set_attr (fg w) c (bold w) w.
Definition set_bold (b : bool) (w : writer) : writer := set_attr (fg w) (bg w) b w.
Definition reset_attributes (w : writer) : writer := set_attr LightGray Black false w.

Definition blank (w : writer) : Z := screen_char 32 (effective_fg w) (bg w).

Definition clear_row (r : Z) (w : writer) : writer :=
  let b := blank w in for_to 0 VGA_WIDTH (fun c => write_cell r c b) w.

Definition clear_row_range (r start_col end_col : Z) (w : writer) : writer :=
  let b := blank w in for_to start_col (Z.min end_col VGA_WIDTH) (fun c => write_cell r c b) w.

Definition clear_screen (w : writer) : writer :=
  set_pos 0 0 (for_to 0 VGA_HEIGHT clear_row w).

Definition scroll (w : writer) : writer :=
  let w := for_to 1 VGA_HEIGHT
             (fun r => for_to 0 VGA_WIDTH (fun c w => poke (index (r - 1) c) (read_cell r c w) w)) w in
  clear_row (VGA_HEIGHT - 1) w.

Definition new_line (w : writer) : writer :=
  let w := set_pos (row w) 0 w in
  if VGA_HEIGHT <=? row w + 1 then scroll w else set_pos (row w + 1) 0 w.

Definition set_cursor_pos (r c : Z) (w : writer) : writer :=
  set_pos (Z.min r (VGA_HEIGHT - 1)) (Z.min c (VGA_WIDTH - 1)) w.

(** [i32::clamp] *)
Definition clamp (v lo hi : Z) : Z := Z.min (Z.max v lo) hi.

Definition move_cursor (d_row d_col : Z) (w : writer) : writer :=
  set_pos (clamp (row w + d_row) 0 (VGA_HEIGHT - 1)) (clamp (col w + d_col) 0 (VGA_WIDTH - 1)) w.

Definition erase_in_display (mode : Z) (w : writer) : writer :=
  if mode =? 0 then
    for_to (row w + 1) VGA_HEIGHT clear_row (clear_row_range (row w) (col w) VGA_WIDTH w)
  else if mode =? 1 then
    clear_row_range (row w) 0 (col w + 1) (for_to 0 (row w) clear_row w)
  else clear_screen w.

Definition erase_in_line (mode : Z) (w : writer) : writer :=
  if mode =? 0 then clear_row_range (row w) (col w) VGA_WIDTH w
  else if mode =? 1 then clear_row_range (row w) 0 (col w + 1) w
  else clear_row_range (row w) 0 VGA_WIDTH w.

(** The kernel's [crate::serial::write_byte(c)]; the console server has none. *)
Definition log (mirror : bool) (c : Z) (w : writer) : writer :=
  Writer (col w) (row w) (fg w) (bg w) (bold w) (cells w) (if mirror then serial w ++ [c] else serial w).

(** The last arm of [put_char]: any other byte. *)
Definition put_byte (byte : Z) (w : writer) : writer :=
  let w := if VGA_WIDTH <=? col w then new_line w else w in
  let w := write_cell (row w) (col w) (screen_char byte (effective_fg w) (bg w)) w in
  set_pos (row w) (col w + 1) w.

(** The [while] loop of the tab arm; a tab stop is at most eight columns away. *)
Fixpoint tab_loop (mirror : bool) (fuel : nat) (next_tab : Z) (w : writer) : writer :=
  match fuel with
  | O => w
  | S f =>
      if (col w <? next_tab) && (col w <? VGA_WIDTH)
      then tab_loop mirror f next_tab (put_byte 32 (log mirror 32 w)) else w
  end.

Definition put_char (mirror : bool) (c : Z) (w : writer) : writer :=
  let w := log mirror c w in
  if c =? 10 then new_line w
  else if c =? 13 then set_pos (row w) 0 w
  else if c =? 8 then
    if 0 <? col w then
      let w := set_pos (row w) (col w - 1) w in write_cell (row w) (col w) (blank w) w
    else w
  else if c =? 9 then tab_loop mirror 8 ((col w / 8 + 1) * 8) w
  else put_byte c w.

(** The port writes of [sync_hardware_cursor]. *)
Definition sync_hardware_cursor (w : writer) : list (Z * Z) :=
  let pos := wrap16 (row w * VGA_WIDTH + col w) in
  [(0x3D4, 0x0F); (0x3D5, Z.land pos 0xFF); (0x3D4, 0x0E);
   (0x3D5, Z.land (Z.shiftr pos 8) 0xFF)].

(** ** The screen *)

Definition CELLS : Z := VGA_WIDTH * VGA_HEIGHT.

(** The cursor is on the screen, or just past the end of its row. *)
Definition writer_ok (w : writer) : Prop :=
  0 <= row w < VGA_HEIGHT /\ 0 <= col w <= VGA_WIDTH.

(** [w'] differs from [w] in cells of the screen only. *)
Definition redrawn (w w' : writer) : Prop :=
  row w' = row w /\ col w' = col w /\ fg w' = fg w /\ bg w' = bg w /\ bold w' = bold w /\
  serial w' = serial w /\ forall i, ~ (0 <= i < CELLS) -> cells w' i = cells w i.

(** Cells [lo] to [hi] hold [v], the others what they held in [w]. *)
Definition filled (w : writer) (lo hi v : Z) (w' : writer) : Prop :=
  forall i, cells w' i = if decide (lo <= i < hi) then v else cells w i.

Ltac vga := unfold index, CELLS, VGA_WIDTH, VGA_HEIGHT in *.

Lemma redrawn_refl w : redrawn w w.
Proof. by split_and!. Qed.

Lemma redrawn_trans w1 w2 w3 : redrawn w1 w2 -> redrawn w2 w3 -> redrawn w1 w3.
Proof.
  intros (? & ? & ? & ? & ? & ? & F1) (? & ? & ? & ? & ? & ? & F2).
  split_and!; try congruence. intros i Hi. by rewrite F2, F1.
Qed.

Lemma redrawn_blank w w' : redrawn w w' -> blank w' = blank w.
Proof. intros (_ & _ & E1 & E2 & E3 & _). unfold blank, effective_fg. by rewrite E1, E2, E3. Qed.

Lemma redrawn_poke w i v : 0 <= i < CELLS -> redrawn w (poke i v w).
Proof.
  intros Hi. split_and!; try done. intros j Hj. cbn. case_match eqn:E; [|done]. bool_simp. lia.
Qed.

Lemma clear_row_range_spec r a b w :
  0 <= r < VGA_HEIGHT -> 0 <= a ->
  redrawn w (clear_row_range r a b w) /\
  filled w (index r a) (index r (Z.min b VGA_WIDTH)) (blank w) (clear_row_range r a b w).
Proof.
  intros Hr Ha. unfold clear_row_range.
  pose proof (for_to_ind (fun c w' => redrawn w w' /\ filled w (index r a) (index r c) (blank w) w')
    a (Z.min b VGA_WIDTH) (fun c => write_cell r c (blank w)) w) as L. cbn beta in L.
  destruct (decide (a <= Z.min b VGA_WIDTH)).
  - rewrite Z.max_r in L by lia. apply L.
    + split; [apply redrawn_refl|]. intros i. rewrite decide_False; [done|lia].
    + intros c w' Hc [R F]. split.
      * eapply redrawn_trans; [exact R|]. apply redrawn_poke. vga. lia.
      * intros i. unfold write_cell, poke. cbn. rewrite F. vga.
        repeat case_decide; case_match; bool_simp; try done; lia.
  - unfold for_to. replace (Z.to_nat _) with O by lia. cbn. split; [apply redrawn_refl|].
    intros i. rewrite decide_False; [done|]. vga. lia.
Qed.

Lemma clear_row_spec r w :
  0 <= r < VGA_HEIGHT ->
  redrawn w (clear_row r w) /\ filled w (index r 0) (index (r + 1) 0) (blank w) (clear_row r w).
Proof.
  intros Hr. destruct (clear_row_range_spec r 0 VGA_WIDTH w Hr ltac:(lia)) as [R F].
  unfold clear_row_range in *. rewrite Z.min_id in *. split; [exact R|].
  intros i. unfold clear_row. rewrite F. vga. by replace (r * 80 + 80) with ((r + 1) * 80 + 0) by lia.
Qed.

(** Rows [a] to [b] cleared by a [for] loop. *)
Lemma clear_rows_spec a b w :
  0 <= a -> b <= VGA_HEIGHT ->
  redrawn w (for_to a b clear_row w) /\
  filled w (index a 0) (index b 0) (blank w) (for_to a b clear_row w).
Proof.
  intros Ha Hb.
  pose proof (for_to_ind (fun r w' => redrawn w w' /\ filled w (index a 0) (index r 0) (blank w) w')
    a b clear_row w) as L. cbn beta in L. destruct (decide (a <= b)).
  - rewrite Z.max_r in L by lia. apply L.
    + split; [apply redrawn_refl|]. intros i. rewrite decide_False; [done|lia].
    + intros r w' Hr [R F]. destruct (clear_row_spec r w' ltac:(lia)) as [R' F'].
      split; [by eapply redrawn_trans|]. intros i. rewrite F', F, (redrawn_blank _ _ R).
      vga. repeat case_decide; try done; lia.
  - unfold for_to. replace (Z.to_nat _) with O by lia. cbn. split; [apply redrawn_refl|].
    intros i. rewrite decide_False; [done|]. vga. lia.
Qed.

(** Every row moves up by one and the last is blank. *)
Definition scrolled (w w' : writer) : Prop :=
  forall i, cells w' i =
    if decide (0 <= i < index (VGA_HEIGHT - 1) 0) then cells w (i + VGA_WIDTH)
    else if decide (index (VGA_HEIGHT - 1) 0 <= i < CELLS) then blank w else cells w i.

Lemma scroll_spec w : redrawn w (scroll w) /\ scrolled w (scroll w).
Proof.
  set (inv n w' := redrawn w w' /\
    forall i, cells w' i = if decide (0 <= i < n) then cells w (i + VGA_WIDTH) else cells w i).
  assert (H : inv (index (VGA_HEIGHT - 1) 0) (for_to 1 VGA_HEIGHT (fun r => for_to 0 VGA_WIDTH
    (fun c w => poke (index (r - 1) c) (read_cell r c w) w)) w)).
  { apply (for_to_ind (fun r => inv (index (r - 1) 0)) 1 VGA_HEIGHT).
    - split; [apply redrawn_refl|]. intros i. rewrite decide_False; [done|vga; lia].
    - intros r w1 Hr I1.
      replace (index (r + 1 - 1) 0) with (index (r - 1) (Z.max 0 VGA_WIDTH)) by (vga; lia).
      apply (for_to_ind (fun c => inv (index (r - 1) c)) 0 VGA_WIDTH); [done|].
      intros c w2 Hc [R F]. split.
      + eapply redrawn_trans; [exact R|]. apply redrawn_poke. vga. lia.
      + intros i. unfold poke, read_cell. cbn. rewrite !F. vga.
        repeat case_decide; case_match; bool_simp; try done; try lia; f_equal; lia. }
  destruct H as [R F]. unfold scroll. set (w1 := for_to 1 _ _ w) in *.
  destruct (clear_row_spec (VGA_HEIGHT - 1) w1) as [R' F']; [vga; lia|].
  split; [by eapply redrawn_trans|]. intros i. rewrite F', F, (redrawn_blank _ _ R).
  vga. repeat case_decide; try done; lia.
Qed.

(** ** Every operation stays on the screen *)

(** The position the hardware cursor is given, byte by byte. *)
Lemma cursor_words w : writer_ok w ->
  let pos := row w * 80 + col w in
  sync_hardware_cursor w = [(0x3D4, 0x0F); (0x3D5, pos mod 256); (0x3D4, 0x0E); (0x3D5, pos / 256)].
Proof.
  intros [R C] pos. unfold sync_hardware_cursor. vga. fold pos. rewrite (wrap_small 16 pos) by (unfold pos; lia).
  change 0xFF with (Z.ones 8). rewrite !Z.land_ones, Z.shiftr_div_pow2 by lia.
  rewrite (Z.mod_small (pos / 2 ^ 8)); [done|]. unfold pos. dlia.
Qed.

(** After a step the cursor is on the screen, or past the end of its row, and only the
    screen's cells have changed. *)
Definition confined (w w' : writer) : Prop :=
  writer_ok w' /\ forall i, ~ (0 <= i < CELLS) -> cells w' i = cells w i.

Lemma confined_trans w1 w2 w3 : confined w1 w2 -> confined w2 w3 -> confined w1 w3.
Proof. intros [_ F1] [O2 F2]. split; [done|]. intros i Hi. by rewrite F2, F1. Qed.

Lemma redrawn_confined w w' : writer_ok w -> redrawn w w' -> confined w w'.
Proof. intros O (R & C & _ & _ & _ & _ & F). split; [|done]. unfold writer_ok. by rewrite R, C. Qed.

Lemma set_pos_confined r c w :
  0 <= r < VGA_HEIGHT -> 0 <= c <= VGA_WIDTH -> confined w (set_pos r c w).
Proof. by split. Qed.

Lemma new_line_confined w : writer_ok w -> confined w (new_line w) /\ col (new_line w) = 0.
Proof.
  intros O. unfold new_line. cbn. case_match eqn:E; bool_simp.
  - destruct (scroll_spec (set_pos (row w) 0 w)) as [R _]. pose proof R as (_ & Ec & _).
    split; [|done]. eapply confined_trans; [apply (set_pos_confined (row w) 0)|].
    + apply O.
    + vga. lia.
    + apply redrawn_confined; [|done]. destruct O. split; cbn; [done|vga; lia].
  - split; [|done]. destruct O. apply (set_pos_confined (row w + 1) 0 w); vga; lia.
Qed.

Lemma put_byte_confined b w : writer_ok w -> confined w (put_byte b w).
Proof.
  intros O. unfold put_byte.
  set (w1 := if VGA_WIDTH <=? col w then new_line w else w).
  assert (C1 : confined w w1 /\ col w1 < VGA_WIDTH).
  { unfold w1. case_match eqn:E; bool_simp; [|by split].
    destruct (new_line_confined w O) as [C ->]. split; [done|vga; lia]. }
  destruct C1 as [C1 Hlt]. pose proof C1 as [[Hr Hc] _].
  assert (R : redrawn w1 (write_cell (row w1) (col w1) (screen_char b (effective_fg w1) (bg w1)) w1)).
  { apply redrawn_poke. vga. lia. }
  eapply confined_trans; [exact C1|]. eapply confined_trans; [by apply redrawn_confined|].
  apply set_pos_confined; cbn; vga; lia.
Qed.

Lemma log_confined m c w : writer_ok w -> confined w (log m c w).
Proof. by split. Qed.

Lemma tab_loop_confined m n t w : writer_ok w -> confined w (tab_loop m n t w).
Proof.
  revert w. induction n as [|n IH]; intros w O; cbn; [by split|]. case_match; [|by split].
  pose proof (put_byte_confined 32 (log m 32 w) O) as C.
  eapply confined_trans; [exact C|]. apply IH, C.
Qed.

Lemma put_char_confined m c w : writer_ok w -> confined w (put_char m c w).
Proof.
  intros O. unfold put_char. change (writer_ok (log m c w)) in O. set (w1 := log m c w) in *.
  change (confined w) with (confined w1). clearbody w1.
  repeat case_match; bool_simp.
  - by apply new_line_confined.
  - apply set_pos_confined; [apply O|vga; lia].
  - destruct O. eapply confined_trans; [apply (set_pos_confined (row w1) (col w1 - 1)); lia|].
    apply redrawn_confined; [split; cbn; vga; lia|]. apply redrawn_poke. cbn. vga. lia.
  - by split.
  - by apply tab_loop_confined.
  - by apply put_byte_confined.
Qed.

Lemma clear_screen_confined w : confined w (clear_screen w).
Proof.
  destruct (clear_rows_spec 0 VGA_HEIGHT w) as [(_ & _ & _ & _ & _ & _ & F) _]; [lia|lia|].
  unfold clear_screen. revert F. generalize (for_to 0 VGA_HEIGHT clear_row w). intros w' F.
  split; [split; cbn; vga; lia|exact F].
Qed.

Lemma clear_range_confined r a b w :
  writer_ok w -> 0 <= r < VGA_HEIGHT -> 0 <= a -> confined w (clear_row_range r a b w).
Proof. intros O Hr Ha. apply redrawn_confined; [done|]. by apply clear_row_range_spec. Qed.

Lemma erase_in_line_confined mode w : writer_ok w -> confined w (erase_in_line mode w).
Proof. intros O. pose proof O as [? ?]. unfold erase_in_line. repeat case_match; apply clear_range_confined; lia || done. Qed.

Lemma erase_in_display_confined mode w : writer_ok w -> confined w (erase_in_display mode w).
Proof.
  intros O. pose proof O as [Hr Hc]. unfold erase_in_display.
  repeat case_match; [| |apply clear_screen_confined]; bool_simp.
  - pose proof (clear_range_confined (row w) (col w) VGA_WIDTH w O Hr ltac:(lia)) as C1.
    eapply confined_trans; [exact C1|]. apply redrawn_confined; [apply C1|].
    apply clear_rows_spec; lia.
  - destruct (clear_rows_spec 0 (row w) w) as [R _]; [lia|lia|].
    pose proof (redrawn_confined _ _ O R) as C1. eapply confined_trans; [exact C1|].
    apply clear_range_confined; [apply C1|done|lia].
Qed.

Lemma set_cursor_pos_confined r c w : 0 <= r -> 0 <= c -> confined w (set_cursor_pos r c w).
Proof. intros. apply set_pos_confined; vga; lia. Qed.

Lemma move_cursor_confined dr dc w : confined w (move_cursor dr dc w).
Proof. apply set_pos_confined; unfold clamp; vga; lia. Qed.

(** Dispatch on the operation; the cells of a screen are never unfolded. *)
Ltac confined :=
  lazymatch goal with
  | |- confined _ (put_char _ _ _) => apply put_char_confined; assumption
  | |- confined _ (clear_screen _) => apply clear_screen_confined
  | |- confined _ (erase_in_line _ _) => apply erase_in_line_confined; assumption
  | |- confined _ (erase_in_display _ _) => apply erase_in_display_confined; assumption
  | |- confined _ (move_cursor _ _ _) => apply move_cursor_confined
  | |- confined ?w ?w => split; [assumption|intros; reflexivity]
  end.

(** ** Text on the screen

    What is printed is a document of rows that break at newlines and after 80
    characters; the screen shows its last 25 rows. *)

Record document := Document { history : list (list Z); current_row : list Z }.

Definition rows (d : document) : list (list Z) := history d ++ [current_row d].

(** One printed byte: [cell] is its 16-bit word. *)
Definition type_byte (cell : Z -> Z) (d : document) (b : Z) : document :=
  if b =? 10 then Document (rows d) []
  else if zlen (current_row d) <? VGA_WIDTH
       then Document (history d) (current_row d ++ [cell b])
       else Document (rows d) [cell b].

Definition doc_cell (bl : Z) (d : document) (r c : Z) : Z :=
  nth (Z.to_nat c) (nth (Z.to_nat r) (rows d) []) bl.

(** The first row of the document on the screen. *)
Definition top_row (d : document) : Z := Z.max 0 (zlen (rows d) - VGA_HEIGHT).

Record shows (d : document) (w : writer) : Prop := {
  sh_row : row w = zlen (rows d) - 1 - top_row d;
  sh_col : col w = zlen (current_row d) /\ zlen (current_row d) <= VGA_WIDTH;
  sh_cells : forall r c, 0 <= r < VGA_HEIGHT -> 0 <= c < VGA_WIDTH ->
    cells w (index r c) = doc_cell (blank w) d (top_row d + r) c
}.

(** Bytes that are drawn: neither backspace, tab, newline nor carriage return. *)
Definition drawn (b : Z) : Prop := b <> 8 /\ b <> 9 /\ b <> 10 /\ b <> 13.

Lemma zlen_rows d : zlen (rows d) = zlen (history d) + 1.
Proof. unfold rows. apply zlen_snoc. Qed.

Lemma doc_cell_beyond bl d r c : zlen (rows d) <= r -> doc_cell bl d r c = bl.
Proof.
  intros H. unfold doc_cell. rewrite (nth_overflow (rows d)) by (unfold zlen in H; lia).
  by destruct (Z.to_nat c).
Qed.

(** A new row: the document's rows are kept, the cells follow. *)
Lemma doc_cell_newline bl d r c :
  0 <= r -> doc_cell bl (Document (rows d) []) r c = doc_cell bl d r c.
Proof.
  intros Hr. unfold doc_cell. f_equal. unfold rows at 1. cbn [history current_row].
  destruct (decide (r < zlen (rows d))).
  - by rewrite app_nth1 by (unfold zlen in *; lia).
  - rewrite (nth_overflow (rows d)) by (unfold zlen in *; lia).
    rewrite app_nth2 by (unfold zlen in *; lia). destruct (Z.to_nat r - _)%nat as [|[|]]; done.
Qed.

Lemma new_line_shows d w : shows d w -> shows (Document (rows d) []) (new_line w).
Proof.
  intros [Hr [Hc1 Hc2] Hcell]. pose proof (zlen_rows d) as Ln. pose proof (zlen_nonneg (history d)).
  pose proof (zlen_rows (Document (rows d) [])) as Ln'. cbn [history] in Ln'.
  unfold new_line. cbn [row set_pos]. case_match eqn:E; bool_simp.
  - destruct (scroll_spec (set_pos (row w) 0 w)) as [R F]. set (w' := scroll _) in *.
    assert (B : blank w' = blank w) by (by rewrite (redrawn_blank _ _ R)).
    destruct R as (Rr & Rc & _). cbn in Rr, Rc. split.
    + rewrite Rr. unfold top_row in *. vga. lia.
    + rewrite Rc. split; [reflexivity|]. change (0 <= VGA_WIDTH). vga. lia.
    + intros r c Hr' Hc'. rewrite F, B. change (blank (set_pos _ _ w)) with (blank w).
      change (cells (set_pos _ _ w)) with (cells w). rewrite doc_cell_newline by (unfold top_row; lia).
      unfold top_row in *. destruct (decide (r = VGA_HEIGHT - 1)) as [->|Hne].
      * rewrite decide_False, decide_True by (vga; lia). by rewrite doc_cell_beyond by (vga; lia).
      * rewrite decide_True by (vga; lia). replace (index r c + VGA_WIDTH) with (index (r + 1) c) by (vga; lia).
        rewrite Hcell by (vga; lia). f_equal. vga. lia.
  - split; cbn [row col set_pos].
    + unfold top_row in *. vga. lia.
    + split; [reflexivity|]. change (0 <= VGA_WIDTH). vga. lia.
    + intros r c Hr' Hc'. rewrite doc_cell_newline by (unfold top_row; lia).
      change (cells (set_pos _ _ (set_pos _ _ w))) with (cells w).
      change (blank (set_pos _ _ (set_pos _ _ w))) with (blank w).
      rewrite Hcell by done. f_equal. unfold top_row in *. vga. lia.
Qed.

(** A character at the end of the current row. *)
Lemma doc_cell_append bl h cur x r c :
  0 <= r -> 0 <= c ->
  doc_cell bl (Document h (cur ++ [x])) r c =
  if decide (r = zlen h /\ c = zlen cur) then x else doc_cell bl (Document h cur) r c.
Proof.
  intros Hr Hc. unfold doc_cell, rows. cbn [history current_row].
  destruct (decide (r < zlen h)).
  { rewrite decide_False by lia. by rewrite !(app_nth1 h) by (unfold zlen in *; lia). }
  rewrite !(app_nth2 h) by (unfold zlen in *; lia).
  destruct (Z.to_nat r - length h)%nat as [|j] eqn:Ej; cbn [nth].
  - destruct (decide (c = zlen cur)) as [->|].
    + rewrite decide_True by (unfold zlen in *; lia). rewrite app_nth2 by (unfold zlen; lia).
      unfold zlen. by rewrite Nat2Z.id, Nat.sub_diag.
    + rewrite decide_False by lia. destruct (decide (c < zlen cur)).
      * by rewrite app_nth1 by (unfold zlen in *; lia).
      * rewrite app_nth2 by (unfold zlen in *; lia).
        destruct (Z.to_nat c - length cur)%nat as [|k] eqn:Ek; [unfold zlen in *; lia|].
        rewrite (nth_overflow cur) by (unfold zlen in *; lia). by destruct k.
  - rewrite decide_False by (unfold zlen in *; lia). by destruct j.
Qed.

(** The current attributes: what [type_byte] needs to know of the writer. *)
Definition cell_of (w : writer) (b : Z) : Z := screen_char b (effective_fg w) (bg w).

Definition same_attr (w w' : writer) : Prop := fg w' = fg w /\ bg w' = bg w /\ bold w' = bold w.

Lemma same_attr_cell w w' : same_attr w w' -> forall b, cell_of w' b = cell_of w b.
Proof. intros (E1 & E2 & E3) b. unfold cell_of, effective_fg. by rewrite E1, E2, E3. Qed.

Lemma new_line_attr w : same_attr w (new_line w).
Proof.
  unfold new_line. cbn [row set_pos]. case_match; [|by split_and!].
  destruct (scroll_spec (set_pos (row w) 0 w)) as [(_ & _ & E1 & E2 & E3 & _) _]. by split_and!.
Qed.

Lemma draw_shows h cur w b :
  shows (Document h cur) w -> zlen cur < VGA_WIDTH ->
  shows (Document h (cur ++ [cell_of w b]))
    (set_pos (row w) (col w + 1) (write_cell (row w) (col w) (cell_of w b) w)).
Proof.
  intros [Hr [Hc1 Hc2] Hcell] Hlt. cbn [current_row] in *.
  assert (Ht : top_row (Document h (cur ++ [cell_of w b])) = top_row (Document h cur))
    by (unfold top_row; by rewrite !zlen_rows).
  pose proof (zlen_rows (Document h cur)) as Ln. cbn [history] in Ln. split.
  - cbn [row set_pos write_cell]. by rewrite Hr, Ht, !zlen_rows.
  - cbn [col set_pos current_row]. rewrite zlen_snoc. vga. lia.
  - intros r c Hr' Hc'. rewrite Ht.
    change (blank _) with (blank w). rewrite doc_cell_append by (unfold top_row; lia).
    cbn [cells set_pos write_cell poke set_cells].
    destruct (decide (r = row w /\ c = col w)) as [[-> ->]|Hne].
    + rewrite Z.eqb_refl, decide_True; [done|]. lia.
    + rewrite decide_False by lia. case_match eqn:E; [|by apply Hcell].
      bool_simp. vga. unfold top_row in *. vga. pose proof (zlen_nonneg h). pose proof (zlen_nonneg cur). lia.
Qed.

Lemma put_byte_shows d w b :
  shows d w -> b <> 10 -> shows (type_byte (cell_of w) d b) (put_byte b w) /\ same_attr w (put_byte b w).
Proof.
  intros S Hb. unfold type_byte, put_byte. rewrite (proj2 (Z.eqb_neq _ _) Hb).
  destruct d as [h cur]. cbn [history current_row]. pose proof S as [_ [Hc Hc2] _]. cbn [current_row] in *.
  case_match eqn:E; bool_simp.
  - rewrite (proj2 (Z.leb_gt _ _)) by lia. split; [exact (draw_shows h cur w b S E)|by split_and!].
  - rewrite (proj2 (Z.leb_le _ _)) by lia. pose proof (new_line_attr w) as A.
    pose proof (new_line_shows _ _ S) as S'. rewrite <- (same_attr_cell _ _ A).
    split; [|exact A]. exact (draw_shows _ [] _ b S' eq_refl).
Qed.

Lemma put_char_shows m d w b :
  shows d w -> drawn b \/ b = 10 ->
  shows (type_byte (cell_of w) d b) (put_char m b w) /\ same_attr w (put_char m b w).
Proof.
  intros S Hb. unfold put_char.
  assert (S' : shows d (log m b w)) by (by destruct S).
  change (cell_of w) with (cell_of (log m b w)). change (same_attr w) with (same_attr (log m b w)).
  revert S'. generalize (log m b w). clear w S. intros w S.
  unfold drawn in Hb. destruct (decide (b = 10)) as [->|Hn].
  - split; [by apply new_line_shows|apply new_line_attr].
  - rewrite !(proj2 (Z.eqb_neq _ _)) by lia. by apply put_byte_shows.
Qed.

(** Printing a text, byte by byte. *)
Definition put_str (m : bool) (s : list Z) (w : writer) : writer :=
  fold_left (fun w c => put_char m c w) s w.

Lemma fold_type_byte_ext f g s d :
  (forall b, f b = g b) -> fold_left (type_byte f) s d = fold_left (type_byte g) s d.
Proof.
  intros E. revert d. induction s as [|b s IH]; intros d; cbn; [done|].
  rewrite IH. f_equal. unfold type_byte. by rewrite E.
Qed.

Lemma put_str_shows m s d w :
  shows d w -> Forall (fun b => drawn b \/ b = 10) s ->
  shows (fold_left (type_byte (cell_of w)) s d) (put_str m s w) /\ same_attr w (put_str m s w).
Proof.
  intros S F. revert d w S. induction F as [|b s Hb F IH]; intros d w S; cbn; [by split_and!|].
  destruct (put_char_shows m d w b S Hb) as [S' A].
  destruct (IH _ _ S') as [IH' (A1 & A2 & A3)]. unfold put_str in *.
  split; [|destruct A as (B1 & B2 & B3); split_and!; congruence].
  erewrite fold_type_byte_ext; [exact IH'|]. intros x. symmetry. by apply same_attr_cell.
Qed.

Lemma clear_screen_shows w :
  shows (Document [] []) (clear_screen w) /\ same_attr w (clear_screen w).
Proof.
  destruct (clear_rows_spec 0 VGA_HEIGHT w) as [R F]; [lia|lia|]. unfold clear_screen.
  revert R F. generalize (for_to 0 VGA_HEIGHT clear_row w). intros w' R F.
  pose proof R as (_ & _ & A1 & A2 & A3 & _). split; [|by split_and!]. split; cbn [row col set_pos].
  - done.
  - split; [done|]. change (0 <= VGA_WIDTH). vga. lia.
  - intros r c Hr Hc. change (cells (set_pos 0 0 w')) with (cells w').
    change (blank (set_pos 0 0 w')) with (blank w'). rewrite F, (redrawn_blank _ _ R).
    rewrite decide_True by (vga; lia). unfold doc_cell, rows. cbn [history current_row app].
    destruct (Z.to_nat (_ + r)) as [|[|?]], (Z.to_nat c); done.
Qed.
