(* ===== verification/Ansi.v ===== *)
(** * ANSI escape sequences (userland/drivers/console_server/src/ansi.rs,
      kernel/src/ansi.rs)

    The parser is the same in the kernel and in the console server; it drives
    the writer of [Vga]. Indexing [params] may panic, so operations return [res]. *)

From stdpp Require Import base list numbers.
From Stdlib Require Import Lia.
From S2P Require Import Prelude Libpcern Vga.
Open Scope Z_scope.

Definition MAX_PARAMS : Z := 8.

(** [enum State] *)
Inductive ansi_mode := Ground | Escape | Csi.

(** [struct AnsiState] *)
Record ansi := Ansi { state : ansi_mode; params : list Z; nparams : Z }.

Definition ansi_new : ansi := Ansi Ground (replicate (Z.to_nat MAX_PARAMS) 0) 0.

(** [u16::saturating_mul], [saturating_add], [saturating_sub] *)
Definition sat16 (v : Z) : Z := Z.min (Z.max v 0) 65535.

Definition param (a : ansi) (idx default : Z) : res Z :=
  if idx <? nparams a then
    v <- bget (params a) idx ;; Ok (if v =? 0 then default else v)
  else Ok default.

Definition raw_param (a : ansi) (idx : Z) : res Z :=
  if idx <? nparams a then bget (params a) idx else Ok 0.

(** One parameter of [apply_sgr]. *)
Definition sgr (p : Z) (w : writer) : writer :=
  if p =? 0 then reset_attributes w
  else if p =? 1 then set_bold true w
  else if p =? 22 then set_bold false w
  else if (30 <=? p) && (p <=? 37) then set_fg (from_low3 (p - 30)) w
  else if p =? 39 then set_fg LightGray w
  else if (40 <=? p) && (p <=? 47) then set_bg (from_low3 (p - 40)) w
  else if p =? 49 then set_bg Black w
  else if (90 <=? p) && (p <=? 97) then set_fg (bright (from_low3 (p - 90))) w
  else if (100 <=? p) && (p <=? 107) then set_bg (from_low3 (p - 100)) w
  else w.

(** The loop of [apply_sgr] from parameter [i] on. *)
Fixpoint sgr_loop (a : ansi) (n : nat) (i : Z) (w : writer) : res writer :=
  match n with
  | O => Ok w
  | S m => p <- bget (params a) i ;; sgr_loop a m (i + 1) (sgr p w)
  end.

Definition apply_sgr (a : ansi) (w : writer) : res writer :=
  if nparams a =? 0 then Ok (reset_attributes w)
  else sgr_loop a (Z.to_nat (nparams a)) 0 w.

Definition execute (a : ansi) (byte : Z) (w : writer) : res writer :=
  if byte =? 65 then n <- param a 0 1 ;; Ok (move_cursor (- n) 0 w)
  else if byte =? 66 then n <- param a 0 1 ;; Ok (move_cursor n 0 w)
  else if byte =? 67 then n <- param a 0 1 ;; Ok (move_cursor 0 n w)
  else if byte =? 68 then n <- param a 0 1 ;; Ok (move_cursor 0 (- n) w)
  else if (byte =? 72) || (byte =? 102) then
    r <- param a 0 1 ;; c <- param a 1 1 ;; Ok (set_cursor_pos (sat16 (r - 1)) (sat16 (c - 1)) w)
  else if byte =? 74 then n <- raw_param a 0 ;; Ok (erase_in_display n w)
  else if byte =? 75 then n <- raw_param a 0 ;; Ok (erase_in_line n w)
  else if byte =? 109 then apply_sgr a w
  else Ok w.

Definition set_state (s : ansi_mode) (a : ansi) : ansi := Ansi s (params a) (nparams a).

(** [AnsiState::feed] *)
Definition feed (mirror : bool) (a : ansi) (byte : Z) (w : writer) : res (ansi * writer) :=
  match state a with
  | Ground =>
      if byte =? 0x1B then Ok (set_state Escape a, w) else Ok (a, put_char mirror byte w)
  | Escape =>
      if byte =? 91 then Ok (Ansi Csi (replicate (Z.to_nat MAX_PARAMS) 0) 0, w)
      else Ok (set_state Ground a, w)
  | Csi =>
      if (48 <=? byte) && (byte <=? 57) then
        let n := if nparams a =? 0 then 1 else nparams a in
        let idx := n - 1 in
        if idx <? MAX_PARAMS then
          v <- bget (params a) idx ;;
          ps <- bset (params a) idx (sat16 (sat16 (v * 10) + (byte - 48))) ;;
          Ok (Ansi Csi ps n, w)
        else Ok (Ansi Csi (params a) n, w)
      else if byte =? 59 then
        Ok (Ansi Csi (params a) (if nparams a <? MAX_PARAMS then nparams a + 1 else nparams a), w)
      else if byte =? 63 then Ok (a, w)
      else if (64 <=? byte) && (byte <=? 126) then
        w <- execute a byte w ;; Ok (set_state Ground a, w)
      else Ok (set_state Ground a, w)
  end.

(** Bytes fed one after the other. *)
Fixpoint feed_all (mirror : bool) (s : list Z) (a : ansi) (w : writer) : res (ansi * writer) :=
  match s with
  | [] => Ok (a, w)
  | b :: s' => let* (a, w) := feed mirror a b w in feed_all mirror s' a w
  end.

(** ** The kernel's console (kernel/src/vga.rs)

    Its writer holds the parser; [feed_byte] takes it out, feeds it and puts it
    back, and moves the hardware cursor. *)

Record console := Console { kansi : ansi; kwriter : writer; kcursor : list (Z * Z) }.

Definition feed_byte (byte : Z) (c : console) : res console :=
  let* (a, w) := feed true (kansi c) byte (kwriter c) in
  Ok (Console a w (kcursor c ++ sync_hardware_cursor w)).

(** [fmt::Write::write_str] *)
Fixpoint write_str (s : list Z) (c : console) : res console :=
  match s with
  | [] => Ok c
  | b :: s' => c <- feed_byte b c ;; write_str s' c
  end.

(** ** Lemmas *)

Record ansi_ok (a : ansi) : Prop := {
  ao_len : zlen (params a) = MAX_PARAMS;
  ao_n : 0 <= nparams a <= MAX_PARAMS;
  ao_params : Forall (fun v => 0 <= v <= 65535) (params a)
}.

Lemma ansi_ok_put a s i x n :
  ansi_ok a -> 0 <= i < MAX_PARAMS -> 0 <= x <= 65535 -> 0 <= n <= MAX_PARAMS ->
  ansi_ok (Ansi s (put (params a) i [x]) n).
Proof.
  intros [L _ F] Hi Hx Hn. split; cbn [params nparams]; [|done|].
  - rewrite zlen_put; [done|lia|]. change (zlen [_]) with 1. lia.
  - apply Forall_put; [done|]. by constructor.
Qed.

Lemma param_ok a idx d :
  ansi_ok a -> 0 <= idx -> 0 <= d <= 65535 -> exists n, param a idx d = Ok n /\ 0 <= n <= 65535.
Proof.
  intros [L N F] Hi Hd. unfold param. case_match eqn:E; bool_simp; [|by exists d].
  rewrite bget_ok by lia. eexists. split; [done|].
  pose proof (bget_Forall _ _ idx F ltac:(lia)). cbn in *. case_match; lia.
Qed.

Lemma raw_param_ok a idx : ansi_ok a -> 0 <= idx -> exists n, raw_param a idx = Ok n.
Proof.
  intros [L N F] Hi. unfold raw_param. case_match eqn:E; bool_simp; [|by eexists].
  rewrite bget_ok by lia. by eexists.
Qed.

Lemma sgr_confined p w : writer_ok w -> confined w (sgr p w).
Proof. intros O. unfold sgr. repeat case_match; by split. Qed.

Lemma sgr_loop_ok a n i w :
  ansi_ok a -> writer_ok w -> 0 <= i -> i + Z.of_nat n <= nparams a ->
  exists w', sgr_loop a n i w = Ok w' /\ confined w w'.
Proof.
  intros A. revert i w. induction n as [|n IH]; intros i w O Hi Hn; cbn; [by exists w|].
  rewrite bget_ok by (destruct A; lia). pose proof (sgr_confined (byte_at (params a) i) w O) as C.
  destruct (IH (i + 1) (sgr (byte_at (params a) i) w)) as (w' & -> & C'); [apply C|lia|lia|].
  exists w'. split; [done|]. by eapply confined_trans.
Qed.

Lemma execute_ok a b w :
  ansi_ok a -> writer_ok w -> exists w', execute a b w = Ok w' /\ confined w w'.
Proof.
  intros A O. unfold execute.
  destruct (param_ok a 0 1 A) as (n & -> & Hn); [lia|lia|].
  destruct (param_ok a 1 1 A) as (m & -> & Hm); [lia|lia|].
  destruct (raw_param_ok a 0 A) as (p & ->); [lia|].
  repeat case_match; try (eexists; split; [reflexivity|]; confined).
  - eexists. split; [reflexivity|]. apply set_cursor_pos_confined; unfold sat16; lia.
  - unfold apply_sgr. case_match; [eexists; split; [reflexivity|]; by split|].
    apply sgr_loop_ok; try done; destruct A; lia.
Qed.

Lemma feed_ok m a b w :
  ansi_ok a -> writer_ok w ->
  exists a' w', feed m a b w = Ok (a', w') /\ ansi_ok a' /\ confined w w'.
Proof.
  intros A O. pose proof A as [L N F]. assert (R : confined w w) by (by split).
  assert (Z8 : forall s, ansi_ok (set_state s a)) by (by intros s; split).
  unfold feed. destruct (state a) eqn:St.
  - case_match; do 2 eexists; (split; [reflexivity|]); split; try confined; auto.
  - case_match; do 2 eexists; (split; [reflexivity|]); split; try confined; auto.
    split; cbn; [done|unfold MAX_PARAMS; lia|]. by apply Forall_replicate.
  - case_match eqn:E1; [|case_match; [|case_match; [|case_match]]]; bool_simp.
    + set (n := if nparams a =? 0 then 1 else nparams a).
      assert (Hn : 0 < n <= MAX_PARAMS) by (unfold n; unfold MAX_PARAMS in *; case_match; bool_simp; lia).
      rewrite (proj2 (Z.ltb_lt _ _)) by lia. rewrite bget_ok, bset_ok by lia.
      do 2 eexists. split; [reflexivity|]. split; [|done].
      apply ansi_ok_put; [done|lia|unfold sat16; lia|lia].
    + do 2 eexists. split; [reflexivity|]. split; [|done].
      split; cbn; [done|case_match; bool_simp; lia|done].
    + by do 2 eexists.
    + destruct (execute_ok a b w A O) as (w' & -> & C). do 2 eexists. split; [reflexivity|]. by split.
    + do 2 eexists. by split.
Qed.

Lemma feed_all_ok m s a w :
  ansi_ok a -> writer_ok w ->
  exists a' w', feed_all m s a w = Ok (a', w') /\ ansi_ok a' /\ confined w w'.
Proof.
  revert a w. induction s as [|b s IH]; intros a w A O; cbn; [exists a, w; by split|].
  destruct (feed_ok m a b w A O) as (a1 & w1 & -> & A1 & C1).
  destruct (IH a1 w1 A1) as (a2 & w2 & -> & A2 & C2); [apply C1|].
  exists a2, w2. split_and!; [done|done|]. by eapply confined_trans.
Qed.

Lemma ansi_new_ok : ansi_ok ansi_new.
Proof. split; [done|unfold ansi_new, MAX_PARAMS; cbn; lia|by apply Forall_replicate]. Qed.

Lemma feed_all_app m s t a w :
  feed_all m (s ++ t) a w = let* (a, w) := feed_all m s a w in feed_all m t a w.
Proof.
  revert a w. induction s as [|b s IH]; intros a w; cbn; [done|].
  destruct (feed m a b w) as [[a1 w1]|]; [apply IH|done].
Qed.

(** Text without escapes goes straight to the writer. *)
Lemma feed_all_text m s a w :
  state a = Ground -> Forall (fun b => b <> 0x1B) s -> feed_all m s a w = Ok (a, put_str m s w).
Proof.
  intros St F. revert w. induction F as [|b s Hb F IH]; intros w; cbn; [done|].
  unfold feed. rewrite St. by rewrite (proj2 (Z.eqb_neq _ _) Hb), IH.
Qed.

(** ** Cursor addressing *)

(** A digit string read into a parameter that holds [v]. *)
Definition digits_from (v : Z) (ds : list Z) : Z := fold_left (fun v d => v * 10 + (d - 48)) ds v.

Lemma digits_from_le v ds : Forall is_digit ds -> 0 <= v -> v <= digits_from v ds.
Proof.
  intros F. revert v. induction F as [|d ds Hd F IH]; intros v Hv; cbn; [lia|].
  unfold is_digit in Hd. etransitivity; [|apply IH; lia]. lia.
Qed.

Lemma put_put (b : list Z) i x y :
  0 <= i < zlen b -> put (put b i [x]) i [y] = put b i [y].
Proof.
  intros H. unfold put, zlen in *. cbn [length].
  rewrite firstn_app, length_take, firstn_all2 by (rewrite length_take; lia).
  replace (Z.to_nat i - min (Z.to_nat i) (length b))%nat with O by lia. cbn [take]. rewrite app_nil_r.
  do 2 f_equal. rewrite skipn_app, length_take, skipn_all2 by (rewrite length_take; lia). cbn [app].
  replace (Z.to_nat (i + Z.of_nat 1) - min (Z.to_nat i) (length b))%nat with 1%nat by lia. done.
Qed.

(** One digit in [Csi]: the current parameter (the first, if there is none yet). *)
Lemma feed_digit m a d w :
  ansi_ok a -> state a = Csi -> is_digit d ->
  let n := Z.max 1 (nparams a) in
  feed m a d w =
  Ok (Ansi Csi (put (params a) (n - 1) [sat16 (sat16 (byte_at (params a) (n - 1) * 10) + (d - 48))]) n, w).
Proof.
  intros [L N _] St Hd n. unfold is_digit in Hd. unfold feed. rewrite St.
  rewrite (proj2 (Z.leb_le 48 d)), (proj2 (Z.leb_le d 57)) by lia. cbn [andb].
  replace (if nparams a =? 0 then 1 else nparams a) with n by (unfold n; case_match; bool_simp; lia).
  unfold MAX_PARAMS in *. rewrite (proj2 (Z.ltb_lt _ _)) by lia. by rewrite bget_ok, bset_ok by lia.
Qed.

Lemma feed_digits m ds a w v :
  ansi_ok a -> state a = Csi -> Forall is_digit ds ->
  let n := Z.max 1 (nparams a) in
  byte_at (params a) (n - 1) = Z.min 65535 v -> 0 <= v -> ds <> [] ->
  feed_all m ds a w =
  Ok (Ansi Csi (put (params a) (n - 1) [Z.min 65535 (digits_from v ds)]) n, w).
Proof.
  intros A St F. revert a v A St. induction F as [|d ds Hd F IH]; intros a v A St n Hv Hv0 Hne; [done|].
  pose proof A as [L N _]. cbn [feed_all]. rewrite (feed_digit m a d w A St Hd). fold n.
  unfold is_digit in Hd. unfold MAX_PARAMS in *.
  assert (Hs : sat16 (sat16 (byte_at (params a) (n - 1) * 10) + (d - 48)) = Z.min 65535 (v * 10 + (d - 48)))
    by (rewrite Hv; unfold sat16; lia). rewrite Hs.
  destruct ds as [|d' ds]; [done|].
  rewrite (IH (Ansi Csi (put (params a) (n - 1) [Z.min 65535 (v * 10 + (d - 48))]) n) (v * 10 + (d - 48)));
    try done; cbn [params nparams]; replace (Z.max 1 n) with n by lia.
  - by rewrite put_put by lia.
  - apply ansi_ok_put; [done|unfold MAX_PARAMS; lia|lia|unfold MAX_PARAMS; lia].
  - rewrite byte_at_put by (change (zlen [_]) with 1; lia). change (zlen [_]) with 1.
    rewrite decide_True by lia. by rewrite Z.sub_diag.
  - lia.
Qed.

(** *** Single bytes *)

Lemma feed_all_cons m b s a w :
  feed_all m (b :: s) a w = let* (a, w) := feed m a b w in feed_all m s a w.
Proof. reflexivity. Qed.

Lemma feed_esc m a w : state a = Ground -> feed m a 0x1B w = Ok (set_state Escape a, w).
Proof. intros St. unfold feed. by rewrite St. Qed.

Lemma feed_csi m a w :
  feed m (set_state Escape a) 91 w = Ok (Ansi Csi (replicate (Z.to_nat MAX_PARAMS) 0) 0, w).
Proof. reflexivity. Qed.

Lemma feed_semicolon m ps n w :
  feed m (Ansi Csi ps n) 59 w = Ok (Ansi Csi ps (if n <? MAX_PARAMS then n + 1 else n), w).
Proof. reflexivity. Qed.

Lemma feed_H m ps n w :
  feed m (Ansi Csi ps n) 72 w =
  let a := Ansi Csi ps n in
  r <- param a 0 1 ;; c <- param a 1 1 ;;
  Ok (set_state Ground a, set_cursor_pos (sat16 (r - 1)) (sat16 (c - 1)) w).
Proof.
  cbv zeta. change (feed m (Ansi Csi ps n) 72 w) with
    (w' <- execute (Ansi Csi ps n) 72 w ;; Ok (set_state Ground (Ansi Csi ps n), w')).
  change (execute (Ansi Csi ps n) 72 w) with
    (r <- param (Ansi Csi ps n) 0 1 ;; c <- param (Ansi Csi ps n) 1 1 ;;
     Ok (set_cursor_pos (sat16 (r - 1)) (sat16 (c - 1)) w)).
  by destruct (param (Ansi Csi ps n) 0 1), (param (Ansi Csi ps n) 1 1).
Qed.

Lemma feed_J m ps n w :
  feed m (Ansi Csi ps n) 74 w =
  (p <- raw_param (Ansi Csi ps n) 0 ;; Ok (set_state Ground (Ansi Csi ps n), erase_in_display p w)).
Proof.
  change (feed m (Ansi Csi ps n) 74 w) with
    (w' <- execute (Ansi Csi ps n) 74 w ;; Ok (set_state Ground (Ansi Csi ps n), w')).
  change (execute (Ansi Csi ps n) 74 w) with
    (p <- raw_param (Ansi Csi ps n) 0 ;; Ok (erase_in_display p w)).
  by destruct (raw_param (Ansi Csi ps n) 0).
Qed.

(** [ESC \[ 2 J ESC \[ H]: a cleared screen with the cursor at the top left. *)
Lemma feed_2 m w :
  feed m (Ansi Csi (replicate (Z.to_nat MAX_PARAMS) 0) 0) 50 w = Ok (Ansi Csi ([2] ++ replicate 7 0) 1, w).
Proof. reflexivity. Qed.

Lemma feed_2J m w :
  feed m (Ansi Csi ([2] ++ replicate 7 0) 1) 74 w = Ok (Ansi Ground ([2] ++ replicate 7 0) 1, clear_screen w).
Proof. rewrite feed_J. reflexivity. Qed.

Lemma feed_home m w :
  feed m (Ansi Csi (replicate (Z.to_nat MAX_PARAMS) 0) 0) 72 w =
  Ok (Ansi Ground (replicate (Z.to_nat MAX_PARAMS) 0) 0, set_pos 0 0 w).
Proof. rewrite feed_H. reflexivity. Qed.

Lemma set_pos_twice r c w : set_pos r c (set_pos r c w) = set_pos r c w.
Proof. reflexivity. Qed.

Lemma home_cleared w : set_pos 0 0 (clear_screen w) = clear_screen w.
Proof. exact (set_pos_twice 0 0 (for_to 0 VGA_HEIGHT clear_row w)). Qed.

Lemma feed_clear m a w :
  state a = Ground ->
  exists a', feed_all m [0x1B; 91; 50; 74; 0x1B; 91; 72] a w = Ok (a', clear_screen w) /\
    state a' = Ground.
Proof.
  intros St. exists (Ansi Ground (replicate (Z.to_nat MAX_PARAMS) 0) 0). split; [|reflexivity].
  rewrite feed_all_cons, (feed_esc m a w St), feed_all_cons, feed_csi, feed_all_cons, feed_2,
    feed_all_cons, feed_2J. pose proof (home_cleared w) as Hw. revert Hw. generalize (clear_screen w). intros w' Hw.
  rewrite feed_all_cons, feed_esc by reflexivity.
  rewrite feed_all_cons, feed_csi, feed_all_cons, feed_home, Hw. reflexivity.
Qed.

(** [ESC \[ r ; c H] with the numbers in decimal. *)
Definition cup (dr dc : list Z) : list Z := [0x1B; 91] ++ dr ++ [59] ++ dc ++ [72].

Lemma feed_cup m a w dr dc r c :
  state a = Ground -> Forall is_digit dr -> Forall is_digit dc -> dr <> [] -> dc <> [] ->
  dec_value dr = r -> dec_value dc = c -> 1 <= r -> 1 <= c ->
  exists a', feed_all m (cup dr dc) a w = Ok (a', set_cursor_pos (r - 1) (c - 1) w) /\
    state a' = Ground.
Proof.
  intros St Fr Fc Nr Nc Er Ec Hr Hc. unfold cup. cbn [app]. rewrite feed_all_cons, feed_esc by done.
  rewrite feed_all_cons, feed_csi.
  set (a0 := Ansi Csi (replicate (Z.to_nat MAX_PARAMS) 0) 0).
  assert (A0 : ansi_ok a0) by (split; [done|cbn; unfold MAX_PARAMS; lia|by apply Forall_replicate]).
  rewrite feed_all_app, (feed_digits m dr a0 w 0 A0 eq_refl Fr eq_refl ltac:(lia) Nr).
  change (digits_from 0 dr) with (dec_value dr). rewrite Er. change (Z.max 1 (nparams a0)) with 1.
  change (1 - 1) with 0. rewrite feed_all_cons, feed_semicolon. change (if 1 <? MAX_PARAMS then _ else _) with 2.
  set (a1 := Ansi Csi (put (params a0) 0 [Z.min 65535 r]) 2).
  assert (A1 : ansi_ok a1) by (apply (ansi_ok_put a0); [done|unfold MAX_PARAMS; lia|lia|unfold MAX_PARAMS; lia]).
  rewrite feed_all_app, (feed_digits m dc a1 w 0 A1 eq_refl Fc eq_refl ltac:(lia) Nc).
  change (digits_from 0 dc) with (dec_value dc). rewrite Ec. change (Z.max 1 (nparams a1)) with 2.
  change (2 - 1) with 1. rewrite feed_all_cons, feed_H.
  set (a2 := Ansi Csi _ 2). change (put (params a1) 1 [Z.min 65535 c]) with
    ([Z.min 65535 r; Z.min 65535 c] ++ replicate 6 0) in a2.
  unfold param. change (bget (params a2) 0) with (Ok (Z.min 65535 r)). change (bget (params a2) 1) with (Ok (Z.min 65535 c)).
  change (0 <? nparams a2) with true. change (1 <? nparams a2) with true.
  cbv iota. rewrite !(proj2 (Z.eqb_neq _ _)) by lia. cbn [feed_all].
  exists (set_state Ground a2). split; [|reflexivity]. unfold set_cursor_pos, sat16. do 3 f_equal; vga; lia.
Qed.

(** C38: nothing a client prints can reach outside the screen.  Whatever bytes are fed to
    the console, escape sequences or not, complete or not, the parser never panics, no word
    outside the 80 by 25 buffer changes, the cursor's row stays on the screen and its
    column goes at most one past the last, where the next character starts a new row.  The
    position the hardware cursor is sent to is that cell, so it is the first one after the
    screen when the last row is full, and on the screen otherwise. *)
Theorem terminal_confined m s w :
  writer_ok w ->
  exists a w', feed_all m s ansi_new w = Ok (a, w') /\
    (forall i, ~ (0 <= i < CELLS) -> cells w' i = cells w i) /\
    0 <= row w' <= 24 /\ 0 <= col w' <= 80 /\
    exists pos, sync_hardware_cursor w' = [(0x3D4, 0x0F); (0x3D5, pos mod 256); (0x3D4, 0x0E); (0x3D5, pos / 256)] /\
      if decide (row w' = 24 /\ col w' = 80) then pos = CELLS else 0 <= pos < CELLS.
Proof.
  intros O. destruct (feed_all_ok m s ansi_new w ansi_new_ok O) as (a & w' & E & _ & [R C] & F).
  exists a, w'. split; [done|]. split; [exact F|]. vga. split; [lia|]. split; [lia|].
  exists (row w' * 80 + col w'). split; [apply cursor_words; split; vga; lia|]. case_decide; lia.
Qed.

Lemma terminal_confined_witness :
  exists a w', feed_all false [0x1B; 91; 57; 57; 57; 66; 65] ansi_new (writer_new (fun _ => 0)) = Ok (a, w') /\
    0 <= row w' <= 24.
Proof.
  destruct (terminal_confined false [0x1B; 91; 57; 57; 57; 66; 65] (writer_new (fun _ => 0)))
    as (a & w' & E & _ & R & _); [vm_compute; repeat split; congruence|].
  exists a, w'. split; [exact E|exact R].
Defined.

(** the screen shows the end of what was printed.  Text without control characters
    other than newlines, printed on a cleared screen, is laid out as a document whose rows
    break at newlines and after 80 characters; the screen shows the document's last 25
    rows, character by character in the current colours, blank elsewhere, with the cursor
    at its end. *)
Theorem text_shown m s a w :
  state a = Ground -> Forall (fun b => drawn b /\ b <> 0x1B \/ b = 10) s ->
  exists w', feed_all m s a (clear_screen w) = Ok (a, w') /\
    shows (fold_left (type_byte (cell_of w)) s (Document [] [])) w'.
Proof.
  intros St F. exists (put_str m s (clear_screen w)). split.
  - apply feed_all_text; [done|]. eapply Forall_impl; [|exact F]. unfold drawn. cbn. lia.
  - destruct (clear_screen_shows w) as [S A].
    destruct (put_str_shows m s _ _ S) as [S' _]; [eapply Forall_impl; [|exact F]; cbn; tauto|].
    erewrite fold_type_byte_ext; [exact S'|]. intros b. symmetry. by apply same_attr_cell.
Qed.

Lemma text_shown_witness :
  exists w', feed_all false [104; 105; 10; 33] ansi_new (clear_screen (writer_new (fun _ => 0))) = Ok (ansi_new, w') /\
    row w' = 1 /\ cells w' (index 0 1) = screen_char 105 LightGray Black.
Proof.
  destruct (text_shown false [104; 105; 10; 33] ansi_new (writer_new (fun _ => 0)) eq_refl) as (w' & E & S).
  - repeat constructor; unfold drawn; lia.
  - exists w'. split; [exact E|]. split.
    + exact (sh_row _ _ S).
    + rewrite (sh_cells _ _ S) by (vm_compute; repeat split; congruence). vm_compute. reflexivity.
Defined.
