(* ===== verification/Editor.v ===== *)
(** * The text editor (userland/libpcern/src/editor.rs)

    The editor's pages are the byte list [buf]; the loops that shift bytes and
    look for line ends run on it one byte at a time, with Rust's bounds checks.
    The specification is a text with a cursor, and a cursor's line and column
    are those of the text split at newlines. *)

From stdpp Require Import base list numbers.
From Stdlib Require Import Lia.
From S2P Require Import Prelude Libpcern Vga Ansi.
Open Scope Z_scope.

Definition EDITOR_PAGES : nat := 16.
Definition PAGE_SIZE : Z := 4096.
Definition EDITOR_MAX_BYTES : Z := Z.of_nat EDITOR_PAGES * PAGE_SIZE.

Definition KEY_CTRL_S : Z := 0x13.
Definition KEY_CTRL_Q : Z := 0x11.
Definition KEY_BACKSPACE : Z := 8.

(** [struct Editor]: [buf] is what [buf_base] points to. *)
Record editor := Editor { buf_base : Z; buf : list Z; len : Z; cursor : Z }.

(** The loop of [Editor::new]: page [i] and the following ones. *)
Fixpoint alloc_pages (n : nat) (base i : Z) : prog bool :=
  match n with
  | O => mret true
  | S m =>
      slot ← mem_alloc (wrap32 (base + wrap32 (i * PAGE_SIZE)));
      if slot =? 0 then mret false else alloc_pages m base (i + 1)
  end.

(** [Editor::new]; [contents] is what the new pages hold. *)
Definition editor_new (base : Z) (contents : list Z) : prog (option editor) :=
  ok ← alloc_pages EDITOR_PAGES base 0;
  mret (if ok : bool then Some (Editor base contents 0 0) else None).

(** [reset] *)
Definition reset (e : editor) : editor := Editor (buf_base e) (buf e) 0 0.

(** [content] *)
Definition content (e : editor) : res (list Z) := bslice (buf e) 0 (len e).

(** [append_loaded] *)
Definition append_loaded (e : editor) (data : list Z) : res (editor * bool) :=
  let room := EDITOR_MAX_BYTES - len e in
  let n := Z.min (zlen data) room in
  d <- bslice data 0 n ;;
  b <- bcopy (buf e) (len e) d ;;
  Ok (Editor (buf_base e) b (len e + n) (cursor e), n =? zlen data).

(** The loop of [line_start], going down from [i]. *)
Fixpoint line_start_loop (b : list Z) (i : nat) : res Z :=
  match i with
  | O => Ok 0
  | S j =>
      x <- bget b (Z.of_nat j) ;;
      if x =? 10 then Ok (Z.of_nat (S j)) else line_start_loop b j
  end.

Definition line_start (e : editor) (pos : Z) : res Z := line_start_loop (buf e) (Z.to_nat pos).

(** The loop of [line_end], going up from [i]; [n] is [len - i]. *)
Fixpoint line_end_loop (b : list Z) (n : nat) (i : Z) : res Z :=
  match n with
  | O => Ok i
  | S m =>
      x <- bget b i ;;
      if x =? 10 then Ok i else line_end_loop b m (i + 1)
  end.

Definition line_end (e : editor) (pos : Z) : res Z :=
  line_end_loop (buf e) (Z.to_nat (len e - pos)) pos.

(** [while i > cursor { b\[i\] = b\[i - 1\]; i -= 1 }]; [n] is [i - cursor]. *)
Fixpoint shift_up (b : list Z) (n : nat) (i : Z) : res (list Z) :=
  match n with
  | O => Ok b
  | S m => x <- bget b (i - 1) ;; b <- bset b i x ;; shift_up b m (i - 1)
  end.

Definition insert_byte (e : editor) (byte : Z) : res editor :=
  if EDITOR_MAX_BYTES <=? len e then Ok e
  else
    b <- shift_up (buf e) (Z.to_nat (len e - cursor e)) (len e) ;;
    b <- bset b (cursor e) byte ;;
    Ok (Editor (buf_base e) b (len e + 1) (cursor e + 1)).

(** [for i in lo..hi { b\[i - 1\] = b\[i\] }] *)
Definition shift_down (b : list Z) (lo hi : Z) : res (list Z) :=
  for_res lo (Z.to_nat (hi - lo)) (fun i b => x <- bget b i ;; bset b (i - 1) x) b.

Definition backspace (e : editor) : res editor :=
  if cursor e =? 0 then Ok e
  else
    b <- shift_down (buf e) (cursor e) (len e) ;;
    Ok (Editor (buf_base e) b (len e - 1) (cursor e - 1)).

Definition delete_forward (e : editor) : res editor :=
  if len e <=? cursor e then Ok e
  else
    b <- shift_down (buf e) (cursor e + 1) (len e) ;;
    Ok (Editor (buf_base e) b (len e - 1) (cursor e)).

Definition set_cursor (c : Z) (e : editor) : editor := Editor (buf_base e) (buf e) (len e) c.

(** The [KEY_UP] arm. *)
Definition key_up (e : editor) : res editor :=
  cur_start <- line_start e (cursor e) ;;
  let col := cursor e - cur_start in
  if 0 <? cur_start then
    let prev_end := cur_start - 1 in
    prev_start <- line_start e prev_end ;;
    Ok (set_cursor (prev_start + Z.min col (prev_end - prev_start)) e)
  else Ok e.

(** The [KEY_DOWN] arm. *)
Definition key_down (e : editor) : res editor :=
  cur_start <- line_start e (cursor e) ;;
  let col := cursor e - cur_start in
  cur_end <- line_end e (cursor e) ;;
  if cur_end <? len e then
    let next_start := cur_end + 1 in
    next_end <- line_end e next_start ;;
    Ok (set_cursor (next_start + Z.min col (next_end - next_start)) e)
  else Ok e.

(** The bytes a key may insert: newline, tab, space and [is_ascii_graphic]. *)
Definition typable (byte : Z) : bool :=
  (byte =? 10) || (byte =? 9) || ((33 <=? byte) && (byte <=? 126)) || (byte =? 32).

(** [apply_key] *)
Definition apply_key (e : editor) (key : Z) : res (editor * option bool) :=
  if key =? KEY_CTRL_S then Ok (e, Some true)
  else if key =? KEY_CTRL_Q then Ok (e, Some false)
  else
    e <- (if key =? KEY_LEFT then Ok (set_cursor (Z.max 0 (cursor e - 1)) e)
          else if key =? KEY_RIGHT then Ok (set_cursor (Z.min (cursor e + 1) (len e)) e)
          else if key =? KEY_HOME then c <- line_start e (cursor e) ;; Ok (set_cursor c e)
          else if key =? KEY_END then c <- line_end e (cursor e) ;; Ok (set_cursor c e)
          else if key =? KEY_UP then key_up e
          else if key =? KEY_DOWN then key_down e
          else if key =? KEY_DELETE then delete_forward e
          else if key =? KEY_BACKSPACE then backspace e
          else if (0 <=? key) && (key <=? 255) then
            if typable (wrap8 key) then insert_byte e (wrap8 key) else Ok e
          else Ok e) ;;
    Ok (e, None).

(** The bytes [redraw] prints. *)
Definition redraw_bytes (e : editor) : res (list Z) :=
  text <- content e ;;
  cur_start <- line_start e (cursor e) ;;
  before <- bslice (buf e) 0 cur_start ;;
  let row := zlen (List.filter (fun b => b =? 10) before) in
  let col := cursor e - cur_start in
  dr <- decimal (wrap32 (row + 1)) ;;
  dc <- decimal (wrap32 (col + 1)) ;;
  Ok ([0x1B; 91; 50; 74; 0x1B; 91; 72] ++ text ++ [0x1B; 91] ++ dr ++ [59] ++ dc ++ [72]).

(** [redraw] *)
Definition redraw (e : editor) (console_slot : Z) : prog unit :=
  bytes ← lift (redraw_bytes e); print console_slot bytes.

(** ** Specification: a text and a cursor *)

(** The lines of a text, split at newlines. *)
Fixpoint lines (s : list Z) : list (list Z) :=
  match s with
  | [] => [[]]
  | x :: s' =>
      if x =? 10 then [] :: lines s'
      else match lines s' with l :: ls => (x :: l) :: ls | [] => [[x]] end
  end.

(** Where line [r] starts: after [r] lines with their newlines. *)
Fixpoint offset_in (ls : list (list Z)) (r : nat) {struct r} : nat :=
  match r, ls with
  | S r', l :: ls' => S (length l) + offset_in ls' r'
  | _, _ => O
  end.

Definition line_offset (s : list Z) (r : nat) : nat := offset_in (lines s) r.

Definition newlines (s : list Z) : nat := length (List.filter (fun b => b =? 10) s).

(** The cursor's line and column. *)
Definition line_of (s : list Z) (c : nat) : nat := newlines (take c s).
Definition col_of (s : list Z) (c : nat) : nat := c - line_offset s (line_of s c).

Definition line_length (s : list Z) (r : nat) : nat := length (nth r (lines s) []).

(** Column [col] of line [r], or the end of the line if it is shorter. *)
Definition goto (s : list Z) (r col : nat) : nat := line_offset s r + min col (line_length s r).

(** What a key does to a text [s] with the cursor at [c]. *)
Definition spec_key (key : Z) (sc : list Z * nat) : list Z * nat :=
  let '(s, c) := sc in
  if key =? KEY_LEFT then (s, pred c)
  else if key =? KEY_RIGHT then (s, min (S c) (length s))
  else if key =? KEY_HOME then (s, line_offset s (line_of s c))
  else if key =? KEY_END then (s, line_offset s (line_of s c) + line_length s (line_of s c))%nat
  else if key =? KEY_UP then
    (s, match line_of s c with O => c | S r => goto s r (col_of s c) end)
  else if key =? KEY_DOWN then
    (s, if decide (S (line_of s c) < length (lines s))%nat
        then goto s (S (line_of s c)) (col_of s c) else c)
  else if key =? KEY_DELETE then (take c s ++ drop (S c) s, c)
  else if key =? KEY_BACKSPACE then
    match c with O => (s, O) | S p => (take p s ++ drop c s, p) end
  else if typable key && (zlen s <? EDITOR_MAX_BYTES)
       then (take c s ++ key :: drop c s, S c) else (s, c).

Record editor_ok (e : editor) : Prop := {
  eo_buf : zlen (buf e) = EDITOR_MAX_BYTES;
  eo_len : 0 <= len e <= EDITOR_MAX_BYTES;
  eo_cursor : 0 <= cursor e <= len e
}.

Definition text (e : editor) : list Z := sub (buf e) 0 (len e).

(** The text and the cursor of an editor. *)
Definition view (e : editor) : list Z * nat := (text e, Z.to_nat (cursor e)).

(** ** Lines *)

Lemma newlines_app s t : newlines (s ++ t) = (newlines s + newlines t)%nat.
Proof. unfold newlines. by rewrite List.filter_app, length_app. Qed.

Lemma newlines_none s : (forall x, x ∈ s -> x <> 10) -> newlines s = O.
Proof.
  unfold newlines. induction s as [|x s IH]; intros H; cbn; [done|].
  rewrite (proj2 (Z.eqb_neq x 10)) by (apply H; left). apply IH. intros y Hy. apply H. by right.
Qed.

Lemma length_lines s : length (lines s) = S (newlines s).
Proof.
  unfold newlines. induction s as [|x s IH]; cbn; [done|]. destruct (x =? 10); cbn; [by rewrite IH|].
  by destruct (lines s).
Qed.

Lemma lines_nonempty s : lines s <> [].
Proof. intros H. pose proof (length_lines s) as L. by rewrite H in L. Qed.

(** The line between the end of [pre] and the start of [suf]. *)
Lemma lines_split pre line suf :
  (pre = [] \/ exists p, pre = p ++ [10]) -> (forall x, x ∈ line -> x <> 10) ->
  (suf = [] \/ exists q, suf = 10 :: q) ->
  lines (pre ++ line ++ suf) !! newlines pre = Some line /\
  line_offset (pre ++ line ++ suf) (newlines pre) = length pre.
Proof.
  intros Hp Hl Hs. induction pre as [|x pre IH].
  - clear Hp. split; [|done]. change (newlines []) with O. cbn [app].
    induction line as [|x line IH]; cbn [app].
    + destruct Hs as [->|[q ->]]; done.
    + cbn. rewrite (proj2 (Z.eqb_neq x 10)) by (apply Hl; left).
      specialize (IH ltac:(intros y Hy; apply Hl; by right)).
      destruct (lines (line ++ suf)); [done|]. cbn in *. congruence.
  - assert (Hp' : pre = [] \/ exists p, pre = p ++ [10]).
    { destruct Hp as [?|[[|y p] Ep]]; [done|left; by simplify_eq/=|right; exists p; by simplify_eq/=]. }
    destruct (IH Hp') as [H1 H2]. destruct (decide (x = 10)) as [->|Hx].
    + change (newlines (10 :: pre)) with (S (newlines pre)). split; [done|].
      unfold line_offset in *. cbn [app lines Z.eqb Pos.eqb offset_in length]. by rewrite H2.
    + assert (exists n, newlines pre = S n) as [n En].
      { destruct Hp as [?|[[|y p] Ep]]; simplify_eq/=.
        exists (newlines p). rewrite newlines_app. change (newlines [10]) with 1%nat. lia. }
      assert (Ex : newlines (x :: pre) = newlines pre).
      { unfold newlines. cbn. by rewrite (proj2 (Z.eqb_neq x 10)). }
      rewrite Ex, En in *. unfold line_offset in *. cbn. rewrite (proj2 (Z.eqb_neq x 10)) by done.
      destruct (lines (pre ++ line ++ suf)); [done|]. cbn in *. split; [done|lia].
Qed.

(** [p] to [q] is a line of [s], and [c] is on it. *)
Record on_line (s : list Z) (c p q : nat) : Prop := {
  ol_order : (p <= c <= q)%nat /\ (q <= length s)%nat;
  ol_start : p = O \/ s !! pred p = Some 10;
  ol_inside : forall j, (p <= j < q)%nat -> s !! j <> Some 10;
  ol_end : q = length s \/ s !! q = Some 10
}.

Lemma slice_no_newline s p c :
  (forall j, (p <= j < c)%nat -> s !! j <> Some 10) -> forall x, x ∈ take (c - p) (drop p s) -> x <> 10.
Proof.
  intros H x (j & Hj)%list_elem_of_lookup ->. apply lookup_take_Some in Hj as [Hj Hlt].
  rewrite lookup_drop in Hj. by apply (H (p + j)%nat) in Hj; [|lia].
Qed.

Lemma newlines_take s p c :
  (p <= c)%nat -> (forall j, (p <= j < c)%nat -> s !! j <> Some 10) ->
  newlines (take c s) = newlines (take p s).
Proof.
  intros Hpc H. replace c with (p + (c - p))%nat at 1 by lia.
  rewrite <- take_take_drop, newlines_app, (newlines_none (take (c - p) (drop p s))); [lia|].
  by apply slice_no_newline.
Qed.

Lemma newlines_take_S s p : s !! p = Some 10 -> newlines (take (S p) s) = S (newlines (take p s)).
Proof. intros H. rewrite (take_S_r _ _ _ H), newlines_app. change (newlines [10]) with 1%nat. lia. Qed.

Lemma on_line_spec s c p q :
  on_line s c p q ->
  line_of s c = newlines (take p s) /\ line_of s c = newlines (take q s) /\
  line_offset s (line_of s c) = p /\ line_length s (line_of s c) = (q - p)%nat.
Proof.
  intros [[Hpc Hq] Hst Hin He].
  assert (E1 : line_of s c = newlines (take p s)).
  { apply newlines_take; [lia|]. intros j Hj. apply Hin. lia. }
  assert (E2 : newlines (take q s) = newlines (take p s)) by (apply newlines_take; [lia|done]).
  assert (Es : s = take p s ++ take (q - p) (drop p s) ++ drop q s).
  { rewrite app_assoc, take_take_drop. replace (p + (q - p))%nat with q by lia. by rewrite take_drop. }
  destruct (lines_split (take p s) (take (q - p) (drop p s)) (drop q s)) as [H1 H2].
  - destruct p as [|p]; [by left|]. right. destruct Hst as [|Hst]; [done|]. cbn in Hst.
    exists (take p s). by apply take_S_r.
  - by apply slice_no_newline.
  - destruct He as [->|He]; [left; by rewrite drop_all|]. right. exists (drop (S q) s). by apply drop_S.
  - rewrite <- Es in H1, H2. rewrite <- E1 in H1, H2. split_and!; [done|lia| |].
    + rewrite H2, length_take. lia.
    + unfold line_length. rewrite (nth_lookup_Some _ _ _ _ H1), length_take, length_drop. lia.
Qed.

(** ** The loops *)

Lemma bget_lookup b (j : nat) x : b !! j = Some x -> bget b (Z.of_nat j) = Ok x.
Proof.
  intros H. pose proof (lookup_lt_Some _ _ _ H). rewrite bget_ok by (unfold zlen; lia).
  by rewrite byte_at_lookup, Nat2Z.id, H.
Qed.

Lemma line_start_loop_spec b i :
  (i <= length b)%nat ->
  exists p, line_start_loop b i = Ok (Z.of_nat p) /\ (p <= i)%nat /\
    (p = O \/ b !! pred p = Some 10) /\ forall j, (p <= j < i)%nat -> b !! j <> Some 10.
Proof.
  induction i as [|i IH]; intros L; cbn [line_start_loop].
  - exists O. split_and!; [done|lia|by left|lia].
  - destruct (lookup_lt_is_Some_2 b i L) as [x Hx]. rewrite (bget_lookup _ _ _ Hx).
    destruct (decide (x = 10)) as [->|Hn].
    + exists (S i). split_and!; [done|lia|by right|lia].
    + rewrite (proj2 (Z.eqb_neq _ _) Hn). destruct (IH ltac:(lia)) as (p & -> & Hp & Hs & Hi).
      exists p. split_and!; [done|lia|done|]. intros j Hj. destruct (decide (j = i)) as [->|]; [congruence|].
      apply Hi. lia.
Qed.

Lemma line_end_loop_spec b n i :
  (i + n <= length b)%nat ->
  exists q, line_end_loop b n (Z.of_nat i) = Ok (Z.of_nat q) /\ (i <= q <= i + n)%nat /\
    (q = (i + n)%nat \/ b !! q = Some 10) /\ forall j, (i <= j < q)%nat -> b !! j <> Some 10.
Proof.
  revert i. induction n as [|n IH]; intros i L; cbn [line_end_loop].
  - exists i. split_and!; [done|lia|lia|left; lia|lia].
  - destruct (lookup_lt_is_Some_2 b i ltac:(lia)) as [x Hx]. rewrite (bget_lookup _ _ _ Hx).
    destruct (decide (x = 10)) as [->|Hn].
    + exists i. split_and!; [done|lia|lia|by right|lia].
    + rewrite (proj2 (Z.eqb_neq _ _) Hn). replace (Z.of_nat i + 1) with (Z.of_nat (S i)) by lia.
      destruct (IH (S i) ltac:(lia)) as (q & -> & Hq & He & Hi). exists q.
      split_and!; [done|lia|lia|by replace (i + S n)%nat with (S i + n)%nat by lia|].
      intros j Hj. destruct (decide (j = i)) as [->|]; [congruence|]. apply Hi. lia.
Qed.

Lemma shift_up_spec b n i :
  Z.of_nat n <= i -> i < zlen b ->
  shift_up b n i = Ok (put b (i - Z.of_nat n + 1) (sub b (i - Z.of_nat n) i)).
Proof.
  revert b i. induction n as [|n IH]; intros b i Hn Hi; cbn [shift_up].
  - by rewrite Z.sub_0_r, sub_diag, put_nil.
  - rewrite bget_ok, bset_ok by lia.
    set (lo := i - Z.of_nat (S n)) in *.
    assert (Lb : zlen (put b i [byte_at b (i - 1)]) = zlen b)
      by (apply zlen_put; [lia|change (zlen [_]) with 1; lia]).
    rewrite IH by lia. f_equal. replace (i - 1 - Z.of_nat n) with lo by lia.
    rewrite (sub_put_low b i) by lia.
    replace i with (i - 1 + 1) at 4 by lia. rewrite (sub_snoc b lo (i - 1)) by lia.
    assert (Ls : zlen (sub b lo (i - 1)) = i - 1 - lo) by (apply zlen_sub; lia).
    rewrite <- put_put_before by (change (zlen [_]) with 1; lia).
    by replace (lo + 1 + zlen (sub b lo (i - 1))) with i by lia.
Qed.

Lemma shift_down_spec b lo hi :
  1 <= lo <= hi -> hi <= zlen b -> shift_down b lo hi = Ok (put b (lo - 1) (sub b lo hi)).
Proof.
  unfold shift_down. remember (Z.to_nat (hi - lo)) as n eqn:En. revert b lo En.
  induction n as [|n IH]; intros b lo En Hlo Hhi; cbn [for_res].
  - replace hi with lo by lia. by rewrite sub_diag, put_nil.
  - rewrite bget_ok, bset_ok by lia.
    assert (Lb : zlen (put b (lo - 1) [byte_at b lo]) = zlen b)
      by (apply zlen_put; [lia|change (zlen [_]) with 1; lia]).
    rewrite IH by lia. f_equal. rewrite (sub_put_high b (lo - 1)) by (change (zlen [_]) with 1; lia).
    rewrite (sub_cons b lo hi) by lia.
    assert (Ls : zlen (sub b (lo + 1) hi) = hi - (lo + 1)) by (apply zlen_sub; lia).
    change (byte_at b lo :: sub b (lo + 1) hi) with ([byte_at b lo] ++ sub b (lo + 1) hi).
    rewrite <- put_put_after by (change (zlen [_]) with 1; lia). change (zlen [_]) with 1. f_equal. lia.
Qed.

(** ** Refinement *)

Section editing.
Context (e : editor) (W : editor_ok e).

Lemma zlen_text : zlen (text e) = len e.
Proof. destruct W. unfold text. rewrite zlen_sub; lia. Qed.

Lemma text_take (c : Z) : 0 <= c <= len e -> take (Z.to_nat c) (text e) = take (Z.to_nat c) (buf e).
Proof. intros H. unfold text, sub. rewrite drop_0, firstn_firstn. f_equal. lia. Qed.

Lemma text_drop (c : Z) : 0 <= c <= len e -> drop (Z.to_nat c) (text e) = sub (buf e) c (len e).
Proof. intros H. unfold text, sub. rewrite drop_0, skipn_firstn_comm. f_equal. lia. Qed.

Lemma text_lookup (j : nat) : Z.of_nat j < len e -> text e !! j = buf e !! j.
Proof. intros H. unfold text, sub. by rewrite drop_0, lookup_take_lt by lia. Qed.

(** The line of a position, as [line_start] and [line_end] find it. *)
Lemma position_line (c : nat) :
  Z.of_nat c <= len e ->
  exists p q, line_start e (Z.of_nat c) = Ok (Z.of_nat p) /\ line_end e (Z.of_nat c) = Ok (Z.of_nat q) /\
    on_line (text e) c p q.
Proof.
  intros Hc. destruct W as [Lb Ll Lc]. pose proof zlen_text as Lt. unfold zlen in Lt, Lb.
  unfold line_start, line_end. rewrite Nat2Z.id.
  destruct (line_start_loop_spec (buf e) c) as (p & -> & Hp & Hs & Hi); [lia|].
  destruct (line_end_loop_spec (buf e) (Z.to_nat (len e - Z.of_nat c)) c) as (q & -> & Hq & He & Hj); [lia|].
  exists p, q. split; [done|]. split; [done|]. split.
  - lia.
  - destruct Hs as [->|Hs]; [by left|]. destruct p as [|p]; [by left|]. right.
    cbn in *. by rewrite text_lookup by lia.
  - intros j Hlt. rewrite text_lookup by lia. destruct (decide (j < c)%nat); [apply Hi; lia|apply Hj; lia].
  - destruct (decide (Z.of_nat q < len e)); [right|left; lia].
    destruct He as [->|He]; [lia|]. by rewrite text_lookup by lia.
Qed.

(** A copy of [d] at [c], with the length set to its end. *)
Lemma replaced_view c d n :
  0 <= c <= len e -> c + zlen d <= EDITOR_MAX_BYTES -> 0 <= n <= c + zlen d ->
  let e' := Editor (buf_base e) (put (buf e) c d) (c + zlen d) n in
  editor_ok e' /\ view e' = (take (Z.to_nat c) (text e) ++ d, Z.to_nat n).
Proof.
  intros Hc Hd Hn e'. destruct W as [Lb Ll Lc]. pose proof (zlen_nonneg d). split.
  - split; cbn; [rewrite zlen_put; lia|lia|lia].
  - unfold view, text at 1. cbn [buf len cursor e']. rewrite sub_put_prefix by lia. by rewrite text_take by lia.
Qed.

Lemma insert_byte_spec x :
  len e < EDITOR_MAX_BYTES ->
  exists e', insert_byte e x = Ok e' /\ editor_ok e' /\
    view e' = (take (Z.to_nat (cursor e)) (text e) ++ x :: drop (Z.to_nat (cursor e)) (text e),
               S (Z.to_nat (cursor e))).
Proof.
  intros Hl. pose proof W as [Lb Ll Lc]. unfold insert_byte. rewrite (proj2 (Z.leb_gt _ _)) by lia.
  rewrite shift_up_spec by lia. rewrite Z2Nat.id by lia.
  replace (len e - (len e - cursor e)) with (cursor e) by lia.
  assert (Ls : zlen (sub (buf e) (cursor e) (len e)) = len e - cursor e) by (apply zlen_sub; lia).
  rewrite bset_ok by (rewrite zlen_put; lia).
  change (cursor e + 1) with (cursor e + zlen [x]) at 1.
  rewrite put_put_before by (change (zlen [x]) with 1; lia).
  destruct (replaced_view (cursor e) ([x] ++ sub (buf e) (cursor e) (len e)) (cursor e + 1)) as [W' V];
    rewrite ?zlen_app in *; change (zlen [x]) with 1 in *; try lia.
  replace (cursor e + (1 + zlen (sub (buf e) (cursor e) (len e)))) with (len e + 1) in * by lia.
  eexists. split; [reflexivity|]. split; [exact W'|]. rewrite V, text_drop by lia. f_equal. lia.
Qed.

(** Both deletions: the bytes from [lo] on move down by one. *)
Lemma remove_byte_spec lo n :
  1 <= lo <= len e -> 0 <= n <= len e - 1 ->
  exists b, shift_down (buf e) lo (len e) = Ok b /\
    let e' := Editor (buf_base e) b (len e - 1) n in
    editor_ok e' /\
    view e' = (take (Z.to_nat (lo - 1)) (text e) ++ drop (Z.to_nat lo) (text e), Z.to_nat n).
Proof.
  intros Hlo Hn. pose proof W as [Lb Ll Lc]. rewrite shift_down_spec by lia. eexists. split; [reflexivity|].
  assert (Ls : zlen (sub (buf e) lo (len e)) = len e - lo) by (apply zlen_sub; lia).
  destruct (replaced_view (lo - 1) (sub (buf e) lo (len e)) n) as [W' V]; [lia|lia|lia|].
  replace (lo - 1 + zlen (sub (buf e) lo (len e))) with (len e - 1) in * by lia.
  split; [exact W'|]. by rewrite V, text_drop by lia.
Qed.

Lemma backspace_spec :
  exists e', backspace e = Ok e' /\ editor_ok e' /\
    view e' = match Z.to_nat (cursor e) with
              | O => (text e, O)
              | S p => (take p (text e) ++ drop (S p) (text e), p)
              end.
Proof.
  pose proof W as [Lb Ll Lc]. unfold backspace. destruct (Z.to_nat (cursor e)) as [|p] eqn:Ep.
  - rewrite (proj2 (Z.eqb_eq _ _)) by lia. exists e. split_and!; [done|done|]. unfold view. by rewrite Ep.
  - rewrite (proj2 (Z.eqb_neq _ _)) by lia.
    destruct (remove_byte_spec (cursor e) (cursor e - 1)) as (b & -> & W' & V); [lia|lia|].
    eexists. split; [reflexivity|]. split; [exact W'|]. rewrite V. by replace (Z.to_nat (cursor e - 1)) with p by lia;
      rewrite Ep.
Qed.

Lemma delete_forward_spec :
  exists e', delete_forward e = Ok e' /\ editor_ok e' /\
    view e' = (take (Z.to_nat (cursor e)) (text e) ++ drop (S (Z.to_nat (cursor e))) (text e),
               Z.to_nat (cursor e)).
Proof.
  pose proof W as [Lb Ll Lc]. pose proof zlen_text as Lt. unfold delete_forward.
  destruct (len e <=? cursor e) eqn:E; bool_simp.
  - exists e. split_and!; [done|done|]. unfold view. f_equal. unfold zlen in Lt.
    rewrite drop_ge, app_nil_r, take_ge by lia. done.
  - destruct (remove_byte_spec (cursor e + 1) (cursor e)) as (b & -> & W' & V); [lia|lia|].
    eexists. split; [reflexivity|]. split; [exact W'|]. rewrite V.
    by replace (cursor e + 1 - 1) with (cursor e) by lia;
      replace (Z.to_nat (cursor e + 1)) with (S (Z.to_nat (cursor e))) by lia.
Qed.

Lemma set_cursor_view c :
  0 <= c <= len e -> editor_ok (set_cursor c e) /\ view (set_cursor c e) = (text e, Z.to_nat c).
Proof. intros Hc. destruct W. split; [by split|done]. Qed.

Lemma key_up_spec :
  exists e', key_up e = Ok e' /\ editor_ok e' /\
    view e' = let '(s, c) := view e in
      (s, match line_of s c with O => c | S r => goto s r (col_of s c) end).
Proof.
  pose proof W as [Lb Ll Lc]. unfold view. cbn zeta beta iota. set (c := Z.to_nat (cursor e)).
  replace (cursor e) with (Z.of_nat c) by lia. unfold key_up.
  replace (cursor e) with (Z.of_nat c) by lia.
  destruct (position_line c) as (p & q & -> & _ & L); [lia|].
  pose proof (on_line_spec _ _ _ _ L) as (E1 & _ & E3 & _). destruct (ol_order _ _ _ _ L) as [Hpc Hq].
  pose proof zlen_text as Lt. unfold zlen in Lt.
  destruct p as [|p].
  - cbn [Z.ltb Z.of_nat Z.compare]. exists e. split_and!; [done|done|].
    rewrite E1. change (newlines (take 0 (text e))) with O. unfold c. f_equal.
  - rewrite (proj2 (Z.ltb_lt _ _)) by lia. replace (Z.of_nat (S p) - 1) with (Z.of_nat p) by lia.
    destruct (position_line p) as (p2 & q2 & -> & _ & L2); [lia|].
    assert (Hnl : text e !! p = Some 10) by (destruct (ol_start _ _ _ _ L) as [?|H]; [done|exact H]).
    assert (q2 = p) as ->.
    { destruct (ol_order _ _ _ _ L2) as [H1 H2]. destruct (decide (q2 = p)); [done|].
      exfalso. apply (ol_inside _ _ _ _ L2 p); [lia|done]. }
    pose proof (on_line_spec _ _ _ _ L2) as (F1 & F2 & F3 & F4). destruct (ol_order _ _ _ _ L2) as [Hp2 _].
    destruct (set_cursor_view (Z.of_nat p2 + Z.min (Z.of_nat c - Z.of_nat (S p)) (Z.of_nat p - Z.of_nat p2)))
      as [W' V]; [lia|].
    eexists. split; [reflexivity|]. split; [exact W'|]. etransitivity; [exact V|]. f_equal.
    rewrite E1, (newlines_take_S _ _ Hnl), <- F2. unfold goto, col_of. rewrite F3, F4, E3. lia.
Qed.

Lemma key_down_spec :
  exists e', key_down e = Ok e' /\ editor_ok e' /\
    view e' = let '(s, c) := view e in
      (s, if decide (S (line_of s c) < length (lines s))%nat
          then goto s (S (line_of s c)) (col_of s c) else c).
Proof.
  pose proof W as [Lb Ll Lc]. unfold view. cbn zeta beta iota. set (c := Z.to_nat (cursor e)).
  unfold key_down. replace (cursor e) with (Z.of_nat c) by lia.
  destruct (position_line c) as (p & q & -> & -> & L); [lia|].
  pose proof (on_line_spec _ _ _ _ L) as (E1 & E2 & E3 & _). destruct (ol_order _ _ _ _ L) as [Hpc Hq].
  pose proof zlen_text as Lt. unfold zlen in Lt. rewrite length_lines.
  destruct (Z.of_nat q <? len e) eqn:E; bool_simp.
  - assert (Hnl : text e !! q = Some 10) by (destruct (ol_end _ _ _ _ L); [lia|done]).
    replace (Z.of_nat q + 1) with (Z.of_nat (S q)) by lia.
    destruct (position_line (S q)) as (p2 & q2 & _ & -> & L2); [lia|].
    assert (p2 = S q) as ->.
    { destruct (ol_order _ _ _ _ L2) as [H1 H2]. destruct (decide (p2 = S q)); [done|].
      exfalso. apply (ol_inside _ _ _ _ L2 q); [lia|done]. }
    pose proof (on_line_spec _ _ _ _ L2) as (F1 & _ & F3 & F4). destruct (ol_order _ _ _ _ L2) as [Hp2 Hq2].
    rewrite (newlines_take_S _ _ Hnl), <- E2 in F1.
    assert (Hlt : (S (line_of (text e) c) < S (newlines (text e)))%nat).
    { rewrite <- (take_drop (S q) (text e)) at 2. rewrite newlines_app, (newlines_take_S _ _ Hnl). lia. }
    rewrite decide_True by done.
    destruct (set_cursor_view (Z.of_nat (S q) + Z.min (Z.of_nat c - Z.of_nat p) (Z.of_nat q2 - Z.of_nat (S q))))
      as [W' V]; [lia|].
    eexists. split; [reflexivity|]. split; [exact W'|]. etransitivity; [exact V|]. f_equal.
    rewrite F1 in F3, F4. unfold goto, col_of. rewrite F3, F4, E3. lia.
  - rewrite decide_False.
    + exists e. split_and!; [done|done|]. unfold view, c. done.
    + rewrite E2. rewrite take_ge by lia. lia.
Qed.
End editing.

(** One key: the editor does to its buffer what the specification does to the text. *)
Lemma apply_key_refines e key :
  editor_ok e ->
  exists e', apply_key e key = Ok (e', if key =? KEY_CTRL_S then Some true
                                       else if key =? KEY_CTRL_Q then Some false else None) /\
    editor_ok e' /\ view e' = spec_key key (view e).
Proof.
  intros W. pose proof W as [Lb Ll Lc]. pose proof (zlen_text e W) as Lt. unfold zlen in Lt.
  unfold apply_key, spec_key.
  destruct (key =? KEY_CTRL_S) eqn:K1; [apply Z.eqb_eq in K1 as ->; by exists e|].
  destruct (key =? KEY_CTRL_Q) eqn:K2; [apply Z.eqb_eq in K2 as ->; by exists e|].
  destruct (position_line e W (Z.to_nat (cursor e))) as (p & q & Es & Ee & L); [lia|].
  rewrite Z2Nat.id in Es, Ee by lia.
  pose proof (on_line_spec _ _ _ _ L) as (_ & _ & E3 & E4). destruct (ol_order _ _ _ _ L) as [Hpc Hq].
  unfold view at 2. cbn zeta beta iota.
  destruct (key =? KEY_LEFT).
  { destruct (set_cursor_view e W (Z.max 0 (cursor e - 1))) as [W' V]; [lia|]. eexists. split; [reflexivity|].
    split; [done|]. rewrite V. f_equal. lia. }
  destruct (key =? KEY_RIGHT).
  { destruct (set_cursor_view e W (Z.min (cursor e + 1) (len e))) as [W' V]; [lia|]. eexists. split; [reflexivity|].
    split; [done|]. rewrite V. f_equal. lia. }
  destruct (key =? KEY_HOME).
  { rewrite Es. destruct (set_cursor_view e W (Z.of_nat p)) as [W' V]; [lia|]. eexists. split; [reflexivity|].
    split; [done|]. rewrite V. f_equal. lia. }
  destruct (key =? KEY_END).
  { rewrite Ee. destruct (set_cursor_view e W (Z.of_nat q)) as [W' V]; [lia|]. eexists. split; [reflexivity|].
    split; [done|]. rewrite V. f_equal. lia. }
  destruct (key =? KEY_UP); [destruct (key_up_spec e W) as (e' & -> & W' & V); by exists e'|].
  destruct (key =? KEY_DOWN); [destruct (key_down_spec e W) as (e' & -> & W' & V); by exists e'|].
  destruct (key =? KEY_DELETE); [destruct (delete_forward_spec e W) as (e' & -> & W' & V); by exists e'|].
  destruct (key =? KEY_BACKSPACE); [destruct (backspace_spec e W) as (e' & -> & W' & V); exists e'; split_and!; try done;
    rewrite V; by destruct (Z.to_nat (cursor e))|].
  destruct (typable key) eqn:T.
  - assert (Hk : 0 <= key <= 126) by (unfold typable in T; lia).
    rewrite (proj2 (Z.leb_le 0 key)), (proj2 (Z.leb_le key 255)), wrap_small, T by lia. cbn [andb].
    unfold zlen. rewrite Lt. destruct (len e <? EDITOR_MAX_BYTES) eqn:Hl; bool_simp.
    + destruct (insert_byte_spec e W key Hl) as (e' & -> & W' & V). by exists e'.
    + unfold insert_byte. rewrite (proj2 (Z.leb_le _ _)) by lia. by exists e.
  - cbn [andb]. exists e. split; [|done]. destruct ((0 <=? key) && (key <=? 255)) eqn:R; [|done].
    bool_simp. by rewrite wrap_small, T by lia.
Qed.

(** The keys of an editing session, up to the one that ends it. *)
Fixpoint apply_keys (e : editor) (keys : list Z) : res (editor * option bool) :=
  match keys with
  | [] => Ok (e, None)
  | k :: ks =>
      let* (e, quit) := apply_key e k in
      match quit with Some save => Ok (e, Some save) | None => apply_keys e ks end
  end.

(** The keys before the first that saves or quits. *)
Fixpoint session (keys : list Z) : list Z :=
  match keys with
  | [] => []
  | k :: ks => if (k =? KEY_CTRL_S) || (k =? KEY_CTRL_Q) then [] else k :: session ks
  end.

(** the editor edits text.  Whatever keys are pressed, from a well-formed editor, no
    index is ever out of range, the buffer never overflows, and what the editor holds is
    exactly what the keys, up to the first Ctrl-S or Ctrl-Q, do to a text with a cursor:
    characters are inserted and deleted at the cursor, Home, End, Up and Down move by the
    lines of the text and keep the column where the line is long enough. *)
Theorem editor_refines_text e keys :
  editor_ok e ->
  exists e' quit, apply_keys e keys = Ok (e', quit) /\ editor_ok e' /\
    view e' = fold_left (fun sc k => spec_key k sc) (session keys) (view e).
Proof.
  revert e. induction keys as [|k ks IH]; intros e W; cbn; [by exists e, None|].
  destruct (apply_key_refines e k W) as (e1 & -> & W1 & V1).
  destruct (k =? KEY_CTRL_S) eqn:K1; cbn.
  { exists e1, (Some true). split_and!; [done|done|]. apply Z.eqb_eq in K1 as ->. by rewrite V1; destruct (view e). }
  destruct (k =? KEY_CTRL_Q) eqn:K2; cbn.
  { exists e1, (Some false). split_and!; [done|done|]. apply Z.eqb_eq in K2 as ->. by rewrite V1; destruct (view e). }
  destruct (IH e1 W1) as (e2 & quit & -> & W2 & V2). exists e2, quit. by rewrite V2, V1.
Qed.

Definition ex_editor : editor := Editor 0x900000 (replicate (Z.to_nat EDITOR_MAX_BYTES) 0) 0 0.

Lemma ex_editor_ok : editor_ok ex_editor.
Proof. split; cbn [buf len cursor ex_editor]; [rewrite zlen_replicate; apply Z2Nat.id; by vm_compute|by vm_compute|lia]. Qed.

(** Typing [a b Enter c Up X]. *)
Lemma editor_refines_text_witness :
  exists e' quit, apply_keys ex_editor [97; 98; 10; 99; KEY_UP; 88] = Ok (e', quit) /\
    view e' = ([97; 88; 98; 10; 99], 2%nat).
Proof.
  destruct (editor_refines_text ex_editor [97; 98; 10; 99; KEY_UP; 88] ex_editor_ok) as (e' & quit & E & _ & V).
  exists e', quit. split; [exact E|]. rewrite V. reflexivity.
Defined.

(** ** What the user sees *)

(** Text continued on the line [cur]. *)
Definition glue (cur : list Z) (ls : list (list Z)) : list (list Z) :=
  match ls with l :: ls' => (cur ++ l) :: ls' | [] => [cur] end.

Lemma typed_rows_from cell s h cur :
  Forall (fun l => zlen l <= VGA_WIDTH) (glue cur (lines s)) ->
  rows (fold_left (type_byte cell) s (Document h (map cell cur))) = h ++ map (map cell) (glue cur (lines s)).
Proof.
  revert h cur. induction s as [|x s IH]; intros h cur F; cbn [fold_left lines].
  - cbn. by rewrite app_nil_r.
  - unfold type_byte at 2. cbn [current_row history]. cbn [lines] in F.
    pose proof (lines_nonempty s) as N. destruct (x =? 10).
    + change (@nil Z) with (map cell []) at 1. rewrite IH.
      * destruct (lines s) as [|l ls]; [done|]. cbn. rewrite app_nil_r. unfold rows. cbn. by rewrite <- app_assoc.
      * inversion F; subst. by destruct (lines s).
    + destruct (lines s) as [|l ls] eqn:El; [done|]. cbn [glue] in F. inversion F as [|? ? Hl Hls]; subst.
      rewrite zlen_app, zlen_cons in Hl. pose proof (zlen_nonneg l).
      assert (Hm : zlen (map cell cur) = zlen cur) by (unfold zlen; by rewrite length_map).
      rewrite (proj2 (Z.ltb_lt _ _)) by lia.
      replace (map cell cur ++ [cell x]) with (map cell (cur ++ [x])) by (by rewrite map_app).
      rewrite IH; cbn [glue]; rewrite <- app_assoc; [done|]. constructor; [|done].
      rewrite !zlen_app. change (zlen [x]) with 1. lia.
Qed.

(** Rows of the screen are the lines of the text, when no line is too long. *)
Lemma typed_rows cell s :
  Forall (fun l => zlen l <= VGA_WIDTH) (lines s) ->
  rows (fold_left (type_byte cell) s (Document [] [])) = map (map cell) (lines s).
Proof.
  intros F. pose proof (typed_rows_from cell s [] []) as T. pose proof (lines_nonempty s).
  destruct (lines s) as [|l ls]; [done|]. by apply T.
Qed.

Lemma redraw_bytes_spec e :
  editor_ok e ->
  exists dr dc, redraw_bytes e = Ok ([0x1B; 91; 50; 74; 0x1B; 91; 72] ++ text e ++ cup dr dc) /\
    dr <> [] /\ dc <> [] /\ Forall is_digit dr /\ Forall is_digit dc /\
    let '(s, c) := view e in
    dec_value dr = Z.of_nat (line_of s c) + 1 /\ dec_value dc = Z.of_nat (col_of s c) + 1.
Proof.
  intros W. pose proof W as [Lb Ll Lc]. pose proof (zlen_text e W) as Lt. unfold zlen in Lt.
  unfold redraw_bytes, content, view. cbn zeta beta iota. set (c := Z.to_nat (cursor e)).
  replace (cursor e) with (Z.of_nat c) by lia.
  destruct (position_line e W c) as (p & q & -> & _ & L); [lia|].
  pose proof (on_line_spec _ _ _ _ L) as (E1 & _ & E3 & _). destruct (ol_order _ _ _ _ L) as [Hpc Hq].
  assert (Hmax : EDITOR_MAX_BYTES = 65536) by done.
  unfold bslice. rewrite !(proj2 (Z.leb_le _ _)) by lia. cbn [andb].
  assert (Er : zlen (List.filter (fun b => b =? 10) (sub (buf e) 0 (Z.of_nat p))) = Z.of_nat (line_of (text e) c)).
  { rewrite E1. unfold zlen, newlines. do 3 f_equal. unfold sub. rewrite Z.sub_0_r, drop_0.
    rewrite <- (Nat2Z.id p) at 2. symmetry. apply text_take. lia. }
  rewrite Er.
  assert (Hr : (line_of (text e) c <= p)%nat).
  { rewrite E1. unfold newlines. etransitivity; [apply List.filter_length_le|]. rewrite length_take. lia. }
  rewrite !wrap_small by lia.
  destruct (decimal_spec (Z.of_nat (line_of (text e) c) + 1)) as (dr & -> & Nr & Fr & Vr); [unfold is_u32; lia|].
  destruct (decimal_spec (Z.of_nat c - Z.of_nat p + 1)) as (dc & -> & Nc & Fc & Vc); [unfold is_u32; lia|].
  exists dr, dc. split_and!; try done. unfold col_of. rewrite E3. lia.
Qed.

(** the screen shows the text being edited.  If the text has at most 25 lines of at
    most 80 printable characters, then after [redraw]'s bytes have gone through the
    console's parser, row [r] of the screen shows line [r] of the text, blanks follow it,
    and the cursor is at the line and column of the editor's cursor (at the last column,
    if it is past the end of a full row). *)
Theorem redraw_shows_text m e a w :
  editor_ok e -> state a = Ground ->
  Forall (fun b => drawn b /\ b <> 0x1B \/ b = 10) (text e) ->
  Forall (fun l => zlen l <= VGA_WIDTH) (lines (text e)) -> zlen (lines (text e)) <= VGA_HEIGHT ->
  let '(s, c) := view e in
  exists bytes a' w', redraw_bytes e = Ok bytes /\ feed_all m bytes a w = Ok (a', w') /\
    row w' = Z.of_nat (line_of s c) /\ col w' = Z.min (Z.of_nat (col_of s c)) (VGA_WIDTH - 1) /\
    forall r k, 0 <= r < VGA_HEIGHT -> 0 <= k < VGA_WIDTH ->
      cells w' (index r k) =
      match lines s !! Z.to_nat r ≫= (.!! Z.to_nat k) with
      | Some b => cell_of w b
      | None => blank w
      end.
Proof.
  intros W St F Fl Hl. destruct (redraw_bytes_spec e W) as (dr & dc & E & Nr & Nc & Fr & Fc & V).
  unfold view in *. destruct V as [Vr Vc]. set (c := Z.to_nat (cursor e)) in *.
  destruct (feed_clear m a w St) as (a1 & E1 & St1).
  destruct (clear_screen_shows w) as [S0 A0].
  assert (F1 : Forall (fun b => drawn b \/ b = 10) (text e)) by (eapply Forall_impl; [|exact F]; cbn; tauto).
  assert (F2 : Forall (fun b => b <> 0x1B) (text e)) by (eapply Forall_impl; [|exact F]; cbn; lia).
  destruct (put_str_shows m _ _ _ S0 F1) as [S1 A1].
  pose proof (feed_all_text m (text e) a1 (clear_screen w) St1 F2) as E2.
  erewrite fold_type_byte_ext in S1; [|intros b; apply (same_attr_cell _ _ A0)].
  change (fun b => cell_of w b) with (cell_of w) in S1.
  revert S1 E2 A1. generalize (put_str m (text e) (clear_screen w)). intros w1 S1 E2 A1.
  destruct (feed_cup m a1 w1 dr dc _ _ St1 Fr Fc Nr Nc Vr Vc) as (a2 & E3 & St2); [lia|lia|].
  eexists _, a2, _. split; [exact E|]. split.
  { rewrite feed_all_app, E1, feed_all_app, E2. exact E3. }
  assert (Hrow : zlen (rows (fold_left (type_byte (cell_of w)) (text e) (Document [] []))) = zlen (lines (text e))).
  { rewrite typed_rows by done. unfold zlen. by rewrite length_map. }
  assert (Hln : (line_of (text e) c < length (lines (text e)))%nat).
  { rewrite length_lines. unfold line_of. rewrite <- (take_drop c (text e)) at 2. rewrite newlines_app. lia. }
  unfold zlen in Hl. split_and!; [cbn; vga; lia|cbn; vga; lia|].
  intros r k Hr Hk. cbn [cells set_cursor_pos set_pos]. rewrite (sh_cells _ _ S1) by done.
  assert (Bl : blank w1 = blank w).
  { pose proof (same_attr_cell _ _ A1 32). pose proof (same_attr_cell _ _ A0 32).
    change (cell_of w1 32 = cell_of w 32). congruence. }
  unfold top_row. rewrite Hrow, Z.max_l, Z.add_0_l by (unfold zlen; vga; lia).
  unfold doc_cell. rewrite typed_rows, Bl by done. rewrite !nth_lookup, list_lookup_fmap.
  destruct (lines (text e) !! Z.to_nat r) as [l|]; cbn; [|done].
  rewrite list_lookup_fmap. by destruct (l !! Z.to_nat k).
Qed.

(** The text [a b Enter c] with the cursor at its end, on a screen full of zeros. *)
Lemma redraw_shows_text_witness :
  exists bytes a' w', redraw_bytes (Editor 0 (put (buf ex_editor) 0 [97; 98; 10; 99]) 4 4) = Ok bytes /\
    feed_all false bytes ansi_new (writer_new (fun _ => 0)) = Ok (a', w') /\ row w' = 1 /\
    cells w' (index 1 0) = screen_char 99 LightGray Black.
Proof.
  set (e := Editor 0 (put (buf ex_editor) 0 [97; 98; 10; 99]) 4 4).
  assert (Et : text e = [97; 98; 10; 99]) by (vm_compute; reflexivity).
  assert (W : editor_ok e).
  { split; cbn [buf len cursor e]; [|vm_compute; split; congruence|lia].
    rewrite zlen_put; [apply (eo_buf _ ex_editor_ok)|lia|].
    rewrite (eo_buf _ ex_editor_ok). vm_compute. congruence. }
  destruct (redraw_shows_text false e ansi_new (writer_new (fun _ => 0)) W eq_refl)
    as (bytes & a' & w' & E1 & E2 & R & _ & Hc).
  - rewrite Et. repeat constructor; unfold drawn; lia.
  - rewrite Et. vm_compute. repeat constructor; congruence.
  - rewrite Et. vm_compute. congruence.
  - exists bytes, a', w'. split; [exact E1|]. split; [exact E2|]. split.
    + rewrite R, Et. reflexivity.
    + rewrite Hc by (vm_compute; split; congruence). rewrite Et. reflexivity.
Defined.
