(* ===== verification/Keyboard.v ===== *)
(** * The console server's scancode decoder (userland/drivers/console_server/src/keyboard.rs)

    [feed] turns one byte of PS/2 scancode set 1 into at most one key: a byte of
    ASCII, or a number above 255 for the keys that have none. *)

From stdpp Require Import base list numbers.
From Stdlib Require Import Lia.
From S2P Require Import Prelude Libpcern.
Open Scope Z_scope.

Definition LEFT_SHIFT : Z := 0x2A.
Definition RIGHT_SHIFT : Z := 0x36.
Definition LEFT_CTRL : Z := 0x1D.
Definition EXTENDED_PREFIX : Z := 0xE0.

(** The rows are those of the source, as character codes. *)
Definition SCANCODE_ASCII : list Z :=
  [0; 27; 49; 50; 51; 52; 53; 54; 55; 56; 57; 48; 45; 61; 8; 9; 113;
   119; 101; 114; 116; 121; 117; 105; 111; 112; 91; 93; 10; 0; 97; 115; 100;
   102; 103; 104; 106; 107; 108; 59; 39; 96; 0; 92; 122; 120; 99; 118; 98;
   110; 109; 44; 46; 47; 0; 42; 0; 32].

Definition SCANCODE_ASCII_SHIFTED : list Z :=
  [0; 27; 33; 64; 35; 36; 37; 94; 38; 42; 40; 41; 95; 43; 8; 9; 81;
   87; 69; 82; 84; 89; 85; 73; 79; 80; 123; 125; 10; 0; 65; 83; 68;
   70; 71; 72; 74; 75; 76; 58; 34; 126; 0; 124; 90; 88; 67; 86; 66;
   78; 77; 60; 62; 63; 0; 42; 0; 32].

(** keyboard.rs declares its own [KEY_UP] .. [KEY_PAGE_DOWN]. *)
Definition extended_key (code : Z) : option Z :=
  if code =? 0x48 then Some 256
  else if code =? 0x50 then Some 257
  else if code =? 0x4B then Some 258
  else if code =? 0x4D then Some 259
  else if code =? 0x47 then Some 260
  else if code =? 0x4F then Some 261
  else if code =? 0x53 then Some 262
  else if code =? 0x49 then Some 263
  else if code =? 0x51 then Some 264
  else None.

(** [struct Decoder] *)
Record decoder := Decoder { shift : bool; ctrl : bool; pending_extended : bool }.

Definition decoder_new : decoder := Decoder false false false.

Definition is_ascii_alphabetic (b : Z) : bool :=
  ((65 <=? b) && (b <=? 90)) || ((97 <=? b) && (b <=? 122)).

Definition feed (d : decoder) (scancode : Z) : res (decoder * option Z) :=
  if scancode =? EXTENDED_PREFIX then Ok (Decoder (shift d) (ctrl d) true, None)
  else
    let released := negb (Z.land scancode 0x80 =? 0) in
    let code := Z.land scancode 0x7F in
    if pending_extended d then
      Ok (Decoder (shift d) (ctrl d) false, if released then None else extended_key code)
    else if (code =? LEFT_SHIFT) || (code =? RIGHT_SHIFT) then
      Ok (Decoder (negb released) (ctrl d) (pending_extended d), None)
    else if code =? LEFT_CTRL then
      Ok (Decoder (shift d) (negb released) (pending_extended d), None)
    else if released || (zlen SCANCODE_ASCII <=? code) then Ok (d, None)
    else
      ascii <- (if shift d then bget SCANCODE_ASCII_SHIFTED code else bget SCANCODE_ASCII code) ;;
      if ascii =? 0 then Ok (d, None)
      else if ctrl d && is_ascii_alphabetic ascii then
        Ok (d, Some (wrap8 (wrap8 (to_ascii_uppercase ascii - 65) + 1)))
      else Ok (d, Some ascii).

(** A stream of scancodes, and the keys it gives. *)
Fixpoint decode (s : list Z) (d : decoder) : res (decoder * list Z) :=
  match s with
  | [] => Ok (d, [])
  | b :: s' =>
      let* (d1, k) := feed d b in
      let* (d2, ks) := decode s' d1 in
      Ok (d2, match k with Some k => k :: ks | None => ks end)
  end.

(** The keys: control characters up to Escape, printable ASCII, and the nine keys without
    a character. *)
Definition is_key (k : Z) : bool :=
  ((1 <=? k) && (k <=? 27)) || ((32 <=? k) && (k <=? 126)) || ((256 <=? k) && (k <=? 264)).

(** ** Lemmas *)

Lemma bytes_range b : is_u8 b -> In b (map Z.of_nat (seq 0 256)).
Proof. unfold is_u8. intros H. apply in_map_iff. exists (Z.to_nat b). split; [lia|]. apply in_seq. lia. Qed.

(** All states of the decoder, on all bytes. *)
Definition decoders : list decoder :=
  [Decoder false false false; Decoder false false true; Decoder false true false; Decoder false true true;
   Decoder true false false; Decoder true false true; Decoder true true false; Decoder true true true].

Lemma in_decoders d : In d decoders.
Proof. destruct d as [[] [] []]; cbn; tauto. Qed.

Definition feed_good (d : decoder) (b : Z) : bool :=
  match feed d b with
  | Ok (_, Some k) => is_key k
  | Ok (_, None) => true
  | Panicked _ => false
  end.

Lemma feed_good_all : forallb (fun d => forallb (feed_good d) (map Z.of_nat (seq 0 256))) decoders = true.
Proof. vm_compute. reflexivity. Qed.

Lemma decoder_feed_ok d b : is_u8 b -> exists d' k, feed d b = Ok (d', k) /\ forall k', k = Some k' -> is_key k' = true.
Proof.
  intros Hb. pose proof feed_good_all as F. rewrite forallb_forall in F. specialize (F d (in_decoders d)).
  rewrite forallb_forall in F. specialize (F b (bytes_range b Hb)). unfold feed_good in F.
  destruct (feed d b) as [[d' [k|]]|]; [| |done]; eexists _, _; (split; [reflexivity|]); intros k' [= <-]; done.
Qed.

Lemma decode_keys s d d' ks :
  Forall is_u8 s -> decode s d = Ok (d', ks) -> Forall (fun k => is_key k = true) ks.
Proof.
  intros F. revert d d' ks. induction F as [|b s Hb F IH]; intros d d' ks E; cbn in E.
  - res_inv E. constructor.
  - destruct (decoder_feed_ok d b Hb) as (d1 & k & Ef & Hk). rewrite Ef in E.
    destruct (decode s d1) as [[d2 ks']|] eqn:Ed; [|done]. injection E as <- <-.
    pose proof (IH _ _ _ Ed). destruct k as [k|]; [|done]. constructor; [by apply Hk|done].
Qed.

Lemma decode_ok s d : Forall is_u8 s -> exists d' ks, decode s d = Ok (d', ks).
Proof.
  intros F. revert d. induction F as [|b s Hb F IH]; intros d; cbn; [by eexists _, _|].
  destruct (decoder_feed_ok d b Hb) as (d1 & k & -> & _). destruct (IH d1) as (d2 & ks & ->). by eexists _, _.
Qed.

(** Press and release of a key, with Shift or Ctrl held, or with the prefix. *)
Definition strokes : list (list Z) :=
  let codes := map Z.of_nat (seq 0 128) in
  map (fun c => [c; c + 0x80]) codes ++ map (fun c => [LEFT_SHIFT; c; c + 0x80; LEFT_SHIFT + 0x80]) codes ++
  map (fun c => [LEFT_CTRL; c; c + 0x80; LEFT_CTRL + 0x80]) codes ++
  map (fun c => [EXTENDED_PREFIX; c; EXTENDED_PREFIX; c + 0x80]) codes.

Definition types (k : Z) (s : list Z) : bool :=
  match decode s decoder_new with
  | Ok (Decoder false false false, [k']) => (k' =? k) && forallb (fun b => (0 <=? b) && (b <? 256)) s
  | _ => false
  end.

Lemma strokes_complete :
  forallb (fun k => negb (is_key k) || existsb (types k) strokes) (map Z.of_nat (seq 0 265)) = true.
Proof. vm_compute. reflexivity. Qed.

(** what the keyboard can say.  The decoder reports [k] for some sequence of scancode
    bytes that starts and ends with no key held exactly if [k] is Escape or a control
    character below it, a printable ASCII character, or one of the nine keys without a
    character; so every such key can be typed, no other number ever reaches a reader, and
    no scancode makes the decoder panic. *)
Theorem keyboard_complete :
  (forall s d, Forall is_u8 s -> exists d' ks, decode s d = Ok (d', ks)) /\
  forall k, (exists s, Forall is_u8 s /\ decode s decoder_new = Ok (decoder_new, [k])) <-> is_key k = true.
Proof.
  split; [intros s d F; by apply decode_ok|]. intros k. split.
  - intros (s & F & E). pose proof (decode_keys _ _ _ _ F E) as K. by inversion K.
  - intros Hk. pose proof strokes_complete as S. rewrite forallb_forall in S.
    assert (Hr : 0 <= k < 265) by (unfold is_key in Hk; bool_simp; lia).
    specialize (S k). rewrite Hk in S. cbn [negb orb] in S.
    assert (Hin : In k (map Z.of_nat (seq 0 265))).
    { apply in_map_iff. exists (Z.to_nat k). split; [lia|]. apply in_seq. lia. }
    apply S, existsb_exists in Hin as (s & _ & T). exists s. unfold types in T.
    destruct (decode s decoder_new) as [[[[] [] []] [|k' []]]|]; try done. bool_simp. subst k'.
    split; [|done]. apply Forall_forall. intros b Hb. rewrite forallb_forall in H0.
    specialize (H0 b Hb). bool_simp. unfold is_u8. lia.
Qed.
