(* ===== verification/Console.v ===== *)
(** * The console server (userland/drivers/console_server/src/main.rs)

    [console_start] is [_start] up to its loop, [serve] is one turn of the loop: the
    message received gives the calls the server makes and its next state.  The page a
    reader shares for its input is the byte list [input_buf]; the argument [pg] of [serve]
    is what the page of a newly mapped grant holds. *)

From stdpp Require Import base list numbers.
From Stdlib Require Import Lia.
From S2P Require Import Prelude Libpcern Vga Ansi Keyboard.
Open Scope Z_scope.

Definition VGA_BUFFER_VIRT : Z := 0x900000.
Definition INPUT_BUF_VIRT : Z := 0xA00000.
Definition MY_INBOX_SLOT : Z := 2.
Definition VGA_GRANT_SLOT : Z := 3.
Definition IRQ_CONTROL_SLOT : Z := 4.
Definition KEY_QUEUE_CAP : Z := 32.

(** The screen side: the text writer, the escape parser and the last writes to the
    cursor's ports. *)
Record screen := Screen { scr : writer; esc : ansi; crtc : list (Z * Z) }.

(** The variables of line mode, with the shared page. *)
Record line_input := LineInput {
  armed : bool; line_ready : bool; line_len : Z; input_buf : list Z
}.

(** The variables of raw mode. *)
Record key_input := KeyInput {
  key_armed : bool; key_queue : list Z; key_queue_head : Z; key_queue_len : Z
}.

(** The local variables of [_start]. *)
Record server := Server {
  display : screen; dec : decoder;
  input_buf_mapped : bool; reader_slot : Z; reader_owner : Z; raw_mode : bool;
  line : line_input; raw : key_input
}.

Definition set_display x s := Server x (dec s) (input_buf_mapped s) (reader_slot s) (reader_owner s) (raw_mode s) (line s) (raw s).
Definition set_dec x s := Server (display s) x (input_buf_mapped s) (reader_slot s) (reader_owner s) (raw_mode s) (line s) (raw s).
Definition set_line x s := Server (display s) (dec s) (input_buf_mapped s) (reader_slot s) (reader_owner s) (raw_mode s) x (raw s).
Definition set_raw x s := Server (display s) (dec s) (input_buf_mapped s) (reader_slot s) (reader_owner s) (raw_mode s) (line s) x.
Definition set_reader_slot x s := Server (display s) (dec s) (input_buf_mapped s) x (reader_owner s) (raw_mode s) (line s) (raw s).

(** [ansi.feed(byte, &mut writer); writer.sync_hardware_cursor()] *)
Definition echo (byte : Z) (s : server) : res server :=
  let d := display s in
  let* (a, w) := Ansi.feed false (esc d) byte (scr d) in
  Ok (set_display (Screen w a (sync_hardware_cursor w)) s).

(** A key in raw mode. *)
Definition raw_key (key : Z) (s : server) : prog server :=
  let k := raw s in
  if key_armed k && negb (reader_slot s =? 0) then
    _ ← send (reader_slot s) key 0 0 0;
    mret (set_raw (KeyInput false (key_queue k) (key_queue_head k) (key_queue_len k)) s)
  else if key_queue_len k <? KEY_QUEUE_CAP then
    let idx := (key_queue_head k + key_queue_len k) mod KEY_QUEUE_CAP in
    q ← lift (bset (key_queue k) idx key);
    mret (set_raw (KeyInput (key_armed k) q (key_queue_head k) (key_queue_len k + 1)) s)
  else mret s.

(** A character in line mode, after its echo. *)
Definition accumulate (ascii : Z) (s : server) : prog server :=
  let l := line s in
  if input_buf_mapped s && negb (line_ready l) then
    if ascii =? 8 then
      if 0 <? line_len l then
        mret (set_line (LineInput (armed l) (line_ready l) (line_len l - 1) (input_buf l)) s)
      else mret s
    else if ascii =? 10 then
      if armed l && negb (reader_slot s =? 0) then
        _ ← send (reader_slot s) (wrap32 (line_len l)) 0 0 0;
        mret (set_line (LineInput false (line_ready l) 0 (input_buf l)) s)
      else mret (set_line (LineInput (armed l) true (line_len l) (input_buf l)) s)
    else if line_len l <? CONSOLE_LINE_MAX then
      b ← lift (bset (input_buf l) (line_len l) ascii);
      mret (set_line (LineInput (armed l) (line_ready l) (line_len l + 1) b) s)
    else mret s
  else mret s.

(** The arm for messages of the kernel: a scancode. *)
Definition on_scancode (r : recv_result) (s : server) : prog server :=
  '(d, key) ← lift (Keyboard.feed (dec s) (wrap8 (w1 r)));
  let s := set_dec d s in
  match key with
  | None => mret s
  | Some key =>
      if raw_mode s then raw_key key s
      else if 256 <=? key then mret s
      else
        let ascii := wrap8 key in
        s ← lift (echo ascii s);
        accumulate ascii s
  end.

(** [CONSOLE_OP_SET_BUFFER] *)
Definition on_set_buffer (pg : list Z) (r : recv_result) (s : server) : prog server :=
  if ((reader_owner s =? 0) || (reader_owner s =? sender r)) && negb (transferred_slot r =? 0) then
    e ← map_memory (transferred_slot r) INPUT_BUF_VIRT;
    if e =? 0 then
      let l := line s in
      mret (Server (display s) (dec s) true (reader_slot s) (sender r) (raw_mode s)
              (LineInput (armed l) (line_ready l) (line_len l) pg) (raw s))
    else mret s
  else mret s.

(** [CONSOLE_OP_SET_READER] *)
Definition on_set_reader (r : recv_result) (s : server) : prog server :=
  if (reader_owner s =? sender r) && negb (transferred_slot r =? 0) then
    mret (set_reader_slot (transferred_slot r) s)
  else mret s.

(** [CONSOLE_OP_READ_LINE] *)
Definition on_read_line (r : recv_result) (s : server) : prog server :=
  let l := line s in
  if (reader_owner s =? sender r) && negb (reader_slot s =? 0) then
    if negb (input_buf_mapped s) then _ ← send (reader_slot s) 0 0 0 0; mret s
    else if line_ready l then
      _ ← send (reader_slot s) (wrap32 (line_len l)) 0 0 0;
      mret (set_line (LineInput (armed l) false 0 (input_buf l)) s)
    else mret (set_line (LineInput true (line_ready l) (line_len l) (input_buf l)) s)
  else mret s.

(** [CONSOLE_OP_SET_MODE] *)
Definition on_set_mode (r : recv_result) (s : server) : prog server :=
  if reader_owner s =? sender r then
    mret (Server (display s) (dec s) (input_buf_mapped s) (reader_slot s) (reader_owner s)
            (negb (w1 r =? 0)) (LineInput false false 0 (input_buf (line s)))
            (KeyInput false (key_queue (raw s)) 0 0))
  else mret s.

(** [CONSOLE_OP_READ_KEY] *)
Definition on_read_key (r : recv_result) (s : server) : prog server :=
  let k := raw s in
  if (reader_owner s =? sender r) && negb (reader_slot s =? 0) then
    if 0 <? key_queue_len k then
      key ← lift (bget (key_queue k) (key_queue_head k));
      let s := set_raw (KeyInput (key_armed k) (key_queue k) ((key_queue_head k + 1) mod KEY_QUEUE_CAP)
                          (key_queue_len k - 1)) s in
      _ ← send (reader_slot s) key 0 0 0;
      mret s
    else mret (set_raw (KeyInput true (key_queue k) (key_queue_head k) (key_queue_len k)) s)
  else mret s.

Definition serve (pg : list Z) (s : server) (r : recv_result) : prog server :=
  if sender r =? KERNEL_TASK_ID then on_scancode r s
  else if w0 r =? OP_PUTCHAR then lift (echo (wrap8 (w1 r)) s)
  else if w0 r =? CONSOLE_OP_SET_BUFFER then on_set_buffer pg r s
  else if w0 r =? CONSOLE_OP_SET_READER then on_set_reader r s
  else if w0 r =? CONSOLE_OP_READ_LINE then on_read_line r s
  else if w0 r =? CONSOLE_OP_SET_MODE then on_set_mode r s
  else if w0 r =? CONSOLE_OP_READ_KEY then on_read_key r s
  else mret s.

(** The state at the head of the loop, on a screen that holds [m]. *)
Definition server_new (m : Z -> Z) : server :=
  let w := clear_screen (writer_new m) in
  Server (Screen w ansi_new []) decoder_new false 0 0 false
    (LineInput false false 0 []) (KeyInput false (replicate (Z.to_nat KEY_QUEUE_CAP) 0) 0 0).

Definition console_start (m : Z -> Z) : prog server :=
  e ← map_memory VGA_GRANT_SLOT VGA_BUFFER_VIRT;
  if negb (e =? 0) then exit 1
  else
    _ ← register_irq IRQ_CONTROL_SLOT;
    _ ← register_name [99; 111; 110; 115; 111; 108; 101] MY_INBOX_SLOT;
    mret (server_new m).

(** ** Specification *)

(** What the server is about: one reader, the text being typed and whether it is complete
    and waited for, and in raw mode the keys typed ahead and whether one is waited for. *)
Record input := Input {
  owner : Z; slot : Z; is_raw : bool;
  typed : list Z; complete : bool; awaited : bool;
  keys : list Z; key_awaited : bool
}.

Inductive event :=
| Typed (k : Z)
| Buffer (id : Z) (ok : bool) (page : list Z)
| Reader (id slot : Z)
| ReadLine (id : Z)
| Mode (id : Z) (r : bool)
| ReadKey (id : Z)
| Ignored.

Inductive reply := Line (l : list Z) | Pressed (k : Z).

Definition with_text (l : list Z) (c a : bool) (i : input) : input :=
  Input (owner i) (slot i) (is_raw i) l c a (keys i) (key_awaited i).

Definition with_keys (ks : list Z) (a : bool) (i : input) : input :=
  Input (owner i) (slot i) (is_raw i) (typed i) (complete i) (awaited i) ks a.

(** Typing one character on the current line. *)
Definition edit (l : list Z) (b : Z) : list Z :=
  if b =? 8 then removelast l
  else if zlen l <? CONSOLE_LINE_MAX then l ++ [b] else l.

Definition spec_step (i : input) (e : event) : input * option reply :=
  match e with
  | Typed k =>
      if is_raw i then
        if key_awaited i then (with_keys (keys i) false i, Some (Pressed k))
        else if zlen (keys i) <? KEY_QUEUE_CAP then (with_keys (keys i ++ [k]) false i, None)
        else (i, None)
      else if (256 <=? k) || (owner i =? 0) || complete i then (i, None)
      else if k =? 10 then
        if awaited i then (with_text [] false false i, Some (Line (typed i)))
        else (with_text (typed i) true false i, None)
      else (with_text (edit (typed i) k) false (awaited i) i, None)
  | Buffer id ok page =>
      if ok && ((owner i =? 0) || (owner i =? id)) then
        (Input id (slot i) (is_raw i) (sub page 0 (zlen (typed i))) (complete i) (awaited i)
           (keys i) (key_awaited i), None)
      else (i, None)
  | Reader id sl =>
      if (owner i =? id) && negb (sl =? 0) then
        (Input (owner i) sl (is_raw i) (typed i) (complete i) (awaited i) (keys i) (key_awaited i), None)
      else (i, None)
  | ReadLine id =>
      if (owner i =? id) && negb (slot i =? 0) then
        if complete i then (with_text [] false (awaited i) i, Some (Line (typed i)))
        else (with_text (typed i) false true i, None)
      else (i, None)
  | Mode id r =>
      if owner i =? id then (Input (owner i) (slot i) r [] false false [] false, None) else (i, None)
  | ReadKey id =>
      if (owner i =? id) && negb (slot i =? 0) then
        match keys i with
        | k :: ks => (with_keys ks (key_awaited i) i, Some (Pressed k))
        | [] => (with_keys [] true i, None)
        end
      else (i, None)
  | Ignored => (i, None)
  end.

(** A trace of calls with their answers. *)
Abbreviation trace := (list (sys_args * raw_result)).

(** Whether the kernel mapped the page of a [CONSOLE_OP_SET_BUFFER]. *)
Definition mapped (t : trace) : bool :=
  existsb (fun '(c, a) => (num c =? SYS_MAP_MEMORY) && (as_i32 (r_eax a) =? 0)) t.

(** The meaning of a message for a server in state [s]. *)
Definition event_of (pg : list Z) (s : server) (r : recv_result) (t : trace) : event :=
  if sender r =? KERNEL_TASK_ID then
    match Keyboard.feed (dec s) (wrap8 (w1 r)) with
    | Ok (_, Some k) => Typed k
    | _ => Ignored
    end
  else if w0 r =? OP_PUTCHAR then Ignored
  else if w0 r =? CONSOLE_OP_SET_BUFFER then Buffer (sender r) (mapped t) pg
  else if w0 r =? CONSOLE_OP_SET_READER then Reader (sender r) (transferred_slot r)
  else if w0 r =? CONSOLE_OP_READ_LINE then ReadLine (sender r)
  else if w0 r =? CONSOLE_OP_SET_MODE then Mode (sender r) (negb (w1 r =? 0))
  else if w0 r =? CONSOLE_OP_READ_KEY then ReadKey (sender r)
  else Ignored.

(** The keys in the ring buffer, oldest first. *)
Definition queued (k : key_input) : list Z :=
  map (fun i => byte_at (key_queue k) ((key_queue_head k + Z.of_nat i) mod KEY_QUEUE_CAP))
    (seq 0 (Z.to_nat (key_queue_len k))).

Definition abs (s : server) : input :=
  let l := line s in
  Input (reader_owner s) (reader_slot s) (raw_mode s) (sub (input_buf l) 0 (line_len l)) (line_ready l) (armed l)
    (queued (raw s)) (key_armed (raw s)).

(** The messages a round sends. *)
Definition sent (t : trace) : list sys_args := List.filter (fun c => num c =? SYS_SEND) (map fst t).

Definition message (sl : Z) (o : option reply) : list sys_args :=
  match o with
  | Some (Line l) => [SysArgs SYS_SEND sl (zlen l) 0 0 0]
  | Some (Pressed k) => [SysArgs SYS_SEND sl k 0 0 0]
  | None => []
  end.

(** The shared page holds the line a reply announces. *)
Definition on_page (s : server) (o : option reply) : Prop :=
  match o with Some (Line l) => sub (input_buf (line s)) 0 (zlen l) = l | _ => True end.

Record server_ok (s : server) : Prop := {
  so_screen : writer_ok (scr (display s)) /\ ansi_ok (esc (display s));
  so_mapped : input_buf_mapped s = negb (reader_owner s =? 0);
  so_page : input_buf_mapped s = true -> zlen (input_buf (line s)) = CONSOLE_LINE_MAX;
  so_len : 0 <= line_len (line s) <= CONSOLE_LINE_MAX;
  so_unmapped : input_buf_mapped s = false ->
    reader_slot s = 0 /\ line_len (line s) = 0 /\ line_ready (line s) = false;
  so_armed : armed (line s) = true -> reader_slot s <> 0 /\ line_ready (line s) = false;
  so_key_armed : key_armed (raw s) = true -> reader_slot s <> 0 /\ key_queue_len (raw s) = 0;
  so_queue : zlen (key_queue (raw s)) = KEY_QUEUE_CAP /\ 0 <= key_queue_head (raw s) < KEY_QUEUE_CAP /\
    0 <= key_queue_len (raw s) <= KEY_QUEUE_CAP
}.

(** One round against the specification. *)
Definition round_ok (s : server) (e : event) (t : trace) (s' : server) : Prop :=
  server_ok s' /\
  let '(i, o) := spec_step (abs s) e in
  abs s' = i /\ sent t = message (reader_slot s) o /\ on_page s' o.

(** ** Lemmas *)

Lemma zlen_queued k : 0 <= key_queue_len k -> zlen (queued k) = key_queue_len k.
Proof. intros H. unfold queued, zlen. rewrite length_map, length_seq. lia. Qed.

Lemma queued_push k x a :
  zlen (key_queue k) = KEY_QUEUE_CAP -> 0 <= key_queue_head k < KEY_QUEUE_CAP ->
  0 <= key_queue_len k < KEY_QUEUE_CAP ->
  let idx := (key_queue_head k + key_queue_len k) mod KEY_QUEUE_CAP in
  queued (KeyInput a (put (key_queue k) idx [x]) (key_queue_head k) (key_queue_len k + 1)) = queued k ++ [x].
Proof.
  intros L Hh Hl idx. unfold KEY_QUEUE_CAP in L, Hh, Hl. assert (Hi : 0 <= idx < 32) by (unfold idx, KEY_QUEUE_CAP; dlia).
  unfold queued. cbn [key_queue key_queue_head key_queue_len].
  rewrite Z2Nat.inj_add, seq_app, map_app by lia. f_equal.
  - apply map_ext_in. intros i Hin%in_seq. rewrite byte_at_put; change (zlen [x]) with 1; try (unfold KEY_QUEUE_CAP in *; dlia).
    rewrite decide_False; [done|]. unfold idx, KEY_QUEUE_CAP in *. dlia.
  - change (Z.to_nat 1) with 1%nat. cbn [seq map]. f_equal. rewrite Nat.add_0_l, Z2Nat.id by lia. fold idx. rewrite byte_at_put; change (zlen [x]) with 1; try (unfold KEY_QUEUE_CAP in *; dlia).
    rewrite decide_True by lia. by rewrite Z.sub_diag.
Qed.

Lemma queued_pop k a :
  0 <= key_queue_head k < KEY_QUEUE_CAP -> 0 < key_queue_len k ->
  queued k = byte_at (key_queue k) (key_queue_head k) ::
    queued (KeyInput a (key_queue k) ((key_queue_head k + 1) mod KEY_QUEUE_CAP) (key_queue_len k - 1)).
Proof.
  unfold KEY_QUEUE_CAP. intros Hh Hl. unfold queued. cbn [key_queue key_queue_head key_queue_len].
  replace (Z.to_nat (key_queue_len k)) with (S (Z.to_nat (key_queue_len k - 1))) by lia.
  rewrite <- cons_seq. cbn [map]. f_equal.
  - f_equal. unfold KEY_QUEUE_CAP. rewrite Z.add_0_r. apply Z.mod_small. lia.
  - rewrite <- seq_shift, map_map. apply map_ext. intros i. f_equal. unfold KEY_QUEUE_CAP. dlia.
Qed.

Lemma message_none s : message (reader_slot s) None = [].
Proof. done. Qed.

(** A round that changes nothing an input sees. *)
Lemma round_same s s' e t :
  server_ok s' -> abs s' = abs s -> spec_step (abs s) e = (abs s, None) -> sent t = [] -> round_ok s e t s'.
Proof. intros O A E T. split; [done|]. rewrite E. by split. Qed.

Lemma echo_ok b s :
  server_ok s -> exists s', echo b s = Ok s' /\ server_ok s' /\ abs s' = abs s /\
    dec s' = dec s /\ input_buf_mapped s' = input_buf_mapped s /\ reader_slot s' = reader_slot s /\
    reader_owner s' = reader_owner s /\ raw_mode s' = raw_mode s /\ line s' = line s.
Proof.
  intros O. destruct (so_screen _ O) as [Ow Oa]. unfold echo.
  destruct (Ansi.feed_ok false _ b _ Oa Ow) as (a & w & -> & Ha & Hw).
  eexists. split; [reflexivity|]. split; [|done]. destruct O. split; try done. cbn. split; [apply Hw|done].
Qed.

Lemma raw_key_ok k s :
  server_ok s -> raw_mode s = true -> wp (raw_key k s) (round_ok s (Typed k)).
Proof.
  intros O R. pose proof (so_key_armed _ O) as KA. destruct (so_queue _ O) as (Lq & Hh & Hl).
  unfold raw_key, round_ok. cbn [spec_step abs is_raw key_awaited keys]. rewrite R.
  destruct (key_armed (raw s)) eqn:Ea; cbn [andb].
  - destruct (KA eq_refl) as [Hs H0]. rewrite (proj2 (Z.eqb_neq _ _) Hs). cbn [negb].
    intros a. split; [|split_and!; [unfold abs; cbn; by rewrite R|done|done]].
    destruct O. by split.
  - rewrite zlen_queued by lia. destruct (key_queue_len (raw s) <? KEY_QUEUE_CAP) eqn:El; bool_simp.
    + apply wp_bind, wp_lift. set (idx := (_ mod _)).
      assert (Hi : 0 <= idx < 32) by (unfold idx, KEY_QUEUE_CAP; dlia).
      eexists. split; [apply bset_ok; unfold KEY_QUEUE_CAP in *; lia|]. cbn [wp mret prog_ret].
      split; [|split_and!; [|done|done]].
      * destruct O. split; try done; cbn.
        rewrite zlen_put; change (zlen [k]) with 1; unfold KEY_QUEUE_CAP in *; lia.
      * unfold abs, with_keys. cbn. rewrite R. f_equal. unfold idx. apply queued_push; lia.
    + split; [done|]. by split_and!.
Qed.

Lemma sub_removelast (b : list Z) n : 0 < n <= zlen b -> sub b 0 (n - 1) = removelast (sub b 0 n).
Proof.
  intros H. replace n with (n - 1 + 1) at 2 by lia. rewrite sub_snoc by lia. by rewrite removelast_last.
Qed.

Lemma accumulate_ok b s :
  server_ok s -> raw_mode s = false -> 0 <= b < 256 -> wp (accumulate b s) (round_ok s (Typed b)).
Proof.
  intros O R Hb. pose proof (so_len _ O) as Ll. pose proof (so_page _ O) as Lp. pose proof (so_armed _ O) as Ha.
  pose proof (so_mapped _ O) as M. unfold accumulate.
  unfold round_ok. cbn [spec_step abs is_raw owner complete awaited typed]. rewrite R.
  rewrite (proj2 (Z.leb_gt 256 b)) by lia. rewrite M. cbn [orb].
  destruct (reader_owner s =? 0) eqn:Eo; cbn [negb andb orb]; [split; [done|]; by split_and!|].
  destruct (line_ready (line s)) eqn:Er; cbn [negb andb orb]; [split; [done|]; by split_and!|].
  specialize (Lp M). cbn [negb] in M. unfold CONSOLE_LINE_MAX in *.
  assert (Lt : zlen (sub (input_buf (line s)) 0 (line_len (line s))) = line_len (line s)) by (rewrite zlen_sub; lia).
  destruct (b =? 8) eqn:E8; bool_simp.
  - subst b. cbn [Z.eqb Pos.eqb]. unfold edit. cbn [Z.eqb Pos.eqb]. destruct (0 <? line_len (line s)) eqn:El; bool_simp.
    + split; [|split_and!; [|done|done]].
      * destruct O. split; cbn; rewrite ?Er; try done; unfold CONSOLE_LINE_MAX; try lia; congruence.
      * unfold abs, with_text. cbn. rewrite R, ?Er. f_equal. apply sub_removelast. lia.
    + split; [done|]. split_and!; [|done|done]. unfold abs, with_text. cbn. rewrite R, ?Er. f_equal.
      replace (line_len (line s)) with 0 by lia. by rewrite sub_diag.
  - destruct (b =? 10) eqn:E10; bool_simp.
    + destruct (armed (line s)) eqn:Ea; cbn [andb].
      * destruct (Ha eq_refl) as [Hs _]. rewrite (proj2 (Z.eqb_neq _ _) Hs). cbn [negb].
        intros a. split; [|split_and!].
        -- destruct O. split; cbn; try done; unfold CONSOLE_LINE_MAX; try lia; congruence.
        -- unfold abs, with_text. cbn. by rewrite R, sub_diag, ?Er.
        -- cbn. by rewrite Lt, wrap_small by lia.
        -- cbn. by rewrite Lt.
      * split; [|split_and!; [|done|done]].
        -- destruct O. split; cbn; try done. congruence.
        -- unfold abs, with_text. cbn. by rewrite R, ?Ea.
    + unfold edit. rewrite (proj2 (Z.eqb_neq b 8)) by done. rewrite Lt. unfold CONSOLE_LINE_MAX.
      destruct (line_len (line s) <? 256) eqn:El; bool_simp.
      * apply wp_bind, wp_lift. eexists. split; [apply bset_ok; lia|]. cbn [wp mret prog_ret].
        split; [|split_and!; [|done|done]].
        -- destruct O. split; cbn; rewrite ?Er; try done; unfold CONSOLE_LINE_MAX; try lia; try congruence.
           intros _. rewrite zlen_put; change (zlen [b]) with 1; lia.
        -- unfold abs, with_text. cbn. rewrite R, ?Er. f_equal. 
           rewrite <- (sub_put_append _ _ [b]); change (zlen [b]) with 1; [done|lia..].
      * split; [done|]. split_and!; [|done|done]. unfold abs, with_text. cbn. by rewrite R, ?Er.
Qed.

Lemma zlen_typed s : server_ok s -> zlen (typed (abs s)) = line_len (line s).
Proof.
  intros O. pose proof (so_len _ O). cbn. destruct (input_buf_mapped s) eqn:M.
  - pose proof (so_page _ O M). rewrite zlen_sub; lia.
  - destruct (so_unmapped _ O M) as (_ & -> & _). by rewrite sub_diag.
Qed.

Lemma on_set_buffer_ok pg r s :
  server_ok s -> sender r <> 0 -> zlen pg = CONSOLE_LINE_MAX ->
  wp (on_set_buffer pg r s) (fun t s' => round_ok s (Buffer (sender r) (mapped t) pg) t s').
Proof.
  intros O Hr Hp. pose proof (zlen_typed s O) as Lt. unfold on_set_buffer.
  destruct ((reader_owner s =? 0) || _) eqn:Eo; cbn [andb]; [|by apply round_same].
  destruct (negb (_ =? 0)) eqn:E; [|by apply round_same].
  intros a. cbn [wp mapped existsb num]. change (SYS_MAP_MEMORY =? SYS_MAP_MEMORY) with true. cbn [andb].
  destruct (as_i32 (r_eax a) =? 0) eqn:Ea; cbn; rewrite Ea; cbn [orb]; [|by apply round_same].
  unfold round_ok. cbn [spec_step abs owner]. rewrite Eo. cbn [andb].
  split; [|split_and!; [|done|done]].
  - destruct O. split; cbn; try done.
    + by rewrite (proj2 (Z.eqb_neq _ _) Hr).
  - rewrite Lt. done.
Qed.

Lemma on_set_reader_ok r s :
  server_ok s -> sender r <> 0 ->
  wp (on_set_reader r s) (round_ok s (Reader (sender r) (transferred_slot r))).
Proof.
  intros O Hr. unfold on_set_reader, round_ok. cbn [spec_step abs owner].
  destruct (_ && _) eqn:E; bool_simp; [|split; [done|by split_and!]].
  split; [|by split_and!]. destruct O. split; cbn; try done; intros Ha.
  - rewrite so_mapped0 in Ha. bool_simp. congruence.
  - split; [done|]. by apply so_armed0.
  - split; [done|]. by apply so_key_armed0.
Qed.

Lemma on_read_line_ok r s :
  server_ok s -> sender r <> 0 -> wp (on_read_line r s) (round_ok s (ReadLine (sender r))).
Proof.
  intros O Hr. pose proof (zlen_typed s O) as Lt. pose proof (so_len _ O) as Ll. unfold on_read_line, round_ok.
  cbn [spec_step]. unfold abs at 1 2 3 4 5 6 7. cbn [owner slot complete typed].
  destruct ((reader_owner s =? sender r) && negb (reader_slot s =? 0)) eqn:E; bool_simp; [|split; [done|by split_and!]].
  assert (M : input_buf_mapped s = true).
  { rewrite (so_mapped _ O). apply negb_true_iff, Z.eqb_neq. congruence. }
  rewrite M. cbn [negb]. destruct (line_ready (line s)) eqn:Er.
  - intros a. split; [|split_and!].
    + destruct O. split; cbn; try done; unfold CONSOLE_LINE_MAX; try lia; try congruence.
    + unfold abs, with_text. cbn. by rewrite sub_diag.
    + cbn. cbn in Lt. rewrite Lt, wrap_small; [done|]. unfold CONSOLE_LINE_MAX in *. lia.
    + cbn. cbn in Lt. by rewrite Lt.
  - split; [|by split_and!]. destruct O. split; cbn; rewrite ?Er; try done. congruence.
Qed.

Lemma on_set_mode_ok r s :
  server_ok s -> wp (on_set_mode r s) (round_ok s (Mode (sender r) (negb (w1 r =? 0)))).
Proof.
  intros O. unfold on_set_mode, round_ok. cbn [spec_step abs owner].
  destruct (_ =? _) eqn:E; bool_simp; [|split; [done|by split_and!]].
  split; [|split_and!; [unfold abs; cbn; by rewrite sub_diag|done|done]].
  destruct O. split; cbn; try done; unfold CONSOLE_LINE_MAX, KEY_QUEUE_CAP in *; try lia.
  intros Hm. split; [by apply so_unmapped0|done].
Qed.

Lemma on_read_key_ok r s :
  server_ok s -> wp (on_read_key r s) (round_ok s (ReadKey (sender r))).
Proof.
  intros O. destruct (so_queue _ O) as (Lq & Hh & Hl). unfold on_read_key, round_ok. cbn [spec_step abs owner slot keys].
  destruct (_ && _) eqn:E; bool_simp; [|split; [done|by split_and!]].
  destruct (0 <? key_queue_len (raw s)) eqn:El; bool_simp.
  - rewrite (queued_pop _ (key_armed (raw s))) by lia. apply wp_bind, wp_lift.
    eexists. split; [apply bget_ok; lia|]. intros a. split; [|by split_and!].
    destruct O. split; cbn; try done.
    + intros [? ?]%so_key_armed0. lia.
    + unfold KEY_QUEUE_CAP in *. dlia.
  - assert (E0 : queued (raw s) = []) by (unfold queued; by replace (key_queue_len (raw s)) with 0 by lia).
    rewrite E0. split; [|split_and!; [|done|done]].
    + destruct O. split; cbn; try done. intros _. lia.
    + unfold abs, with_keys. cbn. f_equal. exact E0.
Qed.

Lemma on_scancode_ok r s :
  server_ok s -> sender r = KERNEL_TASK_ID -> wp (on_scancode r s) (fun t s' => round_ok s (event_of [] s r t) t s').
Proof.
  intros O Hr. unfold on_scancode, event_of. rewrite Hr, Z.eqb_refl. apply wp_bind, wp_lift.
  destruct (Keyboard.decoder_feed_ok (dec s) (wrap8 (w1 r))) as (d & k & -> & Hk); [unfold wrap8, wrap, is_u8; dlia|].
  eexists. split; [reflexivity|]. cbn [app].
  assert (O' : server_ok (set_dec d s)) by (destruct O; by split).
  destruct k as [k|]; [|by apply round_same]. specialize (Hk k eq_refl).
  destruct (raw_mode (set_dec d s)) eqn:R; [by apply (raw_key_ok k (set_dec d s))|].
  destruct (256 <=? k) eqn:K.
  - apply round_same; try done. cbn. change (raw_mode s = false) in R. by rewrite R, K.
  - apply wp_bind, wp_lift. bool_simp. assert (Hb : 0 <= k < 256) by (unfold is_key in Hk; bool_simp; lia).
    replace (wrap8 k) with k by (symmetry; apply wrap_small; lia).
    destruct (echo_ok k _ O') as (s1 & E & O1 & A1 & _ & _ & S1 & _ & R1 & _). exists s1. split; [done|]. cbn [app].
    rewrite R in R1. pose proof (accumulate_ok k s1 O1 R1 Hb) as W. eapply wp_mono; [exact W|].
    intros t s' H. unfold round_ok in *. by rewrite A1, S1 in H.
Qed.

Lemma serve_ok pg s r :
  server_ok s -> zlen pg = CONSOLE_LINE_MAX ->
  wp (serve pg s r) (fun t s' => round_ok s (event_of pg s r t) t s').
Proof.
  intros O Hp. unfold serve, event_of. destruct (sender r =? KERNEL_TASK_ID) eqn:E0; bool_simp.
  { eapply wp_mono; [by apply on_scancode_ok|]. intros t s'. unfold event_of. by rewrite E0. }
  destruct (w0 r =? OP_PUTCHAR).
  { destruct (echo_ok (wrap8 (w1 r)) s O) as (s1 & E & O1 & A1 & _). apply wp_lift. exists s1. split; [done|].
    by apply round_same. }
  repeat (match goal with |- context [if ?c then _ else _] => destruct c end);
    [by apply on_set_buffer_ok|by apply on_set_reader_ok|by apply on_read_line_ok|by apply on_set_mode_ok|
     by apply on_read_key_ok|by apply round_same].
Qed.

Lemma server_new_ok m : server_ok (server_new m).
Proof.
  split; cbn [display scr esc server_new]; try done; try (vm_compute; repeat split; congruence).
  split; [|apply ansi_new_ok]. exact (proj1 (clear_screen_confined (writer_new m))).
Qed.

(** ** Runs of the server *)

(** One turn of the loop, as it went. *)
Record round := Round { before : server; msg : recv_result; calls : trace; page : list Z }.

Definition event_in (x : round) : event := event_of (page x) (before x) (msg x) (calls x).

(** The turns that lead from a state to another, oldest first. *)
Inductive rounds (s : server) : list round -> server -> Prop :=
| rounds_start : rounds s [] s
| rounds_next h s1 pg r t s2 :
    rounds s h s1 -> zlen pg = CONSOLE_LINE_MAX -> exec (serve pg s1 r) t s2 ->
    rounds s (h ++ [Round s1 r t pg]) s2.

Fixpoint spec_run (i : input) (es : list event) : input * list sys_args :=
  match es with
  | [] => (i, [])
  | e :: es' =>
      let (i1, o) := spec_step i e in
      let (i2, ms) := spec_run i1 es' in
      (i2, message (slot i) o ++ ms)
  end.

Definition all_sent (h : list round) : list sys_args := concat (map (fun x => sent (calls x)) h).

Lemma spec_run_snoc i es e :
  spec_run i (es ++ [e]) =
  let (i1, ms) := spec_run i es in
  let (i2, o) := spec_step i1 e in (i2, ms ++ message (slot i1) o).
Proof.
  revert i. induction es as [|x es IH]; intros i; cbn.
  - destruct (spec_step i e). by rewrite app_nil_r.
  - destruct (spec_step i x) as [i1 o]. rewrite IH. destruct (spec_run i1 es) as [i2 ms].
    destruct (spec_step i2 e). by rewrite app_assoc.
Qed.

Lemma all_sent_snoc h x : all_sent (h ++ [x]) = all_sent h ++ sent (calls x).
Proof. unfold all_sent. rewrite map_app, concat_app. cbn. by rewrite app_nil_r. Qed.

Lemma rounds_run s h s' :
  server_ok s -> rounds s h s' ->
  server_ok s' /\ spec_run (abs s) (map event_in h) = (abs s', all_sent h).
Proof.
  intros O R. induction R as [|h s1 pg r t s2 R [O1 IH] Hp E]; [done|].
  pose proof (wp_exec _ _ _ _ (serve_ok pg s1 r O1 Hp) E) as [O2 H]. split; [done|].
  rewrite map_app. cbn [map]. rewrite spec_run_snoc, IH, all_sent_snoc. unfold event_in at 1. cbn [calls page before msg].
  destruct (spec_step (abs s1) _) as [i o]. by destruct H as (-> & -> & _).
Qed.

(** C7: the console server is one reader's line editor and key queue.  From every state
    the server can be in, every turn of its loop ends without a panic and whatever the
    kernel answers; the line being typed (bytes of the shared page), the ring buffer of
    keys and the flags change as [spec_step] says for the message's meaning, the server
    sends exactly the replies [spec_step] gives, to the reader's slot, and when a reply
    announces a line, the shared page starts with that line.  A request for a line from a
    task that is not the reader, or made before there is a reader, gets no reply at all:
    see [unconnected_request_unanswered]. *)
Theorem console_refines pg s r :
  server_ok s -> zlen pg = CONSOLE_LINE_MAX ->
  safe (serve pg s r) /\
  forall t s', exec (serve pg s r) t s' ->
    server_ok s' /\
    exists o, spec_step (abs s) (event_of pg s r t) = (abs s', o) /\
      sent t = message (reader_slot s) o /\
      forall l, o = Some (Line l) -> sub (input_buf (line s')) 0 (zlen l) = l.
Proof.
  intros O Hp. pose proof (serve_ok pg s r O Hp) as W. split; [by eapply wp_safe|].
  intros t s' E. destruct (wp_exec _ _ _ _ W E) as [O' H]. split; [done|].
  destruct (spec_step _ _) as [i o]. destruct H as (-> & Hs & Hl). exists o. split_and!; [done|done|]. by intros l ->.
Qed.

Lemma console_refines_witness :
  safe (serve (replicate 256 0) (server_new (fun _ => 0)) (RecvResult 0 0 0x1E 0 0)) /\
  forall t s', exec (serve (replicate 256 0) (server_new (fun _ => 0)) (RecvResult 0 0 0x1E 0 0)) t s' ->
    sent t = [].
Proof.
  destruct (console_refines (replicate 256 0) (server_new (fun _ => 0)) (RecvResult 0 0 0x1E 0 0)
              (server_new_ok _) eq_refl) as [S H].
  split; [exact S|]. intros t s' E. destruct (H t s' E) as (_ & o & Sp & -> & _).
  apply (f_equal snd) in Sp. cbn in Sp. subst o. reflexivity.
Defined.

(** ** Who gets the keystrokes *)

(** The first task whose [CONSOLE_OP_SET_BUFFER] was accepted. *)
Definition accepted (x : round) : bool :=
  match event_in x with Buffer _ ok _ => ok | _ => false end.

Fixpoint first_reader (h : list round) : option Z :=
  match h with
  | [] => None
  | x :: h' => if accepted x then Some (sender (msg x)) else first_reader h'
  end.

(** [x] hands the server slot [sl] as the one to send input to. *)
Definition names_slot (id sl : Z) (x : round) : Prop :=
  sender (msg x) = id /\ w0 (msg x) = CONSOLE_OP_SET_READER /\ transferred_slot (msg x) = sl.

Lemma first_reader_snoc h x :
  first_reader (h ++ [x]) =
  match first_reader h with Some o => Some o | None => if accepted x then Some (sender (msg x)) else None end.
Proof. induction h as [|y h IH]; cbn; [done|]. destruct (accepted y); [done|apply IH]. Qed.

(** What the owner and the slot say about the past. *)
Definition reader_inv (h : list round) (i : input) : Prop :=
  owner i = default 0 (first_reader h) /\ (forall o, first_reader h = Some o -> o <> 0) /\
  (slot i <> 0 -> owner i <> 0 /\ exists x, x ∈ h /\ names_slot (owner i) (slot i) x).

Lemma event_sender x id :
  match event_in x with
  | Buffer i _ _ | Reader i _ | ReadLine i | Mode i _ | ReadKey i => i = id
  | _ => False
  end -> sender (msg x) = id /\ id <> 0.
Proof.
  unfold event_in, event_of. destruct (sender (msg x) =? KERNEL_TASK_ID) eqn:E.
  - destruct (Keyboard.feed _ _) as [[? [?|]]|]; done.
  - apply Z.eqb_neq in E. repeat (match goal with |- context [if ?c then _ else _] => destruct c end);
      intros H'; try done; subst; (split; [done|exact E]).
Qed.

Lemma event_reader x id sl : event_in x = Reader id sl -> names_slot id sl x.
Proof.
  unfold event_in, event_of, names_slot. destruct (sender (msg x) =? KERNEL_TASK_ID).
  - destruct (Keyboard.feed _ _) as [[? [?|]]|]; done.
  - repeat (match goal with |- context [if ?c then _ else _] => destruct c eqn:? end); try done.
    intros [= <- <-]. bool_simp. done.
Qed.

(** Nothing but an accepted buffer and a named slot changes the reader. *)
Lemma spec_step_reader i e :
  match e with
  | Buffer _ _ _ | Reader _ _ => True
  | _ => owner (fst (spec_step i e)) = owner i /\ slot (fst (spec_step i e)) = slot i
  end.
Proof. destruct e; cbn; try done; repeat case_match; done. Qed.

Lemma reader_inv_keep h x i o :
  reader_inv h i -> accepted x = false \/ owner i <> 0 -> owner o = owner i -> slot o = slot i ->
  reader_inv (h ++ [x]) o.
Proof.
  intros (Ho & Hn & Hs) Ha Eo Es. rewrite <- Eo in Ho. unfold reader_inv. rewrite first_reader_snoc, Es.
  assert (F : (match first_reader h with
               | Some o => Some o | None => if accepted x then Some (sender (msg x)) else None end) = first_reader h).
  { destruct (first_reader h); [done|]. cbn in Ho. destruct Ha as [->|]; [done|congruence]. }
  rewrite F. split_and!; [done|done|]. intros H. rewrite Eo. destruct (Hs H) as [? (y & Hy & ?)]. split; [done|].
  exists y. split; [|done]. apply elem_of_app. by left.
Qed.

Lemma reader_inv_step h x i : reader_inv h i -> reader_inv (h ++ [x]) (fst (spec_step i (event_in x))).
Proof.
  intros I. pose proof (spec_step_reader i (event_in x)) as K. pose proof (event_sender x) as Sd.
  pose proof (event_reader x) as Rd. destruct (event_in x) eqn:Ee;
    try (destruct K; eapply reader_inv_keep; try done; left; unfold accepted; by rewrite Ee); clear K.
  - destruct (Sd id eq_refl) as [Hs Hid]. cbn [spec_step]. destruct I as (Ho & Hn & Hsl).
    destruct (ok && ((owner i =? 0) || (owner i =? id))) eqn:E; cbn [fst].
    + bool_simp. unfold reader_inv. cbn [owner slot]. rewrite first_reader_snoc. unfold accepted. rewrite Ee, H, Hs.
      destruct (first_reader h) as [o|] eqn:Ef; cbn in *.
      * pose proof (Hn o eq_refl). assert (o = id) as -> by (destruct H0 as [H0|H0]; apply Z.eqb_eq in H0; congruence).
        split_and!; [done|done|]. intros Hz. destruct (Hsl Hz) as [? (y & Hy & ?)]. split; [done|].
        exists y. rewrite <- Ho. split; [|done]. apply elem_of_app. by left.
      * split_and!; [done|by intros ? [= <-]|]. intros Hz. destruct (Hsl Hz) as [? _]. congruence.
    + eapply reader_inv_keep; [done| |done|done]. unfold accepted. rewrite Ee.
      destruct ok; [right|by left]. cbn in E. bool_simp. done.
  - specialize (Rd _ _ eq_refl). destruct (Sd id eq_refl) as [Hs Hid]. cbn [spec_step].
    assert (Ha : accepted x = false) by (unfold accepted; by rewrite Ee).
    destruct (_ && _) eqn:E; cbn [fst]; [|eapply reader_inv_keep; [done|by left|done|done]].
    bool_simp. destruct (reader_inv_keep h x i i I) as (Ho & Hn & _); [by left|done|done|].
    split_and!; [done|done|]. cbn [owner slot]. intros _. split; [congruence|].
    exists x. split; [apply elem_of_app; right; by apply list_elem_of_singleton|congruence].
Qed.

Lemma rounds_reader m h s : rounds (server_new m) h s -> reader_inv h (abs s).
Proof.
  intros R. induction R as [|h s1 pg r t s2 R IH Hp E]; [by split_and!|].
  destruct (rounds_run _ _ _ (server_new_ok m) R) as [O1 _].
  destruct (wp_exec _ _ _ _ (serve_ok pg s1 r O1 Hp) E) as [_ H].
  pose proof (reader_inv_step h (Round s1 r t pg) _ IH) as I.
  change (event_in (Round s1 r t pg)) with (event_of pg s1 r t) in I.
  destruct (spec_step (abs s1) (event_of pg s1 r t)) as [i o]. by destruct H as (-> & _).
Qed.

Lemma reply_has_slot s e r :
  server_ok s -> snd (spec_step (abs s) e) = Some r -> reader_slot s <> 0.
Proof.
  intros O. pose proof (so_armed _ O). pose proof (so_key_armed _ O).
  destruct e; cbn; repeat case_match; cbn; try done; bool_simp; naive_solver.
Qed.

(** C20: keystrokes go to one reader.  Whatever messages the server has received since it
    started, every message it has sent went to a slot that one task, the first whose
    buffer was accepted, had named with [CONSOLE_OP_SET_READER]; no other task can have
    lines or keys sent to itself. *)
Theorem keystrokes_confined m h s :
  rounds (server_new m) h s ->
  forall c, c ∈ all_sent h -> exists id x, first_reader h = Some id /\ x ∈ h /\ names_slot id (a1 c) x.
Proof.
  intros R. induction R as [|h s1 pg r t s2 R IH Hp E]; [intros c []%not_elem_of_nil|].
  destruct (rounds_run _ _ _ (server_new_ok m) R) as [O1 _]. pose proof (rounds_reader _ _ _ R) as I.
  destruct (wp_exec _ _ _ _ (serve_ok pg s1 r O1 Hp) E) as [O2 H].
  destruct (spec_step (abs s1) (event_of pg s1 r t)) as [i o] eqn:Es.
  destruct H as (_ & Hs & _). intros c. rewrite all_sent_snoc. cbn [calls]. rewrite Hs.
  intros [Hc|Hc]%elem_of_app.
  - destruct (IH c Hc) as (id & y & Hf & Hy & Hn). exists id, y. rewrite first_reader_snoc, Hf.
    split_and!; [done|apply elem_of_app; by left|done].
  - destruct o as [o|]; [|by apply not_elem_of_nil in Hc].
    pose proof (reply_has_slot s1 _ o O1 (f_equal snd Es)) as Hz.
    assert (a1 c = reader_slot s1) as -> by (destruct o; apply list_elem_of_singleton in Hc as ->; done).
    destruct I as (Ho1 & Hn1 & I1). destruct (I1 Hz) as (Hz1 & y & Hy & Hn).
    destruct (first_reader h) as [id|] eqn:Ef; [|done]. exists id, y. rewrite first_reader_snoc, Ef.
    split_and!; [done|apply elem_of_app; by left|]. cbn in Ho1, Hn. by rewrite <- Ho1.
Qed.

(** ** What the reader gets *)

(** The events that matter to a reader: a key release, or a byte to print, does not. *)
Definition events (h : list round) : list event :=
  List.filter (fun e => match e with Ignored => false | _ => true end) (map event_in h).

Lemma spec_run_ignored i es :
  spec_run i (List.filter (fun e => match e with Ignored => false | _ => true end) es) = spec_run i es.
Proof.
  revert i. induction es as [|e es IH]; intros i; [done|]. cbn [List.filter].
  destruct e; try (cbn [spec_run]; destruct (spec_step i _); by rewrite IH).
  rewrite IH. cbn. by destruct (spec_run i es).
Qed.

Lemma spec_run_app i es fs :
  spec_run i (es ++ fs) =
  let (i1, ms) := spec_run i es in let (i2, ns) := spec_run i1 fs in (i2, ms ++ ns).
Proof.
  revert i. induction es as [|e es IH]; intros i; cbn; [by destruct (spec_run i fs)|].
  destruct (spec_step i e) as [i1 o]. rewrite IH. destruct (spec_run i1 es) as [i2 ms].
  destruct (spec_run i2 fs). by rewrite app_assoc.
Qed.

Definition key_of (e : event) : list Z := match e with Typed k => [k] | _ => [] end.
Definition is_request (e : event) : bool := match e with ReadKey _ => true | _ => false end.

Definition keys_typed (es : list event) : list Z := concat (map key_of es).
Definition keys_asked (es : list event) : nat := length (List.filter is_request es).

(** A reader that asks for one key at a time, and is never more than 32 keys behind. *)
Definition paced (es : list event) : Prop :=
  forall es1 es2, es = es1 ++ es2 ->
    (length (keys_typed es1) <= keys_asked es1 + Z.to_nat KEY_QUEUE_CAP)%nat /\
    (keys_asked es1 <= length (keys_typed es1) + 1)%nat.

Definition only_keys (id : Z) (e : event) : Prop :=
  match e with Typed _ => True | ReadKey i => i = id | _ => False end.

Lemma keys_typed_snoc es e : keys_typed (es ++ [e]) = keys_typed es ++ key_of e.
Proof. unfold keys_typed. rewrite map_app, concat_app. cbn. by rewrite app_nil_r. Qed.

Lemma keys_asked_snoc es e : keys_asked (es ++ [e]) = (keys_asked es + if is_request e then 1 else 0)%nat.
Proof. unfold keys_asked. rewrite List.filter_app, length_app. cbn. by destruct (is_request e). Qed.

Lemma paced_snoc es e : paced (es ++ [e]) -> paced es.
Proof. intros P es1 es2 ->. apply (P es1 (es2 ++ [e])). by rewrite app_assoc. Qed.

(** The queue holds the keys typed and not yet asked for. *)
Lemma spec_keys i es :
  is_raw i = true -> slot i <> 0 -> keys i = [] -> key_awaited i = false ->
  Forall (only_keys (owner i)) es -> paced es ->
  let ks := keys_typed es in let q := keys_asked es in
  spec_run i es =
  (with_keys (drop q ks) (q =? length ks + 1)%nat i,
   map (fun k => SysArgs SYS_SEND (slot i) k 0 0 0) (take q ks)).
Proof.
  intros R Hs Hk Ha F P. induction es as [|e es IH] using rev_ind.
  { cbn. unfold with_keys. destruct i; cbn in *. by subst. }
  apply Forall_app in F as [F Fe]. apply Forall_inv in Fe.
  destruct (P (es ++ [e]) [] ltac:(by rewrite app_nil_r)) as [P1 P2].
  destruct (P es [e] eq_refl) as [_ P3].
  rewrite spec_run_snoc, IH by (try done; by eapply paced_snoc).
  rewrite keys_typed_snoc, keys_asked_snoc in *. unfold KEY_QUEUE_CAP in P1.
  set (ks := keys_typed es) in *. set (q := keys_asked es) in *.
  destruct e; cbn [key_of is_request only_keys spec_step with_keys is_raw key_awaited keys owner slot] in *; try done.
  - rewrite R. rewrite length_app in *. cbn [length] in *. destruct (Nat.eqb_spec q (length ks + 1)) as [Eq|Eq].
    + rewrite (proj2 (Nat.eqb_neq _ _)) by lia. f_equal.
      * unfold with_keys. cbn. f_equal. rewrite !drop_ge; [done|rewrite length_app; cbn; lia|lia].
      * rewrite !take_ge; [|rewrite length_app; cbn; lia|lia]. by rewrite map_app.
    + unfold zlen. rewrite length_drop, (proj2 (Z.ltb_lt _ _)), (proj2 (Nat.eqb_neq _ _)); [|unfold KEY_QUEUE_CAP; lia..].
      rewrite app_nil_r. f_equal.
      * unfold with_keys. cbn. f_equal. rewrite skipn_app. by replace (q + 0 - length ks)%nat with O by lia; rewrite Nat.add_0_r.
      * rewrite Nat.add_0_r, firstn_app. replace (q - length ks)%nat with O by lia. by rewrite app_nil_r.
  - rewrite Fe. rewrite app_nil_r in *. rewrite (proj2 (Nat.eqb_neq q _)) by lia.
    rewrite Z.eqb_refl, (proj2 (Z.eqb_neq _ _) Hs). cbn [andb negb].
    destruct (drop q ks) as [|k rest] eqn:Ed.
    + assert (q = length ks) as Eq.
      { assert (length (drop q ks) = O) by (by rewrite Ed). rewrite length_drop in *. lia. }
      rewrite (proj2 (Nat.eqb_eq _ _)) by lia. rewrite drop_ge, !take_ge by lia. by rewrite app_nil_r.
    + assert (Hq : ks !! q = Some k) by (by rewrite <- (Nat.add_0_r q), <- lookup_drop, Ed).
      rewrite (proj2 (Nat.eqb_neq _ _)) by (apply lookup_lt_Some in Hq; lia).
      rewrite Nat.add_1_r, (take_S_r _ _ _ Hq), map_app. f_equal. unfold with_keys. cbn. f_equal.
      rewrite (drop_S _ _ _ Hq) in Ed. by injection Ed as ->.
Qed.

(** raw mode loses and reorders nothing.  While a connected reader in raw mode asks
    for one key at a time and is at most 32 keys behind, and no other event than keys and
    its requests comes in, the messages it is sent are the typed keys, in the order they
    were typed, each exactly once: after [q] requests the first [q] keys (or all, if fewer
    were typed). *)
Theorem keys_in_order s h s' :
  server_ok s -> raw_mode s = true -> reader_slot s <> 0 ->
  key_queue_len (raw s) = 0 -> key_armed (raw s) = false ->
  rounds s h s' -> Forall (only_keys (reader_owner s)) (events h) -> paced (events h) ->
  all_sent h = map (fun k => SysArgs SYS_SEND (reader_slot s) k 0 0 0)
                 (take (keys_asked (events h)) (keys_typed (events h))).
Proof.
  intros O R Hs Hl Ha Rn F P. destruct (rounds_run _ _ _ O Rn) as [_ E].
  rewrite <- spec_run_ignored in E. fold (events h) in E.
  rewrite (spec_keys (abs s)) in E; try done; [by injection E|]. cbn. unfold queued. by rewrite Hl.
Qed.

(** Characters typed on a line that nobody has completed. *)
Lemma spec_typing i ks :
  is_raw i = false -> owner i <> 0 -> complete i = false -> Forall (fun k => k < 256 /\ k <> 10) ks ->
  spec_run i (map Typed ks) = (with_text (fold_left edit ks (typed i)) false (awaited i) i, []).
Proof.
  intros R Ho C F. revert i R Ho C. induction F as [|k ks [Hk Hn] F IH]; intros i R Ho C; cbn [map spec_run fold_left].
  - unfold with_text. destruct i. cbn in *. by subst.
  - cbn [spec_step]. rewrite R, C, (proj2 (Z.leb_gt _ _) Hk), (proj2 (Z.eqb_neq _ _) Ho), (proj2 (Z.eqb_neq _ _) Hn).
    cbn [orb]. rewrite IH by done. done.
Qed.

(** Where the request for the line comes does not matter. *)
Lemma spec_line i ks es e es1 es2 :
  is_raw i = false -> owner i <> 0 -> slot i <> 0 -> typed i = [] -> complete i = false -> awaited i = false ->
  Forall (fun k => k < 256 /\ k <> 10) ks ->
  es ++ [e] = es1 ++ ReadLine (owner i) :: es2 -> es1 ++ es2 = map Typed (ks ++ [10]) ->
  exists i1, spec_run i es = (i1, []) /\ slot i1 = slot i /\
    snd (spec_step i1 e) = Some (Line (fold_left edit ks [])).
Proof.
  intros R Ho Hs Ht C A F E E12. rewrite map_app in E12. cbn [map] in E12.
  destruct es2 as [|e' es2 _] using rev_ind.
  - apply app_inj_2 in E as [-> [= ->]]; [|done]. rewrite app_nil_r in E12. subst es1.
    rewrite spec_run_snoc, spec_typing by done. cbn [spec_step with_text is_raw owner complete awaited].
    rewrite R, A, (proj2 (Z.eqb_neq _ _) Ho). cbn [orb Z.leb Z.compare Pos.compare Pos.compare_cont Z.eqb Pos.eqb].
    eexists. split; [reflexivity|]. split; [done|].
    cbn. rewrite Z.eqb_refl, (proj2 (Z.eqb_neq _ _) Hs). cbn. by rewrite Ht.
  - rewrite app_assoc in E12. apply app_inj_2 in E12 as [E12 [= ->]]; [|done].
    rewrite app_comm_cons, app_assoc in E. apply app_inj_2 in E as [-> [= ->]]; [|done].
    symmetry in E12. apply map_eq_app in E12 as (k1 & k2 & -> & <- & <-). apply Forall_app in F as [F1 F2].
    rewrite spec_run_app, spec_typing by done. cbn [spec_run].
    set (i1 := with_text (fold_left edit k1 (typed i)) false (awaited i) i).
    assert (Er : spec_step i1 (ReadLine (owner i)) = (with_text (typed i1) false true i1, None)).
    { cbn. by rewrite Z.eqb_refl, (proj2 (Z.eqb_neq _ _) Hs). }
    rewrite Er, spec_typing by done. cbn [message app]. eexists. split; [reflexivity|]. split; [done|].
    cbn. rewrite R, (proj2 (Z.eqb_neq _ _) Ho). cbn. by rewrite fold_left_app, Ht.
Qed.

(** a line is delivered.  A reader is connected in line mode with nothing typed.  Keys
    [ks] and then Enter are typed, and at some moment, before, between or after them, the
    reader asks for a line; nothing else of interest comes in.  Then the server sends
    exactly one message, to the reader's slot, with the length of the line that [ks] edits
    (a backspace takes a character back, 256 fit), and the shared page then starts with
    that line. *)
Theorem line_delivered s h x s' ks es1 es2 :
  server_ok s -> raw_mode s = false -> reader_owner s <> 0 -> reader_slot s <> 0 ->
  line_len (line s) = 0 -> line_ready (line s) = false -> armed (line s) = false ->
  Forall (fun k => k < 256 /\ k <> 10) ks -> rounds s (h ++ [x]) s' ->
  events h ++ [event_in x] = es1 ++ ReadLine (reader_owner s) :: es2 ->
  es1 ++ es2 = map Typed (ks ++ [10]) ->
  let l := fold_left edit ks [] in
  all_sent (h ++ [x]) = [SysArgs SYS_SEND (reader_slot s) (zlen l) 0 0 0] /\
  sub (input_buf (line s')) 0 (zlen l) = l.
Proof.
  intros O R Ho Hs Hl Hr Ha F Rn E E12 l.
  inversion Rn as [Hnil|h0 s1 pg r t s2 Rn1 Hp Ex Eh]; [by destruct h|]. apply app_inj_2 in Eh as [-> [= <-]]; [|done].
  subst s2. destruct (rounds_run _ _ _ O Rn1) as [O1 E1]. rewrite <- spec_run_ignored in E1. fold (events h) in E1.
  destruct (spec_line (abs s) ks (events h) (event_in (Round s1 r t pg)) es1 es2) as (i1 & Ei & Es & El); try done.
  { cbn. by rewrite Hl, sub_diag. }
  rewrite E1 in Ei. injection Ei as Ei Em. subst i1.
  destruct (wp_exec _ _ _ _ (serve_ok pg s1 r O1 Hp) Ex) as [_ H].
  change (event_of pg s1 r t) with (event_in (Round s1 r t pg)) in H.
  destruct (spec_step (abs s1) _) as [i2 o]. cbn in El. subst o. destruct H as (_ & H1 & H2). cbn in Es.
  rewrite all_sent_snoc, Em. cbn [calls app]. rewrite H1, Es. by split.
Qed.

(** C39: a request before any buffer is not answered.  As long as no buffer has been
    accepted, [CONSOLE_OP_READ_LINE] from any task makes the server do nothing at all:
    the branch that would answer with length 0, which the module's documentation promises,
    is not reached, and the task waits. *)
Theorem unconnected_request_unanswered m h s pg r :
  rounds (server_new m) h s -> first_reader h = None ->
  sender r <> KERNEL_TASK_ID -> w0 r = CONSOLE_OP_READ_LINE -> serve pg s r = Ret s.
Proof.
  intros Rn Hf Hr Hw. destruct (rounds_reader _ _ _ Rn) as (Ho & _). rewrite Hf in Ho. cbn in Ho.
  unfold serve, on_read_line. rewrite (proj2 (Z.eqb_neq _ _) Hr), Hw, Ho, (proj2 (Z.eqb_neq 0 _)); [done|].
  intros H. by apply Hr.
Qed.

(** ** Concrete runs *)

(** A run on given messages, each with the answers to the server's calls. *)
Fixpoint play (pg : list Z) (s : server) (h : list round) (ms : list (recv_result * list raw_result)) :
    option (server * list round) :=
  match ms with
  | [] => Some (s, h)
  | (r, answers) :: ms' =>
      match run answers (serve pg s r) with
      | Some (s', cs) => play pg s' (h ++ [Round s r (zip cs answers) pg]) ms'
      | None => None
      end
  end.

Lemma play_rounds pg s0 s h ms s' h' :
  zlen pg = CONSOLE_LINE_MAX -> rounds s0 h s -> play pg s h ms = Some (s', h') -> rounds s0 h' s'.
Proof.
  intros Hp. revert s h. induction ms as [|[r answers] ms IH]; intros s h R E; cbn in E; [by injection E as <- <-|].
  destruct (run answers (serve pg s r)) as [[s1 cs]|] eqn:Er; [|done]. eapply IH; [|exact E].
  econstructor; [done|done|]. by apply run_exec.
Qed.

(** Scancodes of [a], Backspace, [b] and Enter. *)
Definition scan (c : Z) : recv_result * list raw_result := (RecvResult 0 1 c 0 0, [RawResult 0 0 0 0 0 0]).
Definition call (w0 w1 slot : Z) : recv_result * list raw_result :=
  (RecvResult 5 w0 w1 0 slot, [RawResult 0 0 0 0 0 0]).

Definition ex_pg : list Z := replicate 256 0.

(** Task 5 connects its buffer and names slot 9; task 6 tries to. *)
Definition ex_connect : list (recv_result * list raw_result) :=
  [call CONSOLE_OP_SET_BUFFER 0 8; call CONSOLE_OP_SET_READER 0 9;
   (RecvResult 6 CONSOLE_OP_SET_READER 0 0 7, [])].

Lemma ex_play {B} (f : server * list round -> B) (b : B) ms :
  f <$> play ex_pg (server_new (fun _ => 0)) [] ms = Some b ->
  exists h s, rounds (server_new (fun _ => 0)) h s /\ f (s, h) = b.
Proof.
  destruct (play _ _ _ _) as [[s h]|] eqn:E; [|done]. cbn. intros [= <-]. exists h, s. split; [|done].
  eapply play_rounds; [|apply rounds_start|exact E]. reflexivity.
Qed.

(** The typed line goes to task 5's slot. *)
Lemma keystrokes_confined_witness :
  exists h s, rounds (server_new (fun _ => 0)) h s /\ all_sent h = [SysArgs SYS_SEND 9 1 0 0 0] /\
    exists id x, first_reader h = Some id /\ x ∈ h /\ names_slot id 9 x.
Proof.
  destruct (ex_play (fun '(s, h) => all_sent h) [SysArgs SYS_SEND 9 1 0 0 0]
    (ex_connect ++ [call CONSOLE_OP_READ_LINE 0 0; scan 0x1E; scan 0x1C])) as (h & s & R & E);
    [vm_compute; reflexivity|].
  exists h, s. split; [exact R|]. split; [exact E|].
  apply (keystrokes_confined (fun _ => 0) h s R (SysArgs SYS_SEND 9 1 0 0 0)). rewrite E. by left.
Defined.

Lemma ex_play_from {B} (f : server -> list round -> server -> B) (b : B) ms1 ms2 :
  ('(s, _) ← play ex_pg (server_new (fun _ => 0)) [] ms1;
   '(s', h) ← play ex_pg s [] ms2; Some (f s h s')) = Some b ->
  exists s h s', server_ok s /\ rounds s h s' /\ f s h s' = b.
Proof.
  destruct (play _ _ _ ms1) as [[s h0]|] eqn:E1; [|done]. cbn.
  destruct (play _ s _ ms2) as [[s' h]|] eqn:E2; [|done]. cbn. intros [= <-]. exists s, h, s'. split_and!; [|..|done].
  - eapply rounds_run; [apply server_new_ok|]. eapply play_rounds; [|apply rounds_start|exact E1]. reflexivity.
  - eapply play_rounds; [|apply rounds_start|exact E2]. reflexivity.
Qed.

Lemma paced_check es :
  forallb (fun n => let es1 := take n es in
    (length (keys_typed es1) <=? keys_asked es1 + Z.to_nat KEY_QUEUE_CAP)%nat &&
    (keys_asked es1 <=? length (keys_typed es1) + 1)%nat) (seq 0 (S (length es))) = true -> paced es.
Proof.
  rewrite forallb_forall. intros H es1 es2 ->. specialize (H (length es1)).
  rewrite take_app_length in H. cbn zeta in H. rewrite andb_true_iff, !Nat.leb_le in H. apply H.
  apply in_seq. rewrite length_app. lia.
Qed.

(** Two keys typed ahead, then three requests. *)
Lemma keys_in_order_witness :
  exists s h s', rounds s h s' /\ keys_asked (events h) = 3%nat /\
    all_sent h = [SysArgs SYS_SEND 9 97 0 0 0; SysArgs SYS_SEND 9 KEY_UP 0 0 0].
Proof.
  destruct (ex_play_from (fun s h s' => (raw_mode s, reader_slot s, reader_owner s, key_queue_len (raw s),
      key_armed (raw s), events h))
    (true, 9, 5, 0, false, [Typed 97; Typed KEY_UP; ReadKey 5; ReadKey 5; ReadKey 5])
    (ex_connect ++ [call CONSOLE_OP_SET_MODE 1 0])
    [scan 0x1E; scan 0x9E; scan 0xE0; scan 0x48; call CONSOLE_OP_READ_KEY 0 0; call CONSOLE_OP_READ_KEY 0 0;
     call CONSOLE_OP_READ_KEY 0 0]) as (s & h & s' & O & R & E); [vm_compute; reflexivity|].
  injection E as E1 E2 E3 E4 E5 E6. exists s, h, s'. split; [exact R|]. rewrite E6. split; [reflexivity|].
  rewrite (keys_in_order s h s'); try done; rewrite ?E6, ?E2; try done.
  - rewrite E3. repeat constructor.
  - apply paced_check. reflexivity.
Defined.

(** [a b Backspace c], the request, Enter. *)
Lemma line_delivered_witness :
  exists s h s', rounds s h s' /\ all_sent h = [SysArgs SYS_SEND 9 2 0 0 0] /\
    sub (input_buf (line s')) 0 2 = [97; 99].
Proof.
  destruct (ex_play_from (fun s h s' => (raw_mode s, reader_slot s, reader_owner s, line_len (line s),
      line_ready (line s), armed (line s), zlen h, (events (take 5 h), map event_in (drop 5 h))))
    (false, 9, 5, 0, false, false, 6,
     ([Typed 97; Typed 98; Typed 8; Typed 99; ReadLine 5], [Typed 10])) ex_connect
    [scan 0x1E; scan 0x30; scan 0x0E; scan 0x2E; call CONSOLE_OP_READ_LINE 0 0; scan 0x1C])
    as (s & h & s' & O & R & E); [vm_compute; reflexivity|].
  injection E as E1 E2 E3 E4 E5 E6 E7 E8 E9. exists s, h, s'. split; [exact R|].
  destruct h as [|y1 [|y2 [|y3 [|y4 [|y5 [|x [|]]]]]]]; try (unfold zlen in E7; cbn [length] in E7; lia).
  cbn [take drop map] in E8, E9.
  injection E9 as E9.
  destruct (line_delivered s [y1; y2; y3; y4; y5] x s' [97; 98; 8; 99] [Typed 97; Typed 98; Typed 8; Typed 99]
    [Typed 10]) as [H1 H2]; try done; try congruence.
  - repeat constructor; lia.
  - by rewrite E8, E9, E3.
  - rewrite E2 in H1. split; [exact H1|exact H2].
Defined.

(** Task 5 asks before it has connected a buffer. *)
Lemma unconnected_request_unanswered_witness :
  serve ex_pg (server_new (fun _ => 0)) (RecvResult 5 CONSOLE_OP_READ_LINE 0 0 0) = Ret (server_new (fun _ => 0)).
Proof.
  apply (unconnected_request_unanswered (fun _ => 0) [] (server_new (fun _ => 0)) ex_pg
    (RecvResult 5 CONSOLE_OP_READ_LINE 0 0 0)); [apply rounds_start|reflexivity|discriminate|reflexivity].
Defined.
