(* ===== verification/Pio.v ===== *)
(** * Programs that drive devices

    A driver's code is a function of the state it works on, which holds the device: it
    ends with a result, panics, or, when it waits for a device that never answers, runs
    out of the polls it is given.  [PortIO] is what a device answers to the [in] and [out]
    instructions (userland/libpcern/src/lib.rs, userland/drivers/*/src/port.rs). *)

From stdpp Require Import base list numbers.
From Stdlib Require Import Lia.
From S2P Require Import Prelude.
Open Scope Z_scope.

Inductive ending (S A : Type) :=
| Ends (a : A) (s : S)
| Crashes (p : panic)
| Loops.
Arguments Ends {S A} a s.
Arguments Crashes {S A} p.
Arguments Loops {S A}.

Definition io (S A : Type) : Type := S -> ending S A.

#[export] Instance io_ret {S} : MRet (io S) := fun A a s => Ends a s.

#[export] Instance io_bind {S} : MBind (io S) := fun A B f m s =>
  match m s with
  | Ends a s' => f a s'
  | Crashes p => Crashes p
  | Loops => Loops
  end.

(** A pure computation that may panic. *)
Definition pure {S A} (c : res A) : io S A := fun s =>
  match c with Ok a => Ends a s | Panicked p => Crashes p end.

Definition get {S A} (f : S -> A) : io S A := fun s => Ends (f s) s.
Definition modify {S} (f : S -> S) : io S unit := fun s => Ends tt (f s).

(** The [in] and [out] instructions of a machine with a device in state [S]. *)
Class PortIO (S : Type) := {
  in8 : Z -> S -> Z * S;
  in16 : Z -> S -> Z * S;
  in32 : Z -> S -> Z * S;
  out8 : Z -> Z -> S -> S;
  out16 : Z -> Z -> S -> S;
  out32 : Z -> Z -> S -> S
}.

Definition inb {T} `{PortIO T} (p : Z) : io T Z := fun s => let (v, s') := in8 p s in Ends v s'.
Definition inw {T} `{PortIO T} (p : Z) : io T Z := fun s => let (v, s') := in16 p s in Ends v s'.
Definition inl {T} `{PortIO T} (p : Z) : io T Z := fun s => let (v, s') := in32 p s in Ends v s'.
Definition outb {T} `{PortIO T} (p v : Z) : io T unit := modify (out8 p v).
Definition outw {T} `{PortIO T} (p v : Z) : io T unit := modify (out16 p v).
Definition outl {T} `{PortIO T} (p v : Z) : io T unit := modify (out32 p v).

(** ** Total correctness *)

(** From [s], [m] ends, and with a result and a state that satisfy [Q]. *)
Definition runs {S A} (m : io S A) (s : S) (Q : A -> S -> Prop) : Prop :=
  match m s with Ends a s' => Q a s' | _ => False end.

Lemma runs_ret {S A} (a : A) (s : S) Q : Q a s -> runs (mret a) s Q.
Proof. done. Qed.

Lemma runs_bind {S A B} (m : io S A) (f : A -> io S B) s Q :
  runs m s (fun a s' => runs (f a) s' Q) -> runs (m ≫= f) s Q.
Proof. unfold runs, mbind, io_bind. by destruct (m s). Qed.

Lemma runs_mono {S A} (m : io S A) s (Q Q' : A -> S -> Prop) :
  runs m s Q -> (forall a s', Q a s' -> Q' a s') -> runs m s Q'.
Proof. unfold runs. destruct (m s); try done. auto. Qed.

Lemma runs_pure {S A} (c : res A) (s : S) (Q : A -> S -> Prop) :
  (exists a, c = Ok a /\ Q a s) -> runs (pure c) s Q.
Proof. by intros (a & -> & H). Qed.

Lemma runs_get {S A} (f : S -> A) s (Q : A -> S -> Prop) : Q (f s) s -> runs (get f) s Q.
Proof. done. Qed.

Lemma runs_modify {S} (f : S -> S) s (Q : unit -> S -> Prop) : Q tt (f s) -> runs (modify f) s Q.
Proof. done. Qed.

Lemma runs_ends {S A} (m : io S A) s Q : runs m s Q -> exists a s', m s = Ends a s' /\ Q a s'.
Proof. unfold runs. destruct (m s); try done. eauto. Qed.

(** Run the next step with what is known about it. *)
Ltac runs_step H := apply runs_bind; eapply runs_mono; [apply H|].

(** ** Partial correctness *)

(** From [s], [m] does not crash, and if it ends, its result and its state satisfy [Q]. *)
Definition safely {S A} (m : io S A) (s : S) (Q : A -> S -> Prop) : Prop :=
  match m s with Ends a s' => Q a s' | Crashes _ => False | Loops => True end.

Lemma safely_ret {S A} (a : A) (s : S) Q : Q a s -> safely (mret a) s Q.
Proof. done. Qed.

Lemma safely_bind {S A B} (m : io S A) (f : A -> io S B) s Q :
  safely m s (fun a s' => safely (f a) s' Q) -> safely (m ≫= f) s Q.
Proof. unfold safely, mbind, io_bind. by destruct (m s). Qed.

Lemma safely_mono {S A} (m : io S A) s (Q Q' : A -> S -> Prop) :
  safely m s Q -> (forall a s', Q a s' -> Q' a s') -> safely m s Q'.
Proof. unfold safely. destruct (m s); try done. auto. Qed.

Lemma safely_pure {S A} (c : res A) (s : S) (Q : A -> S -> Prop) :
  okay c (fun a => Q a s) -> safely (pure c) s Q.
Proof. unfold safely, pure. by destruct c. Qed.

Lemma safely_ends {S A} (m : io S A) s Q a s' : safely m s Q -> m s = Ends a s' -> Q a s'.
Proof. unfold safely. intros H E. by rewrite E in H. Qed.

Lemma safely_and {S A} (m : io S A) s (P Q : A -> S -> Prop) :
  safely m s P -> safely m s Q -> safely m s (fun a s' => P a s' /\ Q a s').
Proof. unfold safely. by destruct (m s). Qed.

Lemma runs_safely {S A} (m : io S A) s Q : runs m s Q -> safely m s Q.
Proof. unfold runs, safely. by destruct (m s). Qed.

(** The next step of a program, with what is known about it. *)
Ltac safely_step H := apply safely_bind; eapply safely_mono; [apply H|cbv beta].

(** ** Termination *)

(** [m] does not loop, from any state. *)
Definition total {S A} (m : io S A) : Prop := forall s, m s <> Loops.

Lemma total_ret {S A} (a : A) : total (mret a : io S A).
Proof. done. Qed.

Lemma total_bind {S A B} (m : io S A) (f : A -> io S B) : total m -> (forall a, total (f a)) -> total (m ≫= f).
Proof. intros M F s. unfold mbind, io_bind. specialize (M s). destruct (m s); try done. apply F. Qed.

Lemma total_pure {S A} (c : res A) : total (pure c : io S A).
Proof. intros s. unfold pure. by destruct c. Qed.

Lemma total_modify {S} (f : S -> S) : total (modify f).
Proof. done. Qed.

Lemma total_in {T} `{PortIO T} p : total (inb p : io T Z) /\ total (inw p : io T Z) /\ total (inl p : io T Z).
Proof. split_and!; intros s; [unfold inb|unfold inw|unfold inl]; by case_match. Qed.

Lemma total_runs {S A} (m : io S A) s Q : total m -> safely m s Q -> runs m s Q.
Proof. intros T H. specialize (T s). unfold safely, runs in *. by destruct (m s). Qed.

Create HintDb total.
#[export] Hint Resolve total_ret total_bind total_pure total_modify : total.

Ltac total_step :=
  match goal with
  | |- total (mbind _ _) => apply total_bind; [|intros ?]
  | |- total (inb _) => apply total_in
  | |- total (inw _) => apply total_in
  | |- total (inl _) => apply total_in
  | |- total (outb _ _) => apply total_modify
  | |- total (outw _ _) => apply total_modify
  | |- total (outl _ _) => apply total_modify
  | |- total (match ?x with _ => _ end) => destruct x
  | |- total (if ?x then _ else _) => destruct x
  | |- total _ => progress eauto with total nocore
  end.
