(* ===== verification/Chips.v ===== *)
(** * The kernel's devices behind ports

    kernel/src/pic.rs, serial.rs and reboot.rs as programs of port I/O: the two 8259
    interrupt controllers, the first serial port, the keyboard controller's reset line.
    What the chips do is a parameter ([Pics], [Uart]) with the laws of their data sheets.
    The interrupt controllers' code implements the mask registers the kernel is verified
    with (Hw.v). *)

From stdpp Require Import base list numbers.
From Stdlib Require Import Lia.
From S2P Require Import Prelude Hw Pio.
Open Scope Z_scope.

(** ** The interrupt controllers (pic.rs) *)

Definition PIC1_CMD : Z := 0x20.
Definition PIC1_DATA : Z := 0x21.
Definition PIC2_CMD : Z := 0xA0.
Definition PIC2_DATA : Z := 0xA1.
Definition ICW1_ICW4 : Z := 0x01.
Definition ICW1_INIT : Z := 0x10.
Definition ICW4_8086 : Z := 0x01.
Definition PIC1_OFFSET : Z := 32.
Definition PIC2_OFFSET : Z := 40.

Section pic.
Context {W : Type} `{PortIO W}.

(** [port::io_wait] *)
Definition io_wait : io W unit := outb 0x80 0.

(** [pic::init] *)
Definition pic_setup : io W unit :=
  _ ← outb PIC1_CMD (Z.lor ICW1_INIT ICW1_ICW4); _ ← io_wait;
  _ ← outb PIC2_CMD (Z.lor ICW1_INIT ICW1_ICW4); _ ← io_wait;
  _ ← outb PIC1_DATA PIC1_OFFSET; _ ← io_wait;
  _ ← outb PIC2_DATA PIC2_OFFSET; _ ← io_wait;
  _ ← outb PIC1_DATA 4; _ ← io_wait;
  _ ← outb PIC2_DATA 2; _ ← io_wait;
  _ ← outb PIC1_DATA ICW4_8086; _ ← io_wait;
  _ ← outb PIC2_DATA ICW4_8086; _ ← io_wait;
  _ ← outb PIC1_DATA 0xFC;
  outb PIC2_DATA 0xFF.

Definition send_eoi (irq : Z) : io W unit :=
  _ ← (if irq >=? 8 then outb PIC2_CMD 0x20 else mret tt);
  outb PIC1_CMD 0x20.

Definition read_mask : io W (Z * Z) :=
  a ← inb PIC1_DATA; b ← inb PIC2_DATA; mret (a, b).

(** [pic::unmask] *)
Definition pic_unmask (irq : Z) : io W unit :=
  if irq >=? 8 then
    mask ← inb PIC2_DATA;
    _ ← outb PIC2_DATA (Z.land mask (Z.lxor 0xFF (bit8 (irq - 8))));
    master_mask ← inb PIC1_DATA;
    outb PIC1_DATA (Z.land master_mask (Z.lxor 0xFF (bit8 2)))
  else
    mask ← inb PIC1_DATA;
    outb PIC1_DATA (Z.land mask (Z.lxor 0xFF (bit8 irq))).

(** [pic::mask] *)
Definition pic_mask (irq : Z) : io W unit :=
  if irq >=? 8 then
    mask ← inb PIC2_DATA;
    outb PIC2_DATA (Z.lor mask (bit8 (irq - 8)))
  else
    mask ← inb PIC1_DATA;
    outb PIC1_DATA (Z.lor mask (bit8 irq)).
End pic.

(** An 8259A: its mask, the vector of its first line, the cascade and mode words, the
    initialisation word it expects ([0]: none) and which of the last two it was told to
    expect, the ends of interrupt it has been sent. *)
Record pic_chip := PicChip {
  pc_imr : Z; pc_base : Z; pc_cascade : Z; pc_mode : Z; pc_awaits : Z; pc_single : bool; pc_ic4 : bool; pc_eois : Z }.

(** A command with bit 4 (ICW1) starts the initialisation: the mask is cleared, bit 1 says
    that there is no cascade word, bit 0 that a mode word comes, which is zero otherwise.
    0x20 is the end of interrupt. *)
Definition pic_command (v : Z) (p : pic_chip) : pic_chip :=
  if Z.testbit v 4 then
    PicChip 0 (pc_base p) (pc_cascade p) (if Z.testbit v 0 then pc_mode p else 0) 2 (Z.testbit v 1) (Z.testbit v 0) (pc_eois p)
  else if v =? 0x20 then
    PicChip (pc_imr p) (pc_base p) (pc_cascade p) (pc_mode p) (pc_awaits p) (pc_single p) (pc_ic4 p) (pc_eois p + 1)
  else p.

(** The data port takes the words the initialisation expects, and is the mask otherwise. *)
Definition pic_data (v : Z) (p : pic_chip) : pic_chip :=
  let last := if pc_ic4 p then 4 else 0 in
  if pc_awaits p =? 2 then
    PicChip (pc_imr p) (Z.land v 0xF8) (pc_cascade p) (pc_mode p) (if pc_single p then last else 3) (pc_single p) (pc_ic4 p) (pc_eois p)
  else if pc_awaits p =? 3 then PicChip (pc_imr p) (pc_base p) v (pc_mode p) last (pc_single p) (pc_ic4 p) (pc_eois p)
  else if pc_awaits p =? 4 then PicChip (pc_imr p) (pc_base p) (pc_cascade p) v 0 (pc_single p) (pc_ic4 p) (pc_eois p)
  else PicChip v (pc_base p) (pc_cascade p) (pc_mode p) (pc_awaits p) (pc_single p) (pc_ic4 p) (pc_eois p).

Inductive chip := Master | Slave.

Class Pics (W : Type) := chip_state : chip -> W -> pic_chip.

Definition imr {W} `{Pics W} (c : chip) (w : W) : Z := pc_imr (chip_state c w).
Definition base_vector {W} `{Pics W} (c : chip) (w : W) : Z := pc_base (chip_state c w).
Definition awaits {W} `{Pics W} (c : chip) (w : W) : Z := pc_awaits (chip_state c w).
Definition eois {W} `{Pics W} (c : chip) (w : W) : Z := pc_eois (chip_state c w).

Definition cmd_port (c : chip) : Z := match c with Master => PIC1_CMD | Slave => PIC2_CMD end.
Definition data_port (c : chip) : Z := match c with Master => PIC1_DATA | Slave => PIC2_DATA end.

Definition other (c : chip) : chip := match c with Master => Slave | Slave => Master end.

(** The machine's two controllers behave as the data sheet says, each on its own ports. *)
Class PicLaws (W : Type) `{PortIO W} `{Pics W} := {
  command_law c v (w : W) : Z.testbit v 4 = true \/ v = 0x20 /\ awaits c w = 0 -> let w' := out8 (cmd_port c) v w in
    chip_state c w' = pic_command v (chip_state c w) /\ chip_state (other c) w' = chip_state (other c) w;
  data_law c v (w : W) : let w' := out8 (data_port c) v w in
    chip_state c w' = pic_data v (chip_state c w) /\ chip_state (other c) w' = chip_state (other c) w;
  imr_law c (w : W) v w' : awaits c w = 0 -> in8 (data_port c) w = (v, w') ->
    v = imr c w /\ forall c', chip_state c' w' = chip_state c' w;
  wait_law c (w : W) : chip_state c (out8 0x80 0 w) = chip_state c w
}.

Section pic_correct.
Context {W : Type} `{PL : PicLaws W}.
Implicit Types w : W.

(** The mask registers, as the rest of the kernel sees them. *)
Definition masks (w : W) : pic := Pic (imr Master w) (imr Slave w).

(** A controller that has been initialised, with these vectors, cascade word and the 8086
    mode, whatever its mask and its count of ends of interrupt. *)
Definition initialised (p : pic_chip) (base cascade : Z) : Prop :=
  exists m e, p = PicChip m base cascade ICW4_8086 0 false true e.

(** Both are: the vectors follow the processor's own, the slave is on the master's line 2. *)
Definition settled (w : W) : Prop :=
  initialised (chip_state Master w) PIC1_OFFSET 4 /\ initialised (chip_state Slave w) PIC2_OFFSET 2.

Lemma initialised_awaits c w base cascade : initialised (chip_state c w) base cascade -> awaits c w = 0.
Proof. intros (m & e & E). unfold awaits. by rewrite E. Qed.

Lemma initialised_mask v p base cascade : initialised p base cascade -> initialised (pic_data v p) base cascade.
Proof. intros (m & e & ->). by exists v, e. Qed.

Lemma data_mask v c w : awaits c w = 0 -> pc_imr (pic_data v (chip_state c w)) = v /\ pc_awaits (pic_data v (chip_state c w)) = 0.
Proof. unfold awaits, pic_data. by intros ->. Qed.

(** One word of the initialisation, to the command or the data port. *)
Lemma command_step c v (k : io W unit) w (Q : unit -> W -> Prop) : Z.testbit v 4 = true ->
  (forall w', chip_state c w' = pic_command v (chip_state c w) -> chip_state (other c) w' = chip_state (other c) w -> runs k w' Q) ->
  runs (_ ← outb (cmd_port c) v; _ ← io_wait; k) w Q.
Proof. intros T F. destruct (command_law c v w (or_introl T)) as [E O]. apply F; by rewrite wait_law. Qed.

Lemma data_step c v (k : io W unit) w (Q : unit -> W -> Prop) :
  (forall w', chip_state c w' = pic_data v (chip_state c w) -> chip_state (other c) w' = chip_state (other c) w -> runs k w' Q) ->
  runs (_ ← outb (data_port c) v; _ ← io_wait; k) w Q.
Proof. intros F. destruct (data_law c v w) as [E O]. apply F; by rewrite wait_law. Qed.

Lemma pic_setup_ok w : runs pic_setup w (fun _ w' => settled w' /\ masks w' = pic_init).
Proof.
  unfold pic_setup.
  apply (command_step Master); [done|]. intros w1 M1 S1. apply (command_step Slave); [done|]. intros w2 S2 M2.
  apply (data_step Master). intros w3 M3 S3. apply (data_step Slave). intros w4 S4 M4.
  apply (data_step Master). intros w5 M5 S5. apply (data_step Slave). intros w6 S6 M6.
  apply (data_step Master). intros w7 M7 S7. apply (data_step Slave). intros w8 S8 M8.
  destruct (data_law Master 0xFC w8) as [M9 S9]. set (w9 := out8 (data_port Master) 0xFC w8) in *.
  destruct (data_law Slave 0xFF w9) as [S10 M10]. set (w10 := out8 (data_port Slave) 0xFF w9) in *.
  cbn [other] in *. change (settled w10 /\ masks w10 = pic_init).
  rewrite M9, M8, M7, M6, M5, M4, M3, M2, M1 in M10. rewrite S9, S8, S7, S6, S5, S4, S3, S2, S1 in S10.
  unfold settled, masks, imr. rewrite M10, S10. split; [|done]. split; by eexists _, _.
Qed.

(** [c]'s mask is read and written back changed; nothing else has changed. *)
Lemma update_then c (f : Z -> Z) (k : io W unit) w (Q : unit -> W -> Prop) : awaits c w = 0 ->
  (forall w', chip_state c w' = pic_data (f (imr c w)) (chip_state c w) ->
     chip_state (other c) w' = chip_state (other c) w -> runs k w' Q) ->
  runs (m ← inb (data_port c); _ ← outb (data_port c) (f m); k) w Q.
Proof.
  intros A F. apply runs_bind. unfold inb, runs at 1. destruct (in8 _ w) as [v w1] eqn:E. destruct (imr_law c w v w1 A E) as [-> S1].
  destruct (data_law c (f (imr c w)) w1) as [E2 O2]. rewrite S1 in E2, O2. by apply F.
Qed.

Lemma update_mask c (f : Z -> Z) w (Q : unit -> W -> Prop) : awaits c w = 0 ->
  (forall w', chip_state c w' = pic_data (f (imr c w)) (chip_state c w) ->
     chip_state (other c) w' = chip_state (other c) w -> Q tt w') ->
  runs (m ← inb (data_port c); outb (data_port c) (f m)) w Q.
Proof. intros A F. eapply runs_mono; [apply (update_then c f (mret tt) w Q A)|done]. intros w' I O. by apply runs_ret, F. Qed.

Lemma pic_mask_ok irq w : settled w -> runs (pic_mask irq) w (fun _ w' => settled w' /\ masks w' = mask (masks w) irq).
Proof.
  intros [M S]. pose proof (initialised_awaits _ _ _ _ M) as AM. pose proof (initialised_awaits _ _ _ _ S) as AS.
  unfold pic_mask, mask, masks, settled. destruct (irq >=? 8).
  - apply (update_mask Slave (fun m => Z.lor m (bit8 (irq - 8)))); [done|]. intros w' E O. cbn [other] in O. unfold imr at 1 2.
    rewrite E, O. split; [by split; [|apply initialised_mask]|]. by rewrite (proj1 (data_mask _ _ _ AS)).
  - apply (update_mask Master (fun m => Z.lor m (bit8 irq))); [done|]. intros w' E O. cbn [other] in O. unfold imr at 1 2.
    rewrite E, O. split; [by split; [apply initialised_mask|]|]. by rewrite (proj1 (data_mask _ _ _ AM)).
Qed.

Lemma pic_unmask_ok irq w : settled w -> runs (pic_unmask irq) w (fun _ w' => settled w' /\ masks w' = unmask (masks w) irq).
Proof.
  intros [M S]. pose proof (initialised_awaits _ _ _ _ M) as AM. pose proof (initialised_awaits _ _ _ _ S) as AS.
  unfold pic_unmask, unmask, masks, settled. destruct (irq >=? 8).
  - apply (update_then Slave (fun m => Z.land m (Z.lxor 0xFF (bit8 (irq - 8))))); [done|]. intros w1 E1 O1. cbn [other] in O1.
    apply (update_mask Master (fun m => Z.land m (Z.lxor 0xFF (bit8 2)))); [unfold awaits; by rewrite O1|].
    intros w2 E2 O2. cbn [other] in O2. unfold imr in E2. rewrite O1 in E2. fold (imr Master w) in E2. rewrite E1 in O2. unfold imr at 1 2.
    rewrite E2, O2. split; [by split; apply initialised_mask|].
    by rewrite (proj1 (data_mask _ _ _ AM)), (proj1 (data_mask _ _ _ AS)).
  - apply (update_mask Master (fun m => Z.land m (Z.lxor 0xFF (bit8 irq)))); [done|]. intros w' E O. cbn [other] in O. unfold imr at 1 2.
    rewrite E, O. split; [by split; [apply initialised_mask|]|]. by rewrite (proj1 (data_mask _ _ _ AM)).
Qed.

Lemma initialised_eoi p base cascade : initialised p base cascade ->
  initialised (pic_command 0x20 p) base cascade /\ pc_imr (pic_command 0x20 p) = pc_imr p /\
  pc_eois (pic_command 0x20 p) = pc_eois p + 1.
Proof. intros (m & e & ->). split; [by exists m, (e + 1)|done]. Qed.

Lemma send_eoi_ok irq w : settled w -> runs (send_eoi irq) w (fun _ w' => settled w' /\ masks w' = masks w /\
  eois Master w' = eois Master w + 1 /\ eois Slave w' = eois Slave w + (if irq >=? 8 then 1 else 0)).
Proof.
  intros [M S]. pose proof (initialised_awaits _ _ _ _ M) as AM. pose proof (initialised_awaits _ _ _ _ S) as AS.
  destruct (initialised_eoi _ _ _ M) as (M' & Mi & Me). destruct (initialised_eoi _ _ _ S) as (S' & Si & Se).
  unfold send_eoi. apply runs_bind. unfold settled, masks, eois, imr. destruct (irq >=? 8).
  - destruct (command_law Slave 0x20 w) as [E1 O1]; [by right|]. apply runs_modify. apply runs_modify.
    cbn [cmd_port other] in *. set (w1 := out8 PIC2_CMD 0x20 w) in *.
    destruct (command_law Master 0x20 w1) as [E2 O2]; [right; split; [done|]; unfold awaits; by rewrite O1|].
    cbn [cmd_port other] in *. rewrite E2, O2, O1, E1. rewrite Mi, Si. by split_and!.
  - apply runs_ret. apply runs_modify. destruct (command_law Master 0x20 w) as [E2 O2]; [by right|].
    cbn [cmd_port other] in *. rewrite E2, O2, Mi. split_and!; try done. lia.
Qed.
End pic_correct.

(** What the kernel does to the controllers after [init]. *)
Inductive pic_op := DoMask (irq : Z) | DoUnmask (irq : Z) | DoEoi (irq : Z).

Definition perform {W} `{PortIO W} (o : pic_op) : io W unit :=
  match o with DoMask irq => pic_mask irq | DoUnmask irq => pic_unmask irq | DoEoi irq => send_eoi irq end.

(** Its effect on the mask registers of the kernel's model. *)
Definition on_masks (p : pic) (o : pic_op) : pic :=
  match o with DoMask irq => mask p irq | DoUnmask irq => unmask p irq | DoEoi _ => p end.

Fixpoint perform_all {W} `{PortIO W} (os : list pic_op) : io W unit :=
  match os with [] => mret tt | o :: os' => _ ← perform o; perform_all os' end.

Section pic_refinement.
Context {W : Type} `{PL : PicLaws W}.
Implicit Types w : W.

Lemma perform_ok o w : settled w -> runs (perform o) w (fun _ w' => settled w' /\ masks w' = on_masks (masks w) o).
Proof.
  intros S. destruct o as [irq|irq|irq]; cbn; [by apply pic_mask_ok|by apply pic_unmask_ok|].
  eapply runs_mono; [by apply send_eoi_ok|]. intros _ w' (S' & M & _). by split.
Qed.

Lemma perform_all_ok os w : settled w ->
  runs (perform_all os) w (fun _ w' => settled w' /\ masks w' = fold_left on_masks os (masks w)).
Proof.
  revert w. induction os as [|o os IH]; intros w S; cbn; [by apply runs_ret|].
  apply runs_bind. eapply runs_mono; [by apply perform_ok|]. intros _ w1 [S1 <-]. by apply IH.
Qed.

(** C31: the port writes of the kernel implement the interrupt masks it is verified with.
    From any state of the two interrupt controllers, the initialisation followed by any
    sequence of masking, unmasking and ends of interrupt ends with both controllers
    initialised (their interrupts at vectors 32 and 40, the slave on the master's line 2,
    both in 8086 mode, no further word expected) and with the mask registers exactly those
    the kernel's model computes from its initial ones. *)
Theorem pic_refines os w :
  runs (_ ← pic_setup; perform_all os) w (fun _ w' =>
    base_vector Master w' = PIC1_OFFSET /\ base_vector Slave w' = PIC2_OFFSET /\
    pc_cascade (chip_state Master w') = Z.shiftl 1 2 /\ pc_cascade (chip_state Slave w') = 2 /\
    pc_mode (chip_state Master w') = 1 /\ pc_mode (chip_state Slave w') = 1 /\
    awaits Master w' = 0 /\ awaits Slave w' = 0 /\
    masks w' = fold_left on_masks os pic_init).
Proof.
  apply runs_bind. eapply runs_mono; [apply pic_setup_ok|]. intros _ w1 [S1 <-].
  eapply runs_mono; [by apply perform_all_ok|]. intros _ w2 [[(m1 & e1 & E1) (m2 & e2 & E2)] M].
  unfold base_vector, awaits. rewrite E1, E2. by split_and!.
Qed.
End pic_refinement.

(** ** The serial port (serial.rs) *)

Definition COM1 : Z := 0x3F8.

Section serial.
Context {W : Type} `{PortIO W}.

(** [serial::init] *)
Definition serial_init : io W unit :=
  _ ← outb (COM1 + 1) 0x00;
  _ ← outb (COM1 + 3) 0x80;
  _ ← outb (COM1 + 0) 0x03;
  _ ← outb (COM1 + 1) 0x00;
  _ ← outb (COM1 + 3) 0x03;
  _ ← outb (COM1 + 2) 0xC7;
  outb (COM1 + 4) 0x0B.

Definition transmit_empty : io W bool :=
  v ← inb (COM1 + 5); mret (negb (Z.land v 0x20 =? 0)).

(** [while !transmit_empty() {}], at most [polls] times. *)
Fixpoint await_transmit (polls : nat) : io W unit :=
  match polls with
  | O => fun _ => Loops
  | S n => e ← transmit_empty; if e : bool then mret tt else await_transmit n
  end.

Definition write_byte (polls : nat) (byte : Z) : io W unit :=
  _ ← await_transmit polls; outb COM1 byte.

Fixpoint write_bytes (polls : nat) (s : list Z) : io W unit :=
  match s with [] => mret tt | b :: s' => _ ← write_byte polls b; write_bytes polls s' end.
End serial.

(** The 16550: its line control register (bit 7: the divisor is at ports 0 and 1), its
    divisor, its interrupt enable register, the bytes given to the transmitter, and for how
    many more polls it is busy, never more than [patience]. *)
Class Uart (W : Type) := {
  lcr : W -> Z; divisor : W -> Z; ier : W -> Z; sent : W -> list Z; busy : W -> nat; patience : nat
}.

Class UartLaws (W : Type) `{PortIO W} `{Uart W} := {
  lcr_law v (w : W) : let w' := out8 (COM1 + 3) v w in lcr w' = v /\ divisor w' = divisor w /\ ier w' = ier w;
  ier_law v (w : W) : Z.testbit (lcr w) 7 = false -> let w' := out8 (COM1 + 1) v w in
    ier w' = v /\ lcr w' = lcr w /\ divisor w' = divisor w;
  div_low_law v (w : W) : Z.testbit (lcr w) 7 = true -> let w' := out8 (COM1 + 0) v w in
    divisor w' = Z.lor (Z.land (divisor w) 0xFF00) v /\ lcr w' = lcr w /\ ier w' = ier w;
  div_high_law v (w : W) : Z.testbit (lcr w) 7 = true -> let w' := out8 (COM1 + 1) v w in
    divisor w' = Z.lor (Z.land (divisor w) 0xFF) (Z.shiftl v 8) /\ lcr w' = lcr w /\ ier w' = ier w;
  control_law p v (w : W) : p = COM1 + 2 \/ p = COM1 + 4 -> let w' := out8 p v w in
    divisor w' = divisor w /\ lcr w' = lcr w /\ ier w' = ier w;
  busy_law (w : W) : (busy w <= patience)%nat;
  thr_law v (w : W) : Z.testbit (lcr w) 7 = false -> busy w = O -> let w' := out8 COM1 v w in
    sent w' = sent w ++ [v] /\ lcr w' = lcr w /\ divisor w' = divisor w;
  lsr_law (w : W) v w' : in8 (COM1 + 5) w = (v, w') ->
    Z.testbit v 5 = (busy w =? 0)%nat /\ busy w' = pred (busy w) /\
    sent w' = sent w /\ lcr w' = lcr w /\ divisor w' = divisor w
}.

Lemma bit5 v : negb (Z.land v 0x20 =? 0) = Z.testbit v 5.
Proof.
  change 0x20 with (2 ^ 5). destruct (Z.testbit v 5) eqn:E.
  - destruct (Z.eqb_spec (Z.land v (2 ^ 5)) 0) as [H|]; [|done]. exfalso.
    pose proof (f_equal (fun x => Z.testbit x 5) H) as H5. cbv beta in H5. by rewrite Z.land_spec, E, Z.bits_0 in H5.
  - rewrite (proj2 (Z.eqb_eq _ _)); [done|]. apply Z.bits_inj_0. intros n. rewrite Z.land_spec.
    destruct (Z.eq_dec n 5) as [->|Hn]; [by rewrite E|]. rewrite Z.pow2_bits_false by lia. apply andb_false_r.
Qed.

Section serial_correct.
Context {W : Type} `{UL : UartLaws W}.
Implicit Types w : W.

Lemma await_transmit_ok n w : (busy w < n)%nat ->
  runs (await_transmit n) w (fun _ w' => busy w' = O /\ sent w' = sent w /\ lcr w' = lcr w /\ divisor w' = divisor w).
Proof.
  revert w. induction n as [|n IH]; intros w B; [lia|]. cbn [await_transmit]. apply runs_bind, runs_bind.
  unfold inb, runs at 1. destruct (in8 (COM1 + 5) w) as [v w1] eqn:E.
  destruct (lsr_law w v w1 E) as (T & B1 & S1 & L1 & D1). apply runs_ret. rewrite bit5, T. destruct (Nat.eqb_spec (busy w) 0) as [B0|B0].
  - apply runs_ret. rewrite B1, B0. by split_and!.
  - eapply runs_mono; [apply IH; lia|]. intros _ w2 (B2 & S2 & L2 & D2). split_and!; congruence.
Qed.

Lemma write_bytes_ok n s w : (patience < n)%nat -> Z.testbit (lcr w) 7 = false ->
  runs (write_bytes n s) w (fun _ w' => sent w' = sent w ++ s /\ lcr w' = lcr w /\ divisor w' = divisor w).
Proof.
  intros P. revert w. induction s as [|b s IH]; intros w L; cbn.
  - apply runs_ret. by rewrite app_nil_r.
  - apply runs_bind, runs_bind. eapply runs_mono; [apply await_transmit_ok; pose proof (busy_law w); lia|].
    intros _ w1 (B1 & S1 & L1 & D1). apply runs_modify. destruct (thr_law b w1) as (S2 & L2 & D2); [congruence|done|].
    eapply runs_mono; [apply IH; congruence|]. intros _ w3 (S3 & L3 & D3). rewrite S3, S2, S1, <- app_assoc. split_and!; [done|congruence..].
Qed.

(** The port speaks at 38400 baud, eight bits, no parity. *)
Lemma serial_init_ok w : runs serial_init w (fun _ w' => lcr w' = 3 /\ divisor w' = 3).
Proof.
  unfold serial_init. do 2 (apply runs_bind, runs_modify). set (w1 := out8 _ _ w).
  destruct (lcr_law 0x80 w1) as (L2 & D2 & _). set (w2 := out8 _ _ w1) in *. apply runs_bind, runs_modify.
  destruct (div_low_law 0x03 w2) as (D3 & L3 & _); [by rewrite L2|]. set (w3 := out8 _ _ w2) in *. apply runs_bind, runs_modify.
  destruct (div_high_law 0x00 w3) as (D4 & L4 & _); [by rewrite L3, L2|]. set (w4 := out8 _ _ w3) in *. apply runs_bind, runs_modify.
  destruct (lcr_law 0x03 w4) as (L5 & D5 & _). set (w5 := out8 _ _ w4) in *. apply runs_bind, runs_modify.
  destruct (control_law (COM1 + 2) 0xC7 w5) as (D6 & L6 & _); [by left|]. set (w6 := out8 _ _ w5) in *. apply runs_modify.
  destruct (control_law (COM1 + 4) 0x0B w6) as (D7 & L7 & _); [by right|].
  rewrite L7, L6, L5, D7, D6, D5, D4, D3. split; [done|]. generalize (divisor w2). intros d. clear.
  rewrite Z.land_lor_distr_l, <- Z.land_assoc. change (Z.land 0xFF00 0xFF) with 0. by rewrite Z.land_0_r.
Qed.

(** what the kernel logs goes out on the serial line.  After the initialisation,
    writing a string sends exactly its bytes, in order, at the divisor the code chose
    (115200 / 3 = 38400 baud), eight bits without parity; each wait for the transmitter
    ends, as the transmitter is busy for a bounded number of polls. *)
Theorem serial_sends n s w :
  (patience < n)%nat ->
  runs serial_init w (fun _ w1 => runs (write_bytes n s) w1 (fun _ w2 =>
    sent w2 = sent w1 ++ s /\ lcr w2 = 3 /\ divisor w2 = 3)).
Proof.
  intros P. eapply runs_mono; [apply serial_init_ok|]. intros _ w1 [L D].
  eapply runs_mono; [apply write_bytes_ok; [done|by rewrite L]|]. intros _ w2 (S2 & L2 & D2). split_and!; congruence.
Qed.
End serial_correct.

(** ** The reset line (reboot.rs) *)

Definition KBD_COMMAND_PORT : Z := 0x64.
Definition KBD_STATUS_INPUT_FULL : Z := 0x02.
Definition KBD_CMD_PULSE_RESET : Z := 0xFE.

Section reboot.
Context {W : Type} `{PortIO W}.

(** [while inb(KBD_COMMAND_PORT) & KBD_STATUS_INPUT_FULL != 0 {}] *)
Fixpoint await_input (polls : nat) : io W unit :=
  match polls with
  | O => fun _ => Loops
  | S n => v ← inb KBD_COMMAND_PORT; if Z.land v KBD_STATUS_INPUT_FULL =? 0 then mret tt else await_input n
  end.

(** [reset]: [rounds] turns of its [loop]. *)
Fixpoint reset (rounds polls : nat) : io W unit :=
  match rounds with
  | O => fun _ => Loops
  | S n => _ ← await_input polls; _ ← outb KBD_COMMAND_PORT KBD_CMD_PULSE_RESET; reset n polls
  end.

(** [reset() -> !] *)
Lemma reset_diverges rounds polls (w : W) : reset rounds polls w = Loops.
Proof.
  assert (A : forall n (v : W), await_input n v = Loops \/ exists v', await_input n v = Ends tt v').
  { induction n as [|n IH]; intros v; cbn; [by left|]. unfold mbind, io_bind, inb. destruct (in8 _ v) as [x v1].
    destruct (Z.land _ _ =? 0); [right; by eexists|apply IH]. }
  revert w. induction rounds as [|n IH]; intros w; cbn; [done|]. unfold mbind, io_bind.
  destruct (A polls w) as [->|[w1 ->]]; [done|]. apply IH.
Qed.
End reboot.

(** ** A board with the three chips

    Two interrupt controllers and a serial port that is busy for one poll after each byte. *)

Record board := Board { b_master : pic_chip; b_slave : pic_chip;
  b_lcr : Z; b_div : Z; b_ier : Z; b_sent : list Z; b_busy : bool }.

Definition set_pics m s (b : board) : board := Board m s (b_lcr b) (b_div b) (b_ier b) (b_sent b) (b_busy b).

Definition set_uart l d i s u (b : board) : board := Board (b_master b) (b_slave b) l d i s u.

Definition board_out (p v : Z) (b : board) : board :=
  let latch := Z.testbit (b_lcr b) 7 in
  if p =? PIC1_CMD then set_pics (pic_command v (b_master b)) (b_slave b) b
  else if p =? PIC1_DATA then set_pics (pic_data v (b_master b)) (b_slave b) b
  else if p =? PIC2_CMD then set_pics (b_master b) (pic_command v (b_slave b)) b
  else if p =? PIC2_DATA then set_pics (b_master b) (pic_data v (b_slave b)) b
  else if p =? COM1 then
    if latch then set_uart (b_lcr b) (Z.lor (Z.land (b_div b) 0xFF00) v) (b_ier b) (b_sent b) (b_busy b) b
    else set_uart (b_lcr b) (b_div b) (b_ier b) (b_sent b ++ [v]) true b
  else if p =? COM1 + 1 then
    if latch then set_uart (b_lcr b) (Z.lor (Z.land (b_div b) 0xFF) (Z.shiftl v 8)) (b_ier b) (b_sent b) (b_busy b) b
    else set_uart (b_lcr b) (b_div b) v (b_sent b) (b_busy b) b
  else if p =? COM1 + 3 then set_uart v (b_div b) (b_ier b) (b_sent b) (b_busy b) b
  else b.

Definition board_in (p : Z) (b : board) : Z * board :=
  if p =? PIC1_DATA then (pc_imr (b_master b), b)
  else if p =? PIC2_DATA then (pc_imr (b_slave b), b)
  else if p =? COM1 + 5 then
    (if b_busy b then 0 else 0x60, set_uart (b_lcr b) (b_div b) (b_ier b) (b_sent b) false b)
  else (0, b).

#[export] Instance board_ports : PortIO board := {
  in8 := board_in; in16 p b := (0, b); in32 p b := (0, b);
  out8 := board_out; out16 p v b := b; out32 p v b := b
}.

Definition chip_of (c : chip) (b : board) : pic_chip := match c with Master => b_master b | Slave => b_slave b end.

#[export] Instance board_pics : Pics board := chip_of.

#[export] Instance board_uart : Uart board := {
  lcr := b_lcr; divisor := b_div; ier := b_ier; sent := b_sent; busy b := if b_busy b then 1%nat else O; patience := 1
}.

#[export] Instance board_pic_laws : PicLaws board.
Proof.
  split.
  - intros [] v w _; by split.
  - intros [] v w; by split.
  - intros [] w v w' A E; cbn in E; injection E as <- <-; (split; [done|]); by intros c'.
  - by intros [] w.
Qed.

#[export] Instance board_uart_laws : UartLaws board.
Proof.
  split.
  - intros v w; by split_and!.
  - intros v w L; cbn -[Z.testbit] in *; unfold board_out; cbn -[Z.testbit]; rewrite L; by split_and!.
  - intros v w L; cbn -[Z.testbit] in *; unfold board_out; cbn -[Z.testbit]; rewrite L; by split_and!.
  - intros v w L; cbn -[Z.testbit] in *; unfold board_out; cbn -[Z.testbit]; rewrite L; by split_and!.
  - intros p v w [-> | ->]; by split_and!.
  - intros w; cbn; destruct (b_busy w); lia.
  - intros v w L B; cbn -[Z.testbit] in *; unfold board_out; cbn -[Z.testbit]; rewrite L; by split_and!.
  - intros w v w' E; cbn in E; injection E as <- <-; cbn; destruct (b_busy w); by split_and!.
Qed.

Definition board0 : board := Board (PicChip 0 8 0 0 0 false true 0) (PicChip 0 0x70 0 0 0 false true 0) 0 12 0 [] true.

Lemma pic_refines_witness :
  runs (_ ← pic_setup; perform_all [DoUnmask 11; DoMask 11; DoEoi 11]) board0
    (fun _ w' => masks w' = Pic 0xF8 0xFF).
Proof.
  eapply runs_mono; [apply (pic_refines [DoUnmask 11; DoMask 11; DoEoi 11] board0)|].
  intros _ w' (_ & _ & _ & _ & _ & _ & _ & _ & ->). reflexivity.
Defined.

Lemma serial_sends_witness :
  runs serial_init board0 (fun _ w1 => runs (write_bytes 2 [104; 105]) w1 (fun _ w2 => sent w2 = sent w1 ++ [104; 105])).
Proof.
  eapply runs_mono; [apply (serial_sends 2 [104; 105] board0); cbn; lia|].
  intros [] w1 R. eapply runs_mono; [exact R|]. intros _ w2 (E & _). exact E.
Defined.
