(* ===== verification/Tables.v ===== *)
(** * The descriptor tables and the way into the kernel

    kernel/src/idt.rs (the interrupt descriptor table), exceptions.rs (the processor's
    exceptions) and the task state segment of gdt.rs, with what the processor does with
    the tables (Intel SDM 3A, 6.12 and 19.5): which handler an exception, an [int]
    instruction or an interrupt line enters, and which ports ring 3 may use. The addresses
    the linker gives the handlers and the segment are arguments. *)

From stdpp Require Import base list numbers sets.
From Stdlib Require Import Lia.
From S2P Require Import Prelude Hw Sched Ipc Pio Chips.
Open Scope Z_scope.

(** ** The interrupt descriptor table (idt.rs) *)

(** The functions [idt::init] installs. *)
Inductive handler :=
| DivideByZero | Breakpoint | InvalidOpcode | DoubleFault | GeneralProtectionFault | PageFault
| TimerHandler | KeyboardHandler | IrqStub (irq : Z) | SyscallIsr.

#[export] Instance handler_eq_dec : EqDecision handler.
Proof. solve_decision. Defined.

Definition CODE_SEG : Z := 0x08.
Definition DATA_SEG : Z := 0x10.
Definition USER_CODE_SEG : Z := Z.lor 0x18 3.

(** [struct InterruptStackFrame] *)
Record interrupt_stack_frame := Frame { fr_eip : Z; fr_cs : Z; fr_eflags : Z }.

(** [struct IdtEntry] *)
Record idt_entry := IdtEntry { offset_low : Z; selector : Z; zero : Z; type_attr : Z; offset_high : Z }.

Definition MISSING : idt_entry := IdtEntry 0 0 0 0 0.

(** [IdtEntry::new] *)
Definition idt_entry_new (handler_addr sel attr : Z) : idt_entry :=
  IdtEntry (Z.land handler_addr 0xFFFF) sel 0 attr (Z.land (Z.shiftr handler_addr 16) 0xFFFF).

Definition IDT_ENTRIES : Z := 256.
Definition GATE_INTERRUPT_32 : Z := 0x8E.
Definition GATE_INTERRUPT_32_DPL3 : Z := 0xEE.

(** [static mut IDT] *)
Definition IDT : list idt_entry := replicate (Z.to_nat IDT_ENTRIES) MISSING.

Definition set_gate (vector handler_addr attr : Z) (idt : list idt_entry) : list idt_entry :=
  zset idt vector (idt_entry_new handler_addr CODE_SEG attr).

(** The array of [init]: one stub per line, each of which dispatches its own line. *)
Definition generic_irqs : list handler :=
  [IrqStub 2; IrqStub 3; IrqStub 4; IrqStub 5; IrqStub 6; IrqStub 7; IrqStub 8; IrqStub 9;
   IrqStub 10; IrqStub 11; IrqStub 12; IrqStub 13; IrqStub 14; IrqStub 15].

(** [idt::init], given the address of each handler. *)
Definition idt_init (addr : handler -> Z) (idt : list idt_entry) : list idt_entry :=
  let idt := set_gate 0 (addr DivideByZero) GATE_INTERRUPT_32 idt in
  let idt := set_gate 3 (addr Breakpoint) GATE_INTERRUPT_32 idt in
  let idt := set_gate 6 (addr InvalidOpcode) GATE_INTERRUPT_32 idt in
  let idt := set_gate 8 (addr DoubleFault) GATE_INTERRUPT_32 idt in
  let idt := set_gate 13 (addr GeneralProtectionFault) GATE_INTERRUPT_32 idt in
  let idt := set_gate 14 (addr PageFault) GATE_INTERRUPT_32 idt in
  let idt := set_gate 32 (addr TimerHandler) GATE_INTERRUPT_32 idt in
  let idt := set_gate 33 (addr KeyboardHandler) GATE_INTERRUPT_32 idt in
  let idt := fold_left (fun idt '(i, h) => set_gate (34 + Z.of_nat i) (addr h) GATE_INTERRUPT_32 idt)
               (combine (seq 0 14) generic_irqs) idt in
  set_gate 0x80 (addr SyscallIsr) GATE_INTERRUPT_32_DPL3 idt.

(** ** What the handlers do (exceptions.rs) *)

(** [recover_or_halt]; [None] is [halt_loop]. *)
Definition recover_or_halt (frame : interrupt_stack_frame) (k : kernel) : option (res kernel) :=
  if (Z.land (fr_cs frame) 3 =? 3) && match current (sch k) with Some _ => true | None => false end
  then Some (exit_current k) else None.

(** The kernel after a handler, with the scancode the keyboard controller holds and the
    system call the interrupted task asks for; the messages they print are left out. *)
Definition handle (sys : kernel -> res kernel) (scancode : Z) (h : handler)
    (frame : interrupt_stack_frame) (k : kernel) : option (res kernel) :=
  match h with
  | DivideByZero | InvalidOpcode | GeneralProtectionFault | PageFault => recover_or_halt frame k
  | Breakpoint => Some (Ok k)
  | DoubleFault => None
  | TimerHandler => Some (timer_handler k)
  | KeyboardHandler => Some (keyboard_handler k scancode)
  | IrqStub irq => Some (dispatch k irq 0)
  | SyscallIsr => Some (sys k)
  end.

(** ** What the processor does with the table *)

Definition entry_target (e : idt_entry) : Z := offset_low e + 2 ^ 16 * offset_high e.
Definition gate_present (e : idt_entry) : bool := Z.testbit (type_attr e) 7.
Definition gate_dpl (e : idt_entry) : Z := Z.land (Z.shiftr (type_attr e) 5) 3.
(** A task, interrupt or trap gate. *)
Definition is_gate (e : idt_entry) : bool := bool_decide (Z.land (type_attr e) 0x1F ∈ [0x05; 0x06; 0x07; 0x0E; 0x0F]).
(** Entering it clears the interrupt flag. *)
Definition clears_if (e : idt_entry) : bool := bool_decide (Z.land (type_attr e) 0x1F ∈ [0x06; 0x0E]).

Inductive delivery := Entered (e : idt_entry) | Fault (v : Z).

(** Vector [v] from ring 3; [soft]: by an [int] instruction. *)
Definition gate_for (idt : list idt_entry) (soft : bool) (v : Z) : delivery :=
  match zget idt v with
  | None => Fault 13
  | Some e =>
      if negb (is_gate e) then Fault 13
      else if soft && (gate_dpl e <? 3) then Fault 13
      else if negb (gate_present e) then Fault 11
      else Entered e
  end.

Definition contributory (v : Z) : bool := bool_decide (v ∈ [0; 10; 11; 12; 13]).

(** The fault [f] while [v] is delivered is a double fault (SDM 3A, table 6-5). *)
Definition doubles (v f : Z) : bool :=
  contributory v && contributory f || (v =? 14) && (contributory f || (f =? 14)).

(** The gate an event ends up in; [None]: the processor shuts down. A fault in the delivery
    of an event is delivered in its turn, at most a double fault after it. *)
Fixpoint raise (n : nat) (idt : list idt_entry) (soft : bool) (v : Z) : option idt_entry :=
  match n with
  | O => None
  | S n =>
      match gate_for idt soft v with
      | Entered e => Some e
      | Fault f =>
          if negb soft && (v =? 8) then None
          else raise n idt false (if negb soft && doubles v f then 8 else f)
      end
  end.

(** ** The table, gate by gate *)

(** Every gate of the table. *)
Definition gates : list (Z * handler * Z) :=
  [(0, DivideByZero, 0x8E); (3, Breakpoint, 0x8E); (6, InvalidOpcode, 0x8E); (8, DoubleFault, 0x8E);
   (13, GeneralProtectionFault, 0x8E); (14, PageFault, 0x8E); (32, TimerHandler, 0x8E); (33, KeyboardHandler, 0x8E)] ++
  map (fun irq => (32 + irq, IrqStub irq, 0x8E)) [2; 3; 4; 5; 6; 7; 8; 9; 10; 11; 12; 13; 14; 15] ++
  [(0x80, SyscallIsr, 0xEE)].

Definition gate_of (gs : list (Z * handler * Z)) (v : Z) : option (handler * Z) :=
  match List.find (fun '(i, _, _) => i =? v) gs with Some (_, h, a) => Some (h, a) | None => None end.

(** [gate_for] and [raise] on the handlers themselves. *)
Definition find_gate (soft : bool) (v : Z) : option handler :=
  match gate_of gates v with
  | None => None
  | Some (h, a) => if soft && (gate_dpl (idt_entry_new 0 CODE_SEG a) <? 3) then None else Some h
  end.

Fixpoint enters (n : nat) (soft : bool) (v : Z) : option handler :=
  match n with
  | O => None
  | S n =>
      match find_gate soft v with
      | Some h => Some h
      | None => if negb soft && (v =? 8) then None else enters n false (if negb soft && doubles v 13 then 8 else 13)
      end
  end.

(** A decidable property of the 256 vectors, checked on each. *)
Lemma all_vectors (P : Z -> Prop) `{forall v, Decision (P v)} v :
  0 <= v < 256 -> forallb (fun v => bool_decide (P v)) (seqZ 0 256) = true -> P v.
Proof.
  intros Hv E. apply (bool_decide_unpack _), Is_true_true. rewrite forallb_forall in E. apply E, list_elem_of_In, elem_of_seqZ. lia.
Qed.

Section table.
Context (addr : handler -> Z).

Definition the_idt : list idt_entry := idt_init addr IDT.

Lemma idt_lookup v : 0 <= v < 256 ->
  zget the_idt v = Some (match gate_of gates v with
                         | Some (h, a) => idt_entry_new (addr h) CODE_SEG a
                         | None => MISSING
                         end).
Proof.
  intros Hv. change the_idt with (foldr (fun '(i, h, a) idt => set_gate i (addr h) a idt) IDT (rev gates)).
  assert (G : forall gs, Forall (fun g => 0 <= g.1.1 < 256) gs ->
    zlen (foldr (fun '(i, h, a) idt => set_gate i (addr h) a idt) IDT gs) = 256 /\
    zget (foldr (fun '(i, h, a) idt => set_gate i (addr h) a idt) IDT gs) v =
    Some (match gate_of gs v with Some (h, a) => idt_entry_new (addr h) CODE_SEG a | None => MISSING end)).
  { induction 1 as [|[[i h] a] gs Hi _ [L IH]]; cbn [foldr].
    - split; [done|]. unfold IDT. apply zget_lookup. split; [lia|]. apply lookup_replicate_2. unfold IDT_ENTRIES. lia.
    - cbn [fst] in Hi. set (idt := foldr _ IDT gs) in *. unfold set_gate. rewrite zlen_zset. split; [done|]. unfold gate_of. cbn [List.find].
      destruct (Z.eqb_spec i v) as [->|Hne]; [apply zget_zset_eq; by rewrite L|]. by rewrite zget_zset_ne. }
  destruct (G (rev gates)) as [_ ->]; [apply (bool_decide_unpack _); vm_compute; exact I|].
  by rewrite (all_vectors (fun v => gate_of (rev gates) v = gate_of gates v) v Hv) by (vm_compute; reflexivity).
Qed.
(** The tables agree: an event from ring 3 enters, in the kernel's code segment and with
    interrupts off, the handler found by [enters]. *)
Definition lands (o : option idt_entry) (h : handler) : Prop :=
  exists e, o = Some e /\ entry_target e = addr h /\ selector e = CODE_SEG /\ clears_if e = true.

Lemma entry_target_new a s t : is_u32 a -> entry_target (idt_entry_new a s t) = a.
Proof.
  unfold is_u32, entry_target, idt_entry_new. cbn [offset_low offset_high]. intros Ha.
  change 0xFFFF with (Z.ones 16). rewrite !Z.land_ones, Z.shiftr_div_pow2 by lia. dlia.
Qed.

(** The type byte of every gate: present, an interrupt gate, of ring 0 or of ring 3. *)
Lemma gate_of_attr v h a : 0 <= v < 256 -> gate_of gates v = Some (h, a) -> a = GATE_INTERRUPT_32 \/ a = GATE_INTERRUPT_32_DPL3.
Proof.
  intros Hv E.
  assert (B : (match gate_of gates v with Some (_, a) => (a =? 0x8E) || (a =? 0xEE) | None => true end) = true).
  { by apply (all_vectors (fun v => match gate_of gates v with Some (_, a) => (a =? 0x8E) || (a =? 0xEE) | None => true end = true)); [|vm_compute]. }
  rewrite E in B. bool_simp. unfold GATE_INTERRUPT_32, GATE_INTERRUPT_32_DPL3. lia.
Qed.

Hypothesis addresses : forall h, is_u32 (addr h).

Lemma deliver_gate soft v : 0 <= v < 256 ->
  match find_gate soft v with
  | Some h => exists e, gate_for the_idt soft v = Entered e /\ lands (Some e) h
  | None => gate_for the_idt soft v = Fault 13
  end.
Proof.
  intros Hv. unfold find_gate, gate_for. rewrite (idt_lookup v Hv). destruct (gate_of gates v) as [[h a]|] eqn:G; [|done].
  set (e := idt_entry_new (addr h) CODE_SEG a). change (gate_dpl (idt_entry_new 0 CODE_SEG a)) with (gate_dpl e).
  assert (A : is_gate e = true /\ gate_present e = true /\ clears_if e = true).
  { unfold is_gate, gate_present, clears_if, e. cbn [type_attr idt_entry_new].
    by destruct (gate_of_attr v h a Hv G) as [-> | ->]; vm_compute. }
  destruct A as (-> & -> & C). cbn [negb]. destruct (soft && _); [done|]. exists e. split; [done|].
  exists e. split_and!; try done. by apply entry_target_new.
Qed.

Lemma raise_enters n soft v h : 0 <= v < 256 -> enters n soft v = Some h -> lands (raise n the_idt soft v) h.
Proof.
  revert soft v. induction n as [|n IH]; intros soft v Hv E; [done|]. cbn [enters raise] in *.
  pose proof (deliver_gate soft v Hv) as D. destruct (find_gate soft v) as [h'|].
  - destruct D as (e & -> & L). by injection E as ->.
  - rewrite D. destruct (negb soft && (v =? 8)); [done|]. apply IH; [case_match; lia|done].
Qed.
End table.

(** ** Into the kernel, and back *)

(** The exceptions code in ring 3 can raise: all but those of the machine (NMI, machine
    check) and the double fault, which only a delivery raises. *)
Definition ring3_exceptions : list Z := [0; 1; 5; 6; 7; 10; 11; 12; 13; 14; 16; 17; 19].

(** Those about task states and segments.  The table has no gates for them, and a missing
    gate found while one of them is delivered is a double fault.  Ring 3 raises 10 (invalid
    TSS) by an [iret] with the nested-task flag set, which [popfd] sets; its segments are
    present and span all addresses, so it does not get 11 or 12. *)
Definition segment_exceptions : list Z := [10; 11; 12].

(** The handlers that end a ring-3 task. *)
Definition killers : list handler := [DivideByZero; InvalidOpcode; GeneralProtectionFault; PageFault].

Lemma killers_kill sys scancode h eip eflags k c : h ∈ killers -> current (sch k) = Some c ->
  handle sys scancode h (Frame eip USER_CODE_SEG eflags) k = Some (exit_current k).
Proof.
  intros Hh C. assert (R : recover_or_halt (Frame eip USER_CODE_SEG eflags) k = Some (exit_current k)).
  { unfold recover_or_halt. by rewrite C. }
  unfold killers in Hh. rewrite !elem_of_cons, elem_of_nil in Hh. destruct Hh as [->|[->|[->|[->|[]]]]]; exact R.
Qed.

Lemma ring3_enters v : v ∈ ring3_exceptions -> 0 <= v < 256 /\
  exists h, enters 3 false v = Some h /\ if bool_decide (v ∈ segment_exceptions) then h = DoubleFault else h ∈ killers.
Proof.
  intros Hv. assert (B : forallb (fun v => (0 <=? v) && (v <? 256) &&
    match enters 3 false v with
    | Some h => if bool_decide (v ∈ segment_exceptions) then bool_decide (h = DoubleFault) else bool_decide (h ∈ killers)
    | None => false
    end) ring3_exceptions = true) by (vm_compute; reflexivity).
  rewrite forallb_forall in B. specialize (B v (proj1 (list_elem_of_In _ _) Hv)).
  destruct (enters 3 false v) as [h|]; bool_simp; [|done]. split; [lia|]. exists h. split; [done|].
  destruct (bool_decide (v ∈ segment_exceptions)); by case_bool_decide.
Qed.

Lemma soft_enters v : is_u8 v -> v <> 0x80 -> enters 3 true v = Some GeneralProtectionFault.
Proof.
  intros Hv Hn. assert (H : v = 0x80 \/ enters 3 true v = Some GeneralProtectionFault); [|by destruct H].
  apply (all_vectors (fun v => v = 0x80 \/ enters 3 true v = Some GeneralProtectionFault)); [exact Hv|vm_compute; reflexivity].
Qed.

(** C13: what becomes of every trap of a program.  Whatever exception its code raises, but
    the three about task states and segments, and whatever [int] instruction but [int 0x80]
    it executes, also where the table has no gate, the processor enters a handler in the
    kernel's code segment with interrupts off which ends the running task and nothing
    else.  [int 0x80] enters the system-call handler.  The three others enter the
    double-fault handler, which halts the machine. *)
Theorem user_traps_outcome addr sys scancode eip eflags k c :
  (forall h, is_u32 (addr h)) -> current (sch k) = Some c ->
  let idt := idt_init addr IDT in
  let frame := Frame eip USER_CODE_SEG eflags in
  (forall v, v ∈ ring3_exceptions ->
    exists h, lands addr (raise 3 idt false v) h /\
      handle sys scancode h frame k = if bool_decide (v ∈ segment_exceptions) then None else Some (exit_current k)) /\
  (forall v, is_u8 v -> v <> 0x80 ->
    exists h, lands addr (raise 3 idt true v) h /\ handle sys scancode h frame k = Some (exit_current k)) /\
  lands addr (raise 3 idt true 0x80) SyscallIsr.
Proof.
  intros A C idt frame. split_and!.
  - intros v Hv. destruct (ring3_enters v Hv) as (R & h & E & Hh). exists h. split; [by apply raise_enters|].
    case_bool_decide; [by subst h|by eapply killers_kill].
  - intros v Hv Hn. exists GeneralProtectionFault. split; [|eapply killers_kill; [unfold killers; set_solver|exact C]].
    apply raise_enters; [done|exact Hv|by apply soft_enters].
  - apply raise_enters; [done|lia|vm_compute; reflexivity].
Qed.

(** ** Interrupt lines *)

(** The vector the controllers raise for a line. *)
Definition line_vector {W} `{Pics W} (irq : Z) (w : W) : Z :=
  if irq >=? 8 then base_vector Slave w + (irq - 8) else base_vector Master w + irq.

Definition line_handler (irq : Z) : handler :=
  if irq =? 0 then TimerHandler else if irq =? 1 then KeyboardHandler else IrqStub irq.

(** each interrupt line reaches its own handler.  After [pic::init] and [idt::init],
    whatever the state of the controllers before, the vector the controllers raise for each of the sixteen
    lines enters, with interrupts off, the timer's handler for line 0, the keyboard's for
    line 1, and for any other line the stub that dispatches that very line. *)
Theorem lines_routed {W} `{PicLaws W} addr (w : W) irq :
  (forall h, is_u32 (addr h)) -> 0 <= irq < 16 ->
  runs pic_setup w (fun _ w' => lands addr (raise 3 (idt_init addr IDT) false (line_vector irq w')) (line_handler irq)).
Proof.
  intros A Hi. eapply runs_mono; [apply pic_setup_ok|]. intros _ w' [[(m1 & e1 & B1) (m2 & e2 & B2)] _].
  unfold line_vector, base_vector. rewrite B1, B2. cbn [pc_base]. replace (if irq >=? 8 then _ else _) with (32 + irq)
    by (unfold PIC1_OFFSET, PIC2_OFFSET; case_match; bool_simp; lia).
  apply raise_enters; [done|lia|].
  assert (Hr : 32 + irq < 32 \/ 48 <= 32 + irq \/ enters 3 false (32 + irq) = Some (line_handler (32 + irq - 32))).
  { apply (all_vectors (fun v => v < 32 \/ 48 <= v \/ enters 3 false v = Some (line_handler (v - 32)))); [lia|vm_compute; reflexivity]. }
  replace (32 + irq - 32) with irq in Hr by lia. destruct Hr as [?|[?|?]]; [lia|lia|done].
Qed.

(** ** The task state segment (gdt.rs) *)

(** [struct Tss] *)
Record tss := Tss {
  t_prev_task : Z; t_esp0 : Z; t_ss0 : Z; t_esp1 : Z; t_ss1 : Z; t_esp2 : Z; t_ss2 : Z; t_cr3 : Z; t_eip : Z;
  t_eflags : Z; t_eax : Z; t_ecx : Z; t_edx : Z; t_ebx : Z; t_esp : Z; t_ebp : Z; t_esi : Z; t_edi : Z; t_es : Z;
  t_cs : Z; t_ss : Z; t_ds : Z; t_fs : Z; t_gs : Z; t_ldt : Z; t_trap : Z; t_iomap_base : Z; t_io_bitmap : list Z
}.

(** [Tss::initial] *)
Definition tss_initial : tss :=
  Tss 0 0 0 0 0 0 0 0 0 0 0 0 0 0 0 0 0 0 0 0 0 0 0 0 0 0 0 (replicate (Z.to_nat IO_BITMAP_BYTES) 0xFF).

(** Its bytes: [repr(C, packed)]. *)
Definition tss_header (t : tss) : list Z :=
  concat (map u32_to_le [t_prev_task t; t_esp0 t; t_ss0 t; t_esp1 t; t_ss1 t; t_esp2 t; t_ss2 t; t_cr3 t; t_eip t;
    t_eflags t; t_eax t; t_ecx t; t_edx t; t_ebx t; t_esp t; t_ebp t; t_esi t; t_edi t; t_es t;
    t_cs t; t_ss t; t_ds t; t_fs t; t_gs t; t_ldt t]) ++ u16_to_le (t_trap t) ++ u16_to_le (t_iomap_base t).

Definition tss_bytes (t : tss) : list Z := tss_header t ++ t_io_bitmap t.

(** [size_of::<Tss>()] and [offset_of!(Tss, io_bitmap)] *)
Definition TSS_SIZE : Z := 104 + IO_BITMAP_BYTES.
Definition IO_BITMAP_OFFSET : Z := 104.

(** The statics [TSS] and [DIRTY_BITMAP_BYTES]. *)
Record tss_state := TssState { the_tss : tss; dirty_bytes : Z }.

Definition with_stack (esp0 ss0 iomap : Z) (t : tss) : tss :=
  Tss (t_prev_task t) esp0 ss0 (t_esp1 t) (t_ss1 t) (t_esp2 t) (t_ss2 t) (t_cr3 t) (t_eip t)
    (t_eflags t) (t_eax t) (t_ecx t) (t_edx t) (t_ebx t) (t_esp t) (t_ebp t) (t_esi t) (t_edi t) (t_es t)
    (t_cs t) (t_ss t) (t_ds t) (t_fs t) (t_gs t) (t_ldt t) (t_trap t) iomap (t_io_bitmap t).

Definition with_bitmap (b : list Z) (t : tss) : tss :=
  Tss (t_prev_task t) (t_esp0 t) (t_ss0 t) (t_esp1 t) (t_ss1 t) (t_esp2 t) (t_ss2 t) (t_cr3 t) (t_eip t)
    (t_eflags t) (t_eax t) (t_ecx t) (t_edx t) (t_ebx t) (t_esp t) (t_ebp t) (t_esi t) (t_edi t) (t_es t)
    (t_cs t) (t_ss t) (t_ds t) (t_fs t) (t_gs t) (t_ldt t) (t_trap t) (t_iomap_base t) b.

(** [gdt::init], with the addresses of [TSS] and of [stack_top]: the table and the segment. *)
Definition gdt_init (tss_base stack_top : Z) : list Gdt.gdt_entry * tss_state :=
  (Gdt.GDT tss_base (TSS_SIZE - 1), TssState (with_stack stack_top DATA_SEG IO_BITMAP_OFFSET tss_initial) 0).

Definition set_kernel_stack (esp0 : Z) (s : tss_state) : tss_state :=
  TssState (with_stack esp0 (t_ss0 (the_tss s)) (t_iomap_base (the_tss s)) (the_tss s)) (dirty_bytes s).

(** [set_io_permissions] on the segment. *)
Definition tss_set_io (ports : list Z) (s : tss_state) : tss_state :=
  let io := set_io_permissions (IoPerm (t_io_bitmap (the_tss s)) (dirty_bytes s)) ports in
  TssState (with_bitmap (io_bitmap io) (the_tss s)) (dirty_bitmap_bytes io).

(** The two calls of the scheduler's [activate]. *)
Definition tss_activate (s : tss_state) (task : Z * list Z) : tss_state :=
  tss_set_io task.2 (set_kernel_stack task.1 s).

(** What the processor reads in a segment of [limit + 1] bytes: the stack it switches to on
    entry from ring 3, and whether ring 3 may use a port; it reads the byte of the port's
    bit and the next, both of which have to lie in the segment. *)
Definition cpu_word (b : list Z) (o : Z) : Z :=
  u32_from_le (byte_at b o) (byte_at b (o + 1)) (byte_at b (o + 2)) (byte_at b (o + 3)).

Definition cpu_port_allowed (b : list Z) (limit port : Z) : bool :=
  let i := u16_from_le (byte_at b 102) (byte_at b 103) + port / 8 in
  (i + 1 <=? limit) && negb (Z.testbit (byte_at b i) (port mod 8)).

(** The fields the processor uses are set, and the bitmap is well formed. *)
Definition tss_ok (s : tss_state) : Prop :=
  t_ss0 (the_tss s) = DATA_SEG /\ t_iomap_base (the_tss s) = IO_BITMAP_OFFSET /\
  io_perm_wf (IoPerm (t_io_bitmap (the_tss s)) (dirty_bytes s)).

Lemma gdt_init_ok base top : tss_ok (gdt_init base top).2.
Proof. split_and!; [done|done|]. exact io_perm_initial_wf. Qed.

Lemma tss_activate_ok s esp0 ports : Forall is_u16 ports -> tss_ok s -> tss_ok (tss_activate s (esp0, ports)).
Proof.
  intros U (S & I & W). split_and!; [done|done|]. pose proof (set_io_permissions_wf _ ports W U) as W'.
  unfold tss_activate, tss_set_io. cbn [the_tss dirty_bytes t_io_bitmap with_bitmap fst snd]. cbn [the_tss with_stack t_io_bitmap set_kernel_stack dirty_bytes].
  by destruct (set_io_permissions _ _).
Qed.

Lemma zlen_tss_header t : zlen (tss_header t) = 104.
Proof. reflexivity. Qed.

Lemma tss_history_ok history s : Forall (fun a => Forall is_u16 a.2) history -> tss_ok s -> tss_ok (fold_left tss_activate history s).
Proof. intros H. revert s. induction H as [|[e ps] history U _ IH]; intros s O; cbn; [done|]. by apply IH, tss_activate_ok. Qed.

(** The words of the header, as the processor reads them. *)
Lemma tss_header_words t : is_u32 (t_esp0 t) -> is_u32 (t_ss0 t) -> is_u16 (t_iomap_base t) ->
  cpu_word (tss_bytes t) 4 = t_esp0 t /\ cpu_word (tss_bytes t) 8 = t_ss0 t /\
  u16_from_le (byte_at (tss_bytes t) 102) (byte_at (tss_bytes t) 103) = t_iomap_base t.
Proof.
  intros E S I. split_and!.
  - exact (u32_le_roundtrip (t_esp0 t) E).
  - exact (u32_le_roundtrip (t_ss0 t) S).
  - change (u16_from_le (t_iomap_base t mod 256) (t_iomap_base t / 256 mod 256) = t_iomap_base t).
    unfold u16_from_le, is_u16 in *. dlia.
Qed.

Lemma tss_port_allowed s p : tss_ok s -> is_u16 p ->
  cpu_port_allowed (tss_bytes (the_tss s)) (TSS_SIZE - 1) p = port_allowed (IoPerm (t_io_bitmap (the_tss s)) (dirty_bytes s)) p.
Proof.
  intros (_ & I & [L _]) Hp. unfold cpu_port_allowed, port_allowed. cbn [io_bitmap] in *.
  assert (Hb : u16_from_le (byte_at (tss_bytes (the_tss s)) 102) (byte_at (tss_bytes (the_tss s)) 103) = 104).
  { change (u16_from_le (t_iomap_base (the_tss s) mod 256) (t_iomap_base (the_tss s) / 256 mod 256) = 104). by rewrite I. }
  rewrite Hb. unfold is_u16, TSS_SIZE, IO_BITMAP_BYTES in *. assert (0 <= p / 8 < 8192) by dlia.
  rewrite (proj2 (Z.leb_le _ _)) by lia. cbn [andb]. do 2 f_equal. unfold tss_bytes.
  rewrite byte_at_app, zlen_tss_header by lia. rewrite decide_False by lia. f_equal. lia.
Qed.

(** C30: the processor sees the segment as the kernel means it.  After [gdt::init] and any
    task switches, whatever their stacks and ports, the last descriptor of the table gives
    the segment's address and exactly its size; on an entry from ring 3 the processor
    finds in it the kernel's data segment and the stack of the task that runs; and it lets
    ring 3 use a port exactly when the port is one of that task's, the bitmap lying inside
    the segment to its last port. *)
Theorem segment_read_back tss_base stack_top history esp0 ports p :
  is_u32 tss_base -> is_u32 esp0 -> Forall (fun a => Forall is_u16 a.2) history -> Forall is_u16 ports -> is_u16 p ->
  let '(gdt, s0) := gdt_init tss_base stack_top in
  let s := tss_activate (fold_left tss_activate history s0) (esp0, ports) in
  exists d, gdt !! 5%nat = Some d /\ Gdt.entry_base d = tss_base /\
    zlen (tss_bytes (the_tss s)) = Gdt.entry_limit d + 1 /\
    cpu_word (tss_bytes (the_tss s)) 4 = esp0 /\ cpu_word (tss_bytes (the_tss s)) 8 = DATA_SEG /\
    cpu_port_allowed (tss_bytes (the_tss s)) (Gdt.entry_limit d) p = bool_decide (p ∈ ports).
Proof.
  intros Hb He Hh Hu Hp. pose proof (gdt_init_ok tss_base stack_top) as O0. destruct (gdt_init tss_base stack_top) as [gdt s0] eqn:E0.
  cbn [snd] in O0. injection E0 as <- E0. clear E0. pose proof (tss_history_ok history s0 Hh O0) as O1.
  pose proof (tss_activate_ok _ esp0 ports Hu O1) as O2. set (s1 := fold_left tss_activate history s0) in *.
  set (s := tss_activate s1 (esp0, ports)) in *. pose proof O2 as (S2 & I2 & L2 & _). cbn [io_bitmap] in L2.
  eexists. split; [reflexivity|]. destruct (gdt_entry_roundtrip tss_base (TSS_SIZE - 1) Gdt.ACCESS_TSS 0) as (-> & -> & _);
    [done|unfold TSS_SIZE, IO_BITMAP_BYTES; lia|by unfold is_u8|].
  destruct (tss_header_words (the_tss s)) as (-> & -> & _); [exact He|by rewrite S2|by rewrite I2|].
  split_and!; [done| |done|done|].
  - unfold tss_bytes. rewrite zlen_app, zlen_tss_header, L2. unfold TSS_SIZE. lia.
  - rewrite (tss_port_allowed s p O2 Hp).
    change (port_allowed (set_io_permissions (IoPerm (t_io_bitmap (the_tss s1)) (dirty_bytes s1)) ports) p = bool_decide (p ∈ ports)).
    apply set_io_permissions_allowed; [apply O1|done|done].
Qed.

(** ** Witnesses *)

Definition ex_addr (h : handler) : Z :=
  match h with IrqStub irq => 0xC0101000 + Z.land irq 15 * 16 | SyscallIsr => 0xC0102000 | _ => 0xC0100000 end.

Lemma ex_addr_u32 h : is_u32 (ex_addr h).
Proof. destruct h; unfold is_u32, ex_addr; try lia. pose proof (land_range irq 15). lia. Qed.

Lemma user_traps_outcome_witness :
  current (sch ex_kernel) = Some 1 /\ lands ex_addr (raise 3 (idt_init ex_addr IDT) true 0x80) SyscallIsr.
Proof.
  split; [reflexivity|].
  apply (user_traps_outcome ex_addr Ok 0 0x400000 0x202 ex_kernel 1); [exact ex_addr_u32|reflexivity].
Defined.

Lemma lines_routed_witness :
  runs pic_setup board0 (fun _ w' => lands ex_addr (raise 3 (idt_init ex_addr IDT) false (line_vector 11 w')) (IrqStub 11)).
Proof. apply (lines_routed ex_addr board0 11); [exact ex_addr_u32|lia]. Defined.

Lemma segment_read_back_witness :
  exists d, (gdt_init 0xC0200000 0xC0210000).1 !! 5%nat = Some d /\
    cpu_port_allowed (tss_bytes (the_tss (tss_activate (tss_activate (gdt_init 0xC0200000 0xC0210000).2 (0xC0300000, [0xC010])) (0xC0301000, [0x60]))))
      (Gdt.entry_limit d) 0xC010 = false.
Proof.
  destruct (segment_read_back 0xC0200000 0xC0210000 [(0xC0300000, [0xC010])] 0xC0301000 [0x60] 0xC010) as (d & E & _ & _ & _ & _ & P);
    [unfold is_u32; lia|unfold is_u32; lia|repeat constructor; lia|repeat constructor; lia|unfold is_u16; lia|].
  exists d. split; [exact E|exact P].
Defined.
