(* ===== verification/Lock.v ===== *)
(** * The kernel's locks (kernel/src/sync.rs)

    A [Mutex] is a spinlock that keeps interrupts off while it is held. On the one
    processor the only other flow is an interrupt handler, so the model is a machine with a
    stack of flows: the interrupted one below, its handler above. Each flow executes the
    instructions of [Mutex::lock] and of the guard's [drop] one by one, and an interrupt
    may come between any two of them while the interrupt flag is set. The flows' code is
    what Rust's scopes allow: guards are dropped in the reverse order of their creation,
    and a flow does not lock a mutex whose guard it still holds. *)

From stdpp Require Import base list numbers sets.
From Stdlib Require Import Lia.
From S2P Require Import Prelude.
Open Scope Z_scope.

(** ** Code *)

(** The steps of [lock] ([interrupts_enabled], [cli], one [swap] of the spin loop), of
    [drop] (the store and the conditional [sti]) and of a use of the guarded data. *)
Inductive instr :=
| ReadFlags
| Cli
| Swap (m : Z)
| Deref (m : Z)
| Store
| Restore.

(** Code as its scopes nest. *)
Inductive code :=
| Skip
| Then (c1 c2 : code)
| Use (m : Z)
| With (m : Z) (body : code).

(** [Mutex::lock] *)
Definition lock (m : Z) : list instr := [ReadFlags; Cli; Swap m].

(** [MutexGuard::drop] *)
Definition drop_guard : list instr := [Store; Restore].

Fixpoint compile (c : code) : list instr :=
  match c with
  | Skip => []
  | Then c1 c2 => compile c1 ++ compile c2
  | Use m => [Deref m]
  | With m body => lock m ++ compile body ++ drop_guard
  end.

(** Data is used through a live guard only, and no mutex is locked again under its guard. *)
Fixpoint scoped (held : list Z) (c : code) : Prop :=
  match c with
  | Skip => True
  | Then c1 c2 => scoped held c1 /\ scoped held c2
  | Use m => m ∈ held
  | With m body => (m ∉ held) /\ scoped (m :: held) body
  end.

(** ** The machine *)

(** [struct MutexGuard] *)
Record guard := Guard { mutex : Z; restore_interrupts : bool }.

(** A flow: what is left of its code, its guards, the last first, the flag [lock] has read,
    and whether the store of its last guard's [drop] is done. *)
Record flow := Flow { pc : list instr; guards : list guard; were_enabled : bool; stored : bool }.

(** The flows, the running one first, the [locked] fields and the interrupt flag. A flow
    is interrupted only while the flag is set, so that is what [iret] restores. *)
Record machine := Machine { flows : list flow; locked : Z -> bool; iflag : bool }.

Definition set_locked (m : Z) (b : bool) (l : Z -> bool) : Z -> bool := fun i => if i =? m then b else l i.

(** A step of the running flow, with the [locked] fields and the interrupt flag. *)
Inductive flow_step : flow -> (Z -> bool) -> bool -> flow -> (Z -> bool) -> bool -> Prop :=
| step_read k g w st l i : flow_step (Flow (ReadFlags :: k) g w st) l i (Flow k g i st) l i
| step_cli k g w st l i : flow_step (Flow (Cli :: k) g w st) l i (Flow k g w st) l false
| step_spin m k g w st l i : l m = true ->
    flow_step (Flow (Swap m :: k) g w st) l i (Flow (Swap m :: k) g w st) (set_locked m true l) i
| step_acquire m k g w st l i : l m = false ->
    flow_step (Flow (Swap m :: k) g w st) l i (Flow k (Guard m w :: g) w st) (set_locked m true l) i
| step_deref m k g w st l i : flow_step (Flow (Deref m :: k) g w st) l i (Flow k g w st) l i
| step_store k x g w st l i :
    flow_step (Flow (Store :: k) (x :: g) w st) l i (Flow k (x :: g) w true) (set_locked (mutex x) false l) i
| step_restore k x g w st l i :
    flow_step (Flow (Restore :: k) (x :: g) w st) l i (Flow k g w false) l (if restore_interrupts x then true else i).

Section machine.
(** The code of the interrupt handlers. *)
Context (handler : code -> Prop).

Inductive step : machine -> machine -> Prop :=
| step_run f fs l i f' l' i' : flow_step f l i f' l' i' -> step (Machine (f :: fs) l i) (Machine (f' :: fs) l' i')
| step_irq h f fs l : handler h ->
    step (Machine (f :: fs) l true) (Machine (Flow (compile h) [] false false :: f :: fs) l false)
| step_iret g w st f fs l i :
    step (Machine (Flow [] g w st :: f :: fs) l i) (Machine (f :: fs) l true).

(** The kernel's main flow runs [c] from an interrupt flag [i], all mutexes free. *)
Definition boot (c : code) (i : bool) : machine := Machine [Flow (compile c) [] false false] (fun _ => false) i.

(** ** The invariant *)

(** What is left of a flow's code fits the guards it holds. *)
Inductive code_ok : list Z -> list instr -> Prop :=
| co_end : code_ok [] []
| co_lock m h k : m ∉ h -> code_ok (m :: h) k -> code_ok h (ReadFlags :: Cli :: Swap m :: k)
| co_deref m h k : m ∈ h -> code_ok h k -> code_ok h (Deref m :: k)
| co_drop m h k : code_ok h k -> code_ok (m :: h) (Store :: Restore :: k).

(** The interrupt flag of a flow that started with flag [e] and has these guards. *)
Definition base (e : bool) (g : list guard) : bool := match g with [] => e | _ => false end.

(** The first guard restores the flag the flow started with, the others none. *)
Fixpoint restores (e : bool) (g : list guard) : Prop :=
  match g with [] => True | x :: g' => restore_interrupts x = base e g' /\ restores e g' end.

Definition live (e : bool) (g : list guard) : Prop := NoDup (map mutex g) /\ restores e g.

Inductive flow_ok (e : bool) : flow -> bool -> Prop :=
| fl_at k g w : live e g -> code_ok (map mutex g) k -> flow_ok e (Flow k g w false) (base e g)
| fl_cli m k g : live e g -> m ∉ map mutex g -> code_ok (m :: map mutex g) k ->
    flow_ok e (Flow (Cli :: Swap m :: k) g (base e g) false) (base e g)
| fl_swap m k g : live e g -> m ∉ map mutex g -> code_ok (m :: map mutex g) k ->
    flow_ok e (Flow (Swap m :: k) g (base e g) false) false
| fl_drop k x g w : live e (x :: g) -> code_ok (map mutex g) k -> flow_ok e (Flow (Restore :: k) (x :: g) w true) false.

(** The mutexes a flow keeps locked. *)
Definition holds (f : flow) : list Z := map mutex (if stored f then tail (guards f) else guards f).

(** One flow, or a handler over a flow that was interrupted with the flag set; exactly the
    mutexes of the running flow are locked. *)
Definition inv (e : bool) (s : machine) : Prop :=
  match flows s with
  | [f] => flow_ok e f (iflag s) /\ forall m, locked s m = bool_decide (m ∈ holds f)
  | [h; f] => flow_ok false h (iflag s) /\ flow_ok e f true /\ forall m, locked s m = bool_decide (m ∈ holds h)
  | _ => False
  end.

Lemma compile_ok c h k : scoped h c -> code_ok h k -> code_ok h (compile c ++ k).
Proof.
  revert h k. induction c as [|c1 IH1 c2 IH2|m|m c IH]; intros h k S K; cbn in *.
  - done.
  - rewrite <- app_assoc. apply IH1; [apply S|]. apply IH2; [apply S|done].
  - by constructor.
  - constructor; [apply S|]. rewrite <- app_assoc. apply IH; [apply S|]. by constructor.
Qed.

Lemma flow_start_ok e c : scoped [] c -> flow_ok e (Flow (compile c) [] false false) e.
Proof.
  intros S. apply (fl_at e (compile c) [] false); [by split; [constructor|]|].
  rewrite <- (app_nil_r (compile c)). apply compile_ok; [done|constructor].
Qed.

(** A flow interrupted with the flag set holds nothing. *)
Lemma flow_ok_on e f : flow_ok e f true -> e = true /\ guards f = [] /\ stored f = false.
Proof. inversion 1 as [k [|x g] w L K E|m k [|x g] L N K E| |]; subst; done. Qed.

Lemma flow_ok_on_holds e f : flow_ok e f true -> holds f = [].
Proof. intros (_ & G & S)%flow_ok_on. unfold holds. by rewrite S, G. Qed.

(** A flow at its end holds nothing, and has its first flag again. *)
Lemma flow_ok_end e g w st i : flow_ok e (Flow [] g w st) i -> i = e /\ g = [] /\ st = false.
Proof. inversion 1 as [? ? ? Lv K| | |]; subst. inversion K as [E| | |]. by destruct g. Qed.

(** ** Preservation *)

Lemma set_locked_holds l (h h' : list Z) m b :
  (forall i, l i = bool_decide (i ∈ h)) -> (forall i, i ∈ h' <-> if i =? m then b = true else i ∈ h) ->
  forall i, set_locked m b l i = bool_decide (i ∈ h').
Proof.
  intros L E i. unfold set_locked. specialize (E i). destruct (i =? m).
  - destruct b; symmetry; [by apply bool_decide_true, E|apply bool_decide_false; by rewrite E].
  - rewrite L. by apply bool_decide_ext.
Qed.

Lemma flow_step_ok e f l i f' l' i' :
  flow_ok e f i -> (forall m, l m = bool_decide (m ∈ holds f)) -> flow_step f l i f' l' i' ->
  flow_ok e f' i' /\ forall m, l' m = bool_decide (m ∈ holds f').
Proof.
  intros O L St. destruct St.
  - inversion O as [? ? ? Lv K| | |]; subst. inversion K; subst. by split; [constructor|].
  - inversion O as [? ? ? Lv K| ? ? ? Lv N K| |]; subst; [inversion K|]. by split; [constructor|].
  - inversion O as [? ? ? Lv K| | ? ? ? Lv N K|]; subst; [inversion K|]. rewrite L in H. by case_bool_decide.
  - inversion O as [? ? ? Lv K| | ? ? ? Lv N K|]; subst; [inversion K|]. destruct Lv as [D R]. split.
    + apply (fl_at e k (Guard m (base e g) :: g)); [|done]. split; [by constructor|done].
    + eapply set_locked_holds; [exact L|]. intros j. cbn. destruct (Z.eqb_spec j m); rewrite elem_of_cons; naive_solver.
  - inversion O as [? ? ? Lv K| | |]; subst. inversion K; subst. by split; [constructor|].
  - inversion O as [? ? ? Lv K| | |]; subst. inversion K; subst. split; [by constructor|].
    destruct Lv as [D _]. apply NoDup_cons in D as [N _].
    apply (set_locked_holds l (mutex x :: map mutex g)); [exact L|]. intros j. cbn.
    destruct (Z.eqb_spec j (mutex x)); rewrite ?elem_of_cons; naive_solver.
  - inversion O as [? ? ? Lv K| | |? ? ? ? Lv K]; subst; [inversion K|]. destruct Lv as [D [R Rs]]. cbn in R.
    apply NoDup_cons in D as [_ D]. split; [|done].
    replace (if restore_interrupts x then true else false) with (base e g) by (rewrite R; by destruct (base e g)).
    by constructor.
Qed.

Hypothesis handlers_scoped : forall h, handler h -> scoped [] h.

Lemma step_inv e s s' : inv e s -> step s s' -> inv e s'.
Proof.
  intros I St. destruct St as [f fs l i f' l' i' F|h f fs l H|g w st f fs l i]; unfold inv in *; cbn in *.
  - destruct fs as [|f2 [|]]; [|destruct I as (O & O2 & L)|done].
    + destruct I as [O L]. by eapply flow_step_ok.
    + destruct (flow_step_ok _ _ _ _ _ _ _ O L F). done.
  - destruct fs as [|f2 fs]; [|destruct fs; [destruct I as (O & _); by apply flow_ok_on in O as []|done]].
    destruct I as [O L]. split_and!; [by apply flow_start_ok, handlers_scoped|done|].
    intros m. by rewrite L, (flow_ok_on_holds _ _ O).
  - destruct fs as [|]; [|done]. destruct I as (O & O2 & L). split; [done|]. intros m. rewrite L.
    rewrite (flow_ok_on_holds _ _ O2). by apply flow_ok_end in O as (_ & -> & ->).
Qed.

Lemma reachable_inv c e s : scoped [] c -> steps step (boot c e) s -> inv e s.
Proof.
  intros S R. eapply steps_preserved; [|exact R|].
  - intros s1 s2 I St. by eapply step_inv.
  - split; [by apply flow_start_ok|done].
Qed.

(** ** Progress *)

(** The instructions left. *)
Definition left_to_do (s : machine) : nat := sum_list (map (fun f => Datatypes.S (List.length (pc f))) (flows s)).

(** The running flow has a step that leaves less to do, unless it is at its end. *)
Lemma flow_progress e f l i :
  flow_ok e f i -> (forall m, l m = bool_decide (m ∈ holds f)) -> pc f <> [] ->
  exists f' l' i', flow_step f l i f' l' i' /\ (List.length (pc f') < List.length (pc f))%nat.
Proof.
  intros O L N. destruct O as [k g w Lv K|m k g Lv M K|m k g Lv M K|k x g w Lv K]; cbn [pc] in *.
  - inversion K as [E1 E2|m h k' M K' E1 E2|m h k' M K' E1 E2|m h k' K' E1 E2]; subst.
    + done.
    + do 3 eexists. split; [constructor|cbn; lia].
    + do 3 eexists. split; [constructor|cbn; lia].
    + destruct g as [|x g]; [done|]. do 3 eexists. split; [constructor|cbn; lia].
  - do 3 eexists. split; [constructor|cbn; lia].
  - do 3 eexists. split; [apply step_acquire; rewrite L; by apply bool_decide_false|cbn; lia].
  - do 3 eexists. split; [constructor|cbn; lia].
Qed.

(** The running flow, in a state that satisfies the invariant. *)
Lemma inv_running e s f fs : inv e s -> flows s = f :: fs ->
  exists e', flow_ok e' f (iflag s) /\ (forall m, locked s m = bool_decide (m ∈ holds f)) /\
    Forall (fun f' => guards f' = []) fs /\ (fs = [] -> e' = e).
Proof.
  intros I E. unfold inv in I. rewrite E in I. destruct fs as [|f2 [|]]; [|destruct I as (O & O2 & L)|done].
  - destruct I. by exists e.
  - exists false. split_and!; [done|done| |done]. apply flow_ok_on in O2 as (_ & G & _). by apply Forall_singleton.
Qed.

Lemma inv_progress e s : inv e s -> (forall g w st, flows s <> [Flow [] g w st]) ->
  exists s', step s s' /\ (left_to_do s' < left_to_do s)%nat.
Proof.
  intros I N. destruct s as [[|f fs] l i]; [done|]. destruct (inv_running e _ f fs I eq_refl) as (e' & O & L & _ & _). cbn in *.
  destruct (decide (pc f = [])) as [E|E].
  - destruct f as [k g w st]. cbn in E. subst k. destruct fs as [|f2 fs]; [by destruct (N g w st)|].
    eexists. split; [apply step_iret|]. unfold left_to_do. cbn. lia.
  - destruct (flow_progress _ _ _ _ O L E) as (f' & l' & i' & St & D).
    eexists. split; [by apply step_run|]. unfold left_to_do. cbn. lia.
Qed.
End machine.

(** C12: the kernel's locks cannot deadlock with its interrupt handlers.  Let the main flow and
    the handlers be any code that drops guards in scope order, does not lock a mutex again under its
    own guard, and uses data under its guard; let interrupts come between any two instructions, also inside
    [lock] and [drop], whenever the flag is set.  Then in every state the machine
    reaches: a flow that gets to the [swap] finds the mutex free, so no flow ever spins; while
    interrupts are on, no mutex is locked; the running flow uses data only while it alone
    has its guard; when the main flow has finished, the interrupt flag is what it was and
    all mutexes are free; and until then a step is possible that leaves less to do. *)
Theorem locks_never_deadlock handler c e s :
  (forall h, handler h -> scoped [] h) -> scoped [] c -> steps (step handler) (boot c e) s ->
  (forall m k g w st fs, flows s = Flow (Swap m :: k) g w st :: fs -> locked s m = false) /\
  (iflag s = true -> forall m, locked s m = false) /\
  (forall m k g w st fs, flows s = Flow (Deref m :: k) g w st :: fs ->
     locked s m = true /\ m ∈ map mutex g /\ Forall (fun f => m ∉ map mutex (guards f)) fs) /\
  (forall g w st, flows s = [Flow [] g w st] -> iflag s = e /\ forall m, locked s m = false) /\
  ((forall g w st, flows s <> [Flow [] g w st]) -> exists s', step handler s s' /\ (left_to_do s' < left_to_do s)%nat).
Proof.
  intros H S R. pose proof (reachable_inv handler H c e s S R) as I. split_and!.
  - intros m k g w st fs E. destruct (inv_running _ _ _ _ I E) as (e' & O & L & _). rewrite L. apply bool_decide_false.
    inversion O as [? ? ? Lv K| |? ? ? Lv M K|]; subst; [inversion K|done].
  - intros On m. destruct (flows s) as [|f fs] eqn:E; [unfold inv in I; by rewrite E in I|].
    destruct (inv_running _ _ _ _ I E) as (e' & O & L & _). rewrite On in O. by rewrite L, (flow_ok_on_holds _ _ O).
  - intros m k g w st fs E. destruct (inv_running _ _ _ _ I E) as (e' & O & L & F & _).
    inversion O as [? ? ? Lv K| | |]; subst. inversion K; subst. split_and!; [|done|].
    + rewrite L. by apply bool_decide_true.
    + eapply Forall_impl; [exact F|]. intros f ->. apply not_elem_of_nil.
  - intros g w st E. destruct (inv_running _ _ _ _ I E) as (e' & O & L & _ & Ee). rewrite (Ee eq_refl) in O.
    apply flow_ok_end in O as (-> & -> & ->). split; [done|]. intros m. by rewrite L.
  - by apply (inv_progress handler e).
Qed.

(** [ipc::task_exited] interrupted by [ipc::notify_interrupt]: the queues are mutexes 1 to
    3, the endpoints 0, the scheduler 4. *)
Definition ex_task_exited : code :=
  Then (With 0 (Use 0)) (Then (With 1 (Then (Use 1) (With 4 (Use 4))))
    (Then (With 2 (Then (Use 2) (With 4 (Use 4)))) (With 3 (Use 3)))).

Definition ex_notify : code := Then (With 1 (Use 1)) (Then (With 0 (Use 0)) (With 4 (Use 4))).

Lemma locks_never_deadlock_witness :
  exists s', step (eq ex_notify) (boot ex_task_exited true) s' /\ (left_to_do s' < left_to_do (boot ex_task_exited true))%nat.
Proof.
  apply (locks_never_deadlock (eq ex_notify) ex_task_exited true (boot ex_task_exited true)).
  - intros h <-. cbn. set_solver.
  - cbn. set_solver.
  - apply steps_refl.
  - discriminate.
Defined.
