(* ===== verification/Block.v ===== *)
(** * What a block device promises

    The file system reads and writes sectors through the storage service.  [BlockDevice]
    is the interface between the two: the service (Storage.v) provides an instance, the
    file system (Fat32.v) is verified against the laws. *)

From stdpp Require Import base list numbers.
From Stdlib Require Import Lia.
From S2P Require Import Prelude.
Open Scope Z_scope.

Definition SECTOR_SIZE : Z := 512.

(** [STORAGE_OP_READ_BLOCK] and [STORAGE_OP_WRITE_BLOCK] with the shared page: the answer,
    the page after it, and the device after it.  [sector] is what the device holds. *)
Class BlockDevice (D : Type) := {
  read_block : Z -> list Z -> D -> bool * list Z * D;
  write_block : Z -> list Z -> D -> bool * D;
  sector : D -> Z -> list Z;
  (* sectors [0 .. capacity - 1] can be addressed *)
  capacity : Z;
  (* the device has no fault at this sector *)
  sound : D -> Z -> Prop;
  (* states between requests *)
  idle : D -> Prop
}.

(** A page that a sector fits in. *)
Definition is_sector (b : list Z) : Prop := zlen b = SECTOR_SIZE /\ Forall is_u8 b.

Class BlockLaws D `{BlockDevice D} := {
  sector_bytes d lba : idle d -> is_sector (sector d lba);
  read_block_law lba page d : idle d -> is_sector page -> 0 <= lba < capacity ->
    let '(ok, page', d') := read_block lba page d in
    idle d' /\ is_sector page' /\ (forall l, 0 <= l < capacity -> sector d' l = sector d l) /\
    (forall l, sound d l -> sound d' l) /\
    (ok = true -> page' = sector d lba) /\ (sound d lba -> ok = true);
  write_block_law lba page d : idle d -> is_sector page -> 0 <= lba < capacity ->
    let '(ok, d') := write_block lba page d in
    idle d' /\ (forall l, 0 <= l < capacity -> l <> lba -> sector d' l = sector d l) /\
    (forall l, sound d l -> sound d' l) /\
    (ok = true -> sector d' lba = page) /\ (sound d lba -> ok = true)
}.
