(* ===== verification/Ata.v ===== *)
(** * The ATA driver (userland/drivers/storage_ata/src/ata.rs)

    The driver's polling loops take the number of polls they may make; the drive is a
    parameter, [AtaLaws] says what the ATA PIO protocol promises of it, and the theorems
    show that enough polls let every transfer end. *)

From stdpp Require Import base list numbers.
From Stdlib Require Import Lia.
From S2P Require Import Prelude Pio Block.
Open Scope Z_scope.

Definition PORT_DATA : Z := 0x1F0.
Definition PORT_ERROR : Z := 0x1F1.
Definition PORT_SECTOR_COUNT : Z := 0x1F2.
Definition PORT_LBA_LOW : Z := 0x1F3.
Definition PORT_LBA_MID : Z := 0x1F4.
Definition PORT_LBA_HIGH : Z := 0x1F5.
Definition PORT_DRIVE_HEAD : Z := 0x1F6.
Definition PORT_STATUS : Z := 0x1F7.
Definition PORT_COMMAND : Z := 0x1F7.
Definition PORT_CONTROL : Z := 0x3F6.

Definition CMD_READ_SECTORS : Z := 0x20.
Definition CMD_WRITE_SECTORS : Z := 0x30.

Definition STATUS_ERR : Z := Z.shiftl 1 0.
Definition STATUS_DRQ : Z := Z.shiftl 1 3.
Definition STATUS_DF : Z := Z.shiftl 1 5.
Definition STATUS_BSY : Z := Z.shiftl 1 7.
Definition CONTROL_NIEN : Z := Z.shiftl 1 1.

Section driver.
Context {T : Type} `{PortIO T}.

Definition ata_init : io T unit := outb PORT_CONTROL CONTROL_NIEN.

Fixpoint wait_not_busy (polls : nat) : io T Z :=
  match polls with
  | O => fun _ => Loops
  | S n =>
      status ← inb PORT_STATUS;
      if Z.land status STATUS_BSY =? 0 then mret status else wait_not_busy n
  end.

Definition issue_command (polls : nat) (lba cmd : Z) : io T unit :=
  _ ← wait_not_busy polls;
  _ ← outb PORT_DRIVE_HEAD (wrap8 (Z.lor 0xE0 (wrap8 (Z.land (Z.shiftr lba 24) 0x0F))));
  _ ← outb PORT_SECTOR_COUNT 1;
  _ ← outb PORT_LBA_LOW (wrap8 (Z.land lba 0xFF));
  _ ← outb PORT_LBA_MID (wrap8 (Z.land (Z.shiftr lba 8) 0xFF));
  _ ← outb PORT_LBA_HIGH (wrap8 (Z.land (Z.shiftr lba 16) 0xFF));
  outb PORT_COMMAND cmd.

(** [for i in 0..(SECTOR_SIZE / 2)] of [read_sector]: [n] words from word [i] on. *)
Fixpoint read_words (n : nat) (i : Z) (buf : list Z) : io T (list Z) :=
  match n with
  | O => mret buf
  | S m =>
      word ← inw PORT_DATA;
      buf ← pure (bset buf (i * 2) (wrap8 (Z.land word 0xFF)));
      buf ← pure (bset buf (i * 2 + 1) (wrap8 (Z.shiftr word 8)));
      read_words m (i + 1) buf
  end.

Definition read_sector (polls : nat) (lba : Z) (buf : list Z) : io T (bool * list Z) :=
  _ ← issue_command polls lba CMD_READ_SECTORS;
  status ← wait_not_busy polls;
  if negb (Z.land status STATUS_ERR =? 0) || (Z.land status STATUS_DRQ =? 0) then
    _ ← inb PORT_ERROR; mret (false, buf)
  else
    buf ← read_words (Z.to_nat (SECTOR_SIZE / 2)) 0 buf;
    mret (true, buf).

(** The inner loop of [write_sector]: until not busy and ready for data. *)
Fixpoint wait_drq (polls : nat) : io T unit :=
  match polls with
  | O => fun _ => Loops
  | S n =>
      status ← inb PORT_STATUS;
      if (Z.land status STATUS_BSY =? 0) && negb (Z.land status STATUS_DRQ =? 0) then mret tt
      else wait_drq n
  end.

Fixpoint write_words (polls n : nat) (i : Z) (buf : list Z) : io T unit :=
  match n with
  | O => mret tt
  | S m =>
      _ ← wait_drq polls;
      lo ← pure (bget buf (i * 2));
      hi ← pure (bget buf (i * 2 + 1));
      _ ← outw PORT_DATA (Z.lor lo (wrap16 (Z.shiftl hi 8)));
      write_words polls m (i + 1) buf
  end.

Definition write_sector (polls : nat) (lba : Z) (buf : list Z) : io T bool :=
  _ ← issue_command polls lba CMD_WRITE_SECTORS;
  status ← wait_not_busy polls;
  if negb (Z.land status STATUS_ERR =? 0) || negb (Z.land status STATUS_DF =? 0) then
    _ ← inb PORT_ERROR; mret false
  else
    _ ← write_words polls (Z.to_nat (SECTOR_SIZE / 2)) 0 buf;
    status ← wait_not_busy polls;
    if negb (Z.land status STATUS_ERR =? 0) || negb (Z.land status STATUS_DF =? 0) then
      _ ← inb PORT_ERROR; mret false
    else mret true.
End driver.

(** ** The drive *)

(** Words of a sector, low byte first, and back. *)
Fixpoint words_of (b : list Z) : list Z :=
  match b with
  | lo :: hi :: b' => lo + 256 * hi :: words_of b'
  | _ => []
  end.

Definition bytes_of (ws : list Z) : list Z := concat (map (fun w => [w mod 256; w / 256]) ws).

Inductive ata_phase :=
| Idle
| DataIn (ws : list Z)
| DataOut (lba : Z) (ws : list Z)
| Aborted.

(** No transfer is under way.  A command that failed leaves ERR set until the next one. *)
Definition resting (ph : ata_phase) : Prop := ph = Idle \/ ph = Aborted.

(** A drive on the bus: what its sectors hold, where it is in the protocol, how many
    status reads it will still show BSY for, the values of its registers (by port), and
    the sectors it can transfer. *)
Class AtaDevice (T : Type) `{PortIO T} := {
  contents : T -> Z -> list Z;
  phase : T -> ata_phase;
  busy : T -> nat;
  taskfile : T -> Z -> Z;
  faultless : T -> Z -> Prop;
  max_busy : nat
}.

(** The registers a command takes the address from, in LBA mode. *)
Definition taskfile_lba (r : Z -> Z) : Z :=
  r PORT_LBA_LOW + 256 * (r PORT_LBA_MID + 256 * (r PORT_LBA_HIGH + 256 * (r PORT_DRIVE_HEAD mod 16))).

(** One sector, LBA addressing, drive 0. *)
Definition taskfile_ready (r : Z -> Z) : Prop := r PORT_SECTOR_COUNT = 1 /\ r PORT_DRIVE_HEAD / 16 = 0xE.

(** What a step of the protocol leaves alone. *)
Definition same_disk {T} `{AtaDevice T} (d d' : T) : Prop :=
  (forall l, contents d' l = contents d l) /\ (forall l, faultless d l -> faultless d' l).

(** Status bits (BSY clear) in each phase. *)
Definition status_ok (ph : ata_phase) (v : Z) : Prop :=
  match ph with
  | Idle => Z.testbit v 0 = false /\ Z.testbit v 5 = false
  | DataIn _ => Z.testbit v 0 = false /\ Z.testbit v 3 = true
  | DataOut _ _ => Z.testbit v 0 = false /\ Z.testbit v 5 = false /\ Z.testbit v 3 = true
  | Aborted => Z.testbit v 0 = true
  end.

Class AtaLaws (T : Type) `{AtaDevice T} := {
  contents_sector d l : is_sector (contents d l);
  busy_bound d : (busy d <= max_busy)%nat;
  status_busy d n : busy d = S n ->
    let (v, d') := in8 PORT_STATUS d in
    Z.testbit v 7 = true /\ busy d' = n /\ phase d' = phase d /\ same_disk d d' /\
    (forall p, taskfile d' p = taskfile d p);
  status_ready d : busy d = O ->
    let (v, d') := in8 PORT_STATUS d in
    Z.testbit v 7 = false /\ status_ok (phase d) v /\ busy d' = O /\ phase d' = phase d /\
    same_disk d d' /\ (forall p, taskfile d' p = taskfile d p);
  taskfile_write d p v : busy d = O -> resting (phase d) ->
    PORT_SECTOR_COUNT <= p <= PORT_DRIVE_HEAD -> is_u8 v ->
    let d' := out8 p v d in
    busy d' = O /\ phase d' = phase d /\ same_disk d d' /\
    (forall q, taskfile d' q = if q =? p then v else taskfile d q);
  command_read d : busy d = O -> resting (phase d) -> taskfile_ready (taskfile d) ->
    let d' := out8 PORT_COMMAND CMD_READ_SECTORS d in
    let lba := taskfile_lba (taskfile d) in
    same_disk d d' /\ (phase d' = DataIn (words_of (contents d lba)) \/ phase d' = Aborted) /\
    (faultless d lba -> phase d' <> Aborted);
  data_in d w ws : busy d = O -> phase d = DataIn (w :: ws) ->
    let (v, d') := in16 PORT_DATA d in
    v = w /\ same_disk d d' /\ phase d' = (match ws with [] => Idle | _ => DataIn ws end) /\
    (ws <> [] -> busy d' = O);
  command_write d : busy d = O -> resting (phase d) -> taskfile_ready (taskfile d) ->
    let d' := out8 PORT_COMMAND CMD_WRITE_SECTORS d in
    let lba := taskfile_lba (taskfile d) in
    same_disk d d' /\ (phase d' = DataOut lba [] \/ phase d' = Aborted) /\
    (faultless d lba -> phase d' <> Aborted);
  data_out d lba ws w : busy d = O -> phase d = DataOut lba ws -> Forall is_u16 (ws ++ [w]) ->
    (length ws < 256)%nat ->
    let d' := out16 PORT_DATA w d in
    (forall l, faultless d l -> faultless d' l) /\
    if (length ws <? 255)%nat then
      phase d' = DataOut lba (ws ++ [w]) /\ (forall l, contents d' l = contents d l)
    else
      (forall l, l <> lba -> contents d' l = contents d l) /\
      (phase d' = Idle /\ contents d' lba = bytes_of (ws ++ [w]) \/ phase d' = Aborted) /\
      (faultless d lba -> phase d' <> Aborted);
  error_read d : busy d = O -> phase d = Aborted ->
    let (_, d') := in8 PORT_ERROR d in phase d' = Aborted /\ same_disk d d'
}.

(** ** Lemmas *)

Lemma land_bit v k : 0 <= k -> (Z.land v (Z.shiftl 1 k) =? 0) = negb (Z.testbit v k).
Proof. intros Hk. rewrite <- (land_bit_testbit v k Hk). by rewrite negb_involutive. Qed.

Lemma bit_bsy v : (Z.land v STATUS_BSY =? 0) = negb (Z.testbit v 7).
Proof. by apply land_bit. Qed.
Lemma bit_drq v : (Z.land v STATUS_DRQ =? 0) = negb (Z.testbit v 3).
Proof. by apply land_bit. Qed.
Lemma bit_err v : (Z.land v STATUS_ERR =? 0) = negb (Z.testbit v 0).
Proof. by apply land_bit. Qed.
Lemma bit_df v : (Z.land v STATUS_DF =? 0) = negb (Z.testbit v 5).
Proof. by apply land_bit. Qed.

Lemma head_register lba :
  wrap8 (Z.lor 0xE0 (wrap8 (Z.land (Z.shiftr lba 24) 0x0F))) = 0xE0 + lba / 2 ^ 24 mod 16.
Proof.
  change 0x0F with (Z.ones 4). rewrite Z.land_ones, Z.shiftr_div_pow2 by lia. change (2 ^ 4) with 16.
  assert (B : 0 <= lba / 2 ^ 24 mod 16 < 16) by (apply Z.mod_pos_bound; lia).
  rewrite (wrap_small 8 (lba / 2 ^ 24 mod 16)) by lia. rewrite (lor_disjoint 0xE0 _ 4); [|lia|reflexivity|lia]. apply wrap_small. lia.
Qed.

Lemma address_register lba k : 0 <= k -> wrap8 (Z.land (Z.shiftr lba k) 0xFF) = lba / 2 ^ k mod 256.
Proof.
  intros Hk. change 0xFF with (Z.ones 8). rewrite Z.land_ones, Z.shiftr_div_pow2 by lia.
  unfold wrap. by rewrite Z.mod_mod.
Qed.

(** A step of two bytes. *)
Lemma list_pairs {A} (P : list A -> Prop) :
  P [] -> (forall x, P [x]) -> (forall x y l, P l -> P (x :: y :: l)) -> forall l, P l.
Proof.
  intros P0 P1 P2. assert (G : forall l, P l /\ forall x, P (x :: l)); [|intros l; apply G].
  induction l as [|x l [IH IH']]; [by split|]. split; [apply IH'|]. intros y. by apply P2.
Qed.

Lemma bytes_of_words b : Forall is_u8 b -> Z.even (zlen b) = true -> bytes_of (words_of b) = b.
Proof.
  induction b as [|x|x y b IH] using list_pairs; intros F E; [done|done|].
  inversion F as [|? ? Hx F1]; subst. inversion F1 as [|? ? Hy F2]; subst. unfold is_u8 in *. cbn.
  unfold bytes_of in IH. rewrite IH; [|done|].
  - f_equal; [dlia|]. f_equal. dlia.
  - rewrite !zlen_cons in E. by rewrite !Z.add_assoc, Z.even_add in E; destruct (Z.even (zlen b)).
Qed.

Lemma words_of_bytes ws : Forall is_u16 ws -> words_of (bytes_of ws) = ws.
Proof.
  induction 1 as [|w ws Hw F IH]; [done|]. cbn. unfold bytes_of in IH. rewrite IH. f_equal. unfold is_u16 in Hw. dlia.
Qed.

Lemma length_words_of b : Z.of_nat (length (words_of b)) = zlen b / 2.
Proof.
  induction b as [|x|x y b IH] using list_pairs; [done|done|]. cbn [words_of length]. rewrite !zlen_cons. dlia.
Qed.

Section laws.
Context {T : Type} {PT : PortIO T} {AD : AtaDevice T} {AL : AtaLaws T}.

Lemma same_disk_refl (d : T) : same_disk d d.
Proof. by split. Qed.

Lemma same_disk_trans (d d' d'' : T) : same_disk d d' -> same_disk d' d'' -> same_disk d d''.
Proof.
  intros [H1 H2] [H3 H4]. split; [|by auto]. intros l. by rewrite H3, H1.
Qed.

Lemma wait_not_busy_ok polls (d : T) :
  (max_busy < polls)%nat ->
  runs (wait_not_busy polls) d (fun v d' =>
    Z.testbit v 7 = false /\ status_ok (phase d) v /\ busy d' = O /\ phase d' = phase d /\ same_disk d d' /\
    (forall p, taskfile d' p = taskfile d p)).
Proof.
  intros Hp. pose proof (busy_bound d) as Hb. assert (Hn : (busy d < polls)%nat) by lia. clear Hp Hb.
  revert d Hn. induction polls as [|n IH]; intros d Hn; [lia|]. cbn [wait_not_busy].
  apply runs_bind. unfold runs at 1, inb. destruct (busy d) as [|b] eqn:Eb.
  - pose proof (status_ready d Eb) as L. destruct (in8 PORT_STATUS d) as [v d']. destruct L as (Hv & L).
    rewrite bit_bsy, Hv. cbn. by apply runs_ret.
  - pose proof (status_busy d b Eb) as L. destruct (in8 PORT_STATUS d) as [v d'].
    destruct L as (Hv & Hb & Hp & Hs & Ht). rewrite bit_bsy, Hv. cbn [negb].
    eapply runs_mono; [apply IH; lia|]. intros v' d'' (H1 & H2 & H3 & H4 & H5 & H6). rewrite Hp in *.
    split_and!; try done; [by eapply same_disk_trans|]. intros p. by rewrite H6.
Qed.

Lemma wait_drq_ok polls (d : T) lba ws :
  (max_busy < polls)%nat -> phase d = DataOut lba ws ->
  runs (wait_drq polls) d (fun _ d' => busy d' = O /\ phase d' = phase d /\ same_disk d d').
Proof.
  intros Hp Ph. pose proof (busy_bound d) as Hb. assert (Hn : (busy d < polls)%nat) by lia. clear Hp Hb.
  revert d Hn Ph. induction polls as [|n IH]; intros d Hn Ph; [lia|]. cbn [wait_drq].
  apply runs_bind. unfold runs at 1, inb. destruct (busy d) as [|b] eqn:Eb.
  - pose proof (status_ready d Eb) as L. destruct (in8 PORT_STATUS d) as [v d']. destruct L as (Hv & Hs & L).
    rewrite Ph in Hs. destruct Hs as (_ & _ & Hd).
    rewrite bit_bsy, bit_drq, Hv, Hd. cbn. apply runs_ret. naive_solver.
  - pose proof (status_busy d b Eb) as L. destruct (in8 PORT_STATUS d) as [v d'].
    destruct L as (Hv & Hb & Hp & Hs & Ht). rewrite bit_bsy, Hv. cbn [negb andb].
    eapply runs_mono; [apply IH; [lia|congruence]|]. intros v' d'' (H1 & H2 & H3).
    split_and!; [done|congruence|by eapply same_disk_trans].
Qed.

Lemma set_register {A} p v (d : T) (m : io T A) Q :
  busy d = O -> resting (phase d) -> PORT_SECTOR_COUNT <= p <= PORT_DRIVE_HEAD -> is_u8 v ->
  (forall d', busy d' = O -> resting (phase d') -> same_disk d d' ->
     (forall q, taskfile d' q = if q =? p then v else taskfile d q) -> runs m d' Q) ->
  runs (_ ← outb p v; m) d Q.
Proof.
  intros B P Hp Hv HQ. apply runs_bind, runs_modify.
  destruct (taskfile_write d p v B P Hp Hv) as (B1 & P1 & S1 & T1). apply HQ; [done|by rewrite P1|done|done].
Qed.

(** The taskfile a command is issued with. *)
Lemma issue_command_ok polls lba cmd (d : T) :
  (max_busy < polls)%nat -> resting (phase d) -> 0 <= lba ->
  runs (issue_command polls lba cmd) d (fun _ d' => exists d1, d' = out8 PORT_COMMAND cmd d1 /\
    busy d1 = O /\ resting (phase d1) /\ same_disk d d1 /\ taskfile_ready (taskfile d1) /\
    taskfile_lba (taskfile d1) = lba mod 2 ^ 28).
Proof.
  intros Hp Ph Hl. unfold issue_command. runs_step (wait_not_busy_ok polls d Hp).
  intros v d0 (_ & _ & B0 & P0 & S0 & _). rewrite <- P0 in Ph. clear v.
  pose proof (address_register lba 0 ltac:(lia)) as R0. rewrite Z.shiftr_0_r, Z.div_1_r in R0.
  rewrite R0, head_register, !address_register by lia.
  assert (Byte : forall z, is_u8 (z mod 256)) by (intros z; apply Z.mod_pos_bound; lia).
  apply set_register; [done|done|done|pose proof (Z.mod_pos_bound (lba / 2 ^ 24) 16); unfold is_u8; lia|].
  intros d1 B1 P1 S1 T1. apply set_register; [done..|]. intros d2 B2 P2 S2 T2.
  apply set_register; [done..|apply Byte|]. intros d3 B3 P3 S3 T3.
  apply set_register; [done..|apply Byte|]. intros d4 B4 P4 S4 T4.
  apply set_register; [done..|apply Byte|]. intros d5 B5 P5 S5 T5.
  apply runs_modify. exists d5. split_and!; try done.
  - repeat (eapply same_disk_trans; [eassumption|]). apply same_disk_refl.
  - unfold taskfile_ready. rewrite !T5, !T4, !T3, !T2, !T1. cbn. split; [done|].
    pose proof (Z.mod_pos_bound (lba / 2 ^ 24) 16). dlia.
  - unfold taskfile_lba. rewrite !T5, !T4, !T3, !T2, !T1. cbn. clear. dlia.
Qed.

Lemma word_bytes w : is_u16 w -> wrap8 (Z.land w 0xFF) = w mod 256 /\ wrap8 (Z.shiftr w 8) = w / 256.
Proof.
  unfold is_u16. intros Hw. change 0xFF with (Z.ones 8). rewrite Z.land_ones, Z.shiftr_div_pow2 by lia.
  change (2 ^ 8) with 256. split; apply wrap_small; [apply Z.mod_pos_bound; lia|dlia].
Qed.

Lemma read_words_ok ws i buf (d : T) :
  busy d = O \/ ws = [] -> phase d = (match ws with [] => Idle | _ => DataIn ws end) -> Forall is_u16 ws -> 0 <= i ->
  i * 2 + zlen (bytes_of ws) <= zlen buf ->
  runs (read_words (length ws) i buf) d (fun buf' d' =>
    phase d' = Idle /\ same_disk d d' /\ buf' = put buf (i * 2) (bytes_of ws)).
Proof.
  intros B P F. revert i buf d B P. induction F as [|w ws Hw F IH]; intros i buf d B P Hi Hl; cbn [length read_words].
  - apply runs_ret. split_and!; [done|apply same_disk_refl|]. unfold bytes_of. cbn. by rewrite put_nil.
  - destruct B as [B|]; [|done]. apply runs_bind. unfold runs at 1, inw. pose proof (data_in d w ws B P) as L.
    destruct (in16 PORT_DATA d) as [v d1]. destruct L as (-> & S1 & P1 & B1).
    destruct (word_bytes w Hw) as [-> ->]. change (bytes_of (w :: ws)) with ([w mod 256; w / 256] ++ bytes_of ws) in *.
    rewrite zlen_app in Hl. change (zlen [w mod 256; w / 256]) with 2 in Hl. pose proof (zlen_nonneg (bytes_of ws)).
    apply runs_bind, runs_pure. eexists. split; [apply bset_ok; lia|].
    assert (L1 : zlen (put buf (i * 2) [w mod 256]) = zlen buf)
      by (rewrite zlen_put; change (zlen [w mod 256]) with 1; lia).
    apply runs_bind, runs_pure. eexists. split; [apply bset_ok; lia|].
    change (i * 2 + 1) with (i * 2 + zlen [w mod 256]). rewrite put_put_after; [|lia|by change (zlen [_]) with 1; lia].
    eapply runs_mono; [apply IH; [destruct ws; [by right|left; by apply B1]|done|lia|]|].
    + rewrite zlen_put; change (zlen ([w mod 256] ++ [w / 256])) with 2; lia.
    + intros buf' d' (P' & S' & ->). split_and!; [done|by eapply same_disk_trans|].
      replace ((i + 1) * 2) with (i * 2 + zlen ([w mod 256] ++ [w / 256])) by (change (zlen (_ ++ _)) with 2; lia).
      rewrite put_put_after; [done|lia|]. change (zlen (_ ++ _)) with 2. lia.
Qed.

Lemma bytes_words_sector b : is_sector b -> bytes_of (words_of b) = b /\ length (words_of b) = 256%nat /\ Forall is_u16 (words_of b).
Proof.
  intros [L F]. split_and!.
  - apply bytes_of_words; [done|]. by rewrite L.
  - pose proof (length_words_of b) as E. rewrite L in E. change (SECTOR_SIZE / 2) with 256 in E. lia.
  - clear L. induction b as [|x|x y b IH] using list_pairs; [constructor..|].
    inversion F as [|? ? Hx F1]; subst. inversion F1 as [|? ? Hy F2]; subst. constructor; [|by apply IH].
    unfold is_u8, is_u16 in *. lia.
Qed.

Lemma put_all (b c : list Z) : zlen c = zlen b -> put b 0 c = c.
Proof.
  intros E. unfold put. rewrite E, Z.add_0_l. unfold zlen in *. rewrite Nat2Z.id, drop_all, app_nil_r. done.
Qed.

(** The drive after an aborted command. *)
Lemma error_read_ok {A} (a : A) (d : T) :
  busy d = O -> phase d = Aborted ->
  runs (_ ← inb PORT_ERROR; mret a) d (fun a' d' => a' = a /\ phase d' = Aborted /\ same_disk d d').
Proof.
  intros B P. apply runs_bind. unfold runs at 1, inb. pose proof (error_read d B P) as L.
  destruct (in8 PORT_ERROR d) as [v d']. apply runs_ret. by split.
Qed.

Lemma read_sector_ok polls lba buf (d : T) :
  (max_busy < polls)%nat -> resting (phase d) -> 0 <= lba -> is_sector buf ->
  runs (read_sector polls lba buf) d (fun '(ok, buf') d' =>
    resting (phase d') /\ same_disk d d' /\ is_sector buf' /\
    (ok = true -> buf' = contents d (lba mod 2 ^ 28)) /\ (faultless d (lba mod 2 ^ 28) -> ok = true)).
Proof.
  intros Hp Ph Hl Hb. unfold read_sector. runs_step (issue_command_ok polls lba CMD_READ_SECTORS d Hp Ph Hl).
  intros _ d0 (d1 & -> & B1 & P1 & S1 & R1 & L1). destruct (command_read d1 B1 P1 R1) as (S2 & P2 & F2).
  rewrite L1 in *. set (d2 := out8 PORT_COMMAND CMD_READ_SECTORS d1) in *.
  runs_step (wait_not_busy_ok polls d2 Hp). intros v d3 (_ & Hv & B3 & P3 & S3 & _).
  assert (S03 : same_disk d d3) by (eapply same_disk_trans; [exact S1|by eapply same_disk_trans]).
  assert (Cd : contents d1 (lba mod 2 ^ 28) = contents d (lba mod 2 ^ 28)) by apply S1.
  destruct P2 as [P2|P2]; rewrite P2 in *; cbn [status_ok] in Hv.
  - destruct Hv as [Hv0 Hv3]. rewrite bit_err, bit_drq, Hv0, Hv3. cbn [negb orb].
    destruct (bytes_words_sector _ (contents_sector d1 (lba mod 2 ^ 28))) as (E & Ln & Fw).
    change (Z.to_nat (SECTOR_SIZE / 2)) with 256%nat. rewrite <- Ln.
    runs_step (read_words_ok (words_of (contents d1 (lba mod 2 ^ 28))) 0 buf d3).
    + by left.
    + rewrite P3. by destruct (words_of _).
    + done.
    + lia.
    + rewrite E. destruct Hb as [-> _]. destruct (contents_sector d1 (lba mod 2 ^ 28)) as [-> _]. lia.
    + intros buf' d' (P' & S' & ->). apply runs_ret. rewrite E, Z.mul_0_l, put_all.
      2: { destruct Hb as [-> _]. by destruct (contents_sector d1 (lba mod 2 ^ 28)) as [-> _]. }
      split_and!; [by left|by eapply same_disk_trans|apply contents_sector|by intros _|done].
  - rewrite bit_err, Hv. cbn [negb orb]. eapply runs_mono; [by apply error_read_ok; [|rewrite P3]|].
    intros [ok buf'] d' ([= -> ->] & P' & S'). split_and!; [by right|by eapply same_disk_trans|done|done|].
    intros Hf. exfalso. apply F2; [by apply S1|done].
Qed.

Lemma words_lookup b i :
  0 <= i -> i * 2 + 1 < zlen b ->
  words_of b !! Z.to_nat i = Some (byte_at b (i * 2) + 256 * byte_at b (i * 2 + 1)).
Proof.
  revert i. induction b as [|x|x y b IH] using list_pairs; intros i Hi Hl.
  - change (zlen (@nil Z)) with 0 in Hl. lia.
  - change (zlen [x]) with 1 in Hl. lia.
  - rewrite !zlen_cons in Hl. destruct (Z.eq_dec i 0) as [->|Hn]; [done|].
    replace (Z.to_nat i) with (S (Z.to_nat (i - 1))) by lia. cbn [words_of lookup list_lookup].
    change (list_lookup ?n ?l) with (l !! n). rewrite IH by lia.
    unfold byte_at. replace (Z.to_nat (i * 2)) with (S (S (Z.to_nat ((i - 1) * 2)))) by lia.
    by replace (Z.to_nat (i * 2 + 1)) with (S (S (Z.to_nat ((i - 1) * 2 + 1)))) by lia.
Qed.

(** The outcome of the data phase of a write. *)
Definition written (lba : Z) (buf : list Z) (d d' : T) : Prop :=
  (forall l, l <> lba -> contents d' l = contents d l) /\ (forall l, faultless d l -> faultless d' l) /\
  (phase d' = Idle /\ contents d' lba = buf \/ phase d' = Aborted) /\ (faultless d lba -> phase d' <> Aborted).

Lemma write_words_ok polls n i buf (d : T) lba :
  (max_busy < polls)%nat -> is_sector buf -> 0 <= i -> i + Z.of_nat n = 256 -> (0 < n)%nat ->
  phase d = DataOut lba (take (Z.to_nat i) (words_of buf)) ->
  runs (write_words polls n i buf) d (fun _ d' => written lba buf d d').
Proof.
  intros Hp Hb. destruct (bytes_words_sector buf Hb) as (Eb & Lw & Fw). destruct Hb as [Lb Fb].
  revert i d. induction n as [|n IH]; intros i d Hi Hn Hpos P; [lia|]. cbn [write_words].
  runs_step (wait_drq_ok polls d lba _ Hp P). intros _ d1 (B1 & P1 & [C1 F1]). rewrite P in P1.
  unfold SECTOR_SIZE in Lb.
  apply runs_bind, runs_pure. eexists. split; [apply bget_ok; lia|].
  apply runs_bind, runs_pure. eexists. split; [apply bget_ok; lia|].
  pose proof (words_lookup buf i Hi ltac:(lia)) as Lk.
  pose proof (bget_Forall _ _ (i * 2) Fb ltac:(lia)) as U0. pose proof (bget_Forall _ _ (i * 2 + 1) Fb ltac:(lia)) as U1.
  unfold is_u8 in U0, U1.
  assert (Ew : Z.lor (byte_at buf (i * 2)) (wrap16 (Z.shiftl (byte_at buf (i * 2 + 1)) 8)) =
               byte_at buf (i * 2) + 256 * byte_at buf (i * 2 + 1)).
  { rewrite Z.shiftl_mul_pow2, wrap_small by lia. rewrite Z.lor_comm, (lor_disjoint _ _ 8); [lia|lia| |lia].
    apply Z.mod_mul. lia. }
  rewrite Ew. apply runs_bind, runs_modify.
  pose proof (data_out d1 lba _ (byte_at buf (i * 2) + 256 * byte_at buf (i * 2 + 1)) B1 P1) as L.
  rewrite <- (take_S_r _ _ _ Lk) in L. rewrite length_take, Lw in L.
  specialize (L ltac:(by apply Forall_take) ltac:(lia)).
  set (d2 := out16 _ _ d1) in *. destruct L as [F2 L]. destruct n as [|n].
  - replace (Z.to_nat i `min` 256)%nat with 255%nat in L by lia. cbn [Nat.ltb Nat.leb] in L.
    cbn [write_words]. apply runs_ret. destruct L as (C2 & P2 & N2).
    rewrite take_ge, Eb in P2 by (rewrite Lw; lia). split_and!; [|by auto 10|done|by auto 10].
    intros l Hl. by rewrite C2, C1.
  - rewrite (proj2 (Nat.ltb_lt _ _)) in L by lia. destruct L as [P2 C2].
    eapply runs_mono; [apply (IH (i + 1) d2); [lia|lia|lia|]|].
    + by replace (Z.to_nat (i + 1)) with (S (Z.to_nat i)) by lia.
    + intros _ d' (C3 & F3 & P3 & N3). split_and!; [|by auto 10|done|by auto 10].
      intros l Hl. by rewrite C3, C2, C1.
Qed.

Lemma write_sector_ok polls lba buf (d : T) :
  (max_busy < polls)%nat -> resting (phase d) -> 0 <= lba -> is_sector buf ->
  runs (write_sector polls lba buf) d (fun ok d' =>
    resting (phase d') /\ (forall l, l <> lba mod 2 ^ 28 -> contents d' l = contents d l) /\
    (forall l, faultless d l -> faultless d' l) /\
    (ok = true -> contents d' (lba mod 2 ^ 28) = buf) /\ (faultless d (lba mod 2 ^ 28) -> ok = true)).
Proof.
  intros Hp Ph Hl Hb. unfold write_sector. runs_step (issue_command_ok polls lba CMD_WRITE_SECTORS d Hp Ph Hl).
  intros _ d0 (d1 & -> & B1 & P1 & [C1 F1] & R1 & L1). destruct (command_write d1 B1 P1 R1) as ([C2 F2] & P2 & N2).
  rewrite L1 in *. set (d2 := out8 PORT_COMMAND CMD_WRITE_SECTORS d1) in *.
  runs_step (wait_not_busy_ok polls d2 Hp). intros v d3 (_ & Hv & B3 & P3 & [C3 F3] & _).
  destruct P2 as [P2|P2]; rewrite P2 in *; cbn [status_ok] in Hv.
  - destruct Hv as (Hv0 & Hv5 & _). rewrite bit_err, bit_df, Hv0, Hv5. cbn [negb orb].
    runs_step (write_words_ok polls (Z.to_nat (SECTOR_SIZE / 2)) 0 buf d3 (lba mod 2 ^ 28)); try done.
    { change (Z.to_nat (SECTOR_SIZE / 2)) with 256%nat. lia. }
    intros _ d4 (C4 & F4 & P4 & N4). runs_step (wait_not_busy_ok polls d4 Hp).
    intros v' d5 (_ & Hv' & B5 & P5 & [C5 F5] & _). destruct P4 as [[P4 E4]|P4]; rewrite P4 in *; cbn [status_ok] in Hv'.
    + destruct Hv' as [Hw0 Hw5]. rewrite bit_err, bit_df, Hw0, Hw5. cbn [negb orb]. apply runs_ret.
      split_and!; [by left| |by auto 10|intros _; by rewrite C5|done]. intros l Hn. by rewrite C5, C4, C3, C2, C1.
    + rewrite bit_err, Hv'. cbn [negb orb]. eapply runs_mono; [by apply error_read_ok|].
      intros ok d' (-> & P' & [C' F']). split_and!; [by right| |by auto 10|done|].
      * intros l Hn. by rewrite C', C5, C4, C3, C2, C1.
      * intros Hf. exfalso. apply N4; [by auto 10|done].
  - rewrite bit_err, Hv. cbn [negb orb]. eapply runs_mono; [by apply error_read_ok; [|rewrite P3]|].
    intros ok d' (-> & P' & [C' F']). split_and!; [by right| |by auto 10|done|].
    + intros l Hn. by rewrite C', C3, C2, C1.
    + intros Hf. exfalso. apply N2; [by auto 10|done].
Qed.
End laws.
