(* ===== verification/Storage.v ===== *)
(** * The storage service (userland/drivers/storage_ata/src/main.rs)

    [serve] is one turn of the server's loop: it drives the disk (Ata.v) and ends with
    the program of system calls the turn makes.  The shared page is [page]; the argument
    [pg] is what the page of a newly mapped grant holds.  The service, connected to a
    client, is an instance of [BlockDevice]. *)

From stdpp Require Import base list numbers.
From Stdlib Require Import Lia.
From S2P Require Import Prelude Libpcern Pio Block Ata.
Open Scope Z_scope.

Definition MY_INBOX : Z := 2.
Definition BUF_VIRT : Z := 0x800000.

(** The local variables of [_start], and the page mapped at [BUF_VIRT]. *)
Record storage := StorageState { buf_mapped : bool; reply_slot : Z; page : list Z }.

Section server.
Context {T : Type} `{PortIO T}.

Definition storage_start : io T (prog storage) :=
  _ ← ata_init;
  mret (_ ← register_name [115; 116; 111; 114; 97; 103; 101] MY_INBOX; mret (StorageState false 0 [])).

(** [libpcern::send(reply_slot, if ok { 1 } else { 0 }, 0, 0, 0)] *)
Definition reply (ok : bool) (s : storage) : prog storage :=
  _ ← send (reply_slot s) (if ok then 1 else 0) 0 0 0; mret s.

Definition serve (polls : nat) (pg : list Z) (s : storage) (r : recv_result) : io T (prog storage) :=
  if w0 r =? STORAGE_OP_SET_BUFFER then
    mret (if negb (transferred_slot r =? 0) then
            e ← map_memory (transferred_slot r) BUF_VIRT;
            mret (if e =? 0 then StorageState true (reply_slot s) pg else s)
          else mret s)
  else if w0 r =? STORAGE_OP_SET_REPLY then
    mret (mret (if negb (transferred_slot r =? 0) then StorageState (buf_mapped s) (transferred_slot r) (page s) else s))
  else if w0 r =? STORAGE_OP_READ_BLOCK then
    if reply_slot s =? 0 then mret (mret s)
    else if negb (buf_mapped s) then mret (reply false s)
    else
      '(ok, b) ← read_sector polls (w1 r) (page s);
      mret (reply ok (StorageState (buf_mapped s) (reply_slot s) b))
  else if w0 r =? STORAGE_OP_WRITE_BLOCK then
    if reply_slot s =? 0 then mret (mret s)
    else if negb (buf_mapped s) then mret (reply false s)
    else
      ok ← write_sector polls (w1 r) (page s);
      mret (reply ok s)
  else mret (mret s).

(** ** The service as a block device *)

(** A request of the client, who has written [pg] on the shared page: what the service's
    reply says, the page and the device after it. *)
Definition request (polls : nat) (op lba : Z) (pg : list Z) (sd : storage * T) : bool * list Z * (storage * T) :=
  let (s, d) := sd in
  let s := StorageState (buf_mapped s) (reply_slot s) pg in
  match serve polls [] s (RecvResult 0 op lba 0 0) d with
  | Ends p d' =>
      match run [RawResult 0 0 0 0 0 0] p with
      | Some (s', [c]) => (a2 c =? 1, page s', (s', d'))
      | _ => (false, pg, (s, d'))
      end
  | _ => (false, pg, (s, d))
  end.
End server.

#[export] Instance storage_device {T} `{AtaDevice T} (polls : nat) : BlockDevice (storage * T) := {
  read_block lba pg sd := request polls STORAGE_OP_READ_BLOCK lba pg sd;
  write_block lba pg sd := let '(ok, _, sd') := request polls STORAGE_OP_WRITE_BLOCK lba pg sd in (ok, sd');
  sector sd lba := contents (snd sd) lba;
  capacity := 2 ^ 28;
  sound sd lba := faultless (snd sd) lba;
  idle sd := buf_mapped (fst sd) = true /\ reply_slot (fst sd) <> 0 /\ resting (phase (snd sd))
}.

Section laws.
Context {T : Type} {PT : PortIO T} {AD : AtaDevice T} {AL : AtaLaws T}.

(** A server with a client connected. *)
Definition connected (s : storage) : Prop := buf_mapped s = true /\ reply_slot s <> 0.

Lemma serve_read polls pg s r (d : T) :
  (max_busy < polls)%nat -> resting (phase d) -> connected s -> is_sector (page s) -> 0 <= w1 r ->
  w0 r = STORAGE_OP_READ_BLOCK ->
  runs (serve polls pg s r) d (fun p d' => exists ok b,
    p = reply ok (StorageState true (reply_slot s) b) /\ is_sector b /\ resting (phase d') /\ same_disk d d' /\
    (ok = true -> b = contents d (w1 r mod 2 ^ 28)) /\ (faultless d (w1 r mod 2 ^ 28) -> ok = true)).
Proof.
  intros Hp Ph [M R] Hs Hl Hw. unfold serve. rewrite Hw, M. cbn [negb].
  rewrite (proj2 (Z.eqb_neq _ _) R).
  change (STORAGE_OP_READ_BLOCK =? STORAGE_OP_SET_BUFFER) with false.
  change (STORAGE_OP_READ_BLOCK =? STORAGE_OP_SET_REPLY) with false. rewrite Z.eqb_refl.
  runs_step (read_sector_ok polls (w1 r) (page s) d Hp Ph Hl Hs). intros [ok b] d' (P' & S' & Hb & H1 & H2).
  apply runs_ret. exists ok, b. by split_and!.
Qed.

Lemma serve_write polls pg s r (d : T) :
  (max_busy < polls)%nat -> resting (phase d) -> connected s -> is_sector (page s) -> 0 <= w1 r ->
  w0 r = STORAGE_OP_WRITE_BLOCK ->
  runs (serve polls pg s r) d (fun p d' => exists ok,
    p = reply ok s /\ resting (phase d') /\
    (forall l, l <> w1 r mod 2 ^ 28 -> contents d' l = contents d l) /\ (forall l, faultless d l -> faultless d' l) /\
    (ok = true -> contents d' (w1 r mod 2 ^ 28) = page s) /\ (faultless d (w1 r mod 2 ^ 28) -> ok = true)).
Proof.
  intros Hp Ph [M R] Hs Hl Hw. unfold serve. rewrite Hw, M. cbn [negb].
  rewrite (proj2 (Z.eqb_neq _ _) R).
  change (STORAGE_OP_WRITE_BLOCK =? STORAGE_OP_SET_BUFFER) with false.
  change (STORAGE_OP_WRITE_BLOCK =? STORAGE_OP_SET_REPLY) with false.
  change (STORAGE_OP_WRITE_BLOCK =? STORAGE_OP_READ_BLOCK) with false. rewrite Z.eqb_refl.
  runs_step (write_sector_ok polls (w1 r) (page s) d Hp Ph Hl Hs). intros ok d' (P' & C' & F' & H1 & H2).
  apply runs_ret. exists ok. by split_and!.
Qed.

Lemma storage_block_laws polls : (max_busy < polls)%nat -> @BlockLaws (storage * T) (storage_device polls).
Proof.
  intros Hp. split.
  - intros [s d] lba _. apply contents_sector.
  - intros lba pg [s d] (M & R & Ph) Hs Hl. cbn [read_block storage_device] in *. unfold request.
    set (s' := StorageState _ _ _). set (r := RecvResult _ _ _ _ _).
    destruct (runs_ends _ _ _ (serve_read polls [] s' r d Hp Ph (conj M R) Hs (proj1 Hl) eq_refl))
      as (p & d' & -> & ok & b & -> & Hb & P' & [C' F'] & H1 & H2).
    cbn in *. rewrite Z.mod_small in H1, H2 by lia. destruct ok; cbn; split_and!; auto.
  - intros lba pg [s d] (M & R & Ph) Hs Hl. cbn [write_block storage_device] in *. unfold request.
    set (s' := StorageState _ _ _). set (r := RecvResult _ _ _ _ _).
    destruct (runs_ends _ _ _ (serve_write polls [] s' r d Hp Ph (conj M R) Hs (proj1 Hl) eq_refl))
      as (p & d' & -> & ok & -> & P' & C' & F' & H1 & H2).
    cbn in *. rewrite Z.mod_small in C', H1, H2 by lia. destruct ok; cbn; split_and!; auto.
Qed.
End laws.

(** C35: the disk keeps what is written.  With a drive that follows the ATA PIO protocol
    (also after errors, whose flag stays set until the next command) and stays busy for at
    most [max_busy] polls, a connected service ends every request.  A write it reports as
    done and a later read it reports as done give back the bytes on the client's page when
    the read is of the sector written, and what was there before for any other sector below
    2^28; both are reported as done when the drive has no fault at their sectors. *)
Theorem storage_write_read {T} {PT : PortIO T} {AD : AtaDevice T} {AL : AtaLaws T} polls lba l b pg (sd : storage * T) :
  (max_busy < polls)%nat -> @idle _ (storage_device polls) sd -> is_sector b -> is_sector pg ->
  0 <= lba < 2 ^ 28 -> 0 <= l < 2 ^ 28 ->
  let '(written, _, sd1) := request polls STORAGE_OP_WRITE_BLOCK lba b sd in
  let '(ok, pg', sd2) := request polls STORAGE_OP_READ_BLOCK l pg sd1 in
  (faultless (snd sd) lba -> written = true) /\ (faultless (snd sd) l -> ok = true) /\
  (written = true -> ok = true -> pg' = if l =? lba then b else contents (snd sd) l).
Proof.
  intros Hp I Hb Hpg Hlba Hl. pose proof (storage_block_laws (T := T) polls Hp) as L.
  pose proof (write_block_law lba b sd I Hb Hlba) as W. cbn [write_block storage_device] in W.
  destruct (request polls STORAGE_OP_WRITE_BLOCK lba b sd) as [[wr pg1] sd1]. destruct W as (I1 & C1 & F1 & E1 & G1).
  pose proof (read_block_law l pg sd1 I1 Hpg Hl) as R. cbn [read_block storage_device] in R.
  destruct (request polls STORAGE_OP_READ_BLOCK l pg sd1) as [[ok pg'] sd2]. destruct R as (_ & _ & _ & _ & E2 & G2).
  split_and!; [done|by auto|]. intros Hw Ho. rewrite (E2 Ho). destruct (Z.eqb_spec l lba) as [->|Hn]; [by apply E1|].
  by apply C1.
Qed.

(** ** A simulated drive *)

Record sim := Sim { sim_disk : Z -> list Z; sim_phase : ata_phase; sim_busy : bool; sim_regs : Z -> Z }.

(** Any byte list as a sector. *)
Definition as_sector (b : list Z) : list Z := take 512 (map wrap8 b ++ replicate 512 0).

Definition sim_status (d : sim) : Z :=
  match sim_phase d with Idle => 0x50 | DataIn _ => 0x58 | DataOut _ _ => 0x58 | Aborted => 0x51 end.

Definition sim_in8 (p : Z) (d : sim) : Z * sim :=
  if p =? PORT_STATUS then
    if sim_busy d then (0x80, Sim (sim_disk d) (sim_phase d) false (sim_regs d)) else (sim_status d, d)
  else (0, d).

(** Sectors from 2000 on are bad. *)
Definition sim_command (v : Z) (d : sim) : sim :=
  let lba := taskfile_lba (sim_regs d) in
  if 2000 <=? lba then Sim (sim_disk d) Aborted true (sim_regs d)
  else if v =? CMD_READ_SECTORS then Sim (sim_disk d) (DataIn (words_of (as_sector (sim_disk d lba)))) true (sim_regs d)
  else Sim (sim_disk d) (DataOut lba []) true (sim_regs d).

Definition sim_out8 (p v : Z) (d : sim) : sim :=
  if p =? PORT_COMMAND then sim_command v d
  else Sim (sim_disk d) (sim_phase d) (sim_busy d) (fun q => if q =? p then v else sim_regs d q).

Definition sim_in16 (d : sim) : Z * sim :=
  match sim_phase d with
  | DataIn (w :: ws) => (w, Sim (sim_disk d) (match ws with [] => Idle | _ => DataIn ws end) false (sim_regs d))
  | _ => (0, d)
  end.

Definition sim_out16 (w : Z) (d : sim) : sim :=
  match sim_phase d with
  | DataOut lba ws =>
      if (length ws <? 255)%nat then Sim (sim_disk d) (DataOut lba (ws ++ [w])) true (sim_regs d)
      else Sim (fun l => if l =? lba then bytes_of (ws ++ [w]) else sim_disk d l) Idle true (sim_regs d)
  | _ => d
  end.

#[export] Instance sim_ports : PortIO sim := {
  in8 := sim_in8; in16 _ d := sim_in16 d; in32 _ d := (0, d);
  out8 := sim_out8; out16 _ v d := sim_out16 v d; out32 _ _ d := d
}.

#[export] Instance sim_device : AtaDevice sim := {
  contents d l := as_sector (sim_disk d l); phase := sim_phase; busy d := if sim_busy d then 1%nat else O;
  taskfile := sim_regs; faultless _ l := l < 2000; max_busy := 1%nat
}.

Lemma as_sector_ok b : is_sector (as_sector b).
Proof.
  unfold as_sector, is_sector, zlen, SECTOR_SIZE. split.
  - rewrite length_take, length_app, length_replicate. lia.
  - apply Forall_take, Forall_app. split; [|apply Forall_replicate; unfold is_u8; lia].
    apply Forall_map, Forall_forall. intros x _. unfold wrap, is_u8. dlia.
Qed.

Lemma as_sector_id b : is_sector b -> as_sector b = b.
Proof.
  intros [L F]. unfold as_sector, zlen, SECTOR_SIZE in *. assert (E : map wrap8 b = b).
  { clear L. induction F as [|x b Hx F IH]; [done|]. cbn. rewrite IH, wrap_small; [done|]. exact Hx. }
  rewrite E, take_app_le by lia. apply take_ge. lia.
Qed.

Lemma bytes_of_sector ws : Forall is_u16 ws -> length ws = 256%nat -> is_sector (bytes_of ws).
Proof.
  intros F L. split.
  - assert (E : zlen (bytes_of ws) = 2 * Z.of_nat (length ws)); [|unfold SECTOR_SIZE; lia].
    clear. unfold bytes_of, zlen. induction ws as [|w ws IH]; [done|]. cbn [map concat]. rewrite length_app. cbn [length]. lia.
  - clear L. unfold bytes_of. induction F as [|w ws Hw F IH]; [constructor|]. unfold is_u16 in Hw. cbn.
    do 2 (constructor; [unfold is_u8; dlia|]). done.
Qed.

#[export] Instance sim_laws : AtaLaws sim.
Proof.
  split.
  - intros d l. apply as_sector_ok.
  - intros d. cbn. destruct (sim_busy d); lia.
  - intros d n. cbn. unfold sim_in8. destruct (sim_busy d); [|done]. intros [= <-]. by split_and!.
  - intros d. cbn. unfold sim_in8. destruct (sim_busy d) eqn:E; [done|]. intros _. cbn. rewrite E.
    unfold sim_status, status_ok. split_and!; try done; by destruct (sim_phase d).
  - intros d p v B P [Hp1 Hp2] Hv. cbn in *. unfold sim_out8. unfold PORT_DRIVE_HEAD, PORT_SECTOR_COUNT, PORT_COMMAND in *.
    rewrite (proj2 (Z.eqb_neq _ _)) by lia. by split_and!.
  - intros d B P R. cbn. unfold sim_out8, sim_command. cbn. destruct (2000 <=? _) eqn:E; cbn.
    + split; [done|]. split; [by right|]. bool_simp. lia.
    + split; [done|]. split; [by left|]. done.
  - intros d w ws B P. cbn in *. unfold sim_in16. rewrite P. by split_and!.
  - intros d B P R. cbn. unfold sim_out8, sim_command. cbn. destruct (2000 <=? _) eqn:E; cbn.
    + split; [done|]. split; [by right|]. bool_simp. lia.
    + split; [done|]. split; [by left|]. done.
  - intros d lba ws w B P F L. cbn [phase contents faultless sim_device out16 sim_ports] in *. unfold sim_out16.
    rewrite P. split; [by destruct (length ws <? 255)%nat|].
    destruct (length ws <? 255)%nat eqn:E; cbn [sim_phase sim_disk]; [by split|]. apply Nat.ltb_ge in E. split_and!.
    + intros l Hl. by rewrite (proj2 (Z.eqb_neq _ _) Hl).
    + left. split; [done|]. rewrite Z.eqb_refl. apply as_sector_id, bytes_of_sector; [done|]. rewrite length_app. cbn. lia.
    + done.
  - intros d B P. cbn in *. unfold sim_in8. cbn. rewrite P. by split.
Qed.

(** A formatted drive with a client connected. *)
Definition ex_storage : storage * sim :=
  (StorageState true 7 (replicate 512 0), Sim (fun l => replicate 512 (l mod 256)) Idle false (fun _ => 0)).

Lemma storage_write_read_witness :
  let '(written, _, sd1) := request 2 STORAGE_OP_WRITE_BLOCK 9 (replicate 512 65) ex_storage in
  let '(ok, pg, _) := request 2 STORAGE_OP_READ_BLOCK 9 (replicate 512 0) sd1 in
  written = true /\ ok = true /\ pg = replicate 512 65.
Proof.
  assert (B : forall x, is_u8 x -> is_sector (replicate 512 x)) by (intros x Hx; split; [done|by apply Forall_replicate]).
  assert (I : @idle _ (storage_device 2) ex_storage) by (split_and!; [done|discriminate|by left]).
  pose proof (storage_write_read 2 9 9 (replicate 512 65) (replicate 512 0) ex_storage) as W.
  destruct (request 2 STORAGE_OP_WRITE_BLOCK 9 (replicate 512 65) ex_storage) as [[written ?] sd1].
  destruct (request 2 STORAGE_OP_READ_BLOCK 9 (replicate 512 0) sd1) as [[ok pg] ?].
  destruct W as (H1 & H2 & H3); [cbn; lia|exact I|apply B; unfold is_u8; lia|apply B; unfold is_u8; lia|lia|lia|].
  assert (Hw : written = true) by (apply H1; reflexivity). assert (Ho : ok = true) by (apply H2; reflexivity).
  split_and!; [exact Hw|exact Ho|exact (H3 Hw Ho)].
Defined.
