(* ===== verification/Fat32.v ===== *)
(** * The FAT32 file system (userland/services/fs_fat32/src/main.rs)

    The functions of the file server, over a block device: the parameters
    [storage_slot] and [storage_reply] of the source are the connection to the storage
    service, which here is the device [dev] of the state; [storage_buf] is the sector
    buffer shared with it.  The client's page is an argument and a result.  The two
    loops that walk the root directory take a bound on the clusters they visit. *)

From stdpp Require Import base list numbers.
From Stdlib Require Import Lia.
From S2P Require Import Prelude Libpcern Pio Block.
Open Scope Z_scope.

Definition MY_INBOX : Z := 2.
Definition STORAGE_BUF_VIRT : Z := 0x800000.
Definition CLIENT_BUF_VIRT : Z := 0x900000.
Definition DIRENT_SIZE : Z := 32.
Definition FAT32_EOC_MIN : Z := 0x0FFFFFF8.

(** [struct Bpb] *)
Record bpb := Bpb {
  sectors_per_cluster : Z; first_data_sector : Z; fat_begin_sector : Z;
  fat_sz32 : Z; root_cluster : Z; max_cluster : Z
}.

Definition cluster_to_sector (v : bpb) (cluster : Z) : Z :=
  wrap32 (first_data_sector v + wrap32 (wrap32 (cluster - 2) * sectors_per_cluster v)).

Definition cluster_size_bytes (v : bpb) : Z := wrap32 (sectors_per_cluster v * SECTOR_SIZE).

(** [struct DirLoc] and [struct OpenFile] *)
Record dir_loc := DirLoc { dsector : Z; doffset : Z }.
Record open_file := OpenFile { start_cluster : Z; size : Z; dirent : dir_loc }.

(** [u16::from_le_bytes] and [u32::from_le_bytes] of the bytes at [o]. *)
Definition le16 (b : list Z) (o : Z) : res Z :=
  b0 <- bget b o ;; b1 <- bget b (o + 1) ;; Ok (u16_from_le b0 b1).
Definition le32 (b : list Z) (o : Z) : res Z :=
  b0 <- bget b o ;; b1 <- bget b (o + 1) ;; b2 <- bget b (o + 2) ;; b3 <- bget b (o + 3) ;;
  Ok (u32_from_le b0 b1 b2 b3).

Definition fat32_fields_valid (b : list Z) : res bool :=
  bytes_per_sector <- le16 b 11 ;;
  fat_sz32 <- le32 b 36 ;;
  s0 <- bget b 510 ;; s1 <- bget b 511 ;;
  Ok ((bytes_per_sector =? SECTOR_SIZE) && ((s0 =? 0x55) && (s1 =? 0xAA)) && negb (fat_sz32 =? 0)).

(** The partition table entry of [find_fat32_base]: the first sector of the volume. *)
Definition first_partition (b : list Z) : res (option Z) :=
  s0 <- bget b 510 ;; s1 <- bget b 511 ;;
  if negb ((s0 =? 0x55) && (s1 =? 0xAA)) then Ok None
  else
    part_type <- bget b (446 + 4) ;;
    if negb (part_type =? 0x0B) && negb (part_type =? 0x0C) then Ok None
    else start_lba <- le32 b (446 + 8) ;; Ok (Some start_lba).

(** [parse_bpb] from the boot sector [b] at [base]. *)
Definition bpb_of_sector (base : Z) (b : list Z) : res (option bpb) :=
  bytes_per_sector <- le16 b 11 ;;
  spc <- bget b 13 ;;
  reserved_sector_count <- le16 b 14 ;;
  num_fats <- bget b 16 ;;
  total_sectors32 <- le32 b 32 ;;
  fat_sz32 <- le32 b 36 ;;
  root_cluster <- le32 b 44 ;;
  s0 <- bget b 510 ;; s1 <- bget b 511 ;;
  if negb (bytes_per_sector =? SECTOR_SIZE) || negb ((s0 =? 0x55) && (s1 =? 0xAA)) then Ok None
  else
    let first_data_sector := wrap32 (reserved_sector_count + wrap32 (num_fats * fat_sz32)) in
    if (spc =? 0) || (total_sectors32 <? first_data_sector) then Ok None
    else
      let max_cluster := wrap32 ((total_sectors32 - first_data_sector) / spc + 1) in
      Ok (Some (Bpb spc (wrap32 (base + first_data_sector)) (wrap32 (base + reserved_sector_count))
                  fat_sz32 root_cluster max_cluster)).

(** What one directory entry of a sector says to [find_in_root]. *)
Inductive scanned := EndOfDirectory | Match (start size off : Z) | NoMatch.

(** [for e in 0..(SECTOR_SIZE / DIRENT_SIZE)] of [find_in_root]: [n] entries from [e] on. *)
Fixpoint scan_sector (name b : list Z) (n : nat) (e : Z) : res scanned :=
  match n with
  | O => Ok NoMatch
  | S m =>
      let off := e * DIRENT_SIZE in
      first <- bget b off ;;
      if first =? 0x00 then Ok EndOfDirectory
      else if first =? 0xE5 then scan_sector name b m (e + 1)
      else
        attr <- bget b (off + 11) ;;
        if (attr =? 0x0F) || negb (Z.land attr 0x08 =? 0) then scan_sector name b m (e + 1)
        else
          entry <- bslice b off (off + 11) ;;
          if bytes_eqb entry name then
            cluster_hi <- le16 b (off + 20) ;;
            cluster_lo <- le16 b (off + 26) ;;
            size <- le32 b (off + 28) ;;
            Ok (Match (Z.lor (wrap32 (Z.shiftl cluster_hi 16)) cluster_lo) size off)
          else scan_sector name b m (e + 1)
  end.

(** The inner loop of [find_free_root_slot]: the offset of a free entry. *)
Fixpoint free_entry (b : list Z) (n : nat) (e : Z) : res (option Z) :=
  match n with
  | O => Ok None
  | S m =>
      let off := e * DIRENT_SIZE in
      first <- bget b off ;;
      if (first =? 0x00) || (first =? 0xE5) then Ok (Some off) else free_entry b m (e + 1)
  end.

Definition ENTRIES : nat := Z.to_nat (SECTOR_SIZE / DIRENT_SIZE).

(** The file server's memory, with the device behind the storage service. *)
Record fs_state (D : Type) := FsState { dev : D; storage_buf : list Z }.
Arguments FsState {D} dev storage_buf.
Arguments dev {D} f.
Arguments storage_buf {D} f.

Section fs.
Context {D : Type} `{BlockDevice D}.
Abbreviation fsio := (io (fs_state D)).

Definition read_sector (lba : Z) : fsio bool := fun s =>
  let '(ok, b, d) := read_block lba (storage_buf s) (dev s) in Ends ok (FsState d b).

Definition write_sector (lba : Z) : fsio bool := fun s =>
  let '(ok, d) := write_block lba (storage_buf s) (dev s) in Ends ok (FsState d (storage_buf s)).

(** The sector buffer, and an assignment to it. *)
Definition buffer : fsio (list Z) := get storage_buf.
Definition set_buffer (b : list Z) : fsio unit := modify (fun s => FsState (dev s) b).

Definition find_fat32_base : fsio (option Z) :=
  ok ← read_sector 0;
  if negb ok then mret None
  else
    b ← buffer;
    valid ← pure (fat32_fields_valid b);
    if (valid : bool) then mret (Some 0)
    else
      part ← pure (first_partition b);
      match part with
      | None => mret None
      | Some start_lba =>
          ok ← read_sector start_lba;
          if negb ok then mret None
          else
            b ← buffer;
            valid ← pure (fat32_fields_valid b);
            mret (if (valid : bool) then Some start_lba else None)
      end.

Definition parse_bpb : fsio (option bpb) :=
  base ← find_fat32_base;
  match base with
  | None => mret None
  | Some base => b ← buffer; pure (bpb_of_sector base b)
  end.

Definition read_fat_entry (v : bpb) (cluster : Z) : fsio (option Z) :=
  let fat_offset := wrap32 (cluster * 4) in
  let fat_sector := wrap32 (fat_begin_sector v + fat_offset / SECTOR_SIZE) in
  let ent_offset := fat_offset mod SECTOR_SIZE in
  ok ← read_sector fat_sector;
  if negb ok then mret None
  else
    b ← buffer;
    raw ← pure (le32 b ent_offset);
    mret (Some (Z.land raw 0x0FFFFFFF)).

Definition next_cluster (v : bpb) (cluster : Z) : fsio (option Z) :=
  let fat_offset := wrap32 (cluster * 4) in
  let fat_sector := wrap32 (fat_begin_sector v + fat_offset / SECTOR_SIZE) in
  let ent_offset := fat_offset mod SECTOR_SIZE in
  ok ← read_sector fat_sector;
  if negb ok then mret None
  else
    b ← buffer;
    raw ← pure (le32 b ent_offset);
    let raw := Z.land raw 0x0FFFFFFF in
    mret (if (FAT32_EOC_MIN <=? raw) || (raw <? 2) then None else Some raw).

(** The body of [write_fat_entry]'s loop over the two FAT copies. *)
Definition write_fat_copy (sector ent_offset value : Z) : fsio bool :=
  ok ← read_sector sector;
  if negb ok then mret false
  else
    b ← buffer;
    old ← pure (le32 b ent_offset);
    let new := Z.lor (Z.land old 0xF0000000) (Z.land value 0x0FFFFFFF) in
    b ← pure (bcopy b ent_offset (u32_to_le new));
    _ ← set_buffer b;
    write_sector sector.

Definition write_fat_entry (v : bpb) (cluster value : Z) : fsio bool :=
  let fat_offset := wrap32 (cluster * 4) in
  let sector_in_fat := fat_offset / SECTOR_SIZE in
  let ent_offset := fat_offset mod SECTOR_SIZE in
  ok ← write_fat_copy (wrap32 (fat_begin_sector v + sector_in_fat)) ent_offset value;
  if negb ok then mret false
  else write_fat_copy (wrap32 (wrap32 (fat_begin_sector v + fat_sz32 v) + sector_in_fat)) ent_offset value.

(** [for cluster in 2..=bpb.max_cluster]: [n] clusters from [cluster] on. *)
Fixpoint alloc_from (v : bpb) (n : nat) (cluster : Z) : fsio (option Z) :=
  match n with
  | O => mret None
  | S m =>
      e ← read_fat_entry v cluster;
      match e with
      | Some 0 => ok ← write_fat_entry v cluster FAT32_EOC_MIN; mret (if (ok : bool) then Some cluster else None)
      | Some _ => alloc_from v m (cluster + 1)
      | None => mret None
      end
  end.

Definition alloc_cluster (v : bpb) : fsio (option Z) := alloc_from v (Z.to_nat (max_cluster v - 1)) 2.

(** [for s in 0..bpb.sectors_per_cluster] of [find_in_root]. *)
Fixpoint scan_cluster (name : list Z) (n : nat) (sector : Z) : fsio (option (option (Z * Z * dir_loc))) :=
  match n with
  | O => mret None
  | S m =>
      ok ← read_sector sector;
      if negb ok then mret (Some None)
      else
        b ← buffer;
        r ← pure (scan_sector name b ENTRIES 0);
        match r with
        | EndOfDirectory => mret (Some None)
        | Match start size off => mret (Some (Some (start, size, DirLoc sector off)))
        | NoMatch => scan_cluster name m (wrap32 (sector + 1))
        end
  end.

Fixpoint find_in_root_from (v : bpb) (name : list Z) (clusters : nat) (cluster : Z) : fsio (option (Z * Z * dir_loc)) :=
  match clusters with
  | O => fun _ => Loops
  | S m =>
      r ← scan_cluster name (Z.to_nat (sectors_per_cluster v)) (cluster_to_sector v cluster);
      match r with
      | Some answer => mret answer
      | None =>
          next ← next_cluster v cluster;
          match next with
          | Some c => find_in_root_from v name m c
          | None => mret None
          end
      end
  end.

Definition find_in_root (clusters : nat) (v : bpb) (name : list Z) : fsio (option (Z * Z * dir_loc)) :=
  find_in_root_from v name clusters (root_cluster v).

(** [for s in 0..bpb.sectors_per_cluster] of [find_free_root_slot]. *)
Fixpoint free_in_cluster (n : nat) (sector : Z) : fsio (option (option dir_loc)) :=
  match n with
  | O => mret None
  | S m =>
      ok ← read_sector sector;
      if negb ok then mret (Some None)
      else
        b ← buffer;
        r ← pure (free_entry b ENTRIES 0);
        match r with
        | Some off => mret (Some (Some (DirLoc sector off)))
        | None => free_in_cluster m (wrap32 (sector + 1))
        end
  end.

(** Zeroes written to the sectors of a new directory cluster. *)
Fixpoint zero_sectors (n : nat) (sector : Z) : fsio bool :=
  match n with
  | O => mret true
  | S m =>
      b ← buffer;
      b ← pure (bcopy b 0 (replicate (Z.to_nat SECTOR_SIZE) 0));
      _ ← set_buffer b;
      ok ← write_sector sector;
      if negb ok then mret false else zero_sectors m (wrap32 (sector + 1))
  end.

(** The directory's chain grows by a zeroed cluster behind [cluster]. *)
Definition grow_root (v : bpb) (cluster : Z) : fsio (option dir_loc) :=
  new ← alloc_cluster v;
  match new with
  | None => mret None
  | Some new_cluster =>
      ok ← write_fat_entry v cluster new_cluster;
      if negb ok then mret None
      else
        let new_base := cluster_to_sector v new_cluster in
        ok ← zero_sectors (Z.to_nat (sectors_per_cluster v)) new_base;
        mret (if (ok : bool) then Some (DirLoc new_base 0) else None)
  end.

Fixpoint find_free_from (v : bpb) (clusters : nat) (cluster : Z) : fsio (option dir_loc) :=
  match clusters with
  | O => fun _ => Loops
  | S m =>
      r ← free_in_cluster (Z.to_nat (sectors_per_cluster v)) (cluster_to_sector v cluster);
      match r with
      | Some answer => mret answer
      | None =>
          next ← next_cluster v cluster;
          match next with
          | Some c => find_free_from v m c
          | None => grow_root v cluster
          end
      end
  end.

Definition find_free_root_slot (clusters : nat) (v : bpb) : fsio (option dir_loc) :=
  find_free_from v clusters (root_cluster v).

Definition write_dirent_update (loc : dir_loc) (start size : Z) : fsio bool :=
  ok ← read_sector (dsector loc);
  if negb ok then mret false
  else
    b ← buffer;
    let off := doffset loc in
    b ← pure (bcopy b (off + 20) (u16_to_le (wrap16 (Z.shiftr start 16))));
    b ← pure (bcopy b (off + 26) (u16_to_le (wrap16 (Z.land start 0xFFFF))));
    b ← pure (bcopy b (off + 28) (u32_to_le size));
    _ ← set_buffer b;
    write_sector (dsector loc).

Definition write_new_dirent (loc : dir_loc) (name : list Z) : fsio bool :=
  ok ← read_sector (dsector loc);
  if negb ok then mret false
  else
    b ← buffer;
    let off := doffset loc in
    b ← pure (bfill b off (off + DIRENT_SIZE) 0);
    b ← pure (bcopy b off name);
    b ← pure (bset b (off + 11) 0x20);
    _ ← set_buffer b;
    write_sector (dsector loc).

Definition open_or_create (clusters : nat) (v : bpb) (name : list Z) (create : bool) : fsio (option (Z * Z * dir_loc)) :=
  found ← find_in_root clusters v name;
  match found with
  | Some f => mret (Some f)
  | None =>
      if negb create then mret None
      else
        loc ← find_free_root_slot clusters v;
        match loc with
        | None => mret None
        | Some loc =>
            ok ← write_new_dirent loc name;
            mret (if (ok : bool) then Some (0, 0, loc) else None)
        end
  end.

(** [for _ in 0..cluster_index] of [read_file]. *)
Fixpoint walk (v : bpb) (n : nat) (cluster : Z) : fsio (option Z) :=
  match n with
  | O => mret (Some cluster)
  | S m =>
      next ← next_cluster v cluster;
      match next with Some c => walk v m c | None => mret None end
  end.

Definition read_file (v : bpb) (file : open_file) (offset len : Z) (client : list Z) : fsio (Z * list Z) :=
  if size file <=? offset then mret (0, client)
  else
    let remaining_in_file := size file - offset in
    let cluster_size := cluster_size_bytes v in
    let offset_in_cluster := offset mod cluster_size in
    let sector_in_cluster := offset_in_cluster / SECTOR_SIZE in
    let offset_in_sector := offset_in_cluster mod SECTOR_SIZE in
    c ← walk v (Z.to_nat (offset / cluster_size)) (start_cluster file);
    match c with
    | None => mret (0, client)
    | Some cluster =>
        ok ← read_sector (wrap32 (cluster_to_sector v cluster + sector_in_cluster));
        if negb ok then mret (0, client)
        else
          let n := Z.min (Z.min len (SECTOR_SIZE - offset_in_sector)) remaining_in_file in
          b ← buffer;
          src ← pure (bslice b offset_in_sector (offset_in_sector + n));
          client ← pure (bcopy client 0 src);
          mret (n, client)
    end.

(** [for _ in 0..cluster_index] of [write_file]: the chain is extended where it ends. *)
Fixpoint walk_extend (v : bpb) (n : nat) (cluster : Z) : fsio (option Z) :=
  match n with
  | O => mret (Some cluster)
  | S m =>
      next ← next_cluster v cluster;
      match next with
      | Some c => walk_extend v m c
      | None =>
          new ← alloc_cluster v;
          match new with
          | None => mret None
          | Some new_cluster =>
              ok ← write_fat_entry v cluster new_cluster;
              if negb ok then mret None else walk_extend v m new_cluster
          end
      end
  end.

(** [write_file] from the sector it writes on. *)
Definition write_at (file : open_file) (sector offset offset_in_sector len : Z) (client : list Z) : fsio (Z * open_file) :=
  ok ← read_sector sector;
  if negb ok then mret (0, file)
  else
    let n := Z.min len (SECTOR_SIZE - offset_in_sector) in
    b ← buffer;
    src ← pure (bslice client 0 n);
    b ← pure (bcopy b offset_in_sector src);
    _ ← set_buffer b;
    ok ← write_sector sector;
    if negb ok then mret (0, file)
    else
      let new_end := wrap32 (offset + n) in
      let file := OpenFile (start_cluster file) (if size file <? new_end then new_end else size file) (dirent file) in
      ok ← write_dirent_update (dirent file) (start_cluster file) (size file);
      mret (if (ok : bool) then n else 0, file).

Definition write_file (v : bpb) (file : open_file) (offset len : Z) (client : list Z) : fsio (Z * open_file) :=
  if size file <? offset then mret (0, file)
  else
    let cluster_size := cluster_size_bytes v in
    let offset_in_cluster := offset mod cluster_size in
    let sector_in_cluster := offset_in_cluster / SECTOR_SIZE in
    let offset_in_sector := offset_in_cluster mod SECTOR_SIZE in
    first ← (if start_cluster file =? 0 then alloc_cluster v else mret (Some (start_cluster file)));
    match first with
    | None => mret (0, file)
    | Some first =>
        let file := OpenFile first (size file) (dirent file) in
        c ← walk_extend v (Z.to_nat (offset / cluster_size)) first;
        match c with
        | None => mret (0, file)
        | Some cluster =>
            write_at file (wrap32 (cluster_to_sector v cluster + sector_in_cluster)) offset offset_in_sector len client
        end
    end.

Definition truncate_file (file : open_file) (new_size : Z) : fsio (Z * open_file) :=
  if size file <? new_size then mret (0, file)
  else
    let file := OpenFile (start_cluster file) new_size (dirent file) in
    ok ← write_dirent_update (dirent file) (start_cluster file) (size file);
    mret (if (ok : bool) then 1 else 0, file).
End fs.

(** ** The server *)

(** The local variables of [_start], and the page mapped at [CLIENT_BUF_VIRT]. *)
Record fs_server := FsServer {
  client_buf_mapped : bool; client_reply : Z; pending_name_lo : list Z; opened : option open_file; client_buf : list Z
}.

(** [_start] up to the connection to the storage service: its slot and the reply endpoint. *)
Definition fs_start : prog (Z * Z) :=
  found ← lookup_name_retry [115; 116; 111; 114; 97; 103; 101] MY_INBOX 1000;
  match found with
  | None => exit 1
  | Some storage_slot =>
      storage_reply ← endpoint_create;
      storage_buf_grant ← mem_alloc STORAGE_BUF_VIRT;
      if storage_buf_grant =? 0 then exit 1
      else _ ← storage_connect storage_slot storage_buf_grant storage_reply; mret (storage_slot, storage_reply)
  end.

(** After [parse_bpb] has found a volume. *)
Definition fs_ready : prog fs_server :=
  _ ← register_name [102; 115] MY_INBOX; mret (FsServer false 0 (replicate 8 0) None []).

Section server.
Context {D : Type} `{BlockDevice D}.

(** The 11 bytes of [FS_OP_OPEN_NAME2]. *)
Definition open_name (s : fs_server) (r : recv_result) : list Z :=
  pending_name_lo s ++ take 3 (u32_to_le (w1 r)).

Definition set_opened (o : option open_file) (s : fs_server) : fs_server :=
  FsServer (client_buf_mapped s) (client_reply s) (pending_name_lo s) o (client_buf s).

(** [libpcern::send(client_reply, w0, w1, 0, 0)] *)
Definition answer (s : fs_server) (x0 x1 : Z) : prog fs_server :=
  _ ← send (client_reply s) x0 x1 0 0; mret s.

(** One turn of the loop: the storage traffic, then the system calls. *)
Definition serve (clusters : nat) (v : bpb) (pg : list Z) (s : fs_server) (r : recv_result) : io (fs_state D) (prog fs_server) :=
  if w0 r =? FS_OP_SET_BUFFER then
    mret (if negb (transferred_slot r =? 0) then
            e ← map_memory (transferred_slot r) CLIENT_BUF_VIRT;
            mret (if e =? 0 then FsServer true (client_reply s) (pending_name_lo s) (opened s) pg else s)
          else mret s)
  else if w0 r =? FS_OP_SET_REPLY then
    mret (mret (if negb (transferred_slot r =? 0)
                then FsServer (client_buf_mapped s) (transferred_slot r) (pending_name_lo s) (opened s) (client_buf s)
                else s))
  else if w0 r =? FS_OP_OPEN_NAME1 then
    mret (mret (FsServer (client_buf_mapped s) (client_reply s) (u32_to_le (w1 r) ++ u32_to_le (w2 r))
                  (opened s) (client_buf s)))
  else if w0 r =? FS_OP_OPEN_NAME2 then
    if client_reply s =? 0 then mret (mret s)
    else
      f ← open_or_create clusters v (open_name s r) (negb (w2 r =? 0));
      match f with
      | Some (start, sz, loc) => mret (answer (set_opened (Some (OpenFile start sz loc)) s) 1 sz)
      | None => mret (answer (set_opened None s) 0 0)
      end
  else if w0 r =? FS_OP_READ then
    if client_reply s =? 0 then mret (mret s)
    else if negb (client_buf_mapped s) then mret (answer s 0 0)
    else
      match opened s with
      | Some file =>
          '(n, b) ← read_file v file (w1 r) (w2 r) (client_buf s);
          mret (answer (FsServer (client_buf_mapped s) (client_reply s) (pending_name_lo s) (opened s) b) n 0)
      | None => mret (answer s 0 0)
      end
  else if w0 r =? FS_OP_WRITE then
    if client_reply s =? 0 then mret (mret s)
    else if negb (client_buf_mapped s) then mret (answer s 0 0)
    else
      match opened s with
      | Some file =>
          '(n, file) ← write_file v file (w1 r) (w2 r) (client_buf s);
          mret (answer (set_opened (Some file) s) n 0)
      | None => mret (answer s 0 0)
      end
  else if w0 r =? FS_OP_TRUNCATE then
    if client_reply s =? 0 then mret (mret s)
    else
      match opened s with
      | Some file =>
          '(ok, file) ← truncate_file file (w1 r);
          mret (answer (set_opened (Some file) s) ok 0)
      | None => mret (answer s 0 0)
      end
  else mret (mret s).
End server.
