(* ===== verification/FatSpec.v ===== *)
(** * Correctness of the FAT32 file system

    The volume as the file server's functions see it: FAT entries, cluster chains, the
    bytes of a chain, and what reading, writing, allocating and opening do to them, for
    every block device that obeys [BlockLaws]. *)

From stdpp Require Import base list numbers.
From Stdlib Require Import Lia.
From S2P Require Import Prelude Pio Block Fat32.
Open Scope Z_scope.

(** ** Blocks of equal length *)

#[export] Instance dir_loc_dec : EqDecision dir_loc.
Proof. solve_decision. Defined.

Section blocks.
Context {A : Type} (n : Z).
Implicit Types bs : list (list A).

Lemma zlen_concat bs : Forall (fun b => zlen b = n) bs -> zlen (concat bs) = n * zlen bs.
Proof.
  induction 1 as [|b bs Hb F IH]; cbn [concat]; [change (zlen (@nil A)) with 0; change (zlen (@nil (list A))) with 0; lia|].
  rewrite zlen_app, zlen_cons, IH. lia.
Qed.

Lemma concat_split bs (i : nat) b :
  Forall (fun b => zlen b = n) bs -> bs !! i = Some b ->
  concat bs = concat (take i bs) ++ b ++ concat (drop (S i) bs) /\ zlen (concat (take i bs)) = n * Z.of_nat i.
Proof.
  intros F Hb. split.
  - rewrite <- (take_drop_middle _ _ _ Hb) at 1. by rewrite concat_app.
  - rewrite zlen_concat by (by apply Forall_take). apply lookup_lt_Some in Hb. unfold zlen. rewrite length_take. lia.
Qed.

Lemma sub_concat bs (i : nat) b a e :
  Forall (fun b => zlen b = n) bs -> bs !! i = Some b -> 0 <= a <= e -> e <= n ->
  sub (concat bs) (n * Z.of_nat i + a) (n * Z.of_nat i + e) = sub b a e.
Proof.
  intros F Hb Ha He. destruct (concat_split bs i b F Hb) as [E L]. rewrite E, <- L.
  assert (Lb : zlen b = n) by (eapply (Forall_lookup_1 _ _ _ _ F Hb)).
  rewrite sub_app_r, sub_app_l by lia. done.
Qed.

Lemma put_concat bs (i : nat) b a d :
  Forall (fun b => zlen b = n) bs -> bs !! i = Some b -> 0 <= a -> a + zlen d <= n ->
  concat (<[i := put b a d]> bs) = put (concat bs) (n * Z.of_nat i + a) d.
Proof.
  intros F Hb Ha Hd. destruct (concat_split bs i b F Hb) as [E L].
  assert (Lb : zlen b = n) by (eapply (Forall_lookup_1 _ _ _ _ F Hb)).
  rewrite insert_take_drop by (by eapply lookup_lt_Some). rewrite concat_app. cbn [concat].
  rewrite E, <- L, put_app_r, put_app_l by lia. done.
Qed.
End blocks.

(** A write that may extend, of which the first [m] bytes are kept. *)
Lemma sub_put_extend {A} (x : list A) off d sz :
  0 <= off <= sz -> sz <= zlen x -> off + zlen d <= zlen x ->
  sub (put x off d) 0 (Z.max sz (off + zlen d)) = put (sub x 0 sz) off d.
Proof.
  intros H1 H2 H3. pose proof (zlen_nonneg d). unfold sub, put, zlen in *. rewrite !drop_0, !Z.sub_0_r.
  rewrite take_take, Nat.min_l by lia. rewrite app_assoc, firstn_app, take_ge by (rewrite length_app, length_take; lia).
  rewrite <- app_assoc. do 2 f_equal. rewrite length_app, length_take.
  rewrite skipn_firstn_comm. f_equal. lia.
Qed.

Lemma sub_sub {A} (x : list A) z a e : 0 <= a <= e -> e <= z -> sub (sub x 0 z) a e = sub x a e.
Proof.
  intros Ha He. unfold sub. rewrite drop_0, Z.sub_0_r, skipn_firstn_comm, take_take. f_equal. lia.
Qed.

Lemma map_insert_at {A B} (f g : A -> B) (l : list A) (q : nat) c :
  l !! q = Some c -> NoDup l -> (forall x, x ∈ l -> x <> c -> g x = f x) -> map g l = <[q := g c]> (map f l).
Proof.
  intros Hq N E. apply list_eq. intros j. rewrite list_lookup_fmap.
  destruct (Nat.eq_dec j q) as [->|Hj].
  - rewrite list_lookup_insert_eq by (rewrite length_map; by eapply lookup_lt_Some). by rewrite Hq.
  - rewrite list_lookup_insert_ne, list_lookup_fmap by done. destruct (l !! j) as [x|] eqn:Ej; [|done]. cbn. f_equal.
    apply E; [by eapply list_elem_of_lookup_2|]. intros ->. apply Hj. by eapply NoDup_lookup.
Qed.

(** ** Words in sectors *)

Definition word16 (b : list Z) (o : Z) : Z := u16_from_le (byte_at b o) (byte_at b (o + 1)).
Definition word32 (b : list Z) (o : Z) : Z :=
  u32_from_le (byte_at b o) (byte_at b (o + 1)) (byte_at b (o + 2)) (byte_at b (o + 3)).

Lemma le16_ok b o : 0 <= o -> o + 2 <= zlen b -> le16 b o = Ok (word16 b o).
Proof. intros. unfold le16. by rewrite !bget_ok by lia. Qed.

Lemma le32_ok b o : 0 <= o -> o + 4 <= zlen b -> le32 b o = Ok (word32 b o).
Proof. intros. unfold le32. by rewrite !bget_ok by lia. Qed.

Lemma word32_put_same b o x : 0 <= o -> o + 4 <= zlen b -> is_u32 x -> word32 (put b o (u32_to_le x)) o = x.
Proof.
  intros Ho Hl Hx. unfold word32. rewrite !byte_at_put by (change (zlen (u32_to_le x)) with 4; lia).
  change (zlen (u32_to_le x)) with 4. rewrite !decide_True by lia.
  replace (o - o) with 0 by lia. replace (o + 1 - o) with 1 by lia. replace (o + 2 - o) with 2 by lia.
  replace (o + 3 - o) with 3 by lia. by apply u32_le_roundtrip.
Qed.

Lemma word32_put_other b o d o' :
  0 <= o -> o + zlen d <= zlen b -> 0 <= o' -> o' + 4 <= o \/ o + zlen d <= o' -> word32 (put b o d) o' = word32 b o'.
Proof.
  intros Ho Hl Ho' Hd. pose proof (zlen_nonneg d). unfold word32.
  rewrite !byte_at_put by lia. by rewrite !decide_False by lia.
Qed.

(** ** The volume *)

(** A volume with two FATs that fits the device. *)
Record geometry (cap : Z) (v : bpb) : Prop := {
  g_spc : 0 < sectors_per_cluster v < 256;
  g_begin : 0 <= fat_begin_sector v;
  g_fats : fat_begin_sector v + 2 * fat_sz32 v <= first_data_sector v;
  g_covered : 4 * (max_cluster v + 1) <= fat_sz32 v * SECTOR_SIZE;
  g_clusters : 2 <= max_cluster v < FAT32_EOC_MIN;
  g_end : first_data_sector v + (max_cluster v - 1) * sectors_per_cluster v <= cap;
  g_cap : cap <= 2 ^ 32
}.

Definition valid (v : bpb) (c : Z) : Prop := 2 <= c <= max_cluster v.

(** Where cluster [c]'s entry is in the first FAT, and its first data sector. *)
Definition fat_sector (v : bpb) (c : Z) : Z := fat_begin_sector v + 4 * c / SECTOR_SIZE.
Definition ent (c : Z) : Z := 4 * c mod SECTOR_SIZE.
Definition data_sector (v : bpb) (c : Z) : Z := first_data_sector v + (c - 2) * sectors_per_cluster v.

Definition in_fats (v : bpb) (l : Z) : Prop := fat_begin_sector v <= l < fat_begin_sector v + 2 * fat_sz32 v.

Ltac geo := unfold valid, fat_sector, ent, data_sector, in_fats, SECTOR_SIZE, FAT32_EOC_MIN in *.

Section volume.
Context {D : Type} {BD : BlockDevice D} {BL : BlockLaws D} (v : bpb) (G : geometry capacity v).
Implicit Types (s : fs_state D) (c : Z).

Definition sec s (l : Z) : list Z := sector (dev s) l.

(** Between requests, with a device that can reach every sector. *)
Record ready s : Prop := {
  re_idle : idle (dev s);
  re_buf : is_sector (storage_buf s);
  re_sound : forall l, 0 <= l < capacity -> sound (dev s) l
}.

Definition same s s' : Prop := forall l, 0 <= l < capacity -> sec s' l = sec s l.

Lemma same_refl s : same s s.
Proof. done. Qed.

Lemma same_trans s s' s'' : same s s' -> same s' s'' -> same s s''.
Proof. intros H1 H2 l Hl. by rewrite H2, H1. Qed.

Lemma sec_ok s l : ready s -> is_sector (sec s l).
Proof. intros R. apply sector_bytes, (re_idle _ R). Qed.

Lemma fs_read_sector_ok lba s :
  ready s -> 0 <= lba < capacity ->
  runs (read_sector lba) s (fun ok s' => ok = true /\ ready s' /\ same s s' /\ storage_buf s' = sec s lba).
Proof.
  intros R Hl. pose proof (read_block_law lba (storage_buf s) (dev s) (re_idle _ R) (re_buf _ R) Hl) as L.
  unfold runs, read_sector. destruct (read_block lba (storage_buf s) (dev s)) as [[ok b] d].
  destruct L as (I & B & C & F & E1 & E2). assert (ok = true) as -> by (apply E2, (re_sound _ R), Hl).
  split_and!; [done| |exact C|by apply E1]. split; [done|done|]. intros l Hl'. by apply F, (re_sound _ R).
Qed.

Lemma fs_write_sector_ok lba s :
  ready s -> 0 <= lba < capacity ->
  runs (write_sector lba) s (fun ok s' => ok = true /\ ready s' /\ sec s' lba = storage_buf s /\
    forall l, 0 <= l < capacity -> l <> lba -> sec s' l = sec s l).
Proof.
  intros R Hl. pose proof (write_block_law lba (storage_buf s) (dev s) (re_idle _ R) (re_buf _ R) Hl) as L.
  unfold runs, write_sector. destruct (write_block lba (storage_buf s) (dev s)) as [ok d].
  destruct L as (I & C & F & E1 & E2). assert (ok = true) as -> by (apply E2, (re_sound _ R), Hl).
  split_and!; [done| |by apply E1|exact C]. split; [done|apply (re_buf _ R)|]. intros l Hl'. by apply F, (re_sound _ R).
Qed.

Lemma set_buffer_ready b s : ready s -> is_sector b -> ready (FsState (dev s) b).
Proof. intros [I _ S] Hb. by split. Qed.

(** ** The FAT *)

Definition entry s c : Z := Z.land (word32 (sec s (fat_sector v c)) (ent c)) 0x0FFFFFFF.

(** The two FATs agree. *)
Definition mirrored s : Prop :=
  forall i, 0 <= i < fat_sz32 v -> sec s (fat_begin_sector v + fat_sz32 v + i) = sec s (fat_begin_sector v + i).

Lemma fat_offsets c :
  valid v c -> wrap32 (c * 4) = 4 * c /\ wrap32 (fat_begin_sector v + 4 * c / SECTOR_SIZE) = fat_sector v c /\
    wrap32 (wrap32 (fat_begin_sector v + fat_sz32 v) + 4 * c / SECTOR_SIZE) = fat_sector v c + fat_sz32 v /\
    0 <= fat_sector v c - fat_begin_sector v < fat_sz32 v /\ 0 <= ent c /\ ent c + 4 <= SECTOR_SIZE /\
    fat_sector v c + fat_sz32 v < capacity.
Proof.
  intros Hc. destruct G. geo. unfold wrap. change (2 ^ 32) with 4294967296 in *.
  assert (Hq : 0 <= 4 * c / 512 < fat_sz32 v) by dlia.
  assert (Hs : max_cluster v - 1 <= (max_cluster v - 1) * sectors_per_cluster v) by nia.
  rewrite (Z.mod_small (fat_begin_sector v + fat_sz32 v)) by lia.
  split_and!; try (apply Z.mod_small); try lia; try dlia.
Qed.

Lemma read_fat_entry_ok c s :
  ready s -> valid v c ->
  runs (read_fat_entry v c) s (fun r s' => r = Some (entry s c) /\ ready s' /\ same s s').
Proof.
  intros R Hc. destruct (fat_offsets c Hc) as (E1 & E2 & _ & H1 & H2 & H3 & H4). unfold read_fat_entry.
  rewrite E1, E2. destruct G. runs_step (fs_read_sector_ok (fat_sector v c) s R). { geo. lia. }
  intros ok s' (-> & R' & S' & B'). cbn [negb]. apply runs_bind, runs_get. rewrite B'.
  apply runs_bind, runs_pure. destruct (sec_ok s (fat_sector v c) R) as [L _].
  replace (4 * c mod SECTOR_SIZE) with (ent c) by done.
  eexists. split; [apply le32_ok; lia|]. by apply runs_ret.
Qed.

(** [next_cluster]'s reading of an entry. *)
Definition link (e : Z) : option Z := if (FAT32_EOC_MIN <=? e) || (e <? 2) then None else Some e.

Lemma next_cluster_ok c s :
  ready s -> valid v c ->
  runs (next_cluster v c) s (fun r s' => r = link (entry s c) /\ ready s' /\ same s s').
Proof.
  intros R Hc. destruct (fat_offsets c Hc) as (E1 & E2 & _ & H1 & H2 & H3 & H4). unfold next_cluster.
  rewrite E1, E2. destruct G. runs_step (fs_read_sector_ok (fat_sector v c) s R). { geo. lia. }
  intros ok s' (-> & R' & S' & B'). cbn [negb]. apply runs_bind, runs_get. rewrite B'.
  apply runs_bind, runs_pure. destruct (sec_ok s (fat_sector v c) R) as [L _].
  replace (4 * c mod SECTOR_SIZE) with (ent c) by done.
  eexists. split; [apply le32_ok; lia|]. by apply runs_ret.
Qed.

(** The word [write_fat_entry] stores. *)
Definition fat_word (old value : Z) : Z := Z.lor (Z.land old 0xF0000000) (Z.land value 0x0FFFFFFF).

Lemma fat_word_ok old value : is_u32 (fat_word old value) /\ Z.land (fat_word old value) 0x0FFFFFFF = Z.land value 0x0FFFFFFF.
Proof.
  unfold fat_word. split.
  - apply (lor_range _ _ 32); [lia|..]; pose proof (land_range old 0xF0000000); pose proof (land_range value 0x0FFFFFFF); lia.
  - rewrite Z.land_lor_distr_l, <- !Z.land_assoc. change (Z.land 0xF0000000 0x0FFFFFFF) with 0.
    by rewrite Z.land_0_r, Z.lor_0_l, Z.land_diag.
Qed.

Lemma is_sector_put b o d : is_sector b -> 0 <= o -> o + zlen d <= SECTOR_SIZE -> Forall is_u8 d -> is_sector (put b o d).
Proof. intros [L F] Ho Hd Fd. split; [rewrite zlen_put; lia|by apply Forall_put]. Qed.

Lemma u32_to_le_bytes x : Forall is_u8 (u32_to_le x).
Proof. unfold u32_to_le. repeat constructor; unfold is_u8; dlia. Qed.

Lemma write_fat_copy_ok l o x s :
  ready s -> 0 <= l < capacity -> 0 <= o -> o + 4 <= SECTOR_SIZE ->
  runs (write_fat_copy l o x) s (fun ok s' => ok = true /\ ready s' /\
    sec s' l = put (sec s l) o (u32_to_le (fat_word (word32 (sec s l) o) x)) /\
    forall l', 0 <= l' < capacity -> l' <> l -> sec s' l' = sec s l').
Proof.
  intros R Hl Ho1 Ho2. unfold write_fat_copy. runs_step (fs_read_sector_ok l s R Hl).
  intros ok s1 (-> & R1 & S1 & B1). cbn [negb]. apply runs_bind, runs_get. rewrite B1.
  destruct (sec_ok s l R) as [L F].
  apply runs_bind, runs_pure. eexists. split; [apply le32_ok; lia|]. fold (fat_word (word32 (sec s l) o) x).
  set (w := u32_to_le _). assert (Lw : zlen w = 4) by done.
  apply runs_bind, runs_pure. eexists. split; [apply bcopy_ok; lia|].
  apply runs_bind, runs_modify.
  assert (R2 : ready (FsState (dev s1) (put (sec s l) o w))).
  { apply set_buffer_ready; [done|]. apply is_sector_put; [by split|lia|lia|apply u32_to_le_bytes]. }
  eapply runs_mono; [apply (fs_write_sector_ok l _ R2 Hl)|]. intros ok s' (-> & R' & E' & C').
  split_and!; [done|done|exact E'|]. intros l' Hl' Hn. rewrite (C' l' Hl' Hn). by apply S1.
Qed.

(** The effect of storing [x] as the entry of [c]. *)
Record fat_set s s' c (x : Z) : Prop := {
  fs_entry : entry s' c = Z.land x 0x0FFFFFFF;
  fs_others : forall c', valid v c' -> c' <> c -> entry s' c' = entry s c';
  fs_data : forall l, 0 <= l < capacity -> ~ in_fats v l -> sec s' l = sec s l;
  fs_mirrored : mirrored s -> mirrored s'
}.

Lemma write_fat_entry_ok c x s :
  ready s -> valid v c ->
  runs (write_fat_entry v c x) s (fun ok s' => ok = true /\ ready s' /\ fat_set s s' c x).
Proof.
  intros R Hc. destruct (fat_offsets c Hc) as (E1 & E2 & E3 & H1 & H2 & H3 & H4). unfold write_fat_entry.
  rewrite E1, E2, E3. replace (4 * c mod SECTOR_SIZE) with (ent c) by done.
  set (f := fat_sector v c) in *. pose proof (g_begin _ _ G) as Gb.
  runs_step (write_fat_copy_ok f (ent c) x s R); [lia|lia|lia|].
  intros ok s1 (-> & R1 & A1 & C1). cbn [negb].
  eapply runs_mono; [apply (write_fat_copy_ok (f + fat_sz32 v) (ent c) x s1 R1); lia|].
  intros ok s2 (-> & R2 & A2 & C2). split; [done|]. split; [done|].
  destruct (sec_ok s f R) as [L _].
  assert (Af : sec s2 f = put (sec s f) (ent c) (u32_to_le (fat_word (word32 (sec s f) (ent c)) x)))
    by (rewrite C2 by lia; exact A1).
  split.
  - unfold entry. fold f. rewrite Af, word32_put_same; [apply fat_word_ok|lia|lia|apply fat_word_ok].
  - intros c' Hc' Hne. destruct (fat_offsets c' Hc') as (_ & _ & _ & K1 & K2 & K3 & K4). unfold entry.
    destruct (Z.eq_dec (fat_sector v c') f) as [Ef|Ef].
    + rewrite Ef, Af, word32_put_other; [done|lia|change (zlen (u32_to_le _)) with 4; lia|lia|].
      change (zlen (u32_to_le _)) with 4. subst f. geo. dlia.
    + rewrite C2, C1; [done|lia|lia|lia|lia].
  - intros l Hl Hn. unfold in_fats in Hn. rewrite C2, C1; [done|lia|lia|lia|lia].
  - intros M i Hi. destruct (Z.eq_dec (fat_begin_sector v + i) f) as [Ef|Ef].
    + replace (fat_begin_sector v + fat_sz32 v + i) with (f + fat_sz32 v) by lia. rewrite Ef, A2, Af.
      rewrite C1 by lia. rewrite <- Ef. replace (fat_begin_sector v + i + fat_sz32 v) with (fat_begin_sector v + fat_sz32 v + i) by lia.
      by rewrite M.
    + destruct G. rewrite !C2, !C1 by (geo; nia). by apply M.
Qed.

Lemma entry_same s s' c : same s s' -> valid v c -> entry s' c = entry s c.
Proof.
  intros S Hc. destruct (fat_offsets c Hc) as (_ & _ & _ & H1 & _ & _ & H4). pose proof (g_begin _ _ G).
  unfold entry. by rewrite S by lia.
Qed.

(** The effect of a change on the entries and data is that of the state it ends in. *)
Lemma fat_set_same s s1 s' c x : same s s1 -> valid v c -> fat_set s1 s' c x -> fat_set s s' c x.
Proof.
  intros S Hc [E O Dt M]. split; [done| | |].
  - intros c' Hc' Hn. rewrite O by done. by apply entry_same.
  - intros l Hl Hn. rewrite Dt by done. by apply S.
  - intros Ms. apply M. intros i Hi. destruct G. rewrite !S by (geo; nia). by apply Ms.
Qed.

(** ** Allocation *)

(** The first free cluster is taken, or none is free and nothing changes. *)
Definition allocated s (r : option Z) s' : Prop :=
  match r with
  | Some c => valid v c /\ entry s c = 0 /\ (forall c', 2 <= c' < c -> entry s c' <> 0) /\ fat_set s s' c FAT32_EOC_MIN
  | None => (forall c, valid v c -> entry s c <> 0) /\ same s s'
  end.

Lemma alloc_from_ok n c0 s0 s :
  ready s -> same s0 s -> 2 <= c0 -> c0 + Z.of_nat n = max_cluster v + 1 ->
  (forall c', 2 <= c' < c0 -> entry s0 c' <> 0) ->
  runs (alloc_from v n c0) s (fun r s' => ready s' /\ allocated s0 r s').
Proof.
  revert c0 s. induction n as [|n IH]; intros c0 s R S H0 Hn Hb; cbn [alloc_from].
  - apply runs_ret. split; [done|]. split; [|done]. intros c Hc. apply Hb. geo. lia.
  - assert (Hc : valid v c0) by (geo; lia). runs_step (read_fat_entry_ok c0 s R Hc). intros e s1 (-> & R1 & S1).
    assert (S01 : same s0 s1) by (by eapply same_trans). rewrite (entry_same s0 s) by done.
    destruct (Z.eq_dec (entry s0 c0) 0) as [E|E].
    + rewrite E. runs_step (write_fat_entry_ok c0 FAT32_EOC_MIN s1 R1 Hc). intros ok s2 (-> & R2 & F2).
      apply runs_ret. split; [done|]. split_and!; [done|done|done|]. by eapply fat_set_same.
    + assert (Eq : (match entry s0 c0 with
                    | 0 => ok ← write_fat_entry v c0 FAT32_EOC_MIN; mret (if ok : bool then Some c0 else None)
                    | _ => alloc_from v n (c0 + 1)
                    end) = alloc_from v n (c0 + 1)) by (by destruct (entry s0 c0)).
      rewrite Eq. apply IH; [done|done|lia|lia|]. intros c' Hc'. destruct (Z.eq_dec c' c0) as [->|]; [done|]. apply Hb. lia.
Qed.

Lemma alloc_cluster_ok s : ready s -> runs (alloc_cluster v) s (fun r s' => ready s' /\ allocated s r s').
Proof.
  intros R. pose proof (g_clusters _ _ G). apply alloc_from_ok; [done|apply same_refl|lia|lia|]. lia.
Qed.

(** ** Chains *)

(** Cluster [c] starts a chain through the clusters [l], which ends with a mark. *)
Inductive chain s : Z -> list Z -> Prop :=
| chain_last c : valid v c -> FAT32_EOC_MIN <= entry s c -> chain s c [c]
| chain_next c c' l : valid v c -> entry s c = c' -> valid v c' -> chain s c' l -> chain s c (c :: l).

Lemma chain_valid s c l : chain s c l -> Forall (valid v) l.
Proof. induction 1; by constructor. Qed.

Lemma chain_head s c l : chain s c l -> exists l', l = c :: l'.
Proof. inversion 1; eauto. Qed.

(** Clusters of a chain are not free. *)
Lemma chain_used s c l c' : chain s c l -> c' ∈ l -> entry s c' <> 0.
Proof.
  induction 1 as [c Hc E|c c1 l Hc E Hc1 C IH]; intros Hin.
  - apply list_elem_of_singleton in Hin as ->. geo. lia.
  - apply elem_of_cons in Hin as [->|Hin]; [geo; lia|by apply IH].
Qed.

Lemma chain_det s c l l' : chain s c l -> chain s c l' -> l = l'.
Proof.
  intros C. revert l'. induction C as [c Hc E|c c1 l Hc E Hc1 C IH]; intros l' C'; inversion C' as [? H1 H2|? c2 l2 H1 H2 H3 H4]; subst; try done.
  - destruct G. geo. lia.
  - destruct G. geo. lia.
  - f_equal. by apply IH.
Qed.

Lemma chain_suffix s c l l1 c' l2 : chain s c l -> l = l1 ++ c' :: l2 -> chain s c' (c' :: l2).
Proof.
  intros C. revert l1. induction C as [c Hc E|c c1 l Hc E Hc1 C IH]; intros [|x l1] El; cbn in El.
  - injection El as <- <-. by constructor.
  - injection El as _ El. by destruct l1.
  - injection El as <- <-. by econstructor.
  - injection El as _ ->. by eapply IH.
Qed.

Lemma chain_nodup s c l : chain s c l -> NoDup l.
Proof.
  intros C. induction C as [c Hc E|c c1 l Hc E Hc1 C IH]; [apply NoDup_singleton|]. constructor; [|done].
  intros (l1 & l2 & ->)%list_elem_of_split.
  assert (C0 : chain s c (c :: l1 ++ c :: l2)) by (by econstructor).
  pose proof (chain_suffix _ _ _ (c :: l1) c l2 C0 eq_refl) as C2.
  pose proof (chain_det _ _ _ _ C0 C2) as Eq. apply (f_equal length) in Eq. cbn in Eq. rewrite length_app in Eq. cbn in Eq. lia.
Qed.

(** A chain depends on the entries of its clusters only. *)
Lemma chain_frame s s' c l : chain s c l -> (forall c', c' ∈ l -> entry s' c' = entry s c') -> chain s' c l.
Proof.
  induction 1 as [c Hc E|c c1 l Hc E Hc1 C IH]; intros F.
  - constructor; [done|]. by rewrite F by (by apply list_elem_of_singleton).
  - econstructor; [done| |done|].
    + rewrite F by (by apply elem_of_cons; left). exact E.
    + apply IH. intros c' Hc'. apply F. by apply elem_of_cons; right.
Qed.

Lemma chain_same s s' c l : same s s' -> chain s c l -> chain s' c l.
Proof.
  intros S C. eapply chain_frame; [done|]. intros c' Hc'. apply entry_same; [done|].
  apply (proj1 (Forall_forall _ _) (chain_valid _ _ _ C)). by apply list_elem_of_In.
Qed.

(** The entry of the last cluster now points to a new last one. *)
Lemma chain_extend s s' c l cl new :
  chain s c (l ++ [cl]) -> new ∉ l ++ [cl] -> valid v new ->
  (forall c', c' ∈ l -> entry s' c' = entry s c') -> entry s' cl = new -> FAT32_EOC_MIN <= entry s' new ->
  chain s' c ((l ++ [cl]) ++ [new]).
Proof.
  revert c. induction l as [|x l IH]; intros c C Hn Hv F Ecl En.
  - pose proof (chain_valid _ _ _ C) as V. inversion V; subst. destruct (chain_head _ _ _ C) as (? & [= <- _]).
    cbn. econstructor; [done|done|done|]. by constructor.
  - destruct (chain_head _ _ _ C) as (? & [= <- _]). inversion C as [?|? c1 ? H1 H2 H3 H4]; subst; [by destruct l|].
    cbn. econstructor; [done|apply F; by left|exact H3|].
    apply IH; try done.
    + intros Hin. apply Hn. by right.
    + intros c' Hc'. apply F. by right.
Qed.

Lemma link_eoc e : FAT32_EOC_MIN <= e -> link e = None.
Proof. intros H. unfold link. by rewrite (proj2 (Z.leb_le _ _) H). Qed.

Lemma link_valid c : valid v c -> link c = Some c.
Proof.
  intros H. destruct G. geo. unfold link, FAT32_EOC_MIN.
  rewrite (proj2 (Z.leb_gt _ _)), (proj2 (Z.ltb_ge _ _)) by lia. done.
Qed.

Lemma walk_ok (n : nat) c l cl s :
  ready s -> chain s c l -> l !! n = Some cl ->
  runs (walk v n c) s (fun r s' => r = Some cl /\ ready s' /\ same s s').
Proof.
  intros R C. revert n s R C. revert c. induction l as [|x l IH]; intros c n s R C Hn; [done|].
  destruct (chain_head _ _ _ C) as (? & [= <- _]). destruct n as [|n]; cbn [walk].
  - injection Hn as ->. apply runs_ret. by split_and!.
  - pose proof (chain_valid _ _ _ C) as V. inversion V as [|? ? Vx _]; subst.
    runs_step (next_cluster_ok x s R Vx). intros r s1 (-> & R1 & S1).
    inversion C as [?|? c1 ? H1 H2 H3 H4]; subst; [by destruct n|]. rewrite link_valid by done.
    eapply runs_mono; [apply IH; [done|by eapply chain_same|done]|].
    intros r s2 (-> & R2 & S2). split_and!; [done|done|by eapply same_trans].
Qed.

Lemma land_cluster c : valid v c -> Z.land c 0x0FFFFFFF = c.
Proof.
  intros Hc. destruct G. geo. change 0x0FFFFFFF with (Z.ones 28). rewrite Z.land_ones by lia. apply Z.mod_small. lia.
Qed.

(** What adding a new last cluster to the chain [l] from [c] does, or that the disk is full. *)
Definition extended s c l (r : option Z) s' : Prop :=
  match r with
  | Some new => valid v new /\ entry s new = 0 /\ chain s' c (l ++ [new]) /\
      (forall c', valid v c' -> c' ∉ l -> c' <> new -> entry s' c' = entry s c') /\
      (forall k, 0 <= k < capacity -> ~ in_fats v k -> sec s' k = sec s k) /\ (mirrored s -> mirrored s')
  | None => same s s' /\ forall c', valid v c' -> entry s c' <> 0
  end.

(** Storing a new cluster's number behind the last one. *)
Lemma link_new c l x s s2 s3 new :
  chain s c (l ++ [x]) -> allocated s (Some new) s2 -> fat_set s2 s3 x new -> extended s c (l ++ [x]) (Some new) s3.
Proof.
  intros C (Vn & En & _ & F2) F3.
  assert (Vx : valid v x).
  { apply (proj1 (Forall_forall _ _) (chain_valid _ _ _ C)), in_app_iff. right. by left. }
  assert (Hnl : new ∉ l ++ [x]) by (intros Hin; by apply (chain_used _ _ _ _ C Hin)).
  assert (Hnx : new <> x) by (intros ->; apply Hnl, elem_of_app; right; by left).
  assert (E3 : entry s3 new = FAT32_EOC_MIN).
  { rewrite (fs_others _ _ _ _ F3) by done. rewrite (fs_entry _ _ _ _ F2). done. }
  split_and!; [done|done| | | |].
  - apply (chain_extend s s3 c l x new); try done.
    + intros c' Hc'. pose proof (chain_nodup _ _ _ C) as N. apply list.NoDup_app in N as (_ & N & _).
      assert (Hx : c' <> x) by (intros ->; apply (N x Hc'); by left).
      assert (Vc : valid v c').
      { apply (proj1 (Forall_forall _ _) (chain_valid _ _ _ C)), in_app_iff. left. by apply list_elem_of_In. }
      assert (c' <> new) by (intros ->; apply Hnl, elem_of_app; by left).
      by rewrite (fs_others _ _ _ _ F3), (fs_others _ _ _ _ F2).
    + rewrite (fs_entry _ _ _ _ F3). by apply land_cluster.
    + rewrite E3. done.
  - intros c' Vc Hc' Hne. assert (c' <> x) by (intros ->; apply Hc', elem_of_app; right; by left).
    by rewrite (fs_others _ _ _ _ F3), (fs_others _ _ _ _ F2).
  - intros k Hk Hn. by rewrite (fs_data _ _ _ _ F3), (fs_data _ _ _ _ F2).
  - intros M. by apply (fs_mirrored _ _ _ _ F3), (fs_mirrored _ _ _ _ F2).
Qed.

Lemma allocated_same s0 s r s' : same s0 s -> allocated s r s' -> allocated s0 r s'.
Proof.
  intros S. destruct r as [new|].
  - intros (Vn & En & Fst & F2). split_and!; [done| | |by eapply fat_set_same].
    + by rewrite <- (entry_same s0 s).
    + intros c' Hc'. rewrite <- (entry_same s0 s); [by apply Fst|done|geo; lia].
  - intros [N S2]. split; [|by eapply same_trans]. intros c' Hc'. rewrite <- (entry_same s0 s) by done. by apply N.
Qed.

Lemma extend_from c0 l1 l c s0 s :
  ready s -> same s0 s -> chain s0 c0 (l1 ++ l) -> chain s0 c l ->
  runs (walk_extend v (length l) c) s (fun r s' => ready s' /\ extended s0 c0 (l1 ++ l) r s').
Proof.
  intros R S C0 C. revert l1 s R S C0. induction C as [c Hc E|c c1 l Hc E Hc1 C IH]; intros l1 s R S C0; cbn [length walk_extend].
  - runs_step (next_cluster_ok c s R Hc). intros r s1 (-> & R1 & S1). rewrite (entry_same s0 s), link_eoc by done.
    assert (S01 : same s0 s1) by (by eapply same_trans).
    runs_step (alloc_cluster_ok s1 R1). intros [new|] s2 [R2 A2].
    + pose proof (allocated_same _ _ _ _ S01 A2) as A. runs_step (write_fat_entry_ok c new s2 R2 Hc). intros ok s3 (-> & R3 & F3). cbn [negb].
      apply runs_ret. split; [done|]. by eapply link_new.
    + apply runs_ret. split; [done|]. by destruct (allocated_same _ _ _ _ S01 A2).
  - runs_step (next_cluster_ok c s R Hc). intros r s1 (-> & R1 & S1).
    rewrite (entry_same s0 s), E, link_valid by done.
    replace (l1 ++ c :: l) with ((l1 ++ [c]) ++ l) in * by (by rewrite <- app_assoc).
    apply IH; [done|by eapply same_trans|done].
Qed.

Lemma extend_ok c l s :
  ready s -> chain s c l ->
  runs (walk_extend v (length l) c) s (fun r s' => ready s' /\ extended s c l r s').
Proof. intros R C. by apply (extend_from c [] l c s s). Qed.

Lemma walk_extend_walk (n : nat) c l cl s :
  ready s -> chain s c l -> l !! n = Some cl ->
  runs (walk_extend v n c) s (fun r s' => r = Some cl /\ ready s' /\ same s s').
Proof.
  intros R C. revert n s R C. revert c. induction l as [|x l IH]; intros c n s R C Hn; [done|].
  destruct (chain_head _ _ _ C) as (? & [= <- _]). destruct n as [|n]; cbn [walk_extend].
  - injection Hn as ->. apply runs_ret. by split_and!.
  - pose proof (chain_valid _ _ _ C) as V. inversion V as [|? ? Vx _]; subst.
    runs_step (next_cluster_ok x s R Vx). intros r s1 (-> & R1 & S1).
    inversion C as [?|? c1 ? H1 H2 H3 H4]; subst; [by destruct n|]. rewrite link_valid by done.
    eapply runs_mono; [apply IH; [done|by eapply chain_same|done]|].
    intros r s2 (-> & R2 & S2). split_and!; [done|done|by eapply same_trans].
Qed.

(** ** Data *)

Definition cluster_len : Z := sectors_per_cluster v * SECTOR_SIZE.

Definition cluster_sectors s c : list (list Z) :=
  map (fun i => sec s (data_sector v c + Z.of_nat i)) (seq 0 (Z.to_nat (sectors_per_cluster v))).

(** The bytes of a chain, cluster after cluster. *)
Definition chain_bytes s (l : list Z) : list Z := concat (map (fun c => concat (cluster_sectors s c)) l).

Lemma data_sector_range c i :
  valid v c -> 0 <= i < sectors_per_cluster v ->
  0 <= data_sector v c + i < capacity /\ ~ in_fats v (data_sector v c + i).
Proof.
  intros Hc Hi. destruct G. geo.
  assert (0 <= (c - 2) * sectors_per_cluster v) by nia.
  assert ((c - 2) * sectors_per_cluster v + sectors_per_cluster v <= (max_cluster v - 1) * sectors_per_cluster v) by nia.
  lia.
Qed.

Lemma cluster_to_sector_ok c : valid v c -> cluster_to_sector v c = data_sector v c.
Proof.
  intros Hc. destruct (data_sector_range c 0 Hc) as [H _]; [destruct G; lia|]. destruct G. geo.
  assert (0 <= (c - 2) * sectors_per_cluster v) by nia.
  assert ((c - 2) * sectors_per_cluster v <= (max_cluster v - 1) * sectors_per_cluster v) by nia.
  unfold cluster_to_sector, wrap. change (2 ^ 32) with 4294967296 in *.
  rewrite (Z.mod_small (c - 2)) by lia. rewrite (Z.mod_small (_ * _)) by lia. apply Z.mod_small. lia.
Qed.

Lemma cluster_size_ok : cluster_size_bytes v = cluster_len.
Proof. destruct G. unfold cluster_size_bytes, cluster_len, SECTOR_SIZE. apply wrap_small. lia. Qed.

Lemma cluster_sectors_blocks s c : ready s -> Forall (fun b => zlen b = SECTOR_SIZE) (cluster_sectors s c).
Proof. intros R. apply Forall_map, Forall_forall. intros i _. apply (sec_ok s _ R). Qed.

Lemma chain_blocks s l : ready s -> Forall (fun b => zlen b = cluster_len) (map (fun c => concat (cluster_sectors s c)) l).
Proof.
  intros R. apply Forall_map, Forall_forall. intros c _. rewrite (zlen_concat SECTOR_SIZE) by (by apply cluster_sectors_blocks).
  unfold cluster_sectors, cluster_len. pose proof (g_spc _ _ G). unfold zlen. rewrite length_map, length_seq. lia.
Qed.

Lemma zlen_chain_bytes s l : ready s -> zlen (chain_bytes s l) = cluster_len * zlen l.
Proof.
  intros R. unfold chain_bytes. rewrite (zlen_concat cluster_len) by (by apply chain_blocks). unfold zlen. by rewrite length_map.
Qed.

Lemma cluster_sector_lookup s c i :
  0 <= i < sectors_per_cluster v -> cluster_sectors s c !! Z.to_nat i = Some (sec s (data_sector v c + i)).
Proof.
  intros Hi. unfold cluster_sectors. rewrite list_lookup_fmap, lookup_seq_lt by lia. cbn. by rewrite Z2Nat.id by lia.
Qed.

(** Offset [o] of a chain: the cluster, the sector in it and the byte there. *)
Lemma offset_split o :
  0 <= o -> 0 <= o mod cluster_len / SECTOR_SIZE < sectors_per_cluster v /\ o mod cluster_len mod SECTOR_SIZE = o mod SECTOR_SIZE /\
    o = cluster_len * (o / cluster_len) + (SECTOR_SIZE * (o mod cluster_len / SECTOR_SIZE) + o mod SECTOR_SIZE).
Proof.
  intros Ho. pose proof (g_spc _ _ G). unfold cluster_len, SECTOR_SIZE in *. set (k := sectors_per_cluster v) in *.
  assert (Hm : o mod (k * 512) mod 512 = o mod 512).
  { apply Z.mod_mod_divide. by exists k. }
  pose proof (Z.mod_pos_bound o (k * 512) ltac:(lia)) as Hb. pose proof (Z.div_mod o (k * 512) ltac:(lia)) as Ho'.
  revert Hm Hb Ho'. generalize (o mod (k * 512)) (o / (k * 512)). intros m q Hm Hb Ho'.
  split_and!; [dlia|dlia|done|]. rewrite <- Hm. dlia.
Qed.

(** A piece of a chain within a sector. *)
Lemma chain_piece s l c o n :
  ready s -> 0 <= o -> l !! Z.to_nat (o / cluster_len) = Some c -> 0 <= n <= SECTOR_SIZE - o mod SECTOR_SIZE ->
  sub (chain_bytes s l) o (o + n) =
  sub (sec s (data_sector v c + o mod cluster_len / SECTOR_SIZE)) (o mod SECTOR_SIZE) (o mod SECTOR_SIZE + n).
Proof.
  intros R Ho Hc Hn. destruct (offset_split o Ho) as (Hi & _ & E). pose proof (g_spc _ _ G).
  set (i := o mod cluster_len / SECTOR_SIZE) in *. set (q := o / cluster_len) in *.
  pose proof (Z.mod_pos_bound o SECTOR_SIZE ltac:(unfold SECTOR_SIZE; lia)) as Hb.
  assert (Hq : 0 <= q) by (apply Z.div_pos; unfold cluster_len, SECTOR_SIZE; lia).
  set (a := o mod SECTOR_SIZE) in *.
  assert (Eo : o = cluster_len * Z.of_nat (Z.to_nat q) + (SECTOR_SIZE * i + a)) by (rewrite Z2Nat.id by lia; exact E).
  rewrite Eo at 1. replace (o + n) with (cluster_len * Z.of_nat (Z.to_nat q) + (SECTOR_SIZE * i + (a + n))) by lia.
  unfold chain_bytes. rewrite (sub_concat cluster_len _ (Z.to_nat q) (concat (cluster_sectors s c))).
  - rewrite <- (Z2Nat.id i) at 1 2 by lia.
    apply (sub_concat SECTOR_SIZE); [by apply cluster_sectors_blocks|by apply cluster_sector_lookup|lia|lia].
  - by apply chain_blocks.
  - by rewrite list_lookup_fmap, Hc.
  - unfold SECTOR_SIZE in *. lia.
  - unfold cluster_len, SECTOR_SIZE in *. nia.
Qed.

(** ** Files *)

(** An open file and the clusters its bytes are in. *)
Definition file_on s (f : open_file) (l : list Z) : Prop :=
  is_u32 (size f) /\ size f <= cluster_len * zlen l /\
  (start_cluster f = 0 /\ l = [] \/ chain s (start_cluster f) l).

Definition file_bytes s (f : open_file) (l : list Z) : list Z := sub (chain_bytes s l) 0 (size f).

(** How many bytes one request moves. *)
Definition piece (o len : Z) : Z := Z.min len (SECTOR_SIZE - o mod SECTOR_SIZE).

Lemma chain_bytes_same s s' l : same s s' -> Forall (valid v) l -> chain_bytes s' l = chain_bytes s l.
Proof.
  intros S V. unfold chain_bytes. f_equal. apply map_ext_in. intros c Hc. f_equal. apply map_ext_in. intros i Hi.
  apply in_seq in Hi. pose proof (g_spc _ _ G). apply S.
  apply data_sector_range; [by apply (proj1 (Forall_forall _ _) V)|lia].
Qed.

(** The cluster an offset below the end of the clusters is in. *)
Lemma offset_cluster o (l : list Z) :
  0 <= o < cluster_len * zlen l -> exists c, l !! Z.to_nat (o / cluster_len) = Some c.
Proof.
  intros H. pose proof (g_spc _ _ G). apply lookup_lt_is_Some_2. unfold zlen in H.
  assert (Hc : 0 < cluster_len) by (unfold cluster_len, SECTOR_SIZE; lia).
  assert (o / cluster_len < Z.of_nat (length l)) by (apply Z.div_lt_upper_bound; lia).
  assert (0 <= o / cluster_len) by (apply Z.div_pos; lia). lia.
Qed.

Lemma data_sector_wrap c i :
  valid v c -> 0 <= i < sectors_per_cluster v -> wrap32 (cluster_to_sector v c + i) = data_sector v c + i.
Proof.
  intros Hc Hi. rewrite cluster_to_sector_ok by done. destruct (data_sector_range c i Hc Hi) as [H _].
  apply wrap_small. pose proof (g_cap _ _ G). lia.
Qed.

Lemma read_file_ok f l o len client s :
  ready s -> file_on s f l -> 0 <= o -> 0 <= len -> is_sector client ->
  runs (read_file v f o len client) s (fun '(n, client') s' =>
    ready s' /\ same s s' /\ n = Z.max 0 (Z.min (piece o len) (size f - o)) /\
    client' = put client 0 (sub (file_bytes s f l) o (o + n))).
Proof.
  intros R (Hz & Hl & Hf) Ho Hn [Lc _]. unfold read_file. rewrite cluster_size_ok.
  pose proof (Z.mod_pos_bound o SECTOR_SIZE ltac:(unfold SECTOR_SIZE; lia)) as Hb.
  destruct (size f <=? o) eqn:E; bool_simp.
  { apply runs_ret. unfold piece. rewrite (Z.max_l 0) by lia. rewrite Z.add_0_r, sub_diag, put_nil. by split_and!. }
  destruct Hf as [[_ ->]|C]; [change (zlen (@nil Z)) with 0 in Hl; lia|].
  destruct (offset_cluster o l) as [c Hc]; [lia|].
  assert (Vc : valid v c).
  { apply (proj1 (Forall_forall _ _) (chain_valid _ _ _ C)). apply list_elem_of_In. by eapply list_elem_of_lookup_2. }
  destruct (offset_split o Ho) as (Hi & Hm & _). rewrite Hm.
  runs_step (walk_ok _ _ _ _ s R C Hc). intros r s1 (-> & R1 & S1).
  rewrite data_sector_wrap by done. set (lba := data_sector v c + _).
  assert (Hr : 0 <= lba < capacity) by (by apply data_sector_range).
  runs_step (fs_read_sector_ok lba s1 R1 Hr). intros ok s2 (-> & R2 & S2 & B2). cbn [negb].
  apply runs_bind, runs_get. rewrite B2. rewrite (S1 lba Hr). destruct (sec_ok s lba R) as [L _].
  fold (piece o len). set (n := Z.min (piece o len) (size f - o)).
  assert (Hn' : 0 <= n <= SECTOR_SIZE - o mod SECTOR_SIZE) by (unfold n, piece; lia).
  apply runs_bind, runs_pure. eexists. split; [apply bslice_ok; lia|].
  assert (Ls : zlen (sub (sec s lba) (o mod SECTOR_SIZE) (o mod SECTOR_SIZE + n)) = n) by (rewrite zlen_sub; lia).
  apply runs_bind, runs_pure. eexists. split; [apply bcopy_ok; lia|].
  apply runs_ret. rewrite Z.max_r by lia. split_and!; [done|by eapply same_trans|done|]. f_equal.
  unfold file_bytes. rewrite sub_sub by (rewrite ?zlen_chain_bytes by done; lia). symmetry. by apply chain_piece.
Qed.

(** ** Directory entries *)

(** The first cluster and the size an entry records, as [find_in_root] reads them. *)
Definition entry_start (b : list Z) (off : Z) : Z :=
  Z.lor (wrap32 (Z.shiftl (word16 b (off + 20)) 16)) (word16 b (off + 26)).
Definition entry_size (b : list Z) (off : Z) : Z := word32 b (off + 28).

(** [b'] is [b] with the entry at [off] naming [start] and [sz]. *)
Record dirent_set (b b' : list Z) (off start sz : Z) : Prop := {
  de_start : entry_start b' off = start;
  de_size : entry_size b' off = sz;
  de_rest : forall i, 0 <= i -> ~ (off + 20 <= i < off + 22) -> ~ (off + 26 <= i < off + 32) -> byte_at b' i = byte_at b i
}.

Definition dirent_put (b : list Z) (off start sz : Z) : list Z :=
  put (put (put b (off + 20) (u16_to_le (wrap16 (Z.shiftr start 16)))) (off + 26) (u16_to_le (wrap16 (Z.land start 0xFFFF))))
    (off + 28) (u32_to_le sz).

Lemma u16_to_le_bytes x : Forall is_u8 (u16_to_le x).
Proof. unfold u16_to_le. repeat constructor; unfold is_u8; dlia. Qed.

Lemma dirent_put_sector b off start sz : is_sector b -> 0 <= off -> off + 32 <= SECTOR_SIZE -> is_sector (dirent_put b off start sz).
Proof.
  intros Hb H1 H2. unfold dirent_put.
  repeat apply is_sector_put; try done; try apply u16_to_le_bytes; try apply u32_to_le_bytes;
    change (zlen (u16_to_le _)) with 2; change (zlen (u32_to_le _)) with 4; lia.
Qed.

Lemma word16_put_same b o x : 0 <= o -> o + 2 <= zlen b -> is_u16 x -> word16 (put b o (u16_to_le x)) o = x.
Proof.
  intros Ho Hl Hx. unfold word16. rewrite !byte_at_put by (change (zlen (u16_to_le x)) with 2; lia).
  change (zlen (u16_to_le x)) with 2. rewrite !decide_True by lia.
  replace (o - o) with 0 by lia. replace (o + 1 - o) with 1 by lia.
  change (byte_at (u16_to_le x) 0) with (x mod 256). change (byte_at (u16_to_le x) 1) with (x / 256 mod 256).
  unfold u16_from_le, is_u16 in *. dlia.
Qed.

Lemma word16_put_other b o d o' :
  0 <= o -> o + zlen d <= zlen b -> 0 <= o' -> o' + 2 <= o \/ o + zlen d <= o' -> word16 (put b o d) o' = word16 b o'.
Proof.
  intros Ho Hl Ho' Hd. pose proof (zlen_nonneg d). unfold word16.
  rewrite !byte_at_put by lia. by rewrite !decide_False by lia.
Qed.

Lemma dirent_put_ok b off start sz :
  is_sector b -> 0 <= off -> off + 32 <= SECTOR_SIZE -> is_u32 start -> is_u32 sz ->
  dirent_set b (dirent_put b off start sz) off start sz.
Proof.
  intros [L _] H1 H2 Hs Hz. unfold SECTOR_SIZE in *. unfold dirent_put, is_u32 in *.
  set (hi := wrap16 (Z.shiftr start 16)). set (lo := wrap16 (Z.land start 0xFFFF)).
  assert (Ehi : hi = start / 65536).
  { unfold hi. rewrite Z.shiftr_div_pow2 by lia. apply wrap_small. change (2 ^ 16) with 65536. dlia. }
  assert (Elo : lo = start mod 65536).
  { unfold lo. change 0xFFFF with (Z.ones 16). rewrite Z.land_ones by lia. apply wrap_small, Z.mod_pos_bound. lia. }
  set (b1 := put b (off + 20) (u16_to_le hi)). set (b2 := put b1 (off + 26) (u16_to_le lo)).
  assert (L1 : zlen b1 = 512) by (unfold b1; rewrite zlen_put; change (zlen (u16_to_le _)) with 2; lia).
  assert (L2 : zlen b2 = 512) by (unfold b2; rewrite zlen_put; change (zlen (u16_to_le _)) with 2; lia).
  assert (U : is_u16 hi /\ is_u16 lo) by (unfold is_u16; dlia). destruct U as [Uh Ul]. split.
  - unfold entry_start. rewrite !(word16_put_other b2) by (change (zlen (u32_to_le _)) with 4; lia).
    unfold b2. rewrite (word16_put_same b1) by (try done; lia).
    rewrite (word16_put_other b1) by (change (zlen (u16_to_le _)) with 2; lia).
    unfold b1. rewrite word16_put_same by (try done; lia). rewrite Ehi, Elo.
    rewrite Z.shiftl_mul_pow2 by lia. change (2 ^ 16) with 65536. rewrite wrap_small by (change (2 ^ 32) with 4294967296; dlia).
    rewrite (lor_disjoint _ _ 16); [dlia|lia|apply Z.mod_mul; lia|change (2 ^ 16) with 65536; dlia].
  - unfold entry_size. apply word32_put_same; [lia|lia|done].
  - intros i Hi N1 N2. rewrite byte_at_put; change (zlen (u32_to_le _)) with 4; [|lia..].
    rewrite decide_False by lia. unfold b2. rewrite byte_at_put; change (zlen (u16_to_le _)) with 2; [|lia..].
    rewrite decide_False by lia. unfold b1. rewrite byte_at_put; change (zlen (u16_to_le _)) with 2; [|lia..].
    by rewrite decide_False by lia.
Qed.

Lemma write_dirent_update_ok loc start sz s :
  ready s -> 0 <= dsector loc < capacity -> 0 <= doffset loc -> doffset loc + 32 <= SECTOR_SIZE ->
  runs (write_dirent_update loc start sz) s (fun ok s' => ok = true /\ ready s' /\
    sec s' (dsector loc) = dirent_put (sec s (dsector loc)) (doffset loc) start sz /\
    forall l, 0 <= l < capacity -> l <> dsector loc -> sec s' l = sec s l).
Proof.
  intros R Hl H1 H2. unfold write_dirent_update. runs_step (fs_read_sector_ok _ s R Hl).
  intros ok s1 (-> & R1 & S1 & B1). cbn [negb]. apply runs_bind, runs_get. rewrite B1.
  pose proof (sec_ok s (dsector loc) R) as Hb. destruct Hb as [L F]. unfold SECTOR_SIZE in *.
  apply runs_bind, runs_pure. eexists. split; [apply bcopy_ok; change (zlen (u16_to_le _)) with 2; lia|].
  apply runs_bind, runs_pure. eexists. split.
  { apply bcopy_ok; [lia|]. rewrite zlen_put; change (zlen (u16_to_le _)) with 2; lia. }
  apply runs_bind, runs_pure. eexists. split.
  { apply bcopy_ok; [lia|]. rewrite !zlen_put; change (zlen (u16_to_le _)) with 2; change (zlen (u32_to_le _)) with 4; try lia.
    rewrite zlen_put; change (zlen (u16_to_le _)) with 2; lia. }
  fold (dirent_put (sec s (dsector loc)) (doffset loc) start sz). apply runs_bind, runs_modify.
  assert (R2 : ready (FsState (dev s1) (dirent_put (sec s (dsector loc)) (doffset loc) start sz))).
  { apply set_buffer_ready; [done|]. apply dirent_put_sector; [by split|done|done]. }
  eapply runs_mono; [apply (fs_write_sector_ok _ _ R2 Hl)|]. intros ok s' (-> & R' & E' & C').
  split_and!; [done|done|exact E'|]. intros l' Hl' Hn. rewrite (C' l' Hl' Hn). by apply S1.
Qed.

(** ** Writing *)

(** The sectors of cluster [c]. *)
Definition in_cluster c (k : Z) : Prop := data_sector v c <= k < data_sector v c + sectors_per_cluster v.

Lemma in_cluster_inj c c' k : in_cluster c k -> in_cluster c' k -> c = c'.
Proof. unfold in_cluster. pose proof (g_spc _ _ G). geo. nia. Qed.

Lemma cluster_sectors_frame s s' c :
  valid v c -> (forall k, in_cluster c k -> sec s' k = sec s k) -> cluster_sectors s' c = cluster_sectors s c.
Proof.
  intros Hc F. apply map_ext_in. intros i Hi. apply in_seq in Hi. pose proof (g_spc _ _ G). apply F. unfold in_cluster. lia.
Qed.

Lemma chain_bytes_frame s s' l :
  Forall (valid v) l -> (forall c k, c ∈ l -> in_cluster c k -> sec s' k = sec s k) -> chain_bytes s' l = chain_bytes s l.
Proof.
  intros V F. unfold chain_bytes. f_equal. apply map_ext_in. intros c Hc. f_equal.
  apply cluster_sectors_frame; [by apply (proj1 (Forall_forall _ _) V)|]. intros k. apply F. by apply list_elem_of_In.
Qed.

(** Bytes written to a sector of a chain are bytes written to the chain. *)
Lemma chain_bytes_write s s' l c o d :
  ready s -> Forall (valid v) l -> NoDup l -> 0 <= o -> l !! Z.to_nat (o / cluster_len) = Some c ->
  o mod SECTOR_SIZE + zlen d <= SECTOR_SIZE ->
  let lba := data_sector v c + o mod cluster_len / SECTOR_SIZE in
  sec s' lba = put (sec s lba) (o mod SECTOR_SIZE) d ->
  (forall x k, x ∈ l -> in_cluster x k -> k <> lba -> sec s' k = sec s k) ->
  chain_bytes s' l = put (chain_bytes s l) o d.
Proof.
  intros R V N Ho Hc Hd lba Hw F. destruct (offset_split o Ho) as (Hi & _ & E). pose proof (g_spc _ _ G) as Hs.
  pose proof (Z.mod_pos_bound o SECTOR_SIZE ltac:(unfold SECTOR_SIZE; lia)) as Hb.
  assert (Hcl : c ∈ l) by (by eapply list_elem_of_lookup_2).
  assert (Hlba : in_cluster c lba) by (unfold in_cluster, lba; lia).
  set (i := o mod cluster_len / SECTOR_SIZE) in *. set (q := o / cluster_len) in *.
  assert (Hq : 0 <= q) by (apply Z.div_pos; unfold cluster_len, SECTOR_SIZE; lia).
  assert (Ec : cluster_sectors s' c = <[Z.to_nat i := put (sec s lba) (o mod SECTOR_SIZE) d]> (cluster_sectors s c)).
  { unfold cluster_sectors.
    rewrite (map_insert_at (fun j => sec s (data_sector v c + Z.of_nat j)) _ _ (Z.to_nat i) (Z.to_nat i)).
    - f_equal. rewrite Z2Nat.id by lia. exact Hw.
    - rewrite lookup_seq_lt by lia. done.
    - apply NoDup_seq.
    - intros j Hj%list_elem_of_In%in_seq Hne. apply (F c); [done|unfold in_cluster; lia|unfold lba; lia]. }
  unfold chain_bytes. rewrite (map_insert_at (fun c => concat (cluster_sectors s c)) _ l (Z.to_nat q) c Hc N).
  - rewrite Ec, (put_concat SECTOR_SIZE _ _ (sec s lba)); [|by apply cluster_sectors_blocks|by apply cluster_sector_lookup|lia|lia].
    rewrite (put_concat cluster_len _ _ (concat (cluster_sectors s c))).
    + f_equal. rewrite !Z2Nat.id by lia. lia.
    + by apply chain_blocks.
    + by rewrite list_lookup_fmap, Hc.
    + pose proof (Z2Nat.id i). unfold SECTOR_SIZE in *. lia.
    + rewrite Z2Nat.id by lia. unfold cluster_len, SECTOR_SIZE in *. nia.
  - intros x Hx Hne. f_equal. apply cluster_sectors_frame; [by apply (proj1 (Forall_forall _ _) V), list_elem_of_In|].
    intros k Hk. apply (F x); [done|done|]. intros ->. apply Hne. by eapply in_cluster_inj.
Qed.

(** A directory entry in a cluster that is not one of [l]. *)
Definition dirent_apart (l : list Z) (loc : dir_loc) : Prop :=
  (exists c, valid v c /\ (c ∉ l) /\ in_cluster c (dsector loc)) /\ 0 <= doffset loc /\ doffset loc + 32 <= SECTOR_SIZE.

Lemma in_cluster_range c k : valid v c -> in_cluster c k -> 0 <= k < capacity /\ ~ in_fats v k.
Proof.
  intros Hc Hk. unfold in_cluster in Hk.
  replace k with (data_sector v c + (k - data_sector v c)) by lia. apply data_sector_range; [done|lia].
Qed.

(** Writing data sectors leaves the FAT alone. *)
Lemma data_write_entries s s' (P : Z -> Prop) :
  (forall k, P k -> ~ in_fats v k) -> (forall k, 0 <= k < capacity -> ~ P k -> sec s' k = sec s k) ->
  (forall c, valid v c -> entry s' c = entry s c) /\ (mirrored s -> mirrored s').
Proof.
  intros HP F. split.
  - intros c Hc. destruct (fat_offsets c Hc) as (_ & _ & _ & H1 & _ & _ & H4). pose proof (g_begin _ _ G).
    unfold entry. rewrite F; [done|lia|]. intros Hp. apply (HP _ Hp). geo. lia.
  - intros M i Hi. destruct G.
    assert (Hcap : fat_begin_sector v + 2 * fat_sz32 v <= capacity) by (geo; nia).
    assert (N : forall k, in_fats v k -> ~ P k) by (intros k Hk Hp; by apply (HP k Hp)).
    rewrite !F; [by apply M|lia|apply N; geo; lia|lia|apply N; geo; lia].
Qed.

Definition new_size (f : open_file) (o n : Z) : Z := Z.max (size f) (o + n).

Lemma write_at_ok f l c o len client s :
  ready s -> chain s (start_cluster f) l -> is_u32 (size f) -> 0 <= o -> 0 <= len ->
  l !! Z.to_nat (o / cluster_len) = Some c -> dirent_apart l (dirent f) -> is_sector client ->
  is_u32 (o + piece o len) ->
  let lba := data_sector v c + o mod cluster_len / SECTOR_SIZE in
  let n := piece o len in
  runs (write_at f lba o (o mod SECTOR_SIZE) len client) s (fun '(m, f') s' => m = n /\
    f' = OpenFile (start_cluster f) (new_size f o n) (dirent f) /\ ready s' /\
    chain_bytes s' l = put (chain_bytes s l) o (sub client 0 n) /\
    dirent_set (sec s (dsector (dirent f))) (sec s' (dsector (dirent f))) (doffset (dirent f)) (start_cluster f) (new_size f o n) /\
    (forall k, 0 <= k < capacity -> ~ (k = lba \/ k = dsector (dirent f)) -> sec s' k = sec s k)).
Proof.
  intros R C Hz Ho Hlen Hc ((c2 & V2 & N2 & I2) & Hd1 & Hd2) [Lc Fc] Hu lba n.
  pose proof (chain_valid _ _ _ C) as V. pose proof (chain_nodup _ _ _ C) as ND.
  assert (Hcl : c ∈ l) by (by eapply list_elem_of_lookup_2).
  assert (Vc : valid v c) by (by apply (proj1 (Forall_forall _ _) V), list_elem_of_In).
  destruct (offset_split o Ho) as (Hi & _ & _).
  assert (Ic : in_cluster c lba) by (unfold in_cluster, lba; lia).
  destruct (in_cluster_range _ _ Vc Ic) as [Hl _]. destruct (in_cluster_range _ _ V2 I2) as [Hds _].
  assert (Hne : dsector (dirent f) <> lba) by (intros E; rewrite E in I2; apply N2; by rewrite (in_cluster_inj c2 c lba)).
  pose proof (Z.mod_pos_bound o SECTOR_SIZE ltac:(unfold SECTOR_SIZE; lia)) as Hb.
  assert (Hn : 0 <= n <= SECTOR_SIZE - o mod SECTOR_SIZE) by (unfold n, piece; lia).
  assert (Ld : zlen (sub client 0 n) = n) by (rewrite zlen_sub; lia).
  unfold write_at. runs_step (fs_read_sector_ok lba s R Hl). intros ok s1 (-> & R1 & S1 & B1). cbn [negb].
  fold (piece o len). fold n. apply runs_bind, runs_get. rewrite B1. destruct (sec_ok s lba R) as [Ll Fl].
  apply runs_bind, runs_pure. eexists. split; [apply bslice_ok; lia|].
  apply runs_bind, runs_pure. eexists. split; [apply bcopy_ok; lia|]. apply runs_bind, runs_modify.
  assert (R2 : ready (FsState (dev s1) (put (sec s lba) (o mod SECTOR_SIZE) (sub client 0 n)))).
  { apply set_buffer_ready; [done|]. apply is_sector_put; [by split|lia|lia|]. unfold sub. by apply Forall_take, Forall_drop. }
  runs_step (fs_write_sector_ok lba _ R2 Hl). intros ok s2 (-> & R3 & E3 & F3). cbn [negb].
  change (storage_buf (FsState _ ?b)) with b in E3.
  assert (F3' : forall k, 0 <= k < capacity -> k <> lba -> sec s2 k = sec s k).
  { intros k Hk Hnk. rewrite (F3 k Hk Hnk). by apply S1. }
  rewrite (wrap_small 32 (o + n)) by exact Hu.
  assert (Es : (if size f <? o + n then o + n else size f) = new_size f o n).
  { unfold new_size. destruct (size f <? o + n) eqn:E; bool_simp; lia. }
  cbn [start_cluster size dirent]. rewrite Es.
  assert (Uc : is_u32 (start_cluster f)).
  { destruct (chain_head _ _ _ C) as (? & ->). inversion V as [|? ? Vs _]; subst. destruct G. geo. unfold is_u32. lia. }
  assert (Uz : is_u32 (new_size f o n)) by (unfold new_size, is_u32 in *; lia).
  runs_step (write_dirent_update_ok (dirent f) (start_cluster f) (new_size f o n) s2 R3 Hds Hd1 Hd2).
  intros ok s3 (-> & R4 & E4 & F4). apply runs_ret.
  split_and!; [done|done|done| | |].
  - apply (chain_bytes_write s s3 l c o); [done|done|done|done|done|lia| |].
    + fold lba. rewrite F4 by done. exact E3.
    + intros x k Hx Hk Hnk. fold lba in Hnk.
      assert (Vx : valid v x) by (by apply (proj1 (Forall_forall _ _) V), list_elem_of_In).
      destruct (in_cluster_range _ _ Vx Hk) as [Hk' _].
      rewrite F4, F3'; try done. intros ->. apply N2. by rewrite (in_cluster_inj c2 x (dsector (dirent f))).
  - rewrite E4, F3' by done. apply dirent_put_ok; [by apply sec_ok|done..].
  - intros k Hk Hn'. rewrite F4, F3' by (try done; intros ->; tauto). done.
Qed.

(** How the clusters [l] of a file, which starts at [first], become [l'] before a write. *)
Record grown s (l : list Z) s' (first : Z) (l' : list Z) : Prop := {
  gr_chain : chain s' first l';
  gr_list : l' = l \/ exists new, l' = l ++ [new] /\ valid v new /\ entry s new = 0;
  gr_entries : forall c, valid v c -> c ∉ l' -> entry s' c = entry s c;
  gr_data : forall k, 0 <= k < capacity -> ~ in_fats v k -> sec s' k = sec s k;
  gr_mirrored : mirrored s -> mirrored s'
}.

Lemma grown_same s s' c l : same s s' -> chain s c l -> grown s l s' c l.
Proof.
  intros S C. split; [by eapply chain_same|by left| |intros; by apply S|].
  - intros c' Hc' _. by apply entry_same.
  - intros M i Hi. destruct G. rewrite !S by (geo; nia). by apply M.
Qed.

Lemma grown_first s s' c : allocated s (Some c) s' -> grown s [] s' c [c].
Proof.
  intros (Vc & Ec & _ & F). split; [|right; by exists c|..].
  - constructor; [done|]. by rewrite (fs_entry _ _ _ _ F).
  - intros c' Vc' Hc'. apply (fs_others _ _ _ _ F); [done|]. intros ->. apply Hc'. by left.
  - apply (fs_data _ _ _ _ F).
  - apply (fs_mirrored _ _ _ _ F).
Qed.

Lemma grown_extended s s' c l new : extended s c l (Some new) s' -> grown s l s' c (l ++ [new]).
Proof.
  intros (Vn & En & C & F & Dt & M). split; [done|right; by exists new| |done|done].
  intros c' Vc' Hc'. apply F; [done|..].
  - intros Hin. apply Hc', elem_of_app. by left.
  - intros ->. apply Hc', elem_of_app. right. by left.
Qed.

(** The disk has no room for the cluster that a write at the end of the clusters needs. *)
Definition full s (l : list Z) (o : Z) : Prop := o = cluster_len * zlen l /\ forall c, valid v c -> entry s c <> 0.

(** The first part of [write_file]: the cluster to write to. *)
Definition locate (f : open_file) (o : Z) : io (fs_state D) (option (Z * option Z)) :=
  first ← (if start_cluster f =? 0 then alloc_cluster v else mret (Some (start_cluster f)));
  match first with
  | None => mret None
  | Some first =>
      c ← walk_extend v (Z.to_nat (o / cluster_size_bytes v)) first;
      mret (Some (first, c))
  end.

Lemma locate_ok f l o s :
  ready s -> file_on s f l -> 0 <= o <= size f ->
  runs (locate f o) s (fun r s' => ready s' /\
    match r with
    | Some (first, Some c) => exists l', grown s l s' first l' /\ l' !! Z.to_nat (o / cluster_len) = Some c
    | Some (first, None) => first = start_cluster f /\ same s s' /\ full s l o
    | None => same s s' /\ full s l o
    end).
Proof.
  intros R (Hz & Hl & Hf) Ho. pose proof (g_spc _ _ G). assert (Hcl : 0 < cluster_len) by (unfold cluster_len, SECTOR_SIZE; lia).
  unfold locate. rewrite cluster_size_ok. destruct Hf as [[-> ->]|C].
  - change (zlen (@nil Z)) with 0 in Hl. assert (o = 0) as -> by lia. cbn [Z.eqb].
    runs_step (alloc_cluster_ok s R). intros [c|] s1 [R1 A1].
    + rewrite Z.div_0_l by lia. cbn [Z.to_nat walk_extend]. apply runs_bind, runs_ret, runs_ret. split; [done|].
      exists [c]. split; [by apply grown_first|done].
    + apply runs_ret. split; [done|]. destruct A1 as [N S1]. split; [done|]. split; [|done].
      change (zlen (@nil Z)) with 0. lia.
  - assert (V0 : valid v (start_cluster f)).
    { destruct (chain_head _ _ _ C) as (? & ->). apply chain_valid in C. by inversion C. }
    rewrite (proj2 (Z.eqb_neq _ _)) by (geo; lia). apply runs_bind, runs_ret.
    destruct (Z.lt_ge_cases o (cluster_len * zlen l)) as [Hlt|Hge].
    + destruct (offset_cluster o l) as [c Hc]; [lia|].
      runs_step (walk_extend_walk _ _ _ _ s R C Hc). intros r s1 (-> & R1 & S1). apply runs_ret. split; [done|].
      exists l. split; [by apply grown_same|done].
    + assert (o = cluster_len * zlen l) as -> by lia. rewrite Z.mul_comm, Z.div_mul by lia.
      unfold zlen at 1. rewrite Nat2Z.id. runs_step (extend_ok _ _ s R C). intros [new|] s1 [R1 E1]; apply runs_ret; (split; [done|]).
      * exists (l ++ [new]). split; [by apply grown_extended|]. unfold zlen. rewrite Nat2Z.id. by apply list_lookup_middle.
      * destruct E1 as [S1 N1]. split; [done|]. split; [done|]. split; [lia|done].
Qed.

Lemma write_file_locate f o len client s :
  (size f <? o) = false ->
  write_file v f o len client s =
  (r ← locate f o;
   match r with
   | None => mret (0, f)
   | Some (first, None) => mret (0, OpenFile first (size f) (dirent f))
   | Some (first, Some c) =>
       write_at (OpenFile first (size f) (dirent f))
         (wrap32 (cluster_to_sector v c + o mod cluster_size_bytes v / SECTOR_SIZE)) o
         (o mod cluster_size_bytes v mod SECTOR_SIZE) len client
   end) s.
Proof.
  intros E. unfold write_file, locate, mbind, io_bind, mret, io_ret. rewrite E.
  destruct (start_cluster f =? 0).
  - destruct (alloc_cluster v s) as [[first|] s1| |]; try done. by destruct (walk_extend v _ first s1) as [[c|] s2| |].
  - by destruct (walk_extend v _ (start_cluster f) s) as [[c|] s2| |].
Qed.

(** What a write of the bytes [d] at [o] does to the file [f] in the clusters [l]. *)
Record wrote s (f : open_file) (l : list Z) (o : Z) (d : list Z) (f' : open_file) (l' : list Z) s' : Prop := {
  wr_file : file_on s' f' l';
  wr_list : l' = l \/ exists new, l' = l ++ [new] /\ valid v new /\ entry s new = 0;
  wr_bytes : file_bytes s' f' l' = put (file_bytes s f l) o d;
  wr_size : size f' = Z.max (size f) (o + zlen d);
  wr_loc : dirent f' = dirent f;
  wr_dirent : dirent_set (sec s (dsector (dirent f))) (sec s' (dsector (dirent f))) (doffset (dirent f))
    (start_cluster f') (size f');
  wr_entries : forall c, valid v c -> c ∉ l' -> entry s' c = entry s c;
  wr_data : forall k, 0 <= k < capacity -> ~ in_fats v k -> k <> dsector (dirent f) ->
    (forall c, c ∈ l' -> ~ in_cluster c k) -> sec s' k = sec s k;
  wr_mirrored : mirrored s -> mirrored s'
}.

(** The directory entry is in a cluster in use, and not one of the file's. *)
Definition dirent_ok s (l : list Z) (loc : dir_loc) : Prop :=
  (exists c, valid v c /\ entry s c <> 0 /\ (c ∉ l) /\ in_cluster c (dsector loc)) /\
  0 <= doffset loc /\ doffset loc + 32 <= SECTOR_SIZE.

Lemma grown_apart s l s' first l' loc : grown s l s' first l' -> dirent_ok s l loc -> dirent_apart l' loc.
Proof.
  intros Gr ((c & Vc & Ec & Nc & Ic) & Hd). split; [|done]. exists c. split_and!; [done| |done].
  destruct (gr_list _ _ _ _ _ Gr) as [->|(new & -> & _ & En)]; [done|]. intros [Hin|Hin]%elem_of_app; [done|].
  apply list_elem_of_singleton in Hin as ->. done.
Qed.

(** Clusters that were there before keep their bytes. *)
Lemma grown_bytes s l s' first l' sz :
  ready s -> ready s' -> grown s l s' first l' -> Forall (valid v) l -> 0 <= sz <= cluster_len * zlen l ->
  sub (chain_bytes s' l') 0 sz = sub (chain_bytes s l) 0 sz.
Proof.
  intros R R' Gr Vl Hsz.
  assert (E : chain_bytes s' l = chain_bytes s l).
  { apply chain_bytes_frame; [done|]. intros c k Hc Hk.
    assert (Vc : valid v c) by (by apply (proj1 (Forall_forall _ _) Vl), list_elem_of_In).
    destruct (in_cluster_range _ _ Vc Hk). by apply (gr_data _ _ _ _ _ Gr). }
  destruct (gr_list _ _ _ _ _ Gr) as [->|(new & -> & _)]; [by rewrite E|].
  unfold chain_bytes in *. rewrite map_app, concat_app, E. apply sub_app_l; [lia|].
  fold (chain_bytes s l). rewrite zlen_chain_bytes by done. lia.
Qed.

(** A piece stays within the clusters. *)
Lemma piece_end o len (l : list Z) c :
  0 <= o -> 0 <= len -> l !! Z.to_nat (o / cluster_len) = Some c -> o + piece o len <= cluster_len * zlen l.
Proof.
  intros Ho Hlen Hc. apply lookup_lt_Some in Hc. destruct (offset_split o Ho) as (Hi & _ & E). pose proof (g_spc _ _ G).
  assert (Hq : 0 <= o / cluster_len) by (apply Z.div_pos; unfold cluster_len, SECTOR_SIZE; lia).
  unfold piece, zlen. assert (Hs : SECTOR_SIZE * (o mod cluster_len / SECTOR_SIZE) + SECTOR_SIZE <= cluster_len)
    by (unfold cluster_len, SECTOR_SIZE in *; lia).
  assert (cluster_len * (o / cluster_len + 1) <= cluster_len * Z.of_nat (length l))
    by (apply Z.mul_le_mono_nonneg_l; [unfold cluster_len, SECTOR_SIZE; lia|lia]). lia.
Qed.

Lemma file_valid s f l : file_on s f l -> Forall (valid v) l.
Proof. intros (_ & _ & [[_ ->]|C]); [constructor|by eapply chain_valid]. Qed.

(** The write proper, once the clusters are there. *)
Lemma write_grown f l o len client s s1 first l' c :
  ready s -> file_on s f l -> dirent_ok s l (dirent f) -> 0 <= o <= size f -> 0 <= len -> is_sector client ->
  is_u32 (o + piece o len) -> ready s1 -> grown s l s1 first l' -> l' !! Z.to_nat (o / cluster_len) = Some c ->
  runs (write_at (OpenFile first (size f) (dirent f)) (data_sector v c + o mod cluster_len / SECTOR_SIZE) o
          (o mod SECTOR_SIZE) len client) s1
    (fun '(n, f') s' => ready s' /\ n = piece o len /\ exists l', wrote s f l o (sub client 0 n) f' l' s').
Proof.
  intros R Hf Hd Ho Hlen Hc Hu R1 Gr Hcl. pose proof Hf as (Hz & Hl & _). pose proof (file_valid _ _ _ Hf) as Vl.
  pose proof (gr_chain _ _ _ _ _ Gr) as C1. pose proof (chain_valid _ _ _ C1) as V1.
  assert (Vc : valid v c) by (apply (proj1 (Forall_forall _ _) V1), list_elem_of_In; by eapply list_elem_of_lookup_2).
  destruct (offset_split o ltac:(lia)) as (Hi & _ & _).
  assert (Ic : in_cluster c (data_sector v c + o mod cluster_len / SECTOR_SIZE)) by (unfold in_cluster; lia).
  pose proof (grown_apart _ _ _ _ _ _ Gr Hd) as Ap. pose proof (piece_end o len l' c ltac:(lia) Hlen Hcl) as Pe.
  pose proof (Z.mod_pos_bound o SECTOR_SIZE ltac:(unfold SECTOR_SIZE; lia)) as Hb.
  assert (Ld : zlen (sub client 0 (piece o len)) = piece o len).
  { destruct Hc as [Lc _]. unfold piece in *. rewrite zlen_sub; lia. }
  assert (Ll : zlen l <= zlen l').
  { destruct (gr_list _ _ _ _ _ Gr) as [->|(new & -> & _)]; [lia|]. rewrite zlen_snoc. lia. }
  assert (Hcl' : cluster_len * zlen l <= cluster_len * zlen l')
    by (apply Z.mul_le_mono_nonneg_l; [pose proof (g_spc _ _ G); unfold cluster_len, SECTOR_SIZE; lia|done]).
  destruct Ap as ((c2 & V2 & N2 & I2) & Hd12). destruct (in_cluster_range _ _ V2 I2) as [Hds Nds].
  eapply runs_mono; [apply (write_at_ok (OpenFile first (size f) (dirent f)) l' c o len client s1); try done; [lia|]; split; eauto|].
  intros [n f'] s2 (-> & -> & R2 & B2 & De & Fr). cbn [start_cluster size dirent] in *. unfold new_size in *. cbn [size] in *.
  split; [done|]. split; [done|]. exists l'.
  destruct (data_write_entries s1 s2 (fun k => k = data_sector v c + o mod cluster_len / SECTOR_SIZE \/ k = dsector (dirent f)))
    as [En Mi]; [intros k [-> | ->]; [by apply (in_cluster_range _ _ Vc Ic)|done]|exact Fr|].
  assert (C2 : chain s2 first l').
  { eapply chain_frame; [exact C1|]. intros c' Hc'. apply En. by apply (proj1 (Forall_forall _ _) V1), list_elem_of_In. }
  split; cbn [start_cluster size dirent].
  - split_and!; cbn [size start_cluster]; [unfold is_u32 in *; lia|lia|by right].
  - apply (gr_list _ _ _ _ _ Gr).
  - unfold file_bytes. cbn [size]. rewrite B2. rewrite <- Ld at 2. rewrite sub_put_extend.
    + f_equal. apply (grown_bytes s l s1 first l'); try done. unfold is_u32 in *. lia.
    + lia.
    + rewrite zlen_chain_bytes by done. lia.
    + rewrite Ld, zlen_chain_bytes by done. lia.
  - by rewrite Ld.
  - done.
  - rewrite <- (gr_data _ _ _ _ _ Gr (dsector (dirent f))) by done. exact De.
  - intros c' Vc' Hc'. rewrite En by done. by apply (gr_entries _ _ _ _ _ Gr).
  - intros k Hk Hnf Hnd Hnc. rewrite Fr; [by apply (gr_data _ _ _ _ _ Gr)|done|]. intros [-> | ->]; [|done].
    apply (Hnc c); [by eapply list_elem_of_lookup_2|done].
  - intros M. by apply Mi, (gr_mirrored _ _ _ _ _ Gr).
Qed.

Lemma write_file_ok f l o len client s :
  ready s -> file_on s f l -> dirent_ok s l (dirent f) -> 0 <= o <= size f -> 0 <= len -> is_sector client ->
  is_u32 (o + piece o len) ->
  runs (write_file v f o len client) s (fun '(n, f') s' => ready s' /\
    (n = piece o len /\ (exists l', wrote s f l o (sub client 0 n) f' l' s') \/
     n = 0 /\ f' = f /\ same s s' /\ full s l o)).
Proof.
  intros R Hf Hd Ho Hlen Hc Hu. unfold runs. rewrite write_file_locate by (apply Z.ltb_ge; lia).
  match goal with |- match ?m s with Ends _ _ => _ | _ => _ end => enough (Hr : runs m s (fun '(n, f') s' => ready s' /\
    (n = piece o len /\ (exists l', wrote s f l o (sub client 0 n) f' l' s') \/
     n = 0 /\ f' = f /\ same s s' /\ full s l o))) by exact Hr end.
  runs_step (locate_ok f l o s R Hf Ho). intros [[first [c|]]|] s1 [R1 H1].
  - destruct H1 as (l' & Gr & Hcl). destruct (offset_split o ltac:(lia)) as (Hi & Hm & _).
    pose proof (chain_valid _ _ _ (gr_chain _ _ _ _ _ Gr)) as V1.
    assert (Vc : valid v c) by (apply (proj1 (Forall_forall _ _) V1), list_elem_of_In; by eapply list_elem_of_lookup_2).
    rewrite cluster_size_ok, Hm, data_sector_wrap by done.
    eapply runs_mono; [by apply (write_grown f l o len client s s1 first l' c)|]. intros [n f'] s2 (R2 & Hn & W). split; [done|]. left. by split.
  - destruct H1 as (-> & S1 & Fu). apply runs_ret. split; [done|]. right. by destruct f.
  - apply runs_ret. split; [done|]. by right.
Qed.

(** ** The root directory *)

(** The places of its entries, in the order they are looked at. *)
Definition cluster_lbas c : list Z :=
  map (fun i => data_sector v c + Z.of_nat i) (seq 0 (Z.to_nat (sectors_per_cluster v))).
Definition slots_from (lba : Z) (e n : nat) : list dir_loc := map (fun e => DirLoc lba (Z.of_nat e * DIRENT_SIZE)) (seq e n).
Definition sector_slots (lba : Z) : list dir_loc := slots_from lba 0 ENTRIES.
Definition cluster_slots c : list dir_loc := concat (map sector_slots (cluster_lbas c)).
Definition slots (rl : list Z) : list dir_loc := concat (map cluster_slots rl).

(** The 32 bytes of an entry. *)
Definition slot_bytes s (loc : dir_loc) : list Z := sub (sec s (dsector loc)) (doffset loc) (doffset loc + DIRENT_SIZE).

Inductive verdict := Finish | Pass | Hit (start size : Z).

(** What an entry is for a lookup of [name]. *)
Definition verdict_of (name e : list Z) : verdict :=
  if byte_at e 0 =? 0 then Finish
  else if byte_at e 0 =? 0xE5 then Pass
  else if (byte_at e 11 =? 0x0F) || negb (Z.land (byte_at e 11) 0x08 =? 0) then Pass
  else if bytes_eqb (sub e 0 11) name then Hit (entry_start e 0) (entry_size e 0)
  else Pass.

(** A search through entries: undecided, not there, or found. *)
Fixpoint dir_scan s (name : list Z) (locs : list dir_loc) : option (option (Z * Z * dir_loc)) :=
  match locs with
  | [] => None
  | loc :: locs' =>
      match verdict_of name (slot_bytes s loc) with
      | Finish => Some None
      | Hit start sz => Some (Some (start, sz, loc))
      | Pass => dir_scan s name locs'
      end
  end.

(** The file called [name] in the directory with the clusters [rl]. *)
Definition dir_find s (name : list Z) (rl : list Z) : option (Z * Z * dir_loc) :=
  match dir_scan s name (slots rl) with Some r => r | None => None end.

Lemma NoDup_concat_map {A B} (f : A -> list B) l :
  NoDup l -> (forall x, NoDup (f x)) -> (forall x y b, x ∈ l -> y ∈ l -> b ∈ f x -> b ∈ f y -> x = y) ->
  NoDup (concat (map f l)).
Proof.
  induction 1 as [|x l Hx _ IH]; intros Nf Inj; cbn; [constructor|]. apply list.NoDup_app. split_and!; [apply Nf| |].
  - intros b Hb Hc. apply list_elem_of_In, in_concat in Hc as (ls & (y & <- & Hy)%in_map_iff & Hby).
    apply list_elem_of_In in Hy, Hby. apply Hx. rewrite (Inj x y b); [done|by left|by right|done|done].
  - apply IH; [done|]. intros y z b Hy Hz. apply Inj; by right.
Qed.

Lemma dir_scan_app s name l1 l2 :
  dir_scan s name (l1 ++ l2) = match dir_scan s name l1 with Some r => Some r | None => dir_scan s name l2 end.
Proof. induction l1 as [|loc l1 IH]; cbn; [done|]. by destruct (verdict_of name (slot_bytes s loc)). Qed.

Lemma dir_scan_ext s s' name locs :
  (forall loc, loc ∈ locs -> slot_bytes s' loc = slot_bytes s loc) -> dir_scan s' name locs = dir_scan s name locs.
Proof.
  induction locs as [|loc locs IH]; intros H; cbn; [done|]. rewrite H by (by left).
  destruct (verdict_of _ _); [done| |done]. apply IH. intros x Hx. apply H. by right.
Qed.

Lemma byte_at_slot (b : list Z) off n i : 0 <= off -> off + n <= zlen b -> 0 <= i < n -> byte_at (sub b off (off + n)) i = byte_at b (off + i).
Proof. intros. by rewrite byte_at_sub by lia. Qed.

Lemma word16_slot (b : list Z) off n i : 0 <= off -> off + n <= zlen b -> 0 <= i -> i + 2 <= n -> word16 (sub b off (off + n)) i = word16 b (off + i).
Proof. intros. unfold word16. rewrite !byte_at_slot by lia. by rewrite Z.add_assoc. Qed.

Lemma word32_slot (b : list Z) off n i : 0 <= off -> off + n <= zlen b -> 0 <= i -> i + 4 <= n -> word32 (sub b off (off + n)) i = word32 b (off + i).
Proof. intros. unfold word32. rewrite !byte_at_slot by lia. by rewrite !Z.add_assoc. Qed.

(** One sector's worth of [find_in_root]. *)
Lemma scan_sector_ok s name lba (n e : nat) :
  ready s -> (e + n <= ENTRIES)%nat ->
  exists r, scan_sector name (sec s lba) n (Z.of_nat e) = Ok r /\
    dir_scan s name (slots_from lba e n) =
    match r with
    | EndOfDirectory => Some None
    | Match start sz off => Some (Some (start, sz, DirLoc lba off))
    | NoMatch => None
    end.
Proof.
  intros R. destruct (sec_ok s lba R) as [L _]. change ENTRIES with 16%nat. revert e.
  induction n as [|n IH]; intros e He; [by exists NoMatch|]. cbn [scan_sector slots_from seq map dir_scan].
  destruct (IH (S e) ltac:(lia)) as (r & Er & Ed). replace (Z.of_nat (S e)) with (Z.of_nat e + 1) in Er by lia.
  unfold slots_from in Ed. set (off := Z.of_nat e * DIRENT_SIZE).
  assert (Ho : 0 <= off /\ off + 32 <= zlen (sec s lba)) by (unfold off, DIRENT_SIZE; rewrite L; unfold SECTOR_SIZE; lia).
  unfold slot_bytes, verdict_of. cbn [dsector doffset]. unfold DIRENT_SIZE at 1 2 3 4 5 6 7.
  rewrite !byte_at_slot by lia. rewrite Z.add_0_r.
  rewrite !bget_ok by lia.
  destruct (byte_at (sec s lba) off =? 0); [by exists EndOfDirectory|].
  destruct (byte_at (sec s lba) off =? 0xE5); [by exists r|].
  destruct (_ || _); [by exists r|]. rewrite bslice_ok by lia.
  assert (Es : sub (sub (sec s lba) off (off + 32)) 0 11 = sub (sec s lba) off (off + 11)).
  { unfold sub. rewrite drop_0, take_take. f_equal. lia. }
  rewrite Es. destruct (bytes_eqb _ _); [|by exists r].
  rewrite !le16_ok, le32_ok by lia. eexists. split; [reflexivity|].
  unfold entry_start, entry_size. by rewrite !word16_slot, word32_slot by lia.
Qed.

Lemma cluster_lbas_range c k : valid v c -> k ∈ cluster_lbas c -> in_cluster c k.
Proof.
  intros Hc Hk. apply list_elem_of_In, in_map_iff in Hk as (i & <- & Hi). apply in_seq in Hi. unfold in_cluster.
  pose proof (g_spc _ _ G). lia.
Qed.

Lemma slots_from_sector lba e n loc : loc ∈ slots_from lba e n -> dsector loc = lba.
Proof. intros Hl. by apply list_elem_of_In, in_map_iff in Hl as (i & <- & _). Qed.

Lemma slot_in_cluster c loc :
  valid v c -> loc ∈ cluster_slots c -> in_cluster c (dsector loc) /\
    exists e : nat, (e < ENTRIES)%nat /\ doffset loc = Z.of_nat e * DIRENT_SIZE.
Proof.
  intros Hc Hl. apply list_elem_of_In, in_concat in Hl as (ls & (lba & <- & Hk)%in_map_iff & Hl).
  apply in_map_iff in Hl as (e & <- & He). apply in_seq in He. cbn [dsector doffset]. split.
  - apply cluster_lbas_range; [done|]. by apply list_elem_of_In.
  - exists e. split; [lia|done].
Qed.

Lemma slot_in_chain rl loc :
  Forall (valid v) rl -> loc ∈ slots rl -> exists c, c ∈ rl /\ valid v c /\ loc ∈ cluster_slots c.
Proof.
  intros V Hl. apply list_elem_of_In, in_concat in Hl as (ls & (c & <- & Hc)%in_map_iff & Hl).
  exists c. split_and!; [by apply list_elem_of_In|by apply (proj1 (Forall_forall _ _) V)|by apply list_elem_of_In].
Qed.

Lemma slot_bytes_same s s' c loc : same s s' -> valid v c -> loc ∈ cluster_slots c -> slot_bytes s' loc = slot_bytes s loc.
Proof.
  intros S Hc Hl. destruct (slot_in_cluster c loc Hc Hl) as [Hk _].
  destruct (in_cluster_range _ _ Hc Hk) as [Hk' _]. unfold slot_bytes. by rewrite S.
Qed.

Lemma dir_scan_same s s' name c : same s s' -> valid v c -> dir_scan s' name (cluster_slots c) = dir_scan s name (cluster_slots c).
Proof.
  intros S Hc. apply dir_scan_ext. intros loc Hl. by apply (slot_bytes_same _ _ c).
Qed.

Lemma scan_cluster_ok name c (n : nat) i s :
  ready s -> valid v c -> 0 <= i -> i + Z.of_nat n = sectors_per_cluster v ->
  runs (scan_cluster name n (data_sector v c + i)) s (fun r s' => ready s' /\ same s s' /\
    r = dir_scan s name (concat (map sector_slots (map (fun j => data_sector v c + Z.of_nat j) (seq (Z.to_nat i) n))))).
Proof.
  intros R Hc. revert i s R. induction n as [|n IH]; intros i s R Hi Hn; cbn [scan_cluster seq map concat].
  { apply runs_ret. by split_and!. }
  assert (Hr : 0 <= i < sectors_per_cluster v) by lia. destruct (data_sector_range c i Hc Hr) as [Hk _].
  set (lba := data_sector v c + i) in *. rewrite Z2Nat.id by lia. fold lba.
  runs_step (fs_read_sector_ok lba s R Hk). intros ok s1 (-> & R1 & S1 & B1). cbn [negb].
  apply runs_bind, runs_get. rewrite B1. rewrite dir_scan_app.
  destruct (scan_sector_ok s name lba ENTRIES 0 R) as (r & Er & Ed); [lia|]. change (Z.of_nat 0) with 0 in Er.
  apply runs_bind, runs_pure. exists r. split; [done|]. unfold sector_slots at 1. rewrite Ed.
  destruct r; [by apply runs_ret|by apply runs_ret|].
  destruct n as [|n]; [cbn; by apply runs_ret|].
  replace (wrap32 (lba + 1)) with (data_sector v c + (i + 1)).
  2: { destruct (data_sector_range c (i + 1) Hc) as [Hk' _]; [lia|]. pose proof (g_cap _ _ G). unfold lba.
       rewrite wrap_small; lia. }
  eapply runs_mono; [apply (IH (i + 1) s1 R1); lia|]. intros r s2 (R2 & S2 & ->).
  split_and!; [done|by eapply same_trans|]. replace (Z.to_nat (i + 1)) with (S (Z.to_nat i)) by lia.
  apply dir_scan_ext. intros loc Hl. unfold slot_bytes. rewrite S1; [done|].
  apply list_elem_of_In, in_concat in Hl as (ls & (k & <- & Hk')%in_map_iff & Hl).
  apply in_map_iff in Hl as (e & <- & _). cbn [dsector]. apply in_map_iff in Hk' as (j & <- & Hj). apply in_seq in Hj.
  apply data_sector_range; [done|lia].
Qed.

Lemma find_in_root_ok name c rl (n : nat) s :
  ready s -> chain s c rl -> (length rl <= n)%nat ->
  runs (find_in_root_from v name n c) s (fun r s' => ready s' /\ same s s' /\ r = dir_find s name rl).
Proof.
  intros R C. revert n s R C. revert c. induction rl as [|x rl IH]; intros c n s R C Hn; [inversion C|].
  destruct n as [|n]; [cbn in Hn; lia|]. cbn [find_in_root_from]. cbn [length] in Hn.
  destruct (chain_head _ _ _ C) as (? & [= <- _]). pose proof (chain_valid _ _ _ C) as V.
  inversion V as [|? ? Vx Vr]; subst. rewrite cluster_to_sector_ok by done. pose proof (g_spc _ _ G).
  rewrite <- (Z.add_0_r (data_sector v x)).
  runs_step (scan_cluster_ok name x (Z.to_nat (sectors_per_cluster v)) 0 s R Vx); [lia|lia|].
  intros r s1 (R1 & S1 & ->). change (Z.to_nat 0) with O. fold (cluster_lbas x). fold (cluster_slots x).
  unfold dir_find, slots. cbn [map concat]. rewrite dir_scan_app.
  destruct (dir_scan s name (cluster_slots x)) as [a|]; [by apply runs_ret|].
  runs_step (next_cluster_ok x s1 R1 Vx). intros r s2 (-> & R2 & S2). rewrite (entry_same s s1) by done.
  assert (S02 : same s s2) by (by eapply same_trans).
  inversion C as [? H1 H2|? c1 ? H1 H2 H3 H4]; subst.
  - rewrite link_eoc by done. by apply runs_ret.
  - rewrite link_valid by done. eapply runs_mono; [apply IH; [done|by eapply chain_same|lia]|].
    intros r s3 (R3 & S3 & ->). split_and!; [done|by eapply same_trans|]. unfold dir_find, slots.
    erewrite dir_scan_ext; [done|]. intros loc Hl. destruct (slot_in_chain _ _ Vr Hl) as (c' & _ & Vc & Hl').
    destruct (slot_in_cluster _ _ Vc Hl') as [Hk _]. destruct (in_cluster_range _ _ Vc Hk) as [Hk' _].
    unfold slot_bytes. by rewrite S02.
Qed.

(** ** Free entries *)

Definition is_free (e : list Z) : bool := (byte_at e 0 =? 0) || (byte_at e 0 =? 0xE5).

(** The mark of the directory's end. *)
Definition ends s (loc : dir_loc) : Prop := byte_at (slot_bytes s loc) 0 = 0.

Lemma ends_free s loc : ends s loc -> is_free (slot_bytes s loc) = true.
Proof. unfold ends, is_free. by intros ->. Qed.

(** Nothing but end marks behind an end mark, as a formatted directory has it. *)
Fixpoint tidy_slots s (locs : list dir_loc) : Prop :=
  match locs with
  | [] => True
  | loc :: locs' => (ends s loc -> Forall (ends s) locs') /\ tidy_slots s locs'
  end.

Definition tidy s (rl : list Z) : Prop := tidy_slots s (slots rl).

Lemma tidy_slots_ext s s' locs :
  (forall loc, loc ∈ locs -> slot_bytes s' loc = slot_bytes s loc) -> tidy_slots s locs -> tidy_slots s' locs.
Proof.
  induction locs as [|loc locs IH]; intros H; cbn; [done|]. intros [H1 H2].
  split; [|apply IH; [intros x Hx; apply H; by right|done]]. unfold ends in *. rewrite (H loc) by (by left).
  intros He. apply Forall_forall. intros x Hx. rewrite (H x) by (right; by apply list_elem_of_In).
  by apply (proj1 (Forall_forall _ _) (H1 He)).
Qed.

Lemma tidy_ends s locs : Forall (ends s) locs -> tidy_slots s locs.
Proof. induction 1; cbn; auto. Qed.

Lemma tidy_app_used s l1 l2 :
  Forall (fun x => is_free (slot_bytes s x) = false) l1 -> tidy_slots s (l1 ++ l2) <-> tidy_slots s l2.
Proof.
  induction 1 as [|x l1 Hx _ IH]; cbn; [done|]. rewrite IH. split; [by intros [_ ?]|]. split; [|done].
  intros He. apply ends_free in He. congruence.
Qed.

Fixpoint first_free s (locs : list dir_loc) : option dir_loc :=
  match locs with
  | [] => None
  | loc :: locs' => if is_free (slot_bytes s loc) then Some loc else first_free s locs'
  end.

Lemma first_free_app s l1 l2 :
  first_free s (l1 ++ l2) = match first_free s l1 with Some r => Some r | None => first_free s l2 end.
Proof. induction l1 as [|loc l1 IH]; cbn; [done|]. by destruct (is_free _). Qed.

Lemma first_free_ext s s' locs :
  (forall loc, loc ∈ locs -> slot_bytes s' loc = slot_bytes s loc) -> first_free s' locs = first_free s locs.
Proof.
  induction locs as [|loc locs IH]; intros H; cbn; [done|]. rewrite H by (by left).
  destruct (is_free _); [done|]. apply IH. intros x Hx. apply H. by right.
Qed.

Lemma first_free_Some s locs loc :
  first_free s locs = Some loc -> exists pre post, locs = pre ++ loc :: post /\ is_free (slot_bytes s loc) = true /\
    Forall (fun x => is_free (slot_bytes s x) = false) pre.
Proof.
  induction locs as [|x locs IH]; cbn; [done|]. destruct (is_free (slot_bytes s x)) eqn:E.
  - intros [= <-]. exists [], locs. by split_and!.
  - intros (pre & post & -> & Hf & Fp)%IH. exists (x :: pre), post. split_and!; [done|done|by constructor].
Qed.

Lemma first_free_None s locs : first_free s locs = None -> Forall (fun x => is_free (slot_bytes s x) = false) locs.
Proof. induction locs as [|x locs IH]; cbn; [constructor|]. destruct (is_free _) eqn:E; [done|]. intros H. constructor; auto. Qed.

Lemma free_entry_ok s lba (n e : nat) :
  ready s -> (e + n <= ENTRIES)%nat ->
  exists r, free_entry (sec s lba) n (Z.of_nat e) = Ok r /\
    first_free s (slots_from lba e n) = match r with Some off => Some (DirLoc lba off) | None => None end.
Proof.
  intros R. destruct (sec_ok s lba R) as [L _]. change ENTRIES with 16%nat. revert e.
  induction n as [|n IH]; intros e He; [by exists None|]. cbn [free_entry slots_from seq map first_free].
  destruct (IH (S e) ltac:(lia)) as (r & Er & Ed). replace (Z.of_nat (S e)) with (Z.of_nat e + 1) in Er by lia.
  unfold slots_from in Ed. set (off := Z.of_nat e * DIRENT_SIZE).
  assert (Ho : 0 <= off /\ off + 32 <= zlen (sec s lba)) by (unfold off, DIRENT_SIZE; rewrite L; unfold SECTOR_SIZE; lia).
  unfold slot_bytes, is_free. cbn [dsector doffset]. unfold DIRENT_SIZE at 1 2 3.
  rewrite !byte_at_slot by lia. rewrite Z.add_0_r, bget_ok by lia.
  destruct (_ || _); [by exists (Some off)|by exists r].
Qed.

Lemma free_in_cluster_ok c (n : nat) i s :
  ready s -> valid v c -> 0 <= i -> i + Z.of_nat n = sectors_per_cluster v ->
  runs (free_in_cluster n (data_sector v c + i)) s (fun r s' => ready s' /\ same s s' /\
    r = match first_free s (concat (map sector_slots (map (fun j => data_sector v c + Z.of_nat j) (seq (Z.to_nat i) n)))) with
        | Some loc => Some (Some loc) | None => None end).
Proof.
  intros R Hc. revert i s R. induction n as [|n IH]; intros i s R Hi Hn; cbn [free_in_cluster seq map concat].
  { apply runs_ret. by split_and!. }
  assert (Hr : 0 <= i < sectors_per_cluster v) by lia. destruct (data_sector_range c i Hc Hr) as [Hk _].
  set (lba := data_sector v c + i) in *. rewrite Z2Nat.id by lia. fold lba.
  runs_step (fs_read_sector_ok lba s R Hk). intros ok s1 (-> & R1 & S1 & B1). cbn [negb].
  apply runs_bind, runs_get. rewrite B1. rewrite first_free_app.
  destruct (free_entry_ok s lba ENTRIES 0 R) as (r & Er & Ed); [lia|]. change (Z.of_nat 0) with 0 in Er.
  apply runs_bind, runs_pure. exists r. split; [done|]. unfold sector_slots at 1. rewrite Ed.
  destruct r; [by apply runs_ret|].
  destruct n as [|n]; [cbn; by apply runs_ret|].
  replace (wrap32 (lba + 1)) with (data_sector v c + (i + 1)).
  2: { destruct (data_sector_range c (i + 1) Hc) as [Hk' _]; [lia|]. pose proof (g_cap _ _ G). unfold lba.
       rewrite wrap_small; lia. }
  eapply runs_mono; [apply (IH (i + 1) s1 R1); lia|]. intros r s2 (R2 & S2 & ->).
  split_and!; [done|by eapply same_trans|]. replace (Z.to_nat (i + 1)) with (S (Z.to_nat i)) by lia.
  erewrite first_free_ext; [done|]. intros loc Hl. unfold slot_bytes. rewrite S1; [done|].
  apply list_elem_of_In, in_concat in Hl as (ls & (k & <- & Hk')%in_map_iff & Hl).
  apply in_map_iff in Hl as (e & <- & _). cbn [dsector]. apply in_map_iff in Hk' as (j & <- & Hj). apply in_seq in Hj.
  apply data_sector_range; [done|lia].
Qed.

Definition zeroes : list Z := replicate (Z.to_nat SECTOR_SIZE) 0.

Lemma zeroes_sector : is_sector zeroes.
Proof. split; [done|]. apply Forall_replicate. unfold is_u8. lia. Qed.

Lemma zero_sectors_ok c (n : nat) i s :
  ready s -> valid v c -> 0 <= i -> i + Z.of_nat n = sectors_per_cluster v ->
  runs (zero_sectors n (data_sector v c + i)) s (fun ok s' => ok = true /\ ready s' /\
    (forall j, i <= j < sectors_per_cluster v -> sec s' (data_sector v c + j) = zeroes) /\
    (forall k, 0 <= k < capacity -> ~ (data_sector v c + i <= k < data_sector v c + sectors_per_cluster v) -> sec s' k = sec s k)).
Proof.
  intros R Hc. revert i s R. induction n as [|n IH]; intros i s R Hi Hn; cbn [zero_sectors].
  { apply runs_ret. split_and!; [done|done|lia|done]. }
  assert (Hr : 0 <= i < sectors_per_cluster v) by lia. destruct (data_sector_range c i Hc Hr) as [Hk _].
  apply runs_bind, runs_get. apply runs_bind, runs_pure. destruct (re_buf _ R) as [Lb _].
  pose proof (proj1 zeroes_sector) as Lz. fold zeroes.
  eexists. split; [apply bcopy_ok; [lia|rewrite Lb, Lz; lia]|]. rewrite put_whole by (by rewrite Lb). apply runs_bind, runs_modify.
  pose proof (set_buffer_ready zeroes s R zeroes_sector) as R1.
  runs_step (fs_write_sector_ok (data_sector v c + i) _ R1 Hk). intros ok s2 (-> & R2 & E2 & F2). cbn [negb].
  change (storage_buf (FsState _ ?b)) with b in E2.
  destruct n as [|n].
  { cbn [zero_sectors]. apply runs_ret. split_and!; [done|done| |].
    - intros j Hj. by replace j with i by lia.
    - intros k Hk' Hnk. apply F2; [done|lia]. }
  replace (wrap32 (data_sector v c + i + 1)) with (data_sector v c + (i + 1)).
  2: { destruct (data_sector_range c (i + 1) Hc) as [Hk' _]; [lia|]. pose proof (g_cap _ _ G). rewrite wrap_small; lia. }
  eapply runs_mono; [apply (IH (i + 1) s2 R2); lia|]. intros ok s3 (-> & R3 & Z3 & F3). split_and!; [done|done| |].
  - intros j Hj. destruct (Z.eq_dec j i) as [->|Hne]; [|apply Z3; lia]. rewrite F3; [exact E2|done|lia].
  - intros k Hk' Hnk. rewrite F3 by (try done; lia). apply F2; [done|lia].
Qed.

(** A place for a new entry, in a directory that may have grown by a cluster. *)
Record slot_found s (rl : list Z) (loc : dir_loc) (rl' : list Z) s' : Prop := {
  sf_chain : chain s' (root_cluster v) rl';
  sf_list : rl' = rl \/ exists new, rl' = rl ++ [new] /\ valid v new /\ entry s new = 0;
  sf_slot : exists pre post, slots rl' = pre ++ loc :: post /\ (slots rl = pre ++ loc :: post \/ slots rl = pre) /\
    is_free (slot_bytes s' loc) = true /\ Forall (fun x => is_free (slot_bytes s' x) = false) pre /\
    (slots rl = pre -> Forall (ends s') post);
  sf_old : forall x, x ∈ slots rl -> slot_bytes s' x = slot_bytes s x;
  sf_entries : forall c, valid v c -> c ∉ rl' -> entry s' c = entry s c;
  sf_data : forall k, 0 <= k < capacity -> ~ in_fats v k -> (forall c, c ∈ rl' -> c ∉ rl -> ~ in_cluster c k) -> sec s' k = sec s k;
  sf_mirrored : mirrored s -> mirrored s'
}.

Lemma slots_app l1 l2 : slots (l1 ++ l2) = slots l1 ++ slots l2.
Proof. unfold slots. by rewrite map_app, concat_app. Qed.

Lemma slot_found_same s s' rl loc :
  chain s (root_cluster v) rl -> same s s' -> first_free s (slots rl) = Some loc -> slot_found s rl loc rl s'.
Proof.
  intros C S Hf. pose proof (chain_valid _ _ _ C) as V.
  assert (E : forall x, x ∈ slots rl -> slot_bytes s' x = slot_bytes s x).
  { intros x Hx. destruct (slot_in_chain _ _ V Hx) as (c & _ & Vc & Hc). destruct (slot_in_cluster _ _ Vc Hc) as [Hk _].
    destruct (in_cluster_range _ _ Vc Hk) as [Hk' _]. unfold slot_bytes. by rewrite S. }
  split; [by eapply chain_same|by left| |done|intros; by apply entry_same|intros; by apply S|].
  - rewrite <- (first_free_ext s s') in Hf by done. destruct (first_free_Some _ _ _ Hf) as (pre & post & Es & Hl & Fp).
    exists pre, post. split_and!; auto. intros E'. exfalso. rewrite Es in E'. apply (f_equal length) in E'.
    rewrite length_app in E'. cbn in E'. lia.
  - intros M i Hi. destruct G. rewrite !S by (geo; nia). by apply M.
Qed.

Lemma slot_zero s' c loc :
  valid v c -> loc ∈ cluster_slots c ->
  (forall j, 0 <= j < sectors_per_cluster v -> sec s' (data_sector v c + j) = zeroes) -> ends s' loc.
Proof.
  intros Vc Hl Z. destruct (slot_in_cluster c loc Vc Hl) as [[Hk1 Hk2] (e & He & Eo)].
  unfold ends, slot_bytes. replace (dsector loc) with (data_sector v c + (dsector loc - data_sector v c)) by lia.
  rewrite Z by lia. rewrite Eo. change ENTRIES with 16%nat in He.
  by do 16 (destruct e as [|e]; [vm_compute; reflexivity|]); lia.
Qed.

(** The first entry of a cluster. *)
Lemma cluster_slots_head c : exists t, cluster_slots c = DirLoc (data_sector v c) 0 :: t.
Proof.
  unfold cluster_slots, cluster_lbas. pose proof (g_spc _ _ G).
  destruct (Z.to_nat (sectors_per_cluster v)) as [|n] eqn:E; [lia|]. cbn [seq map concat].
  rewrite Z.add_0_r. unfold sector_slots, slots_from. change ENTRIES with 16%nat. cbn [seq map app]. by eexists.
Qed.

Lemma slot_bytes_frame s s' rl loc :
  Forall (valid v) rl -> loc ∈ slots rl -> (forall c k, c ∈ rl -> in_cluster c k -> sec s' k = sec s k) ->
  slot_bytes s' loc = slot_bytes s loc.
Proof.
  intros V Hl F. destruct (slot_in_chain _ _ V Hl) as (c & Hc & Vc & Hl').
  destruct (slot_in_cluster _ _ Vc Hl') as [Hk _]. unfold slot_bytes. by rewrite (F c).
Qed.

Lemma entry_fats s s' c :
  (forall k, in_fats v k -> 0 <= k < capacity -> sec s' k = sec s k) -> valid v c -> entry s' c = entry s c.
Proof.
  intros F Vc. destruct (fat_offsets c Vc) as (_ & _ & _ & H1 & _ & _ & H4). pose proof (g_begin _ _ G).
  unfold entry. rewrite F; [done|unfold in_fats; destruct G; lia|lia].
Qed.

Lemma grown_slot s rl new s1 s2 :
  chain s (root_cluster v) rl -> first_free s (slots rl) = None -> extended s (root_cluster v) rl (Some new) s1 ->
  (forall j, 0 <= j < sectors_per_cluster v -> sec s2 (data_sector v new + j) = zeroes) ->
  (forall k, 0 <= k < capacity -> ~ in_cluster new k -> sec s2 k = sec s1 k) ->
  slot_found s rl (DirLoc (data_sector v new) 0) (rl ++ [new]) s2.
Proof.
  intros C Hn (Vn & En & C1 & O1 & D1 & M1) Z F. pose proof (chain_valid _ _ _ C) as V.
  assert (Hnl : new ∉ rl) by (intros Hin; by apply (chain_used _ _ _ _ C Hin)).
  assert (NF : forall k, in_fats v k -> 0 <= k < capacity -> sec s2 k = sec s1 k).
  { intros k Hk Hc. apply F; [done|]. intros Hi. by destruct (in_cluster_range _ _ Vn Hi) as [_ ?]. }
  assert (E12 : forall c, valid v c -> entry s2 c = entry s1 c).
  { intros c Vc. by apply entry_fats. }
  assert (Old : forall c k, c ∈ rl -> in_cluster c k -> sec s2 k = sec s k).
  { intros c k Hc Hk. assert (Vc : valid v c) by (by apply (proj1 (Forall_forall _ _) V), list_elem_of_In).
    destruct (in_cluster_range _ _ Vc Hk). rewrite F; [by apply D1|done|].
    intros Hi. apply Hnl. by rewrite (in_cluster_inj _ _ _ Hi Hk). }
  split.
  - eapply chain_frame; [exact C1|]. intros c Hc. apply E12.
    apply (proj1 (Forall_forall _ _) (chain_valid _ _ _ C1)), list_elem_of_In, Hc.
  - right. by exists new.
  - destruct (cluster_slots_head new) as (t & Et). exists (slots rl), t.
    rewrite slots_app. unfold slots at 2. cbn [map concat]. rewrite app_nil_r, Et. split_and!; [done|by right| | |].
    + apply ends_free, (slot_zero _ new); [done|rewrite Et; by left|done].
    + apply Forall_forall. intros x Hx. apply list_elem_of_In in Hx. pose proof (first_free_None _ _ Hn) as Fn.
      rewrite (slot_bytes_frame s s2 rl x V Hx Old).
      by apply (proj1 (Forall_forall _ _) Fn), list_elem_of_In.
    + intros _. apply Forall_forall. intros x Hx. apply (slot_zero _ new); [done| |done].
      rewrite Et. right. by apply list_elem_of_In.
  - intros x Hx. by apply (slot_bytes_frame s s2 rl x V Hx Old).
  - intros c Vc Hc. rewrite E12 by done. apply O1; [done| |].
    + intros Hin. apply Hc, elem_of_app. by left.
    + intros ->. apply Hc, elem_of_app. right. by left.
  - intros k Hk Hf Hc. rewrite F; [by apply D1|done|]. apply (Hc new); [|done]. apply elem_of_app. right. by left.
  - intros M i Hi. destruct G. rewrite !NF by (unfold in_fats; nia). by apply M1.
Qed.

Lemma same_sym s s' : same s s' -> same s' s.
Proof. intros S k Hk. symmetry. by apply S. Qed.

Lemma grow_root_ok s0 s l x :
  ready s -> same s0 s -> chain s0 (root_cluster v) (l ++ [x]) -> first_free s0 (slots (l ++ [x])) = None ->
  runs (grow_root v x) s (fun r s' => ready s' /\
    match r with
    | Some loc => exists rl', slot_found s0 (l ++ [x]) loc rl' s'
    | None => same s0 s' /\ forall c', valid v c' -> entry s0 c' <> 0
    end).
Proof.
  intros R S C Hn. unfold grow_root.
  assert (Vx : valid v x).
  { apply (proj1 (Forall_forall _ _) (chain_valid _ _ _ C)), in_app_iff. right. by left. }
  runs_step (alloc_cluster_ok s R). intros [new|] s1 [R1 A1]; pose proof (allocated_same _ _ _ _ S A1) as A.
  2: { apply runs_ret. split; [done|]. by destruct A. }
  runs_step (write_fat_entry_ok x new s1 R1 Vx). intros ok s2 (-> & R2 & F2). cbn [negb].
  pose proof (link_new _ _ _ _ _ _ _ C A F2) as E. pose proof E as (Vn & _). rewrite cluster_to_sector_ok by done.
  pose proof (g_spc _ _ G). rewrite <- (Z.add_0_r (data_sector v new)) at 1.
  runs_step (zero_sectors_ok new (Z.to_nat (sectors_per_cluster v)) 0 s2 R2 Vn); [lia|lia|].
  intros ok s3 (-> & R3 & Z3 & F3). apply runs_ret. split; [done|]. exists ((l ++ [x]) ++ [new]).
  eapply grown_slot; [done|done|exact E|done|]. intros k Hk Hi. apply F3; [done|]. unfold in_cluster in Hi. lia.
Qed.

Lemma find_free_ok l1 l c (n : nat) s0 s :
  ready s -> same s0 s -> chain s0 (root_cluster v) (l1 ++ l) -> chain s0 c l -> first_free s0 (slots l1) = None ->
  (length l <= n)%nat ->
  runs (find_free_from v n c) s (fun r s' => ready s' /\
    match r with
    | Some loc => exists rl', slot_found s0 (l1 ++ l) loc rl' s'
    | None => same s0 s' /\ forall c', valid v c' -> entry s0 c' <> 0
    end).
Proof.
  revert l1 c n s. induction l as [|x l IH]; intros l1 c n s R S C0 C Hn Hl; [inversion C|].
  destruct n as [|n]; [cbn in Hl; lia|]. cbn [find_free_from]. cbn [length] in Hl.
  destruct (chain_head _ _ _ C) as (? & [= <- _]). pose proof (chain_valid _ _ _ C) as V.
  inversion V as [|? ? Vx _]; subst. rewrite cluster_to_sector_ok by done. pose proof (g_spc _ _ G).
  rewrite <- (Z.add_0_r (data_sector v x)).
  runs_step (free_in_cluster_ok x (Z.to_nat (sectors_per_cluster v)) 0 s R Vx); [lia|lia|].
  intros r s1 (R1 & S1 & ->). change (Z.to_nat 0) with O. fold (cluster_lbas x). fold (cluster_slots x).
  assert (S01 : same s0 s1) by (by eapply same_trans).
  rewrite (first_free_ext s0 s) by (intros loc Hloc; by apply (slot_bytes_same _ _ x)).
  assert (Ef : first_free s0 (slots (l1 ++ [x])) = first_free s0 (cluster_slots x)).
  { rewrite slots_app, first_free_app, Hn. unfold slots. cbn [map concat]. by rewrite app_nil_r. }
  replace (l1 ++ x :: l) with ((l1 ++ [x]) ++ l) in * by (by rewrite <- app_assoc).
  destruct (first_free s0 (cluster_slots x)) as [loc|] eqn:E1.
  { apply runs_ret. split; [done|]. exists ((l1 ++ [x]) ++ l). apply slot_found_same; [done|done|].
    by rewrite slots_app, first_free_app, Ef. }
  runs_step (next_cluster_ok x s1 R1 Vx). intros r s2 (-> & R2 & S2). rewrite (entry_same s0 s1) by done.
  assert (S02 : same s0 s2) by (by eapply same_trans).
  inversion C as [? H1 H2|? c1 ? H1 H2 H3 H4]; subst.
  - rewrite link_eoc by done. rewrite app_nil_r in *. by apply grow_root_ok.
  - rewrite link_valid by done. apply IH; [done|done|done|done|done|lia].
Qed.

(** The entry of a new, empty file. *)
Definition new_dirent (name : list Z) : list Z := name ++ 0x20 :: replicate 20 0.

Lemma new_dirent_build name :
  zlen name = 11 -> put (put (replicate 32 0) 0 name) 11 [0x20] = new_dirent name.
Proof. intros E. unfold zlen in E. do 12 (destruct name as [|? name]; try discriminate E); [reflexivity|cbn in E; lia]. Qed.

Lemma write_new_dirent_ok loc name s :
  ready s -> 0 <= dsector loc < capacity -> 0 <= doffset loc -> doffset loc + 32 <= SECTOR_SIZE ->
  zlen name = 11 -> Forall is_u8 name ->
  runs (write_new_dirent loc name) s (fun ok s' => ok = true /\ ready s' /\
    sec s' (dsector loc) = put (sec s (dsector loc)) (doffset loc) (new_dirent name) /\
    forall l, 0 <= l < capacity -> l <> dsector loc -> sec s' l = sec s l).
Proof.
  intros R Hl H1 H2 Hn Hu. unfold write_new_dirent. runs_step (fs_read_sector_ok _ s R Hl).
  intros ok s1 (-> & R1 & S1 & B1). cbn [negb]. apply runs_bind, runs_get. rewrite B1.
  pose proof (sec_ok s (dsector loc) R) as Hb. destruct Hb as [L F]. unfold SECTOR_SIZE, DIRENT_SIZE in *.
  set (b := sec s (dsector loc)) in *. set (off := doffset loc) in *.
  assert (Z32 : zlen (replicate 32 0) = 32) by done.
  apply runs_bind, runs_pure. exists (put b off (replicate 32 0)). split.
  { unfold bfill. replace (off + 32 - off) with 32 by lia. rewrite (proj2 (Z.leb_le _ _)) by lia. apply bcopy_ok; [lia|].
    change (zlen (replicate (Z.to_nat 32) 0)) with 32. lia. }
  apply runs_bind, runs_pure. eexists. split; [apply bcopy_ok; [lia|rewrite zlen_put; lia]|].
  rewrite <- (Z.add_0_r off) at 2. rewrite put_put_inside by lia.
  assert (Z1 : zlen (put (replicate 32 0) 0 name) = 32) by (rewrite zlen_put; lia).
  apply runs_bind, runs_pure. eexists. split; [apply bset_ok; rewrite zlen_put; lia|].
  rewrite put_put_inside by (change (zlen [32]) with 1; lia). rewrite new_dirent_build by done.
  apply runs_bind, runs_modify.
  assert (R2 : ready (FsState (dev s1) (put b off (new_dirent name)))).
  { apply set_buffer_ready; [done|]. assert (zlen (new_dirent name) = 32) by (unfold new_dirent, zlen in *; rewrite length_app; cbn; lia).
    apply is_sector_put; [by split|lia|unfold SECTOR_SIZE; lia|]. apply Forall_app. split; [done|].
    constructor; [unfold is_u8; lia|]. apply Forall_replicate. unfold is_u8. lia. }
  eapply runs_mono; [apply (fs_write_sector_ok _ _ R2 Hl)|]. intros ok s' (-> & R' & E' & C').
  split_and!; [done|done|exact E'|]. intros l' Hl' Hn'. rewrite (C' l' Hl' Hn'). by apply S1.
Qed.

(** A name that can be looked up: eleven bytes, the first neither of the two marks of an unused entry. *)
Definition short_name (name : list Z) : Prop :=
  zlen name = 11 /\ Forall is_u8 name /\ byte_at name 0 <> 0 /\ byte_at name 0 <> 0xE5.

Lemma verdict_new name other : short_name name -> verdict_of other (new_dirent name) = if decide (name = other) then Hit 0 0 else Pass.
Proof.
  intros (L & _ & N0 & N1). unfold zlen in L. do 11 (destruct name as [|? name]; [discriminate L|]).
  destruct name; [|cbn in L; lia]. unfold verdict_of, new_dirent. cbn [byte_at] in *.
  match goal with |- context [bytes_eqb ?x _] => change (bytes_eqb x other) with (bytes_eqb [z; z0; z1; z2; z3; z4; z5; z6; z7; z8; z9] other) end.
  change (byte_at _ 0) with z in *. rewrite !(proj2 (Z.eqb_neq _ _)) by done.
  change (byte_at _ 11) with 0x20. cbn [Z.eqb Pos.eqb orb negb Z.land Pos.land].
  case_decide as E; [rewrite (proj2 (bytes_eqb_eq _ _) E); reflexivity|].
  destruct (bytes_eqb _ other) eqn:Eb; [|reflexivity]. by apply bytes_eqb_eq in Eb.
Qed.

(** The directory [rl] gets an entry for the new file [name] at [loc], and is then [rl']. *)
Record created s (rl name : list Z) (loc : dir_loc) (rl' : list Z) s' : Prop := {
  cr_chain : chain s' (root_cluster v) rl';
  cr_list : rl' = rl \/ exists new, rl' = rl ++ [new] /\ valid v new /\ entry s new = 0;
  cr_found : dir_find s' name rl' = Some (0, 0, loc);
  cr_others : forall other f, other <> name -> dir_find s other rl = Some f -> dir_find s' other rl' = Some f;
  cr_tidy : tidy s rl -> tidy s' rl' /\ forall other, other <> name -> dir_find s' other rl' = dir_find s other rl;
  cr_entries : forall c, valid v c -> c ∉ rl' -> entry s' c = entry s c;
  cr_data : forall k, 0 <= k < capacity -> ~ in_fats v k -> (forall c, c ∈ rl' -> ~ in_cluster c k) -> sec s' k = sec s k;
  cr_mirrored : mirrored s -> mirrored s'
}.

Lemma dir_scan_verdict s s' name locs :
  (forall loc, loc ∈ locs -> verdict_of name (slot_bytes s' loc) = verdict_of name (slot_bytes s loc)) ->
  dir_scan s' name locs = dir_scan s name locs.
Proof.
  induction locs as [|loc locs IH]; intros H; cbn; [done|]. rewrite H by (by left).
  destruct (verdict_of _ _); [done| |done]. apply IH. intros x Hx. apply H. by right.
Qed.

Lemma dir_scan_used s name locs :
  Forall (fun x => is_free (slot_bytes s x) = false) locs -> dir_scan s name locs <> Some None.
Proof.
  induction 1 as [|x locs Hx _ IH]; cbn; [done|]. unfold verdict_of, is_free in *.
  apply orb_false_iff in Hx as [-> ->]. destruct (_ || _); [done|]. by destruct (bytes_eqb _ _).
Qed.

Lemma verdict_free name e : is_free e = true -> verdict_of name e = Finish \/ verdict_of name e = Pass.
Proof. unfold is_free, verdict_of. destruct (byte_at e 0 =? 0); [by left|]. cbn. intros ->. by right. Qed.

(** Writing a whole entry leaves the other ones as they are. *)
Lemma slot_write s s' loc name x (e e' : nat) :
  ready s -> short_name name ->
  doffset loc = Z.of_nat e * DIRENT_SIZE -> (e < ENTRIES)%nat -> doffset x = Z.of_nat e' * DIRENT_SIZE -> (e' < ENTRIES)%nat ->
  sec s' (dsector loc) = put (sec s (dsector loc)) (doffset loc) (new_dirent name) ->
  (dsector x <> dsector loc -> sec s' (dsector x) = sec s (dsector x)) ->
  slot_bytes s' x = if decide (x = loc) then new_dirent name else slot_bytes s x.
Proof.
  intros R (Ln & _) Ho He Hx He' E F. change ENTRIES with 16%nat in *. unfold DIRENT_SIZE in *.
  assert (Lz : zlen (new_dirent name) = 32) by (unfold new_dirent, zlen in *; rewrite length_app; cbn; lia).
  pose proof (proj1 (sec_ok s (dsector loc) R)) as L. unfold SECTOR_SIZE in L. unfold slot_bytes, DIRENT_SIZE.
  case_decide as Ex; [subst x; rewrite E; rewrite <- Lz; apply sub_put_same; lia|].
  destruct (Z.eq_dec (dsector x) (dsector loc)) as [Ed|Hd]; [|by rewrite F].
  assert (doffset x <> doffset loc) by (destruct x, loc; cbn in *; congruence).
  rewrite Ed, E. destruct (Z_lt_le_dec (doffset x) (doffset loc)); [apply sub_put_low; lia|apply sub_put_high; lia].
Qed.

Lemma created_lookup s s' name loc (pre post old : list dir_loc) :
  short_name name -> (old = pre ++ loc :: post \/ old = pre) -> is_free (slot_bytes s loc) = true ->
  Forall (fun x => is_free (slot_bytes s x) = false) pre ->
  (forall x, x ∈ pre ++ loc :: post -> slot_bytes s' x = if decide (x = loc) then new_dirent name else slot_bytes s x) ->
  (match dir_scan s name old with Some r => r | None => None end = None ->
   dir_scan s' name (pre ++ loc :: post) = Some (Some (0, 0, loc))) /\
  forall other f, other <> name -> dir_scan s other old = Some (Some f) ->
    dir_scan s' other (pre ++ loc :: post) = Some (Some f).
Proof.
  intros Hs Ho Hf Fp Hb.
  assert (Ep : forall o, dir_scan s' o pre = dir_scan s o pre).
  { intros o. apply dir_scan_ext. intros x Hx. rewrite Hb by (apply elem_of_app; by left). case_decide as E; [|done].
    subst x. apply list_elem_of_In in Hx. pose proof (proj1 (Forall_forall _ _) Fp loc Hx) as E'. congruence. }
  assert (Hl : slot_bytes s' loc = new_dirent name).
  { rewrite Hb by (apply elem_of_app; right; by left). by rewrite decide_True. }
  split.
  - intros Hn. rewrite dir_scan_app, Ep. destruct (dir_scan s name pre) as [r|] eqn:E.
    + exfalso. assert (r = None) as -> by (by destruct Ho as [-> | ->]; [rewrite dir_scan_app, E in Hn|rewrite E in Hn]).
      by apply (dir_scan_used s name pre Fp).
    + cbn [dir_scan]. rewrite Hl, verdict_new by done. by rewrite decide_True.
  - intros o f Hne Hd. rewrite dir_scan_app, Ep. destruct Ho as [-> | ->]; [|by rewrite Hd].
    rewrite dir_scan_app in Hd. destruct (dir_scan s o pre); [done|]. rewrite <- Hd.
    destruct (verdict_free o _ Hf) as [Ev|Ev]; [cbn [dir_scan] in Hd; by rewrite Ev in Hd|].
    apply dir_scan_verdict. intros x Hx. rewrite Hb by (apply elem_of_app; by right). case_decide as E; [|done].
    subst x. rewrite Ev, verdict_new by done. by rewrite decide_False by congruence.
Qed.

(** An end mark, or nothing, is all a search finds from here. *)
Lemma dir_scan_ends s name locs : Forall (ends s) locs -> match dir_scan s name locs with Some r => r | None => None end = None.
Proof. destruct 1 as [|x locs Hx _]; [done|]. cbn. unfold verdict_of. unfold ends in Hx. by rewrite Hx. Qed.

Lemma created_tidy s s' name loc (pre post old : list dir_loc) :
  short_name name -> (old = pre ++ loc :: post \/ old = pre) -> is_free (slot_bytes s loc) = true ->
  Forall (fun x => is_free (slot_bytes s x) = false) pre -> (old = pre -> Forall (ends s) post) ->
  NoDup (pre ++ loc :: post) ->
  (forall x, x ∈ pre ++ loc :: post -> slot_bytes s' x = if decide (x = loc) then new_dirent name else slot_bytes s x) ->
  tidy_slots s old ->
  tidy_slots s' (pre ++ loc :: post) /\
  forall other, other <> name ->
    match dir_scan s' other (pre ++ loc :: post) with Some r => r | None => None end =
    match dir_scan s other old with Some r => r | None => None end.
Proof.
  intros Hs Ho Hf Fp Fn Nd Hb Ti. apply list.NoDup_app in Nd as (_ & Nd1 & Nd2). apply list.NoDup_cons in Nd2 as [Nd2 _].
  assert (Ep : forall x, x ∈ pre -> slot_bytes s' x = slot_bytes s x).
  { intros x Hx. rewrite Hb by (apply elem_of_app; by left). rewrite decide_False; [done|].
    intros ->. apply (Nd1 loc Hx). by left. }
  assert (Eq : forall x, x ∈ post -> slot_bytes s' x = slot_bytes s x).
  { intros x Hx. rewrite Hb by (apply elem_of_app; right; by right). rewrite decide_False; [done|]. by intros ->. }
  assert (El : slot_bytes s' loc = new_dirent name).
  { rewrite Hb by (apply elem_of_app; right; by left). by rewrite decide_True. }
  assert (Fp' : Forall (fun x => is_free (slot_bytes s' x) = false) pre).
  { apply Forall_forall. intros x Hx. rewrite Ep by (by apply list_elem_of_In). by apply (proj1 (Forall_forall _ _) Fp). }
  assert (Ends : Forall (ends s) post -> Forall (ends s') post).
  { intros F. apply Forall_forall. intros x Hx. unfold ends. rewrite Eq by (by apply list_elem_of_In).
    by apply (proj1 (Forall_forall _ _) F). }
  split.
  - rewrite tidy_app_used by done. cbn. split.
    + unfold ends. rewrite El. destruct Hs as (L & _ & N0 & _). unfold new_dirent. unfold zlen in L.
      destruct name; [done|]. cbn. intros E. by destruct N0.
    + destruct Ho as [-> | Ho]; [|by apply tidy_ends, Ends, Fn]. rewrite tidy_app_used in Ti by done.
      destruct Ti as [_ Ti]. by eapply tidy_slots_ext.
  - intros o Hne. rewrite dir_scan_app, (dir_scan_ext s s' o pre Ep). cbn [dir_scan].
    rewrite El, verdict_new by done. rewrite decide_False by congruence. destruct Ho as [-> | Ho].
    + rewrite dir_scan_app. rewrite tidy_app_used in Ti by done. destruct Ti as [Te _].
      destruct (dir_scan s o pre); [done|]. cbn [dir_scan]. destruct (verdict_free o _ Hf) as [Ev|Ev]; rewrite Ev.
      * apply dir_scan_ends, Ends, Te. unfold verdict_of in Ev. unfold ends.
        destruct (byte_at (slot_bytes s loc) 0 =? 0) eqn:E0; [lia|]. repeat case_match; done.
      * by rewrite (dir_scan_ext s s' o post Eq).
    + rewrite Ho. destruct (dir_scan s o pre); [done|]. by apply dir_scan_ends, Ends, Fn.
Qed.

Lemma slots_nodup rl : Forall (valid v) rl -> NoDup rl -> NoDup (slots rl).
Proof.
  intros V N. apply NoDup_concat_map; [done| |].
  - intros c. apply NoDup_concat_map.
    + apply NoDup_fmap_2; [|apply NoDup_seq]. intros i j E. lia.
    + intros lba. apply NoDup_fmap_2; [|apply NoDup_seq]. intros i j [= E]. unfold DIRENT_SIZE in E. lia.
    + intros x y b _ _ (e & -> & _)%list_elem_of_fmap (e' & E & _)%list_elem_of_fmap. by injection E.
  - intros c c' loc Hc Hc' H1 H2. apply list_elem_of_In in Hc, Hc'. rewrite Forall_forall in V.
    destruct (slot_in_cluster c loc (V c Hc) H1) as [K1 _]. destruct (slot_in_cluster c' loc (V c' Hc') H2) as [K2 _].
    by eapply in_cluster_inj.
Qed.

Lemma create_ok s rl name loc rl' s1 :
  ready s1 -> slot_found s rl loc rl' s1 -> short_name name -> dir_find s name rl = None ->
  runs (write_new_dirent loc name) s1 (fun ok s' => ok = true /\ ready s' /\ created s rl name loc rl' s').
Proof.
  intros R [C L (pre & post & Es & Eo & Hf & Fp & Fz) Old En Da Mi] Hs Hd. pose proof (chain_valid _ _ _ C) as V.
  assert (Hl : loc ∈ slots rl') by (rewrite Es; apply elem_of_app; right; by left).
  destruct (slot_in_chain _ _ V Hl) as (c & Hc & Vc & Hlc). destruct (slot_in_cluster _ _ Vc Hlc) as [Hk (e & He & Hoff)].
  destruct (in_cluster_range _ _ Vc Hk) as [Hk' Nk]. pose proof Hs as (Ln & Hu & _).
  eapply runs_mono; [apply write_new_dirent_ok; [done|done| | |done|done]; rewrite Hoff; change ENTRIES with 16%nat in He;
    unfold DIRENT_SIZE, SECTOR_SIZE; lia|].
  intros ok s2 (-> & R2 & E2 & F2). split; [done|]. split; [done|].
  assert (Hb : forall x, x ∈ pre ++ loc :: post -> slot_bytes s2 x = if decide (x = loc) then new_dirent name else slot_bytes s1 x).
  { intros x Hx. rewrite <- Es in Hx. destruct (slot_in_chain _ _ V Hx) as (c' & _ & Vc' & Hx').
    destruct (slot_in_cluster _ _ Vc' Hx') as [Hxk (e' & He' & Hx2)]. destruct (in_cluster_range _ _ Vc' Hxk) as [Hxk' _].
    eapply (slot_write s1 s2 loc name x e e'); try done. intros Hne. by apply F2. }
  assert (Ef : forall k, in_fats v k -> 0 <= k < capacity -> sec s2 k = sec s1 k) by (intros k Hfk Hck; apply F2; [done|by intros ->]).
  assert (E12 : forall c, valid v c -> entry s2 c = entry s1 c) by (intros; by apply entry_fats).
  destruct (created_lookup s1 s2 name loc pre post (slots rl) Hs Eo Hf Fp Hb) as [Hnew Hoth].
  assert (Eold : forall o, dir_scan s1 o (slots rl) = dir_scan s o (slots rl)) by (intros; by apply dir_scan_ext).
  split; [|done| | | | | |].
  - eapply chain_frame; [exact C|]. intros x Hx. apply E12, (proj1 (Forall_forall _ _) V), list_elem_of_In, Hx.
  - unfold dir_find. rewrite Es, Hnew; [done|]. rewrite Eold. exact Hd.
  - intros o f Hne Hdo. unfold dir_find in *. rewrite Es. rewrite (Hoth o f Hne); [done|]. rewrite Eold.
    destruct (dir_scan s o (slots rl)); [by rewrite Hdo|done].
  - intros Ti. unfold tidy, dir_find. rewrite Es.
    destruct (created_tidy s1 s2 name loc pre post (slots rl) Hs Eo Hf Fp Fz) as [T' D'].
    + rewrite <- Es. apply slots_nodup; [done|]. by eapply chain_nodup.
    + done.
    + by eapply tidy_slots_ext.
    + split; [done|]. intros o Hne. by rewrite D', Eold.
  - intros x Vx Hx. rewrite E12 by done. by apply En.
  - intros k Hkc Hkf Hkn. rewrite F2; [apply Da; try done; intros x Hx _; by apply Hkn|done|].
    intros ->. by apply (Hkn c).
  - intros M i Hi. destruct G. rewrite !Ef by (unfold in_fats; nia). by apply Mi.
Qed.

Lemma open_or_create_ok name create rl (n : nat) s :
  ready s -> chain s (root_cluster v) rl -> (length rl <= n)%nat -> short_name name ->
  runs (open_or_create n v name create) s (fun r s' => ready s' /\
    match dir_find s name rl with
    | Some f => r = Some f /\ same s s'
    | None =>
        match r with
        | Some (start, sz, loc) => create = true /\ start = 0 /\ sz = 0 /\ exists rl', created s rl name loc rl' s'
        | None => same s s' /\ (create = true -> forall c, valid v c -> entry s c <> 0)
        end
    end).
Proof.
  intros R C Hn Hs. unfold open_or_create, find_in_root, find_free_root_slot.
  runs_step (find_in_root_ok name _ rl n s R C Hn). intros r s1 (R1 & S1 & ->).
  destruct (dir_find s name rl) as [f|] eqn:Ed; [by apply runs_ret|].
  destruct create; cbn [negb]; [|by apply runs_ret].
  runs_step (find_free_ok [] rl (root_cluster v) n s s1 R1 S1 C C eq_refl Hn).
  intros [loc|] s2 [R2 H2]; [|by apply runs_ret; destruct H2]. destruct H2 as (rl' & Hsf).
  runs_step (create_ok s rl name loc rl' s2 R2 Hsf Hs Ed). intros ok s3 (-> & R3 & Cr).
  apply runs_ret. split; [done|]. split_and!; try done. by exists rl'.
Qed.
End volume.
