(* ===== verification/Volume.v ===== *)
(** * Mounting a volume, and what its clients rely on

    [parse_bpb] on a FAT32 boot sector gives the geometry FatSpec.v assumes.  On such a
    volume a file holds what was last written to it, a write leaves the other files alone,
    and a created file is found again. *)

From stdpp Require Import base list numbers.
From Stdlib Require Import Lia.
From S2P Require Import Prelude Pio Block Fat32 FatSpec.
Open Scope Z_scope.

(** ** Mounting *)

(** A FAT32 boot sector, for a volume at sector [base] of a device with [cap] sectors: what
    the format asks for, at least two FATs, and every data sector on the device. *)
Record boot_sector (cap base : Z) (b : list Z) : Prop := {
  bo_sector : is_sector b;
  bo_bytes : word16 b 11 = SECTOR_SIZE;
  bo_mark : byte_at b 510 = 0x55 /\ byte_at b 511 = 0xAA;
  bo_spc : 0 < byte_at b 13;
  bo_fats : 2 <= byte_at b 16;
  bo_size : 0 < word32 b 36;
  bo_base : 0 <= base;
  bo_data : word16 b 14 + byte_at b 16 * word32 b 36 + byte_at b 13 <= word32 b 32;
  bo_covered : 4 * ((word32 b 32 - (word16 b 14 + byte_at b 16 * word32 b 36)) / byte_at b 13 + 2) <= word32 b 36 * SECTOR_SIZE;
  bo_count : (word32 b 32 - (word16 b 14 + byte_at b 16 * word32 b 36)) / byte_at b 13 + 1 < FAT32_EOC_MIN;
  bo_cap : base + word32 b 32 <= cap <= 2 ^ 32
}.

(** The partition table's first entry gives a FAT32 partition at [base]. *)
Definition partition_at (b : list Z) (base : Z) : Prop :=
  byte_at b 510 = 0x55 /\ byte_at b 511 = 0xAA /\ (byte_at b 450 = 0x0B \/ byte_at b 450 = 0x0C) /\ word32 b 454 = base.

Lemma byte_at_u8 b i : Forall is_u8 b -> is_u8 (byte_at b i).
Proof.
  intros F. rewrite byte_at_lookup. destruct (b !! Z.to_nat i) as [x|] eqn:E; cbn; [|unfold is_u8; lia].
  by apply (Forall_lookup_1 _ _ _ _ F E).
Qed.

Lemma word16_range b o : Forall is_u8 b -> 0 <= word16 b o < 2 ^ 16.
Proof.
  intros F. unfold word16, u16_from_le. pose proof (byte_at_u8 b o F). pose proof (byte_at_u8 b (o + 1) F).
  unfold is_u8 in *. lia.
Qed.

Lemma word32_range b o : Forall is_u8 b -> 0 <= word32 b o < 2 ^ 32.
Proof.
  intros F. unfold word32, u32_from_le. pose proof (byte_at_u8 b o F). pose proof (byte_at_u8 b (o + 1) F).
  pose proof (byte_at_u8 b (o + 2) F). pose proof (byte_at_u8 b (o + 3) F). unfold is_u8 in *. lia.
Qed.

Lemma fields_ok b : is_sector b -> fat32_fields_valid b =
  Ok ((word16 b 11 =? SECTOR_SIZE) && ((byte_at b 510 =? 0x55) && (byte_at b 511 =? 0xAA)) && negb (word32 b 36 =? 0)).
Proof. intros [L _]. unfold fat32_fields_valid, SECTOR_SIZE in *. by rewrite le16_ok, le32_ok, !bget_ok by lia. Qed.

Lemma boot_fields cap base b : boot_sector cap base b -> fat32_fields_valid b = Ok true.
Proof.
  intros [S B [M1 M2] _ _ Hs _ _ _ _ _]. rewrite fields_ok by done. rewrite B, M1, M2.
  by rewrite (proj2 (Z.eqb_neq (word32 b 36) 0)) by lia.
Qed.

(** The volume a boot sector describes. *)
Definition volume_of (base : Z) (b : list Z) : bpb :=
  let data := word16 b 14 + byte_at b 16 * word32 b 36 in
  Bpb (byte_at b 13) (base + data) (base + word16 b 14) (word32 b 36) (word32 b 44)
    ((word32 b 32 - data) / byte_at b 13 + 1).

Lemma bpb_of_boot cap base b :
  boot_sector cap base b -> bpb_of_sector base b = Ok (Some (volume_of base b)).
Proof.
  intros [[L F] B [M1 M2] Hspc Hf Hs Hb Hd Hc He Hcap]. unfold SECTOR_SIZE in L. unfold bpb_of_sector.
  rewrite !le16_ok, !le32_ok, !bget_ok by lia. rewrite B, M1, M2. rewrite !Z.eqb_refl. cbn [negb orb andb].
  pose proof (word16_range b 14 F). pose proof (word32_range b 36 F). pose proof (word32_range b 32 F).
  pose proof (byte_at_u8 b 13 F) as U13. pose proof (byte_at_u8 b 16 F) as U16. unfold is_u8 in *.
  assert (0 <= byte_at b 16 * word32 b 36) by nia. unfold volume_of.
  rewrite (wrap_small 32 (byte_at b 16 * word32 b 36)) by lia.
  rewrite (wrap_small 32 (word16 b 14 + _)) by lia.
  rewrite (proj2 (Z.eqb_neq (byte_at b 13) 0)), (proj2 (Z.ltb_ge _ _)) by lia. cbn [orb].
  pose proof (Z.div_pos (word32 b 32 - (word16 b 14 + byte_at b 16 * word32 b 36)) (byte_at b 13) ltac:(lia) Hspc).
  unfold FAT32_EOC_MIN in He. by rewrite !wrap_small by lia.
Qed.

Lemma boot_geometry cap base b : boot_sector cap base b -> geometry cap (volume_of base b).
Proof.
  intros [[L F] B M Hspc Hf Hs Hb Hd Hc He Hcap].
  pose proof (word16_range b 14 F). pose proof (byte_at_u8 b 13 F) as U13. unfold is_u8 in U13.
  unfold volume_of. set (data := word16 b 14 + byte_at b 16 * word32 b 36) in *.
  assert (Hq : 1 <= (word32 b 32 - data) / byte_at b 13) by (apply Z.div_le_lower_bound; lia).
  assert (Hm : byte_at b 13 * ((word32 b 32 - data) / byte_at b 13) <= word32 b 32 - data) by (apply Z.mul_div_le; lia).
  split; cbn -[Z.mul SECTOR_SIZE FAT32_EOC_MIN Z.pow]; try lia; unfold data in *; nia.
Qed.

Section mount.
Context {D : Type} {BD : BlockDevice D} {BL : BlockLaws D}.
Implicit Types s : fs_state D.

(** Where a device has its volume: at its start, or in its first partition. *)
Definition volume_at s (base : Z) : Prop :=
  boot_sector capacity base (sec s base) /\
  (base = 0 \/ fat32_fields_valid (sec s 0) = Ok false /\ partition_at (sec s 0) base).

Lemma find_base_ok s base :
  ready s -> volume_at s base ->
  runs find_fat32_base s (fun r s' => r = Some base /\ ready s' /\ same s s' /\ storage_buf s' = sec s base).
Proof.
  intros R [Hb Hw]. pose proof (bo_cap _ _ _ Hb). pose proof (bo_base _ _ _ Hb).
  assert (Ht : 0 < word32 (sec s base) 32).
  { pose proof (bo_data _ _ _ Hb). pose proof (bo_fats _ _ _ Hb). pose proof (bo_size _ _ _ Hb). pose proof (bo_spc _ _ _ Hb).
    pose proof (word16_range (sec s base) 14 (proj2 (bo_sector _ _ _ Hb))). nia. }
  assert (Hz : 0 <= 0 < capacity) by lia. assert (Hk : 0 <= base < capacity) by lia. unfold find_fat32_base.
  runs_step (fs_read_sector_ok 0 s R Hz). intros ok s1 (-> & R1 & S1 & B1). cbn [negb].
  apply runs_bind, runs_get. rewrite B1. pose proof (boot_fields _ _ _ Hb) as Eb.
  destruct Hw as [->|[Ef (M1 & M2 & Ht' & Hp)]].
  { apply runs_bind, runs_pure. exists true. split; [done|]. apply runs_ret. by split_and!. }
  apply runs_bind, runs_pure. exists false. split; [done|]. destruct (sec_ok s 0 R) as [L _]. unfold SECTOR_SIZE in L.
  apply runs_bind, runs_pure. exists (Some base). split.
  { unfold first_partition. rewrite !bget_ok, le32_ok by lia. rewrite M1, M2. cbn [Z.eqb Pos.eqb andb negb].
    change (446 + 4) with 450. change (446 + 8) with 454. rewrite Hp. by destruct Ht' as [-> | ->]. }
  runs_step (fs_read_sector_ok base s1 R1 Hk). intros ok s2 (-> & R2 & S2 & B2). cbn [negb].
  rewrite (S1 base Hk) in B2. apply runs_bind, runs_get. rewrite B2.
  apply runs_bind, runs_pure. exists true. split; [done|]. apply runs_ret. split_and!; try done. by eapply same_trans.
Qed.

(** on a device that holds a FAT32 volume, at its start or in its first partition,
    [parse_bpb] finds it without changing the device, and the volume it returns has the
    geometry that makes every later sector computation exact. *)
Theorem parse_bpb_correct s base :
  ready s -> volume_at s base ->
  runs parse_bpb s (fun r s' => r = Some (volume_of base (sec s base)) /\ ready s' /\ same s s' /\
    geometry capacity (volume_of base (sec s base))).
Proof.
  intros R V. unfold parse_bpb. runs_step (find_base_ok s base R V). intros r s1 (-> & R1 & S1 & B1).
  destruct V as [Hb _]. apply runs_bind, runs_get. rewrite B1. apply runs_pure. eexists. split; [by eapply bpb_of_boot|].
  split_and!; [done|done|done|by apply boot_geometry].
Qed.
End mount.

(** ** Files *)

Section files.
Context {D : Type} {BD : BlockDevice D} {BL : BlockLaws D} (v : bpb) (G : geometry capacity v).
Implicit Types s : fs_state D.

(** The file [g] in the clusters [lg] shares nothing with a write to a file in [l] whose
    directory entry is at [loc]. *)
Definition apart s (l : list Z) (loc : dir_loc) (g : open_file) (lg : list Z) : Prop :=
  file_on v s g lg /\ (forall c, c ∈ lg -> c ∉ l) /\ (forall c, c ∈ lg -> ~ in_cluster v c (dsector loc)).

Lemma file_chain_valid s f l : file_on v s f l -> Forall (valid v) l /\ forall c, c ∈ l -> entry v s c <> 0.
Proof.
  intros (_ & _ & [[_ ->]|C]); [split; [constructor|by intros c Hc%not_elem_of_nil]|].
  split; [by eapply chain_valid|]. intros c. by apply (chain_used v s (start_cluster f) l).
Qed.

Lemma wrote_apart s f l o d f' l' s' g lg :
  wrote v s f l o d f' l' s' -> apart s l (dirent f) g lg -> file_on v s' g lg /\ file_bytes v s' g lg = file_bytes v s g lg.
Proof.
  intros W (Hg & Hl & Hd). destruct (file_chain_valid _ _ _ Hg) as [V U]. rewrite Forall_forall in V.
  assert (Hn : forall c, c ∈ lg -> c ∉ l').
  { intros c Hc. destruct (wr_list _ _ _ _ _ _ _ _ _ W) as [->|(new & -> & _ & En)]; [by apply Hl|].
    intros [Hin|Hin]%elem_of_app; [by apply (Hl c)|]. apply list_elem_of_singleton in Hin as ->. by apply (U new). }
  assert (Hb : forall c k, c ∈ lg -> in_cluster v c k -> sec s' k = sec s k).
  { intros c k Hc Hk. assert (Vc : valid v c) by (by apply V, list_elem_of_In).
    destruct (in_cluster_range v G _ _ Vc Hk) as [Hk' Nf]. apply (wr_data _ _ _ _ _ _ _ _ _ W); try done.
    - intros ->. by apply (Hd c).
    - intros c' Hc' Hk2. apply (Hn c Hc). by rewrite (in_cluster_inj v G c c' k). }
  split.
  - destruct Hg as (Hz & Hs & Hc). split_and!; [done|done|]. destruct Hc as [Hc|Hc]; [by left|right].
    eapply chain_frame; [done|]. intros c Hcl. apply (wr_entries _ _ _ _ _ _ _ _ _ W); [|by apply Hn].
    by apply V, list_elem_of_In.
  - unfold file_bytes. f_equal. apply chain_bytes_frame; [done|by apply Forall_forall|done].
Qed.

Lemma same_file s s' g lg : same s s' -> file_on v s g lg -> file_on v s' g lg.
Proof.
  intros S (Hz & Hs & Hc). split_and!; [done|done|]. destruct Hc as [Hc|Hc]; [by left|right]. by eapply chain_same.
Qed.

Lemma same_apart s s' l loc g lg :
  same s s' -> apart s l loc g lg -> file_on v s' g lg /\ file_bytes v s' g lg = file_bytes v s g lg.
Proof.
  intros S (Hg & _). destruct (file_chain_valid _ _ _ Hg) as [V _]. split; [by apply (same_file s)|].
  unfold file_bytes. f_equal. by apply chain_bytes_same.
Qed.

Lemma zlen_file_bytes s f l : ready s -> file_on v s f l -> zlen (file_bytes v s f l) = size f.
Proof.
  intros R Hf. destruct Hf as (Hz & Hs & _). unfold file_bytes, is_u32 in *. rewrite zlen_sub; rewrite ?zlen_chain_bytes by done; lia.
Qed.

(** C6: on a device that transfers every sector ([ready]: no read or write of it fails),
    [write_file] at an offset inside the file or at its end, where the bytes end below
    2^32, stores the request's bytes up to the end of the sector, extends the file and its
    directory entry where it has to and keeps both FATs equal, or, when the disk is full,
    changes nothing and answers 0; in either case every other file keeps its clusters and
    its bytes.  Neither condition is checked by the code: after a failed transfer it answers
    0 with what it had already written in place, and an end at 2^32 wraps to 0. *)
Theorem write_file_correct f l o len client s :
  ready s -> file_on v s f l -> dirent_ok v s l (dirent f) -> 0 <= o <= size f -> 0 <= len -> is_sector client ->
  is_u32 (o + piece o len) ->
  runs (write_file v f o len client) s (fun '(n, f') s' => ready s' /\
    (n = piece o len /\ (exists l', wrote v s f l o (sub client 0 n) f' l' s') \/
     n = 0 /\ f' = f /\ same s s' /\ full v s l o) /\
    forall g lg, apart s l (dirent f) g lg -> file_on v s' g lg /\ file_bytes v s' g lg = file_bytes v s g lg).
Proof.
  intros R Hf Hd Ho Hlen Hc Hu. eapply runs_mono; [by apply (write_file_ok v G f l o len client s)|].
  intros [n f'] s' [R' [(-> & l' & W)|(-> & -> & S & Fu)]]; (split; [done|]).
  - split; [left; split; [done|by exists l']|]. intros g lg. by eapply wrote_apart.
  - split; [by right|]. intros g lg. by apply same_apart.
Qed.

(** C19: on a device that transfers every sector, and for bytes that end below 2^32, what
    [write_file] accepted is what [read_file] gives back: reading as many bytes as were
    written, at the same offset, returns exactly them; and all of the piece is accepted,
    unless the disk is full and nothing changes. *)
Theorem write_read_roundtrip f l o len client page s :
  ready s -> file_on v s f l -> dirent_ok v s l (dirent f) -> 0 <= o <= size f -> 0 <= len -> is_sector client ->
  is_u32 (o + piece o len) -> is_sector page ->
  runs ('(n, f') ← write_file v f o len client; '(m, page') ← read_file v f' o n page; mret (n, m, page')) s
    (fun '(n, m, page') s' => ready s' /\ m = n /\ page' = put page 0 (sub client 0 n) /\
      (n = piece o len \/ n = 0 /\ same s s' /\ full v s l o)).
Proof.
  intros R Hf Hd Ho Hlen Hc Hu Hp. runs_step (write_file_ok v G f l o len client s R Hf Hd Ho Hlen Hc Hu).
  pose proof (Z.mod_pos_bound o SECTOR_SIZE ltac:(unfold SECTOR_SIZE; lia)) as Hb.
  assert (Hpc : 0 <= piece o len <= SECTOR_SIZE) by (unfold piece; lia).
  intros [n f'] s1 [R1 [(-> & l' & W)|(-> & -> & S & Fu)]].
  - destruct Hc as [Lc _]. set (n := piece o len) in *.
    assert (Ld : zlen (sub client 0 n) = n) by (rewrite zlen_sub; lia).
    pose proof (wr_size _ _ _ _ _ _ _ _ _ W) as Hs. rewrite Ld in Hs. pose proof (wr_file _ _ _ _ _ _ _ _ _ W) as Hf'.
    runs_step (read_file_ok v G f' l' o n page s1 R1 Hf'); [lia|lia|done|].
    intros [m page'] s2 (R2 & S2 & Em & Ep). apply runs_ret.
    assert (m = n) as -> by (rewrite Em; unfold n, piece in *; lia).
    split_and!; [done|done| |by left]. rewrite Ep, (wr_bytes _ _ _ _ _ _ _ _ _ W). f_equal.
    rewrite <- Ld at 2. apply sub_put_same. rewrite zlen_file_bytes by done. lia.
  - runs_step (read_file_ok v G f l o 0 page s1 R1); [by apply (same_file s)|lia|lia|done|].
    intros [m page'] s2 (R2 & S2 & Em & Ep). apply runs_ret.
    assert (m = 0) as -> by (rewrite Em; unfold piece; lia).
    split_and!; [done|done| |right; split_and!; [done|by eapply same_trans|done]]. by rewrite Ep, Z.add_0_r, sub_diag.
Qed.

Lemma dir_find_same s s' name rl : same s s' -> Forall (valid v) rl -> dir_find v s' name rl = dir_find v s name rl.
Proof.
  intros S V. unfold dir_find. erewrite dir_scan_ext; [done|]. intros loc Hl.
  destruct (slot_in_chain v rl loc V Hl) as (c & _ & Vc & Hlc). by eapply slot_bytes_same.
Qed.

(** C34: on a device that transfers every sector, opening a file that exists finds it and
    changes nothing; opening with the create flag makes an empty file that is found again,
    at the place the caller was told, by the next lookup, leaves every other name that was
    found as it was and every other file's clusters alone; it fails only on a full disk.
    In a directory with nothing but end marks behind its first end mark ([tidy], which
    creating a file preserves) the lookup of every other name is as it was, found or not;
    the code overwrites the end mark without a new one, so old entries behind it would
    otherwise come back. *)
Theorem open_or_create_correct name create rl (n : nat) s :
  ready s -> chain v s (root_cluster v) rl -> (S (length rl) <= n)%nat -> short_name name ->
  runs (r ← open_or_create n v name create; again ← open_or_create n v name false; mret (r, again)) s
    (fun '(r, again) s' => ready s' /\ again = r /\
      match dir_find v s name rl with
      | Some f => r = Some f /\ same s s'
      | None =>
          match r with
          | Some (start, sz, loc) => create = true /\ start = 0 /\ sz = 0 /\ exists rl' s1, created v s rl name loc rl' s1 /\ same s1 s'
          | None => same s s' /\ (create = true -> forall c, valid v c -> entry v s c <> 0)
          end
      end).
Proof.
  intros R C Hn Hs. assert (Hn' : (length rl <= n)%nat) by lia.
  runs_step (open_or_create_ok v G name create rl n s R C Hn' Hs). intros r s1 [R1 H1].
  assert (Again : exists rl1, chain v s1 (root_cluster v) rl1 /\ (length rl1 <= n)%nat /\ dir_find v s1 name rl1 = r).
  { destruct (dir_find v s name rl) as [f|] eqn:E; [destruct H1 as [-> S]|destruct r as [[[start sz] loc]|]].
    - exists rl. rewrite <- E. split_and!; [by eapply chain_same|done|]. by apply dir_find_same; [|eapply chain_valid].
    - destruct H1 as (_ & -> & -> & rl' & Cr). exists rl'. split_and!; [apply Cr| |apply Cr].
      destruct (cr_list _ _ _ _ _ _ _ Cr) as [->|(new & -> & _)]; [done|]. rewrite length_app. cbn. lia.
    - destruct H1 as [S _]. exists rl. rewrite <- E. split_and!; [by eapply chain_same|done|].
      by apply dir_find_same; [|eapply chain_valid]. }
  destruct Again as (rl1 & C1 & Hn1 & Hd1).
  runs_step (open_or_create_ok v G name false rl1 n s1 R1 C1 Hn1 Hs). intros again s2 [R2 H2]. rewrite Hd1 in H2.
  apply runs_ret. split; [done|].
  assert (again = r /\ same s1 s2) as [-> S2].
  { destruct r as [f|]; [by destruct H2|]. destruct again as [[[? ?] ?]|]; [by destruct H2|by destruct H2]. }
  split; [done|]. destruct (dir_find v s name rl) as [f|]; [destruct H1 as [-> S]; split; [done|by eapply same_trans]|].
  destruct r as [[[start sz] loc]|].
  - destruct H1 as (-> & -> & -> & rl' & Cr). split_and!; [done..|]. by exists rl', s1.
  - destruct H1 as [S N]. split; [by eapply same_trans|done].
Qed.
End files.

(** ** A volume of eight sectors *)

(** A disk in memory: no faults, and eight sectors. *)
Definition ram : Type := list (list Z).

#[export] Instance ram_device : BlockDevice ram := {
  read_block lba page d := (true, nth (Z.to_nat lba) d zeroes, d);
  write_block lba page d := (true, <[Z.to_nat lba := page]> d);
  sector d lba := nth (Z.to_nat lba) d zeroes;
  capacity := 8;
  sound d lba := True;
  idle d := length d = 8%nat /\ Forall is_sector d
}.

Lemma ram_sector (d : ram) i : Forall is_sector d -> is_sector (nth i d zeroes).
Proof.
  intros F. destruct (Nat.lt_ge_cases i (length d)) as [Hi|Hi].
  - apply (proj1 (Forall_forall _ _) F). by apply nth_In.
  - rewrite nth_overflow by done. apply zeroes_sector.
Qed.

Lemma nth_insert (d : list (list Z)) i j x :
  (i < length d)%nat -> nth j (<[i := x]> d) zeroes = if decide (j = i) then x else nth j d zeroes.
Proof.
  intros Hi. case_decide as E.
  - subst. apply nth_lookup_Some. by apply list_lookup_insert_eq.
  - rewrite !nth_lookup. by rewrite list_lookup_insert_ne.
Qed.

#[export] Instance ram_laws : BlockLaws ram.
Proof.
  split; cbn; unfold ram in *.
  - intros d lba [_ F]. by apply ram_sector.
  - intros lba page d [L F] Hp Hl. split_and!; try done. by apply ram_sector.
  - intros lba page d [L F] Hp Hl. split_and!; try done.
    + by rewrite length_insert.
    + by apply Forall_insert.
    + intros l Hl' Hne. rewrite nth_insert by lia. rewrite decide_False by lia. done.
    + intros _. rewrite nth_insert by lia. by rewrite decide_True.
Qed.

(** A boot sector for two FATs of one sector and five clusters of one sector. *)
Definition ex_boot : list Z :=
  put (put (put (put (put (put (put (put zeroes 11 [0; 2]) 13 [1]) 14 [1; 0]) 16 [2]) 32 [8; 0; 0; 0]) 36 [1; 0; 0; 0])
    44 [2; 0; 0; 0]) 510 [0x55; 0xAA].

(** Only the root directory's cluster is in use. *)
Definition ex_fat : list Z := put zeroes 0 ([0xF8; 255; 255; 15] ++ [255; 255; 255; 15] ++ [255; 255; 255; 15]).

Definition ex_disk : fs_state ram := FsState [ex_boot; ex_fat; ex_fat; zeroes; zeroes; zeroes; zeroes; zeroes] zeroes.
Definition ex_volume : bpb := volume_of 0 ex_boot.
Definition ex_name : list Z := [78; 79; 84; 69; 83; 32; 32; 32; 84; 88; 84].
Definition ex_file : open_file := OpenFile 0 0 (DirLoc 3 0).
Definition ex_page : list Z := put zeroes 0 [104; 101; 108; 108; 111].

Lemma is_sector_check b : (zlen b =? SECTOR_SIZE) && forallb (fun x => (0 <=? x) && (x <? 256)) b = true -> is_sector b.
Proof.
  intros [L F]%andb_prop. split; [by apply Z.eqb_eq|]. apply Forall_forall. intros x Hx.
  rewrite forallb_forall in F. specialize (F x Hx). apply andb_prop in F as [H1 H2]. unfold is_u8. bool_simp. lia.
Qed.

Lemma ex_sectors : Forall is_sector (dev ex_disk) /\ is_sector ex_page.
Proof.
  split; [|by apply is_sector_check; vm_compute].
  apply Forall_forall. intros b Hb. apply is_sector_check. revert b Hb. by apply forallb_forall; vm_compute.
Qed.

Lemma ex_ready : ready ex_disk.
Proof. destruct ex_sectors as [F _]. split; [by split|apply zeroes_sector|done]. Qed.

Lemma ex_boot_sector : boot_sector capacity 0 ex_boot.
Proof. split; try (by vm_compute). by apply is_sector_check; vm_compute. Qed.

Lemma ex_geometry : geometry capacity ex_volume.
Proof. apply boot_geometry, ex_boot_sector. Qed.

Lemma ex_chain : chain ex_volume ex_disk (root_cluster ex_volume) [2].
Proof. by constructor; vm_compute. Qed.

Lemma ex_file_on : file_on ex_volume ex_disk ex_file [] /\ dirent_ok ex_volume ex_disk [] (dirent ex_file).
Proof.
  split; [split_and!; [done|done|by left]|]. split; [|done]. exists 2. split_and!; [by vm_compute|by vm_compute| |by vm_compute].
  apply not_elem_of_nil.
Qed.

Lemma ex_piece : is_u32 (0 + piece 0 5).
Proof. change (0 + piece 0 5) with 5. unfold is_u32. lia. Qed.

Lemma parse_bpb_correct_witness :
  runs parse_bpb ex_disk (fun r s' => r = Some ex_volume /\ geometry capacity ex_volume).
Proof.
  eapply runs_mono; [apply (parse_bpb_correct ex_disk 0); [exact ex_ready|split; [exact ex_boot_sector|by left]]|].
  intros r s' (-> & _ & _ & Hg). by split.
Defined.

Lemma write_file_correct_witness :
  runs (write_file ex_volume ex_file 0 5 ex_page) ex_disk (fun '(n, f') s' => n = 5 /\ size f' = 5 /\
    file_bytes ex_volume s' f' [3] = [104; 101; 108; 108; 111]).
Proof.
  destruct ex_file_on as [Hf Hd]. pose proof (proj2 ex_sectors) as Hp.
  pose proof (write_file_correct ex_volume ex_geometry ex_file [] 0 5 ex_page ex_disk ex_ready Hf Hd) as W.
  specialize (W ltac:(cbn; lia) ltac:(lia) Hp ex_piece). unfold runs in *.
  destruct (write_file ex_volume ex_file 0 5 ex_page ex_disk) as [[n f'] s'| |] eqn:E; [|done|done].
  vm_compute in E. injection E as <- <- <-. split_and!; by vm_compute.
Defined.

Lemma write_read_roundtrip_witness :
  runs ('(n, f') ← write_file ex_volume ex_file 0 5 ex_page; '(m, page') ← read_file ex_volume f' 0 n zeroes; mret (n, m, page'))
    ex_disk (fun '(n, m, page') _ => n = 5 /\ m = 5 /\ page' = ex_page).
Proof.
  destruct ex_file_on as [Hf Hd]. pose proof (proj2 ex_sectors) as Hp.
  pose proof (write_read_roundtrip ex_volume ex_geometry ex_file [] 0 5 ex_page zeroes ex_disk ex_ready Hf Hd) as W.
  specialize (W ltac:(cbn; lia) ltac:(lia) Hp ex_piece zeroes_sector).
  eapply runs_mono; [exact W|]. intros [[n m] page'] s' (_ & -> & -> & [-> | (-> & _ & _ & N)]).
  - split_and!; vm_compute; reflexivity.
  - exfalso. apply (N 3); [split; vm_compute; congruence|vm_compute; reflexivity].
Defined.

Lemma open_or_create_correct_witness :
  runs (r ← open_or_create 4 ex_volume ex_name true; again ← open_or_create 4 ex_volume ex_name false; mret (r, again)) ex_disk
    (fun '(r, again) _ => r = Some (0, 0, DirLoc 3 0) /\ again = r).
Proof.
  pose proof (open_or_create_correct ex_volume ex_geometry ex_name true [2] 4 ex_disk ex_ready ex_chain) as W.
  specialize (W ltac:(cbn; lia) ltac:(split_and!; [done|repeat constructor; done|done|done])). unfold runs in *.
  match goal with |- match ?m with _ => _ end => destruct m as [[r again] s'| |] eqn:E; [|done|done] end.
  vm_compute in E. injection E as <- <- <-. destruct W as (_ & Ea & _). by split.
Defined.
