(* ===== verification/Proto.v ===== *)
(** * ARP, ICMP echo and the Internet checksum

    userland/services/netstack/src/proto.rs.  A frame buffer is a list of bytes, and a
    function that rewrites it in place returns it with its answer.  The theorems: the
    checksum a packet is given makes it check, two hosts running this code resolve each
    other's address, and a ping is answered with its own payload. *)

From stdpp Require Import base list numbers.
From Stdlib Require Import Lia.
From S2P Require Import Prelude.
Open Scope Z_scope.

Definition ETH_HEADER_LEN : Z := 14.
Definition ARP_LEN : Z := 28.
Definition IPV4_HEADER_LEN : Z := 20.
Definition ICMP_HEADER_LEN : Z := 8.
Definition MIN_FRAME_LEN : Z := 60.
Definition ETHERTYPE_ARP : list Z := [0x08; 0x06].
Definition ETHERTYPE_IPV4 : list Z := [0x08; 0x00].
Definition ARP_HTYPE_ETHERNET : list Z := [0x00; 0x01].
Definition ARP_PTYPE_IPV4 : list Z := [0x08; 0x00].
Definition ARP_OP_REQUEST : list Z := [0x00; 0x01].
Definition ARP_OP_REPLY : list Z := [0x00; 0x02].
Definition IPV4_VER_IHL_NO_OPTIONS : Z := 0x45.
Definition IPV4_PROTO_ICMP : Z := 1.
Definition DEFAULT_TTL : Z := 64.
Definition ICMP_TYPE_ECHO_REQUEST : Z := 8.
Definition ICMP_TYPE_ECHO_REPLY : Z := 0.

(** ** The Internet checksum *)

(** Whole 16-bit words first, then an odd last byte. *)
Fixpoint checksum16_accumulate (sum : Z) (data : list Z) : Z :=
  match data with
  | a :: b :: data' => checksum16_accumulate (wrap32 (sum + u16_from_be a b)) data'
  | [last] => wrap32 (sum + Z.shiftl last 8)
  | [] => sum
  end.

(** [while sum >> 16 != 0]; two rounds always do (see [fold_carries_u32]). *)
Fixpoint fold_carries (rounds : nat) (sum : Z) : option Z :=
  if Z.shiftr sum 16 =? 0 then Some sum
  else match rounds with
       | O => None
       | S m => fold_carries m (wrap32 (Z.land sum 0xFFFF + Z.shiftr sum 16))
       end.

Definition checksum16_finish (sum : Z) : Z :=
  match fold_carries 2 sum with Some s => Z.lxor (wrap16 s) 0xFFFF | None => 0 end.

Definition checksum16 (data : list Z) : Z := checksum16_finish (checksum16_accumulate 0 data).

(** ** Frames *)

Definition pad_to_min_frame (buf : list Z) (reply_len : Z) : res (list Z * Z) :=
  if reply_len <? MIN_FRAME_LEN then
    buf <- bfill buf reply_len MIN_FRAME_LEN 0 ;; Ok (buf, MIN_FRAME_LEN)
  else Ok (buf, reply_len).

(** [buf[lo..hi] != bytes] *)
Definition differs (buf : list Z) (lo hi : Z) (bytes : list Z) : res bool :=
  s <- bslice buf lo hi ;; Ok (negb (bytes_eqb s bytes)).

Definition ARP : Z := ETH_HEADER_LEN.
Definition IP : Z := ETH_HEADER_LEN.

(** The fields [handle_arp] asks for: a request, for Ethernet and IPv4, about [my_ip]. *)
Definition arp_asks (buf my_ip : list Z) : res bool :=
  d <- differs buf ARP (ARP + 2) ARP_HTYPE_ETHERNET ;; if d then Ok false else
  d <- differs buf (ARP + 2) (ARP + 4) ARP_PTYPE_IPV4 ;; if d then Ok false else
  hlen <- bget buf (ARP + 4) ;; if negb (hlen =? 6) then Ok false else
  plen <- bget buf (ARP + 5) ;; if negb (plen =? 4) then Ok false else
  d <- differs buf (ARP + 6) (ARP + 8) ARP_OP_REQUEST ;; if d then Ok false else
  d <- differs buf (ARP + 24) (ARP + 28) my_ip ;; Ok (negb d).

Definition handle_arp (buf : list Z) (len : Z) (my_mac my_ip : list Z) : res (list Z * option Z) :=
  if len <? ARP + ARP_LEN then Ok (buf, None)
  else
    asks <- arp_asks buf my_ip ;;
    if negb asks then Ok (buf, None)
    else
      sender_mac <- bslice buf (ARP + 8) (ARP + 14) ;;
      sender_ip <- bslice buf (ARP + 14) (ARP + 18) ;;
      buf <- bcopy buf 0 sender_mac ;;
      buf <- bcopy buf 6 my_mac ;;
      buf <- bcopy buf (ARP + 6) ARP_OP_REPLY ;;
      buf <- bcopy buf (ARP + 8) my_mac ;;
      buf <- bcopy buf (ARP + 14) my_ip ;;
      buf <- bcopy buf (ARP + 18) sender_mac ;;
      buf <- bcopy buf (ARP + 24) sender_ip ;;
      let* (buf, n) := pad_to_min_frame buf (ARP + ARP_LEN) in
      Ok (buf, Some n).

(** An IPv4 packet without options of the protocol [proto] with the address [addr] at [off]: its
    total length. *)
Definition ip_packet (buf : list Z) (len proto off : Z) (addr : list Z) : res (option Z) :=
  ver <- bget buf IP ;; if negb (ver =? IPV4_VER_IHL_NO_OPTIONS) then Ok None else
  p <- bget buf (IP + 9) ;; if negb (p =? proto) then Ok None else
  d <- differs buf off (off + 4) addr ;; if d then Ok None else
  hi <- bget buf (IP + 2) ;; lo <- bget buf (IP + 3) ;;
  let total_len := u16_from_be hi lo in
  if (total_len <? IPV4_HEADER_LEN) || (len <? IP + total_len) then Ok None else Ok (Some total_len).

(** The echo reply, once the request is known to be one. *)
Definition echo_reply (buf my_mac : list Z) (total_len : Z) : res (list Z * option Z) :=
  let icmp := IP + IPV4_HEADER_LEN in
  let icmp_len := total_len - IPV4_HEADER_LEN in
  buf <- bset buf icmp ICMP_TYPE_ECHO_REPLY ;;
  buf <- bset buf (icmp + 2) 0 ;;
  buf <- bset buf (icmp + 3) 0 ;;
  msg <- bslice buf icmp (icmp + icmp_len) ;;
  buf <- bcopy buf (icmp + 2) (u16_to_be (checksum16 msg)) ;;
  src_ip <- bslice buf (IP + 12) (IP + 16) ;;
  dst_ip <- bslice buf (IP + 16) (IP + 20) ;;
  buf <- bcopy buf (IP + 12) dst_ip ;;
  buf <- bcopy buf (IP + 16) src_ip ;;
  buf <- bset buf (IP + 8) DEFAULT_TTL ;;
  buf <- bset buf (IP + 10) 0 ;;
  buf <- bset buf (IP + 11) 0 ;;
  header <- bslice buf IP (IP + IPV4_HEADER_LEN) ;;
  buf <- bcopy buf (IP + 10) (u16_to_be (checksum16 header)) ;;
  sender_mac <- bslice buf 6 12 ;;
  buf <- bcopy buf 0 sender_mac ;;
  buf <- bcopy buf 6 my_mac ;;
  let* (buf, n) := pad_to_min_frame buf (IP + total_len) in
  Ok (buf, Some n).

Definition handle_icmp_echo (buf : list Z) (len : Z) (my_mac my_ip : list Z) : res (list Z * option Z) :=
  if len <? IP + IPV4_HEADER_LEN then Ok (buf, None)
  else
    r <- ip_packet buf len IPV4_PROTO_ICMP (IP + 16) my_ip ;;
    match r with
    | None => Ok (buf, None)
    | Some total_len =>
        if total_len - IPV4_HEADER_LEN <? ICMP_HEADER_LEN then Ok (buf, None)
        else
          ty <- bget buf (IP + IPV4_HEADER_LEN) ;;
          if negb (ty =? ICMP_TYPE_ECHO_REQUEST) then Ok (buf, None)
          else
            code <- bget buf (IP + IPV4_HEADER_LEN + 1) ;;
            if negb (code =? 0) then Ok (buf, None) else echo_reply buf my_mac total_len
    end.

Definition handle_frame (buf : list Z) (len : Z) (my_mac my_ip : list Z) : res (list Z * option Z) :=
  if (len <? ETH_HEADER_LEN) || (zlen buf <? len) then Ok (buf, None)
  else
    e0 <- bget buf 12 ;; e1 <- bget buf 13 ;;
    if bytes_eqb [e0; e1] ETHERTYPE_ARP then handle_arp buf len my_mac my_ip
    else if bytes_eqb [e0; e1] ETHERTYPE_IPV4 then handle_icmp_echo buf len my_mac my_ip
    else Ok (buf, None).

Definition build_arp_request (buf my_mac my_ip target_ip : list Z) : res (list Z * Z) :=
  buf <- bfill buf 0 6 0xff ;;
  buf <- bcopy buf 6 my_mac ;;
  buf <- bcopy buf 12 ETHERTYPE_ARP ;;
  buf <- bcopy buf ARP ARP_HTYPE_ETHERNET ;;
  buf <- bcopy buf (ARP + 2) ARP_PTYPE_IPV4 ;;
  buf <- bset buf (ARP + 4) 6 ;;
  buf <- bset buf (ARP + 5) 4 ;;
  buf <- bcopy buf (ARP + 6) ARP_OP_REQUEST ;;
  buf <- bcopy buf (ARP + 8) my_mac ;;
  buf <- bcopy buf (ARP + 14) my_ip ;;
  buf <- bfill buf (ARP + 18) (ARP + 24) 0 ;;
  buf <- bcopy buf (ARP + 24) target_ip ;;
  pad_to_min_frame buf (ARP + ARP_LEN).

Definition parse_arp_reply (buf : list Z) (len : Z) (target_ip : list Z) : res (option (list Z)) :=
  if len <? ARP + ARP_LEN then Ok None
  else
    d <- differs buf 12 14 ETHERTYPE_ARP ;; if d then Ok None else
    d <- differs buf ARP (ARP + 2) ARP_HTYPE_ETHERNET ;; if d then Ok None else
    d <- differs buf (ARP + 2) (ARP + 4) ARP_PTYPE_IPV4 ;; if d then Ok None else
    d <- differs buf (ARP + 6) (ARP + 8) ARP_OP_REPLY ;; if d then Ok None else
    d <- differs buf (ARP + 14) (ARP + 18) target_ip ;; if d then Ok None else
    mac <- bslice buf (ARP + 8) (ARP + 14) ;; Ok (Some mac).

(** ** The checksum's arithmetic *)

Fixpoint wsum (data : list Z) : Z :=
  match data with
  | a :: b :: data' => 256 * a + b + wsum data'
  | [last] => 256 * last
  | [] => 0
  end.

(** Induction two bytes at a time. *)
Lemma pairs_ind (P : list Z -> Prop) :
  P [] -> (forall x, P [x]) -> (forall x y l, P l -> P (x :: y :: l)) -> forall l, P l.
Proof.
  intros H0 H1 H2. fix IH 1. intros [|x [|y l]]; [exact H0|apply H1|]. apply H2, IH.
Qed.

Lemma wsum_range data : Forall is_u8 data -> 0 <= wsum data <= 65535 * zlen data.
Proof.
  induction data as [|x|x y l IH] using pairs_ind; intros F; cbn [wsum].
  - change (zlen []) with 0. lia.
  - apply Forall_inv in F. unfold is_u8, zlen in *. cbn. lia.
  - inversion F as [|? ? Hx F']; subst. inversion F' as [|? ? Hy F'']; subst. specialize (IH F'').
    unfold is_u8, zlen in *. cbn [length]. lia.
Qed.

Lemma accumulate_sum sum data :
  0 <= sum -> Forall is_u8 data -> sum + wsum data < 2 ^ 32 -> checksum16_accumulate sum data = sum + wsum data.
Proof.
  revert sum. induction data as [|x|x y l IH] using pairs_ind; intros sum Hs F Hb; cbn [wsum checksum16_accumulate] in *.
  - lia.
  - apply Forall_inv in F. unfold is_u8 in F. rewrite Z.shiftl_mul_pow2 by lia. rewrite wrap_small; lia.
  - inversion F as [|? ? Hx F']; subst. inversion F' as [|? ? Hy F'']; subst. unfold is_u8 in *.
    pose proof (wsum_range l F'') as Hl. unfold u16_from_be, u16_from_le.
    rewrite wrap_small by lia. rewrite IH; [lia|lia|done|lia].
Qed.

Lemma wsum_app a b : zlen a mod 2 = 0 -> wsum (a ++ b) = wsum a + wsum b.
Proof.
  induction a as [|x|x y l IH] using pairs_ind; intros E; cbn [wsum app]; [lia|discriminate E|].
  rewrite IH; [lia|]. unfold zlen in *. cbn [length] in E. dlia.
Qed.

(** What the carries fold to: the same number modulo 65535, and zero only for zero. *)
Lemma fold_carries_u32 s :
  is_u32 s -> exists f, fold_carries 2 s = Some f /\ 0 <= f <= 65535 /\ (s - f) mod 65535 = 0 /\ (f = 0 -> s = 0).
Proof.
  unfold is_u32. intros H. pose proof (fun x => Z.land_ones x 16 ltac:(lia)) as L. change (Z.ones 16) with 65535 in L.
  cbn [fold_carries]. rewrite !Z.shiftr_div_pow2, !L by lia. change (2 ^ 16) with 65536.
  destruct (s / 65536 =? 0) eqn:E1; bool_simp; [exists s; split_and!; [done|dlia..]|].
  set (s1 := s mod 65536 + s / 65536). assert (H1 : 0 < s1 <= 131070) by (unfold s1; dlia).
  assert (M1 : (s - s1) mod 65535 = 0).
  { unfold s1. replace (s - (s mod 65536 + s / 65536)) with (s / 65536 * 65535) by dlia. apply Z_mod_mult. }
  rewrite (wrap_small 32 s1) by lia.
  destruct (s1 / 65536 =? 0) eqn:E2; bool_simp; [exists s1; split_and!; [done|dlia|dlia|done|lia]|].
  set (s2 := s1 mod 65536 + s1 / 65536). assert (H2 : 0 < s2 <= 65535) by (unfold s2; dlia).
  rewrite (wrap_small 32 s2) by lia.
  replace (s2 / 65536) with 0 by (symmetry; apply Z.div_small; lia). exists s2. split_and!; [done|lia|lia| |lia].
  replace (s - s2) with ((s - s1) + s1 / 65536 * 65535) by (unfold s2; dlia). by rewrite Z_mod_plus_full.
Qed.

(** [!x] on 16 bits. *)
Lemma lxor_ones16 f : 0 <= f <= 65535 -> Z.lxor f 65535 = 65535 - f.
Proof.
  intros H. assert (E : f + Z.lxor f 65535 = 65535); [|lia]. rewrite Z.add_nocarry_lxor.
  - by rewrite <- Z.lxor_assoc, Z.lxor_nilpotent, Z.lxor_0_l.
  - apply Z.bits_inj'. intros i Hi. rewrite Z.land_spec, Z.lxor_spec, Z.bits_0. change 65535 with (Z.ones 16).
    destruct (decide (i < 16)).
    + rewrite Z.ones_spec_low by lia. by destruct (Z.testbit f i).
    + by rewrite (testbit_high f 16) by lia.
Qed.

Lemma finish_u32 s :
  is_u32 s -> 0 <= checksum16_finish s <= 65535 /\ (s + checksum16_finish s) mod 65535 = 0 /\
  (checksum16_finish s = 65535 -> s = 0) /\ (s mod 65535 = 0 -> s <> 0 -> checksum16_finish s = 0).
Proof.
  intros H. unfold checksum16_finish. destruct (fold_carries_u32 s H) as (f & -> & Hf & Hm & Hz).
  rewrite wrap_small by lia.
  rewrite lxor_ones16 by lia. split_and!; [lia|lia| |lia|].
  - replace (s + (65535 - f)) with ((s - f) + 1 * 65535) by lia. by rewrite Z_mod_plus_full.
  - intros Hs Hn. assert (f <> 0) by (intros ->; by apply Hn, Hz). unfold is_u32 in H.
    assert (f mod 65535 = 0); [|dlia]. replace f with (s - (s - f)) by lia. rewrite Zminus_mod, Hs, Hm. done.
Qed.

(** A sum with its own checksum added to it checks. *)
Lemma finish_checks s : 0 <= s -> s + 65535 < 2 ^ 32 -> checksum16_finish (s + checksum16_finish s) = 0.
Proof.
  intros H1 H2. destruct (finish_u32 s) as (Hr & Hm & Hz & _); [unfold is_u32; lia|].
  apply finish_u32; [unfold is_u32; lia|done|]. intros E. assert (checksum16_finish s = 0) as E0 by lia.
  assert (s = 0) as -> by lia. discriminate E0.
Qed.

Lemma wsum_put d i w :
  0 <= i -> i mod 2 = 0 -> i + 2 <= zlen d -> sub d i (i + 2) = [0; 0] -> 0 <= w <= 65535 ->
  wsum (put d i (u16_to_be w)) = wsum d + w.
Proof.
  intros Hi Hm Hl Hz Hw. set (a := take (Z.to_nat i) d). set (r := drop (Z.to_nat (i + 2)) d).
  assert (La : zlen a = i) by (unfold a, zlen in *; rewrite length_take; lia).
  assert (Ed : d = a ++ [0; 0] ++ r).
  { rewrite <- Hz. unfold a, r, sub. rewrite <- (take_drop (Z.to_nat i) d) at 1. f_equal.
    rewrite <- (take_drop (Z.to_nat (i + 2 - i)) (drop (Z.to_nat i) d)) at 1. f_equal. rewrite drop_drop. f_equal. lia. }
  unfold put. change (zlen (u16_to_be w)) with 2. fold a r. replace (wsum d) with (wsum (a ++ [0; 0] ++ r)) by (by rewrite <- Ed).
  rewrite (wsum_app a (_ ++ r)), (wsum_app a ([0; 0] ++ r)) by (by rewrite La).
  unfold u16_to_be, u16_to_le. cbn [rev app wsum]. dlia.
Qed.

(** The checksum field of [data], at [i], makes it check. *)
Lemma checksum_field data i :
  Forall is_u8 data -> zlen data <= 65535 -> 0 <= i -> i mod 2 = 0 -> i + 2 <= zlen data -> sub data i (i + 2) = [0; 0] ->
  checksum16 (put data i (u16_to_be (checksum16 data))) = 0.
Proof.
  intros F Hl Hi Hm Hi2 Hz. pose proof (wsum_range data F) as Hr. unfold checksum16.
  rewrite (accumulate_sum 0 data) by (done || lia). rewrite Z.add_0_l.
  assert (U : is_u32 (wsum data)) by (unfold is_u32; lia). destruct (finish_u32 _ U) as (Hc & _).
  rewrite accumulate_sum.
  - rewrite wsum_put by done. rewrite Z.add_0_l. apply finish_checks; lia.
  - lia.
  - apply Forall_put; [done|]. unfold u16_to_be, u16_to_le. repeat constructor; unfold is_u8; dlia.
  - rewrite wsum_put by done. lia.
Qed.

(** ** Running the frame code on a buffer whose first bytes are known *)

Ltac known t := let v := eval vm_compute in t in change t with v.

Ltac frame_step :=
  match goal with
  | |- context [bcopy (?l ++ ?r) ?i ?s] => rewrite (bcopy_app l r i s) by (by vm_compute); known (put l i s)
  | |- context [bslice (?l ++ ?r) ?i ?j] => rewrite (bslice_app l r i j) by (by vm_compute); known (sub l i j)
  | |- context [bget (?l ++ ?r) ?i] => rewrite (bget_app l r i) by (by vm_compute); known (byte_at l i)
  | |- context [bfill (?l ++ ?r) ?i ?j ?x] =>
      let n := eval vm_compute in (replicate (Z.to_nat (j - i)) x) in change (bfill (l ++ r) i j x) with (bcopy (l ++ r) i n)
  | |- context [bytes_eqb ?a ?a] => rewrite (bytes_eqb_refl a)
  | |- context [if ?c then _ else _] =>
      let v := eval vm_compute in c in
      match v with true => change c with true | false => change c with false end
  end; cbv beta iota.

(** The bytes of a list [l] whose length [H] gives. *)
Ltac name_bytes l H :=
  repeat (destruct l as [|? l]; [discriminate H|]); (destruct l as [|? l]; [|discriminate H]); clear H.

(** A frame delivered into a buffer. *)
Lemma delivered (buf f : list Z) : put buf 0 f = f ++ drop (Z.to_nat (zlen f)) buf.
Proof. done. Qed.

(** An ARP packet in its Ethernet frame, padded to the minimum. *)
Definition arp_frame (dst src op sha spa tha tpa : list Z) : list Z :=
  dst ++ src ++ ETHERTYPE_ARP ++ ARP_HTYPE_ETHERNET ++ ARP_PTYPE_IPV4 ++ [6; 4] ++ op ++ sha ++ spa ++ tha ++ tpa ++ replicate 18 0.

Definition is_mac (m : list Z) : Prop := length m = 6%nat.
Definition is_ip (a : list Z) : Prop := length a = 4%nat.

Lemma build_arp_request_ok buf mac ip target :
  60 <= zlen buf -> is_mac mac -> is_ip ip -> is_ip target ->
  build_arp_request buf mac ip target =
  Ok (put buf 0 (arp_frame (replicate 6 255) mac ARP_OP_REQUEST mac ip (replicate 6 0) target), 60).
Proof.
  unfold is_mac, is_ip. intros L0 L1 L2 L3. rewrite <- (take_drop 60 buf) at 1.
  assert (L : length (take 60 buf) = 60%nat) by (rewrite length_take; unfold zlen in L0; lia).
  rewrite delivered. replace (Z.to_nat (zlen (arp_frame _ _ _ _ _ _ _))) with 60%nat
    by (unfold arp_frame, zlen; rewrite !length_app, L1, L2, L3; reflexivity).
  generalize (take 60 buf), (drop 60 buf), L. clear L0 L. intros l r L.
  name_bytes l L. name_bytes mac L1. name_bytes ip L2. name_bytes target L3.
  unfold build_arp_request, pad_to_min_frame, bset. repeat frame_step. reflexivity.
Qed.

(** What a host does with such a request. *)
Lemma handle_arp_request buf mac ip my_mac my_ip target :
  60 <= zlen buf -> is_mac mac -> is_ip ip -> is_mac my_mac -> is_ip my_ip -> is_ip target ->
  let frame := put buf 0 (arp_frame (replicate 6 255) mac ARP_OP_REQUEST mac ip (replicate 6 0) target) in
  handle_frame frame 60 my_mac my_ip =
  Ok (if bytes_eqb target my_ip
      then (put buf 0 (arp_frame mac my_mac ARP_OP_REPLY my_mac my_ip mac ip), Some 60) else (frame, None)).
Proof.
  unfold is_mac, is_ip. intros L0 L1 L2 L3 L4 L5. rewrite !delivered.
  replace (Z.to_nat (zlen (arp_frame mac _ _ _ _ _ _))) with 60%nat
    by (unfold arp_frame, zlen; rewrite !length_app, L1, L2, L3, L4; reflexivity).
  replace (Z.to_nat (zlen (arp_frame (replicate 6 255) _ _ _ _ _ _))) with 60%nat
    by (unfold arp_frame, zlen; rewrite !length_app, L1, L2, L5; reflexivity).
  assert (Lr : zlen (drop 60 buf) = zlen buf - 60) by (unfold zlen in *; rewrite length_drop; lia).
  generalize dependent (drop 60 buf). intros r Lr. unfold handle_frame.
  rewrite zlen_app, Lr. replace (zlen (arp_frame _ _ _ _ _ _ _)) with 60
    by (unfold arp_frame, zlen; rewrite !length_app, L1, L2, L5; reflexivity).
  replace (60 + (zlen buf - 60) <? 60) with false by (symmetry; apply Z.ltb_ge; lia). cbn [Z.ltb orb].
  name_bytes mac L1. name_bytes ip L2. name_bytes my_mac L3. name_bytes my_ip L4. name_bytes target L5.
  repeat match goal with |- context [arp_frame ?a ?b ?c ?d ?e ?f ?g] => known (arp_frame a b c d e f g) end.
  unfold handle_arp, arp_asks, differs, pad_to_min_frame, bset. cbv beta iota. repeat frame_step.
  destruct (bytes_eqb _ _); repeat frame_step; reflexivity.
Qed.

Lemma parse_arp_reply_ok buf dst src sha spa tha tpa target :
  is_mac dst -> is_mac src -> is_mac sha -> is_ip spa -> is_mac tha -> is_ip tpa -> is_ip target ->
  parse_arp_reply (put buf 0 (arp_frame dst src ARP_OP_REPLY sha spa tha tpa)) 60 target =
  Ok (if bytes_eqb spa target then Some sha else None).
Proof.
  unfold is_mac, is_ip. intros L1 L2 L3 L4 L5 L6 L7. rewrite delivered.
  generalize (drop (Z.to_nat (zlen (arp_frame dst src ARP_OP_REPLY sha spa tha tpa))) buf). intros r.
  name_bytes dst L1. name_bytes src L2. name_bytes sha L3. name_bytes spa L4. name_bytes tha L5. name_bytes tpa L6. name_bytes target L7.
  match goal with |- context [arp_frame ?a ?b ?c ?d ?e ?f ?g] => known (arp_frame a b c d e f g) end.
  unfold parse_arp_reply, differs. repeat frame_step. by destruct (bytes_eqb _ _); repeat frame_step.
Qed.

Lemma zlen_arp_frame dst src op sha spa tha tpa :
  is_mac dst -> is_mac src -> length op = 2%nat -> is_mac sha -> is_ip spa -> is_mac tha -> is_ip tpa ->
  zlen (arp_frame dst src op sha spa tha tpa) = 60.
Proof.
  unfold is_mac, is_ip, arp_frame, zlen. intros L1 L2 L3 L4 L5 L6 L7. rewrite !length_app, L1, L2, L3, L4, L5, L6, L7. reflexivity.
Qed.

Lemma sub_delivered (buf f : list Z) : sub (put buf 0 f) 0 (zlen f) = f.
Proof. rewrite delivered, sub_app_l by (pose proof (zlen_nonneg f); lia). unfold sub. rewrite drop_0, Z.sub_0_r. apply firstn_all2. unfold zlen. lia. Qed.

Lemma sub_sent (buf f : list Z) n : zlen f = n -> sub (put buf 0 f) 0 n = f.
Proof. intros <-. apply sub_delivered. Qed.

(** C21: two hosts that run this code resolve each other's address: the request one builds for
    the other's IP address is answered by the other, and by no third host; the answer goes back
    to the asker, who reads the other's MAC address out of it. *)
Theorem arp_exchange buf_a buf_b buf_c back mac_a ip_a mac_b ip_b mac_c ip_c :
  60 <= zlen buf_a -> 60 <= zlen buf_b -> 60 <= zlen buf_c ->
  is_mac mac_a -> is_ip ip_a -> is_mac mac_b -> is_ip ip_b -> is_mac mac_c -> is_ip ip_c -> ip_c <> ip_b ->
  exists request, build_arp_request buf_a mac_a ip_a ip_b = Ok (request, 60) /\
    let wire := sub request 0 60 in
    handle_frame (put buf_c 0 wire) 60 mac_c ip_c = Ok (put buf_c 0 wire, None) /\
    exists answer, handle_frame (put buf_b 0 wire) 60 mac_b ip_b = Ok (answer, Some 60) /\
      sub answer 0 6 = mac_a /\ parse_arp_reply (put back 0 (sub answer 0 60)) 60 ip_b = Ok (Some mac_b).
Proof.
  intros La Lb Lc Ma Ia Mb Ib Mc Ic Hne. eexists. split; [by apply build_arp_request_ok|]. cbv zeta.
  set (f := arp_frame (replicate 6 255) mac_a ARP_OP_REQUEST mac_a ip_a (replicate 6 0) ip_b).
  assert (Ef : sub (put buf_a 0 f) 0 60 = f) by (apply sub_sent, zlen_arp_frame; done). rewrite Ef. unfold f. split.
  - rewrite handle_arp_request by done. rewrite (proj2 (bytes_eqb_neq ip_b ip_c)) by congruence. done.
  - eexists. rewrite handle_arp_request by done. rewrite bytes_eqb_refl. split; [done|].
    set (g := arp_frame mac_a mac_b ARP_OP_REPLY mac_b ip_b mac_a ip_a). assert (Lg : zlen g = 60) by (by apply zlen_arp_frame).
    split.
    + rewrite delivered, sub_app_l by lia. unfold g, arp_frame. rewrite sub_app_l by (unfold is_mac, zlen in *; lia).
      unfold sub. rewrite drop_0. apply firstn_all2. unfold is_mac in Ma. cbn. lia.
    + rewrite sub_sent by done. unfold g. rewrite parse_arp_reply_ok by done. by rewrite bytes_eqb_refl.
Qed.

Lemma arp_exchange_witness : exists request, build_arp_request (replicate 1518 7) [2; 0; 0; 0; 0; 1] [10; 0; 2; 15] [10; 0; 2; 2] = Ok (request, 60) /\
  handle_frame (put (replicate 1518 9) 0 (sub request 0 60)) 60 [2; 0; 0; 0; 0; 3] [10; 0; 2; 3] =
  Ok (put (replicate 1518 9) 0 (sub request 0 60), None).
Proof.
  destruct (arp_exchange (replicate 1518 7) (replicate 1518 8) (replicate 1518 9) (replicate 1518 0)
    [2; 0; 0; 0; 0; 1] [10; 0; 2; 15] [2; 0; 0; 0; 0; 2] [10; 0; 2; 2] [2; 0; 0; 0; 0; 3] [10; 0; 2; 3])
    as (req & Hr & Hc & _); try (unfold zlen; rewrite length_replicate; lia); try done.
  exists req. by split.
Defined.

(** ** Ping *)

Lemma u16_to_be_bytes x : 0 <= x < 65536 -> exists hi lo, u16_to_be x = [hi; lo] /\ is_u8 hi /\ is_u8 lo /\ u16_from_be hi lo = x.
Proof.
  intros H. exists (x / 256 mod 256), (x mod 256). unfold u16_to_be, u16_to_le, u16_from_be, u16_from_le, is_u8. cbn [rev app].
  split_and!; [done|dlia..].
Qed.

Definition ip_header (tos : Z) (total_len : Z) (id frag : list Z) (ttl proto : Z) (ck src dst : list Z) : list Z :=
  [IPV4_VER_IHL_NO_OPTIONS; tos] ++ u16_to_be total_len ++ id ++ frag ++ [ttl; proto] ++ ck ++ src ++ dst.

Definition echo_message (ty : Z) (ck body : list Z) : list Z := [ty; 0] ++ ck ++ body.

Definition ip_frame (dst src header data : list Z) : list Z := dst ++ src ++ ETHERTYPE_IPV4 ++ header ++ data.

(** A slice that runs over the end of the known first part. *)
Lemma bslice_across l body rest i j :
  0 <= i <= zlen l -> j = zlen l + zlen body -> bslice (l ++ body ++ rest) i j = Ok (drop (Z.to_nat i) l ++ body).
Proof.
  intros Hi ->. pose proof (zlen_nonneg body). pose proof (zlen_nonneg rest).
  rewrite app_assoc, bslice_app by (rewrite ?zlen_app; lia). unfold sub. rewrite skipn_app.
  replace (Z.to_nat i - length l)%nat with O by (unfold zlen in *; lia). cbn [drop]. f_equal.
  apply firstn_all2. rewrite length_app, length_drop. unfold zlen in *. lia.
Qed.

(** [pad_to_min_frame] behind the first part and the body of a frame. *)
Lemma pad_ok l body rest n :
  n = zlen l + zlen body -> 60 <= zlen l + zlen body + zlen rest ->
  exists pad, pad_to_min_frame (l ++ body ++ rest) n = Ok (l ++ body ++ pad, Z.max 60 n).
Proof.
  intros -> Hr. pose proof (zlen_nonneg body). pose proof (zlen_nonneg l). unfold pad_to_min_frame, MIN_FRAME_LEN.
  destruct (_ <? 60) eqn:E; bool_simp; [|exists rest; by rewrite Z.max_r by lia].
  rewrite Z.max_l by lia. unfold bfill. rewrite (proj2 (Z.leb_le _ _)) by lia.
  set (z := replicate _ 0). assert (Lz : zlen z = 60 - (zlen l + zlen body)) by (unfold z; rewrite zlen_replicate; lia).
  rewrite bcopy_ok by (rewrite ?zlen_app; lia). exists (put rest 0 z). do 2 f_equal.
  rewrite put_app_r by lia. f_equal. rewrite <- (Z.add_0_r (zlen body)) at 1. by rewrite put_app_r by lia.
Qed.

(** The reply that [echo_reply] leaves in the buffer, before padding. *)
Lemma echo_reply_ok l dst src tos len2 id frag ttl ck ip my_ip ck2 body rest my_mac n :
  l = ip_frame dst src ([IPV4_VER_IHL_NO_OPTIONS; tos] ++ len2 ++ id ++ frag ++ [ttl; IPV4_PROTO_ICMP] ++ ck ++ ip ++ my_ip) ([8; 0] ++ ck2) ->
  is_mac dst -> is_mac src -> length len2 = 2%nat -> length id = 2%nat -> length frag = 2%nat -> length ck = 2%nat ->
  is_ip ip -> is_ip my_ip -> length ck2 = 2%nat -> is_mac my_mac -> n = 24 + zlen body -> 60 <= 38 + zlen body + zlen rest ->
  exists pad,
  echo_reply (l ++ body ++ rest) my_mac n =
  Ok (ip_frame src my_mac ([IPV4_VER_IHL_NO_OPTIONS; tos] ++ len2 ++ id ++ frag ++ [DEFAULT_TTL; IPV4_PROTO_ICMP] ++
        u16_to_be (checksum16 ([IPV4_VER_IHL_NO_OPTIONS; tos] ++ len2 ++ id ++ frag ++ [DEFAULT_TTL; IPV4_PROTO_ICMP] ++ [0; 0] ++ my_ip ++ ip)) ++ my_ip ++ ip)
        ([0; 0] ++ u16_to_be (checksum16 ([0; 0; 0; 0] ++ body))) ++ body ++ pad, Some (Z.max 60 (38 + zlen body))).
Proof.
  unfold is_mac, is_ip. intros -> L1 L2 L3 L4 L5 L6 L7 L8 L9 L10 -> Hr. pose proof (zlen_nonneg body) as Hb.
  name_bytes dst L1. name_bytes src L2. name_bytes len2 L3. name_bytes id L4. name_bytes frag L5. name_bytes ck L6.
  name_bytes ip L7. name_bytes my_ip L8. name_bytes ck2 L9. name_bytes my_mac L10.
  match goal with |- context [ip_frame ?a ?b ?c ?d ++ body ++ rest] => known (ip_frame a b c d) end.
  match goal with |- context [checksum16 ([?v; tos] ++ ?t)] => known ([v; tos] ++ t) end.
  unfold echo_reply, bset. do 3 frame_step.
  rewrite bslice_across; [|by vm_compute|match goal with |- _ = zlen ?l + _ => change (zlen l) with 38 end;
    unfold IP, ETH_HEADER_LEN, IPV4_HEADER_LEN; lia].
  match goal with |- context [drop ?i ?l ++ body] => known (drop i l) end.
  set (m := u16_to_be (checksum16 ([0; 0; 0; 0] ++ body))). assert (Lm : length m = 2%nat) by done. clearbody m. name_bytes m Lm.
  do 9 frame_step.
  match goal with |- context [u16_to_be ?x] => set (h := u16_to_be x); assert (Lh : length h = 2%nat) by done; clearbody h; name_bytes h Lh end.
  do 4 frame_step.
  match goal with |- context [pad_to_min_frame (?l ++ body ++ rest) ?n] =>
    destruct (pad_ok l body rest n) as (pad & ->); [change (zlen l) with 38; unfold IP, ETH_HEADER_LEN; lia..|] end.
  exists pad. replace (IP + (24 + zlen body)) with (38 + zlen body) by (unfold IP, ETH_HEADER_LEN; lia). reflexivity.
Qed.

(** A header, and a message, with the checksum of the rest in its place. *)
Lemma header_checks tos n id frag ttl proto src dst :
  is_u8 tos -> 0 <= n < 65536 -> length id = 2%nat -> length frag = 2%nat -> is_u8 ttl -> is_u8 proto -> is_ip src -> is_ip dst ->
  Forall is_u8 id -> Forall is_u8 frag -> Forall is_u8 src -> Forall is_u8 dst ->
  let header ck := ip_header tos n id frag ttl proto ck src dst in
  checksum16 (header (u16_to_be (checksum16 (header [0; 0])))) = 0.
Proof.
  intros U1 Hn L1 L2 U2 U3 L3 L4 F1 F2 F3 F4 header. unfold is_ip in L3, L4.
  assert (Fh : Forall is_u8 (header [0; 0])).
  { unfold header, ip_header. destruct (u16_to_be_bytes n Hn) as (hi & lo & -> & Uh & Ul & _).
    rewrite !Forall_app. unfold is_u8, IPV4_VER_IHL_NO_OPTIONS in *. split_and!; try done; repeat constructor; lia. }
  assert (E : forall ck, length ck = 2%nat -> header ck = put (header [0; 0]) 10 ck).
  { intros ck L5. unfold header, ip_header. clear -L1 L2 L3 L4 L5.
    name_bytes id L1. name_bytes frag L2. name_bytes src L3. name_bytes dst L4. name_bytes ck L5. reflexivity. }
  assert (L : zlen (header [0; 0]) = 20).
  { unfold header, ip_header, zlen. rewrite !length_app, L1, L2, L3, L4. reflexivity. }
  rewrite E by done. apply checksum_field; [done|lia|lia|done|lia|].
  unfold header, ip_header. clear -L1 L2 L3 L4. name_bytes id L1. name_bytes frag L2. name_bytes src L3. name_bytes dst L4. reflexivity.
Qed.

Lemma message_checks body :
  Forall is_u8 body -> zlen body < 65531 -> checksum16 (echo_message 0 (u16_to_be (checksum16 ([0; 0; 0; 0] ++ body))) body) = 0.
Proof.
  intros F H. set (m := [0; 0; 0; 0] ++ body). pose proof (zlen_nonneg body).
  assert (Lm : zlen m = 4 + zlen body) by (unfold m; by rewrite zlen_app).
  change (echo_message 0 (u16_to_be (checksum16 m)) body) with (put m 2 (u16_to_be (checksum16 m))).
  apply checksum_field; try done; try lia. apply Forall_app. split; [|done]. repeat constructor; unfold is_u8; lia.
Qed.

Lemma echo_recognised dst src tos id frag ttl ck ip my_ip ck2 body rest my_mac len :
  is_mac dst -> is_mac src -> length id = 2%nat -> length frag = 2%nat -> length ck = 2%nat -> is_ip ip -> is_ip my_ip ->
  length ck2 = 2%nat -> 4 <= zlen body -> 38 + zlen body <= len <= 38 + zlen body + zlen rest -> 24 + zlen body < 65536 ->
  let buf := ip_frame dst src (ip_header tos (24 + zlen body) id frag ttl IPV4_PROTO_ICMP ck ip my_ip) ([8; 0] ++ ck2) ++ body ++ rest in
  handle_frame buf len my_mac my_ip = echo_reply buf my_mac (24 + zlen body).
Proof.
  unfold is_mac, is_ip, ip_header. intros L1 L2 L4 L5 L6 L7 L8 L9 Hb Hl Ht.
  destruct (u16_to_be_bytes (24 + zlen body)) as (hi & lo & -> & _ & _ & E); [lia|].
  name_bytes dst L1. name_bytes src L2. name_bytes id L4. name_bytes frag L5. name_bytes ck L6.
  name_bytes ip L7. name_bytes my_ip L8. name_bytes ck2 L9. cbv zeta.
  match goal with |- context [ip_frame ?a ?b ?c ?d ++ body ++ rest] => known (ip_frame a b c d) end.
  unfold handle_frame, handle_icmp_echo, ip_packet, differs.
  rewrite zlen_app, zlen_app. match goal with |- context [zlen ?l + (zlen body + _)] => change (zlen l) with 38 end.
  unfold IP, ETH_HEADER_LEN, IPV4_HEADER_LEN, ICMP_HEADER_LEN.
  rewrite (proj2 (Z.ltb_ge len 14)), (proj2 (Z.ltb_ge (38 + (zlen body + zlen rest)) len)), (proj2 (Z.ltb_ge len (14 + 20))) by lia.
  cbn [orb]. repeat frame_step. rewrite E.
  rewrite (proj2 (Z.ltb_ge (24 + zlen body) 20)), (proj2 (Z.ltb_ge len (14 + (24 + zlen body)))) by lia. cbn [orb].
  rewrite (proj2 (Z.ltb_ge (24 + zlen body - 20) 8)) by lia. by repeat frame_step.
Qed.

(** a ping is answered: for an echo request to this host's address, whatever its payload,
    [handle_frame] leaves an echo reply in the buffer, addressed back to the sender, with the
    identifier, sequence number and payload of the request, and with header and message
    checksums that check. *)
Theorem ping_answered dst src tos id frag ttl ck ip my_ip ck2 body rest my_mac len :
  is_mac dst -> is_mac src -> length id = 2%nat -> length frag = 2%nat -> length ck = 2%nat -> is_ip ip -> is_ip my_ip ->
  length ck2 = 2%nat -> is_mac my_mac -> 4 <= zlen body -> 38 + zlen body <= len <= 38 + zlen body + zlen rest ->
  60 <= 38 + zlen body + zlen rest -> 24 + zlen body < 65536 ->
  Forall is_u8 (tos :: id ++ frag ++ ip ++ my_ip ++ body) ->
  let request := ip_frame dst src (ip_header tos (24 + zlen body) id frag ttl IPV4_PROTO_ICMP ck ip my_ip) (echo_message 8 ck2 body) in
  exists ck' ck2' pad,
    let header := ip_header tos (24 + zlen body) id frag DEFAULT_TTL IPV4_PROTO_ICMP ck' my_ip ip in
    let message := echo_message 0 ck2' body in
    handle_frame (request ++ rest) len my_mac my_ip =
      Ok (ip_frame src my_mac header message ++ pad, Some (Z.max 60 (38 + zlen body))) /\
    checksum16 header = 0 /\ checksum16 message = 0.
Proof.
  intros L1 L2 L4 L5 L6 L7 L8 L9 L10 Hb Hl Hr Ht F. cbv zeta.
  inversion F as [|? ? Ftos F1]; subst. apply Forall_app in F1 as [Fid F1]. apply Forall_app in F1 as [Ffr F1].
  apply Forall_app in F1 as [Fip F1]. apply Forall_app in F1 as [Fmy Fb].
  set (h0 := ip_header tos (24 + zlen body) id frag DEFAULT_TTL IPV4_PROTO_ICMP [0; 0] my_ip ip).
  set (m0 := [0; 0; 0; 0] ++ body).
  assert (E : ip_frame dst src (ip_header tos (24 + zlen body) id frag ttl IPV4_PROTO_ICMP ck ip my_ip) (echo_message 8 ck2 body) ++ rest =
    ip_frame dst src (ip_header tos (24 + zlen body) id frag ttl IPV4_PROTO_ICMP ck ip my_ip) ([8; 0] ++ ck2) ++ body ++ rest).
  { unfold ip_frame, echo_message. by rewrite <- !app_assoc. }
  rewrite E, echo_recognised by done.
  destruct (echo_reply_ok _ dst src tos (u16_to_be (24 + zlen body)) id frag ttl ck ip my_ip ck2 body rest my_mac _ eq_refl
    L1 L2 eq_refl L4 L5 L6 L7 L8 L9 L10 eq_refl Hr) as (pad & Ep).
  exists (u16_to_be (checksum16 h0)), (u16_to_be (checksum16 m0)), pad. split_and!.
  - unfold ip_header at 1. rewrite Ep. unfold ip_frame, echo_message, ip_header. by rewrite <- !app_assoc.
  - unfold h0. apply header_checks; try done. lia.
  - apply message_checks; [done|lia].
Qed.

(** A ping of 8 bytes from 10.0.2.2. *)
Lemma ping_answered_witness : exists answer,
  handle_frame (ip_frame [2; 0; 0; 0; 0; 1] [2; 0; 0; 0; 0; 2]
    (ip_header 0 36 [0; 1] [0; 0] 255 IPV4_PROTO_ICMP [0x1d; 0xcb] [10; 0; 2; 2] [10; 0; 2; 15])
    (echo_message 8 [0; 0] [0; 7; 0; 1; 112; 105; 110; 103; 33; 33; 33; 33]) ++ replicate 1468 0) 60 [2; 0; 0; 0; 0; 1] [10; 0; 2; 15] =
  Ok (answer, Some 60).
Proof.
  destruct (ping_answered [2; 0; 0; 0; 0; 1] [2; 0; 0; 0; 0; 2] 0 [0; 1] [0; 0] 255 [0x1d; 0xcb] [10; 0; 2; 2] [10; 0; 2; 15] [0; 0]
    [0; 7; 0; 1; 112; 105; 110; 103; 33; 33; 33; 33] (replicate 1468 0) [2; 0; 0; 0; 0; 1] 60) as (ck & ck2 & pad & E & _);
    try done; try (rewrite zlen_replicate; change (zlen [0; 7; 0; 1; 112; 105; 110; 103; 33; 33; 33; 33]) with 12; lia).
  - repeat constructor; unfold is_u8; lia.
  - eexists. exact E.
Defined.

(** ** No frame makes the handlers panic *)

(** What every handler does to the buffer: it keeps its length, and a reply fits. *)
Definition reply_ok (buf : list Z) (x : list Z * option Z) : Prop :=
  zlen (fst x) = zlen buf /\ forall n, snd x = Some n -> 0 < n <= zlen buf.

Ltac frame_consts := unfold ARP, IP, ETH_HEADER_LEN, ARP_LEN, IPV4_HEADER_LEN, ICMP_HEADER_LEN, MIN_FRAME_LEN in *.

Lemma pad_safe buf n : 60 <= zlen buf -> 0 < n <= zlen buf ->
  okay (pad_to_min_frame buf n) (fun '(b, m) => zlen b = zlen buf /\ 0 < m <= zlen buf).
Proof. intros H1 H2. unfold pad_to_min_frame. repeat okay_step; frame_consts; bool_simp; lia. Qed.

Lemma handle_arp_safe buf len my_mac my_ip : 60 <= zlen buf -> is_mac my_mac -> is_ip my_ip ->
  okay (handle_arp buf len my_mac my_ip) (reply_ok buf).
Proof.
  intros H Hm Hi. assert (Lm : zlen my_mac = 6) by (unfold is_mac, zlen in *; lia).
  assert (Li : zlen my_ip = 4) by (unfold is_ip, zlen in *; lia). unfold handle_arp, arp_asks, differs.
  repeat okay_step; try (by split); frame_consts; try change (zlen ARP_OP_REPLY) with 2; try lia.
  eapply okay_mono; [apply pad_safe; lia|]. intros [b n] [L N]. split; [cbn; lia|]. intros ? [= <-]. lia.
Qed.

Lemma ip_packet_safe buf len proto off addr :
  34 <= zlen buf -> 0 <= off -> off + 4 <= zlen buf ->
  okay (ip_packet buf len proto off addr) (fun r => forall n, r = Some n -> 20 <= n /\ 14 + n <= len).
Proof.
  intros H H1 H2. unfold ip_packet, differs. repeat okay_step; try done; frame_consts; try lia.
  intros n [= <-]. bool_simp. lia.
Qed.

Lemma echo_reply_safe buf my_mac n : 60 <= zlen buf -> is_mac my_mac -> 28 <= n -> 14 + n <= zlen buf ->
  okay (echo_reply buf my_mac n) (reply_ok buf).
Proof.
  intros H Hm Hn Hl. assert (Lm : zlen my_mac = 6) by (unfold is_mac, zlen in *; lia). unfold echo_reply. cbv zeta.
  repeat okay_step; frame_consts; try change (zlen (u16_to_be _)) with 2; try lia.
  eapply okay_mono; [apply pad_safe; lia|]. intros [b m] [L N]. split; [cbn; lia|]. intros ? [= <-]. lia.
Qed.

Lemma handle_icmp_safe buf len my_mac my_ip : 60 <= zlen buf -> len <= zlen buf -> is_mac my_mac ->
  okay (handle_icmp_echo buf len my_mac my_ip) (reply_ok buf).
Proof.
  intros H Hl Hm. unfold handle_icmp_echo. repeat okay_step; [by split|]. frame_consts.
  eapply okay_mono; [apply ip_packet_safe; lia|]. intros [n|] Hn; [|by split]. destruct (Hn n eq_refl).
  repeat okay_step; try (by split); frame_consts; try lia. bool_simp. apply echo_reply_safe; [done|done|lia|lia].
Qed.

(** No frame makes the responder panic, and what it sends fits the buffer. *)
Lemma handle_frame_safe buf len my_mac my_ip : 60 <= zlen buf -> is_mac my_mac -> is_ip my_ip ->
  okay (handle_frame buf len my_mac my_ip) (reply_ok buf).
Proof.
  intros H Hm Hi. unfold handle_frame. repeat okay_step; try (by split); try lia; bool_simp.
  - by apply handle_arp_safe.
  - apply handle_icmp_safe; [done|lia|done].
Qed.

Lemma parse_arp_reply_safe buf len ip :
  60 <= zlen buf -> okay (parse_arp_reply buf len ip) (fun r => forall m, r = Some m -> is_mac m).
Proof.
  intros H. unfold parse_arp_reply, differs. repeat okay_step; try done; frame_consts; try lia.
  intros m [= <-]. unfold is_mac, zlen in *. lia.
Qed.

Lemma build_arp_request_safe buf mac ip target : 60 <= zlen buf -> is_mac mac -> is_ip ip -> is_ip target ->
  okay (build_arp_request buf mac ip target) (fun '(b, n) => zlen b = zlen buf /\ 0 < n <= zlen buf).
Proof.
  intros H Hm Hi Ht. rewrite build_arp_request_ok by done. cbn [okay]. rewrite zlen_put; [lia|lia|].
  rewrite zlen_arp_frame by done. lia.
Qed.
