(* ===== verification/Tcp.v ===== *)
(** * TCP segments (userland/services/netstack/src/tcp.rs)

    [build_segment] writes a whole Ethernet frame into a buffer, [parse_segment] reads one.
    The theorems: a built segment is parsed to what it was built from, by the peer, and its
    two checksums check; no frame makes the parser panic. *)

From stdpp Require Import base list numbers.
From Stdlib Require Import Lia.
From S2P Require Import Prelude Proto.
Open Scope Z_scope.

Definition HEADER_LEN : Z := 20.
Definition FLAG_FIN : Z := 0x01.
Definition FLAG_SYN : Z := 0x02.
Definition FLAG_RST : Z := 0x04.
Definition FLAG_PSH : Z := 0x08.
Definition FLAG_ACK : Z := 0x10.
Definition IP_PROTO_TCP : Z := 6.

(** [struct Segment]; the payload is a slice of the frame. *)
Record segment := Segment {
  src_port : Z; dst_port : Z; sseq : Z; sack : Z; flags : Z; window : Z; payload : list Z
}.

Definition TCP : Z := IP + IPV4_HEADER_LEN.

(** The [pseudo] array of [build_segment]. *)
Definition pseudo_header (my_ip peer_ip : list Z) (tcp_len : Z) : list Z :=
  my_ip ++ peer_ip ++ [0; IP_PROTO_TCP] ++ u16_to_be (wrap16 tcp_len).

Definition build_segment (buf my_mac my_ip peer_mac peer_ip : list Z) (sp dp sq ak fl win : Z) (data : list Z)
  : res (list Z * Z) :=
  let total_len := IPV4_HEADER_LEN + HEADER_LEN + zlen data in
  buf <- bcopy buf 0 peer_mac ;;
  buf <- bcopy buf 6 my_mac ;;
  buf <- bcopy buf 12 ETHERTYPE_IPV4 ;;
  buf <- bset buf IP IPV4_VER_IHL_NO_OPTIONS ;;
  buf <- bset buf (IP + 1) 0 ;;
  buf <- bcopy buf (IP + 2) (u16_to_be (wrap16 total_len)) ;;
  buf <- bfill buf (IP + 4) (IP + 8) 0 ;;
  buf <- bset buf (IP + 8) 64 ;;
  buf <- bset buf (IP + 9) IP_PROTO_TCP ;;
  buf <- bfill buf (IP + 10) (IP + 12) 0 ;;
  buf <- bcopy buf (IP + 12) my_ip ;;
  buf <- bcopy buf (IP + 16) peer_ip ;;
  buf <- bcopy buf TCP (u16_to_be sp) ;;
  buf <- bcopy buf (TCP + 2) (u16_to_be dp) ;;
  buf <- bcopy buf (TCP + 4) (u32_to_be sq) ;;
  buf <- bcopy buf (TCP + 8) (u32_to_be ak) ;;
  buf <- bset buf (TCP + 12) 0x50 ;;
  buf <- bset buf (TCP + 13) fl ;;
  buf <- bcopy buf (TCP + 14) (u16_to_be win) ;;
  buf <- bfill buf (TCP + 16) (TCP + 18) 0 ;;
  buf <- bfill buf (TCP + 18) (TCP + 20) 0 ;;
  buf <- bcopy buf (TCP + HEADER_LEN) data ;;
  let sum := checksum16_accumulate 0 (pseudo_header my_ip peer_ip (HEADER_LEN + zlen data)) in
  seg <- bslice buf TCP (TCP + HEADER_LEN + zlen data) ;;
  let sum := checksum16_accumulate sum seg in
  buf <- bcopy buf (TCP + 16) (u16_to_be (checksum16_finish sum)) ;;
  header <- bslice buf IP (IP + IPV4_HEADER_LEN) ;;
  buf <- bcopy buf (IP + 10) (u16_to_be (checksum16_finish (checksum16_accumulate 0 header))) ;;
  pad_to_min_frame buf (IP + total_len).

(** The fields of the TCP header at [TCP]. *)
Definition segment_fields (buf : list Z) (data : list Z) : res segment :=
  a0 <- bget buf TCP ;; a1 <- bget buf (TCP + 1) ;;
  b0 <- bget buf (TCP + 2) ;; b1 <- bget buf (TCP + 3) ;;
  c0 <- bget buf (TCP + 4) ;; c1 <- bget buf (TCP + 5) ;; c2 <- bget buf (TCP + 6) ;; c3 <- bget buf (TCP + 7) ;;
  d0 <- bget buf (TCP + 8) ;; d1 <- bget buf (TCP + 9) ;; d2 <- bget buf (TCP + 10) ;; d3 <- bget buf (TCP + 11) ;;
  fl <- bget buf (TCP + 13) ;;
  w0 <- bget buf (TCP + 14) ;; w1 <- bget buf (TCP + 15) ;;
  Ok (Segment (u16_from_be a0 a1) (u16_from_be b0 b1) (u32_from_be c0 c1 c2 c3) (u32_from_be d0 d1 d2 d3) fl
        (u16_from_be w0 w1) data).

Definition parse_segment (buf : list Z) (len : Z) (expect_peer_ip : list Z) : res (option segment) :=
  if len <? IP + IPV4_HEADER_LEN then Ok None
  else
    d <- differs buf 12 14 ETHERTYPE_IPV4 ;; if d then Ok None else
    r <- ip_packet buf len IP_PROTO_TCP (IP + 12) expect_peer_ip ;;
    match r with
    | None => Ok None
    | Some total_len =>
        let tcp_len := total_len - IPV4_HEADER_LEN in
        if tcp_len <? HEADER_LEN then Ok None
        else
          b12 <- bget buf (TCP + 12) ;;
          let data_offset := Z.shiftr b12 4 * 4 in
          if (data_offset <? HEADER_LEN) || (tcp_len <? data_offset) then Ok None
          else
            data <- bslice buf (TCP + data_offset) (IP + total_len) ;;
            s <- segment_fields buf data ;; Ok (Some s)
    end.

(** ** What is built *)

Definition tcp_header (sp dp sq ak fl win : Z) (ck : list Z) : list Z :=
  u16_to_be sp ++ u16_to_be dp ++ u32_to_be sq ++ u32_to_be ak ++ [0x50; fl] ++ u16_to_be win ++ ck ++ [0; 0].

Lemma u32_to_be_bytes x : is_u32 x ->
  exists a b c d, u32_to_be x = [a; b; c; d] /\ is_u8 a /\ is_u8 b /\ is_u8 c /\ is_u8 d /\ u32_from_be a b c d = x.
Proof.
  intros H. exists (x / 16777216 mod 256), (x / 65536 mod 256), (x / 256 mod 256), (x mod 256).
  unfold u32_to_be, u32_to_le, u32_from_be, is_u8. cbn [rev app]. split_and!; try done; try dlia. by apply u32_le_roundtrip.
Qed.

Definition tcp_checksum (my_ip peer_ip : list Z) (header data : list Z) : Z :=
  checksum16_finish (checksum16_accumulate (checksum16_accumulate 0 (pseudo_header my_ip peer_ip (HEADER_LEN + zlen data)))
    (header ++ data)).

Definition tcp_frame (my_mac my_ip peer_mac peer_ip : list Z) (sp dp sq ak fl win : Z) (data : list Z) : list Z :=
  let iph ck := ip_header 0 (40 + zlen data) [0; 0] [0; 0] 64 IP_PROTO_TCP ck my_ip peer_ip in
  let tcph := tcp_header sp dp sq ak fl win in
  ip_frame peer_mac my_mac (iph (u16_to_be (checksum16 (iph [0; 0]))))
    (tcph (u16_to_be (tcp_checksum my_ip peer_ip (tcph [0; 0]) data))).

Ltac two_bytes t := let m := fresh "w" in let L := fresh in
  set (m := t); assert (L : length m = 2%nat) by reflexivity; clearbody m; name_bytes m L.
Ltac four_bytes t := let m := fresh "w" in let L := fresh in
  set (m := t); assert (L : length m = 4%nat) by reflexivity; clearbody m; name_bytes m L.

Lemma bcopy_across l old rest data i :
  i = zlen l -> zlen old = zlen data -> bcopy (l ++ old ++ rest) i data = Ok (l ++ data ++ rest).
Proof.
  intros -> E. pose proof (zlen_nonneg rest). rewrite bcopy_ok by (rewrite ?zlen_app; pose proof (zlen_nonneg l); lia).
  f_equal. rewrite <- (Z.add_0_r (zlen l)) at 1. rewrite put_app_r by lia. f_equal.
  rewrite put_app_l by lia. by rewrite put_whole.
Qed.

Lemma build_segment_ok l old rest my_mac my_ip peer_mac peer_ip sp dp sq ak fl win data :
  length l = 54%nat -> zlen old = zlen data -> 60 <= 54 + zlen old + zlen rest -> zlen data < 65496 ->
  is_mac my_mac -> is_ip my_ip -> is_mac peer_mac -> is_ip peer_ip ->
  exists pad, build_segment (l ++ old ++ rest) my_mac my_ip peer_mac peer_ip sp dp sq ak fl win data =
    Ok (tcp_frame my_mac my_ip peer_mac peer_ip sp dp sq ak fl win data ++ data ++ pad, Z.max 60 (54 + zlen data)).
Proof.
  unfold is_mac, is_ip. intros L0 Lo Hr Hd L1 L2 L3 L4. pose proof (zlen_nonneg data) as Hn.
  name_bytes l L0. name_bytes my_mac L1. name_bytes my_ip L2. name_bytes peer_mac L3. name_bytes peer_ip L4.
  unfold build_segment, bset, tcp_frame, tcp_checksum, checksum16. 
  change (IPV4_HEADER_LEN + HEADER_LEN) with 40. rewrite (wrap_small 16 (40 + zlen data)) by lia. cbv zeta.
  match goal with |- context [checksum16_accumulate 0 (pseudo_header ?a ?b ?n)] =>
    generalize (checksum16_accumulate 0 (pseudo_header a b n)); intros ps end.
  unfold ip_header, tcp_header.
  two_bytes (u16_to_be (40 + zlen data)). two_bytes (u16_to_be sp). two_bytes (u16_to_be dp). two_bytes (u16_to_be win).
  four_bytes (u32_to_be sq). four_bytes (u32_to_be ak). do 25 frame_step.
  rewrite bcopy_across by done.
  rewrite bslice_across; [|by vm_compute|match goal with |- _ = zlen ?l + _ => change (zlen l) with 54 end; change (TCP + HEADER_LEN) with 54; lia].
  match goal with |- context [drop ?i ?l ++ data] => known (drop i l) end.
  match goal with |- context [checksum16_accumulate ps ((?a ++ ?b) ++ data)] => known (a ++ b) end.
  match goal with |- context [checksum16_accumulate 0 (?a ++ ?b)] => known (a ++ b) end. cbv beta iota.
  match goal with |- context [u16_to_be (checksum16_finish (checksum16_accumulate ps ?x))] =>
    two_bytes (u16_to_be (checksum16_finish (checksum16_accumulate ps x))) end.
  do 2 frame_step.
  match goal with |- context [u16_to_be ?x] => two_bytes (u16_to_be x) end. frame_step.
  match goal with |- context [pad_to_min_frame (?l ++ data ++ rest) ?n] =>
    destruct (pad_ok l data rest n) as (pad & ->); [change (zlen l) with 54; unfold IP, ETH_HEADER_LEN; lia..|] end.
  exists pad. replace (IP + (40 + zlen data)) with (54 + zlen data) by (unfold IP, ETH_HEADER_LEN; lia). reflexivity.
Qed.

Lemma parse_segment_ok dst src my_ip peer_ip ck ck2 sp dp sq ak fl win data rest len :
  is_mac dst -> is_mac src -> is_ip my_ip -> is_ip peer_ip -> length ck = 2%nat -> length ck2 = 2%nat ->
  is_u16 sp -> is_u16 dp -> is_u32 sq -> is_u32 ak -> is_u16 win -> zlen data < 65496 -> 54 + zlen data <= len ->
  parse_segment (ip_frame dst src (ip_header 0 (40 + zlen data) [0; 0] [0; 0] 64 IP_PROTO_TCP ck my_ip peer_ip)
    (tcp_header sp dp sq ak fl win ck2) ++ data ++ rest) len my_ip =
  Ok (Some (Segment sp dp sq ak fl win data)).
Proof.
  unfold is_mac, is_ip, is_u16. intros L1 L2 L3 L4 L5 L6 U1 U2 U3 U4 U5 Hd Hl. pose proof (zlen_nonneg data) as Hn.
  unfold ip_header, tcp_header.
  destruct (u16_to_be_bytes (40 + zlen data)) as (t0 & t1 & -> & _ & _ & Et); [lia|].
  destruct (u16_to_be_bytes sp U1) as (a0 & a1 & -> & _ & _ & Ea). destruct (u16_to_be_bytes dp U2) as (b0 & b1 & -> & _ & _ & Eb).
  destruct (u16_to_be_bytes win U5) as (w0 & w1 & -> & _ & _ & Ew).
  destruct (u32_to_be_bytes sq U3) as (c0 & c1 & c2 & c3 & -> & _ & _ & _ & _ & Ec).
  destruct (u32_to_be_bytes ak U4) as (d0 & d1 & d2 & d3 & -> & _ & _ & _ & _ & Ed).
  name_bytes dst L1. name_bytes src L2. name_bytes my_ip L3. name_bytes peer_ip L4. name_bytes ck L5. name_bytes ck2 L6.
  match goal with |- context [ip_frame ?a ?b ?c ?d ++ data ++ rest] => known (ip_frame a b c d) end.
  unfold parse_segment, ip_packet, differs. change (IP + IPV4_HEADER_LEN) with 34.
  rewrite (proj2 (Z.ltb_ge len 34)) by lia. repeat frame_step. rewrite Et.
  change IPV4_HEADER_LEN with 20. change IP with 14. change HEADER_LEN with 20.
  rewrite (proj2 (Z.ltb_ge (40 + zlen data) 20)), (proj2 (Z.ltb_ge len (14 + (40 + zlen data)))) by lia. cbn [orb].
  rewrite (proj2 (Z.ltb_ge (40 + zlen data - 20) 20)) by lia. repeat frame_step.
  change (Z.shiftr 80 4 * 4) with 20. rewrite (proj2 (Z.ltb_ge (40 + zlen data - 20) 20)) by lia. cbn [Z.ltb orb].
  rewrite bslice_across; [|by vm_compute|match goal with |- _ = zlen ?l + _ => change (zlen l) with 54 end; lia].
  match goal with |- context [drop ?i ?l ++ data] => known (drop i l) end. change ([] ++ data) with data.
  unfold segment_fields. repeat frame_step. by rewrite Ea, Eb, Ec, Ed, Ew.
Qed.

Lemma wsum_header a b : zlen a = 20 -> wsum (a ++ b) = wsum a + wsum b.
Proof. intros H. apply wsum_app. by rewrite H. Qed.

Lemma tcp_header_u8 sp dp sq ak fl win ck :
  is_u16 sp -> is_u16 dp -> is_u32 sq -> is_u32 ak -> is_u8 fl -> is_u16 win -> Forall is_u8 ck ->
  Forall is_u8 (tcp_header sp dp sq ak fl win ck).
Proof.
  unfold tcp_header. intros U1 U2 U3 U4 U5 U6 F. 
  destruct (u16_to_be_bytes sp U1) as (a0 & a1 & -> & ? & ? & _). destruct (u16_to_be_bytes dp U2) as (b0 & b1 & -> & ? & ? & _).
  destruct (u16_to_be_bytes win U6) as (w0 & w1 & -> & ? & ? & _).
  destruct (u32_to_be_bytes sq U3) as (c0 & c1 & c2 & c3 & -> & ? & ? & ? & ? & _).
  destruct (u32_to_be_bytes ak U4) as (d0 & d1 & d2 & d3 & -> & ? & ? & ? & ? & _).
  rewrite !Forall_app. unfold is_u8 in *. split_and!; try done; repeat constructor; lia.
Qed.

(** The checksum a segment carries makes it check, with the pseudo-header. *)
Lemma segment_checks my_ip peer_ip sp dp sq ak fl win data :
  is_ip my_ip -> is_ip peer_ip -> Forall is_u8 my_ip -> Forall is_u8 peer_ip -> Forall is_u8 data -> zlen data < 65496 ->
  is_u16 sp -> is_u16 dp -> is_u32 sq -> is_u32 ak -> is_u8 fl -> is_u16 win ->
  let header ck := tcp_header sp dp sq ak fl win ck in
  tcp_checksum my_ip peer_ip (header (u16_to_be (tcp_checksum my_ip peer_ip (header [0; 0]) data))) data = 0.
Proof.
  intros L1 L2 F1 F2 F3 Hd U1 U2 U3 U4 U5 U6 header. pose proof (zlen_nonneg data) as Hn. unfold tcp_checksum.
  set (p := pseudo_header my_ip peer_ip (HEADER_LEN + zlen data)).
  assert (Fp : Forall is_u8 p /\ zlen p = 12).
  { unfold p, pseudo_header. change HEADER_LEN with 20. rewrite wrap_small by lia.
    destruct (u16_to_be_bytes (20 + zlen data)) as (a & b & -> & ? & ? & _); [lia|].
    split; [rewrite !Forall_app; unfold is_u8 in *; split_and!; try done; repeat constructor; unfold IP_PROTO_TCP; lia|].
    unfold is_ip, zlen in *. rewrite !length_app, L1, L2. done. }
  destruct Fp as [Fp Lp]. pose proof (wsum_range p Fp). rewrite (accumulate_sum 0 p) by (done || lia). rewrite Z.add_0_l.
  assert (F0 : forall ck, Forall is_u8 ck -> Forall is_u8 (header ck)) by (intros; by apply tcp_header_u8).
  assert (Z0 : Forall is_u8 [0; 0]) by (repeat constructor; unfold is_u8; lia).
  set (h0 := header [0; 0]). assert (Fh : Forall is_u8 (h0 ++ data)) by (apply Forall_app; split; [by apply F0|done]).
  assert (Lh : zlen h0 = 20) by reflexivity. pose proof (wsum_range _ Fh) as Hr. rewrite zlen_app, Lh in Hr.
  rewrite (accumulate_sum (wsum p) (h0 ++ data)) by (done || lia).
  set (S0 := wsum p + wsum (h0 ++ data)). assert (Us : is_u32 S0) by (unfold is_u32, S0; lia).
  destruct (finish_u32 S0 Us) as (Hc & _). destruct (u16_to_be_bytes (checksum16_finish S0)) as (x & y & Ex & Ux & Uy & _); [lia|].
  assert (E : header (u16_to_be (checksum16_finish S0)) = put h0 16 (u16_to_be (checksum16_finish S0))).
  { rewrite Ex. reflexivity. }
  assert (Ew : wsum (header (u16_to_be (checksum16_finish S0)) ++ data) = wsum (h0 ++ data) + checksum16_finish S0).
  { rewrite wsum_header by (rewrite Ex; reflexivity). rewrite E, wsum_put by (done || lia || reflexivity).
    rewrite (wsum_header h0) by done. lia. }
  rewrite accumulate_sum; [|lia|apply Forall_app; split; [apply F0; rewrite Ex; by repeat constructor; unfold is_u8 in *; lia|done]|rewrite Ew; unfold S0 in *; lia].
  rewrite Ew. replace (wsum p + (wsum (h0 ++ data) + checksum16_finish S0)) with (S0 + checksum16_finish S0) by (unfold S0; lia).
  apply finish_checks; unfold S0 in *; lia.
Qed.

Lemma split_buf (buf : list Z) n m : 0 <= n -> 0 <= m -> n + m <= zlen buf ->
  exists l old rest, buf = l ++ old ++ rest /\ zlen l = n /\ zlen old = m.
Proof.
  intros Hn Hm H. exists (take (Z.to_nat n) buf), (take (Z.to_nat m) (drop (Z.to_nat n) buf)), (drop (Z.to_nat m) (drop (Z.to_nat n) buf)).
  rewrite !take_drop. unfold zlen in *. rewrite !length_take, length_drop. split_and!; [done|lia|lia].
Qed.

Lemma zlen_tcp_frame my_mac my_ip peer_mac peer_ip sp dp sq ak fl win data :
  is_mac my_mac -> is_ip my_ip -> is_mac peer_mac -> is_ip peer_ip ->
  zlen (tcp_frame my_mac my_ip peer_mac peer_ip sp dp sq ak fl win data) = 54.
Proof.
  unfold is_mac, is_ip, tcp_frame, ip_frame, ip_header, tcp_header, zlen. intros L1 L2 L3 L4.
  rewrite !length_app, L1, L2, L3, L4. reflexivity.
Qed.

(** What [build_segment] does to any buffer that the frame fits in. *)
Lemma build_segment_buf buf my_mac my_ip peer_mac peer_ip sp dp sq ak fl win data :
  60 <= zlen buf -> 54 + zlen data <= zlen buf -> zlen data < 65496 ->
  is_mac my_mac -> is_ip my_ip -> is_mac peer_mac -> is_ip peer_ip ->
  exists pad, build_segment buf my_mac my_ip peer_mac peer_ip sp dp sq ak fl win data =
    Ok (tcp_frame my_mac my_ip peer_mac peer_ip sp dp sq ak fl win data ++ data ++ pad, Z.max 60 (54 + zlen data)).
Proof.
  intros H1 H2 H3 M1 I1 M2 I2. pose proof (zlen_nonneg data).
  destruct (split_buf buf 54 (zlen data)) as (l & old & rest & -> & Ll & Lo); [lia..|]. rewrite !zlen_app in *.
  apply build_segment_ok; try done; try lia. unfold zlen in Ll. lia.
Qed.

Lemma sub_long (a b : list Z) n : zlen a <= n -> sub (a ++ b) 0 n = a ++ take (Z.to_nat (n - zlen a)) b.
Proof. intros H. unfold sub, zlen in *. rewrite drop_0, firstn_app, take_ge by lia. do 2 f_equal. lia. Qed.

(** The parts of a frame with IP and TCP headers of 20 bytes. *)
Lemma frame_parts dst src h t data rest :
  is_mac dst -> is_mac src -> zlen h = 20 -> zlen t = 20 ->
  let frame := ip_frame dst src h t ++ data ++ rest in
  sub frame 0 6 = dst /\ sub frame 14 34 = h /\ sub frame 34 (54 + zlen data) = t ++ data.
Proof.
  unfold is_mac. intros L1 L2 Lh Lt. pose proof (zlen_nonneg data). unfold ip_frame. rewrite <- !app_assoc. cbv zeta.
  assert (E : forall (a b : list Z), sub (a ++ b) 0 (zlen a) = a).
  { intros a b. pose proof (zlen_nonneg a). rewrite sub_app_l by lia. unfold sub. rewrite drop_0, Z.sub_0_r.
    apply firstn_all2. unfold zlen. lia. }
  assert (L1' : zlen dst = 6) by (unfold zlen; lia). assert (L2' : zlen src = 6) by (unfold zlen; lia).
  assert (L14 : zlen (dst ++ src ++ ETHERTYPE_IPV4) = 14) by (rewrite !zlen_app, L1', L2'; reflexivity).
  split_and!; [rewrite <- L1' at 1; apply E| |].
  - rewrite (app_assoc src), (app_assoc dst). pose proof (sub_app_r (dst ++ src ++ ETHERTYPE_IPV4) (h ++ t ++ data ++ rest) 0 20) as Es.
    rewrite L14 in Es. change (14 + 0) with 14 in Es. change (14 + 20) with 34 in Es. rewrite Es by lia. rewrite <- Lh. apply E.
  - rewrite (app_assoc src), (app_assoc dst), (app_assoc _ h).
    assert (L34 : zlen ((dst ++ src ++ ETHERTYPE_IPV4) ++ h) = 34) by (rewrite zlen_app; lia).
    pose proof (sub_app_r ((dst ++ src ++ ETHERTYPE_IPV4) ++ h) (t ++ data ++ rest) 0 (zlen (t ++ data))) as Es.
    rewrite L34 in Es. change (34 + 0) with 34 in Es. rewrite zlen_app, Lt in Es. replace (34 + (20 + zlen data)) with (54 + zlen data) in Es by lia.
    rewrite Es by lia. rewrite app_assoc. rewrite <- Lt, <- zlen_app. apply E.
Qed.

(** C22: the peer reads out of a segment exactly what it was built from, ports, sequence and
    acknowledgement numbers, flags, window and payload, and finds both its checksums
    correct. *)
Theorem segment_roundtrip buf buf2 my_mac my_ip peer_mac peer_ip sp dp sq ak fl win data :
  60 <= zlen buf -> 54 + zlen data <= zlen buf -> zlen buf < 65536 -> 
  is_mac my_mac -> is_ip my_ip -> is_mac peer_mac -> is_ip peer_ip ->
  is_u16 sp -> is_u16 dp -> is_u32 sq -> is_u32 ak -> is_u8 fl -> is_u16 win ->
  Forall is_u8 my_ip -> Forall is_u8 peer_ip -> Forall is_u8 data -> zlen data < 65496 ->
  exists frame n, build_segment buf my_mac my_ip peer_mac peer_ip sp dp sq ak fl win data = Ok (frame, n) /\
    n = Z.max 60 (54 + zlen data) /\
    parse_segment (put buf2 0 (sub frame 0 n)) n my_ip = Ok (Some (Segment sp dp sq ak fl win data)) /\
    sub frame 0 6 = peer_mac /\
    checksum16 (sub frame 14 34) = 0 /\
    checksum16_finish (checksum16_accumulate (checksum16_accumulate 0 (pseudo_header my_ip peer_ip (HEADER_LEN + zlen data)))
      (sub frame 34 (54 + zlen data))) = 0.
Proof.
  intros H1 H2 H3 M1 I1 M2 I2 U1 U2 U3 U4 U5 U6 F1 F2 F3 Hd.
  destruct (build_segment_buf buf my_mac my_ip peer_mac peer_ip sp dp sq ak fl win data) as (pad & E); try done.
  eexists _, _. split; [exact E|]. split; [done|]. pose proof (zlen_nonneg data).
  set (n := Z.max 60 (54 + zlen data)). set (h := ip_header 0 (40 + zlen data) [0; 0] [0; 0] 64 IP_PROTO_TCP).
  set (t := tcp_header sp dp sq ak fl win).
  pose proof (zlen_tcp_frame my_mac my_ip peer_mac peer_ip sp dp sq ak fl win data M1 I1 M2 I2) as LT.
  set (T := tcp_frame my_mac my_ip peer_mac peer_ip sp dp sq ak fl win data) in *.
  assert (Es : exists r, put buf2 0 (sub (T ++ data ++ pad) 0 n) = T ++ data ++ r).
  { rewrite delivered, (app_assoc T), sub_long by (rewrite zlen_app; lia). rewrite <- !app_assoc. by eexists. }
  destruct Es as (r & ->). unfold T, tcp_frame. fold h. fold t. cbv zeta.
  match goal with |- context [ip_frame _ _ (h ?ck my_ip peer_ip) (t ?ck2)] =>
    destruct (frame_parts peer_mac my_mac (h ck my_ip peer_ip) (t ck2) data pad) as (E1 & E2 & E3); try done end.
  { unfold h, ip_header, is_ip, zlen in *. rewrite !length_app, I1, I2. reflexivity. }
  split_and!; [|exact E1| |].
  - apply parse_segment_ok; try done. lia.
  - rewrite E2. apply header_checks; try done; try lia; try (unfold is_u8; unfold IP_PROTO_TCP; lia); repeat constructor; unfold is_u8; lia.
  - rewrite E3. exact (segment_checks my_ip peer_ip sp dp sq ak fl win data I1 I2 F1 F2 F3 Hd U1 U2 U3 U4 U5 U6).
Qed.

Lemma segment_roundtrip_witness : exists frame, 
  build_segment (replicate 1518 0) [2; 0; 0; 0; 0; 1] [10; 0; 2; 15] [2; 0; 0; 0; 0; 2] [10; 0; 2; 2] 51820 80 65537 7 24 2048 [71; 69; 84] = Ok (frame, 60) /\
  parse_segment (put (replicate 1518 9) 0 (sub frame 0 60)) 60 [10; 0; 2; 15] = Ok (Some (Segment 51820 80 65537 7 24 2048 [71; 69; 84])).
Proof.
  destruct (segment_roundtrip (replicate 1518 0) (replicate 1518 9) [2; 0; 0; 0; 0; 1] [10; 0; 2; 15] [2; 0; 0; 0; 0; 2] [10; 0; 2; 2]
    51820 80 65537 7 24 2048 [71; 69; 84]) as (frame & n & E & -> & P & _);
    try (rewrite ?zlen_replicate; change (zlen [71; 69; 84]) with 3; lia); try done; try (unfold is_u16, is_u32, is_u8; lia);
    try (repeat constructor; unfold is_u8; lia).
  exists frame. by split.
Defined.

(** ** No frame makes the parser panic *)

Lemma parse_segment_safe buf len ip : 60 <= zlen buf -> len <= zlen buf ->
  okay (parse_segment buf len ip) (fun r => forall s, r = Some s -> zlen (payload s) <= len - 54).
Proof.
  intros H Hl. unfold parse_segment, differs. repeat okay_step; try done; frame_consts; try lia.
  eapply okay_mono; [apply ip_packet_safe; lia|]. intros [n|] Hn; [|done]. destruct (Hn n eq_refl).
  unfold segment_fields, HEADER_LEN, TCP in *. frame_consts.
  repeat okay_step; try done; bool_simp; try lia. intros s' [= <-]. cbn [payload]. lia.
Qed.

Lemma build_segment_safe buf my_mac my_ip peer_mac peer_ip sp dp sq ak fl win data :
  60 <= zlen buf -> 54 + zlen data <= zlen buf -> zlen buf < 65536 -> is_mac my_mac -> is_ip my_ip -> is_mac peer_mac -> is_ip peer_ip ->
  okay (build_segment buf my_mac my_ip peer_mac peer_ip sp dp sq ak fl win data)
    (fun '(b, n) => zlen b = zlen buf /\ n = Z.max 60 (54 + zlen data)).
Proof.
  intros H1 H2 H3 M1 I1 M2 I2. unfold build_segment. cbv zeta.
  assert (L6 : zlen my_mac = 6 /\ zlen peer_mac = 6) by (unfold is_mac, zlen in *; lia).
  assert (L4 : zlen my_ip = 4 /\ zlen peer_ip = 4) by (unfold is_ip, zlen in *; lia).
  pose proof (zlen_nonneg data). unfold TCP, HEADER_LEN. frame_consts.
  repeat okay_step; try change (zlen ETHERTYPE_IPV4) with 2; try change (zlen (u16_to_be _)) with 2; try change (zlen (u32_to_be _)) with 4; try lia.
  unfold pad_to_min_frame, MIN_FRAME_LEN. repeat okay_step; bool_simp; try lia.
Qed.
