(* ===== verification/Machine.v ===== *)
(** * Tasks with their memory

    A task makes system calls (Libpcern.v) and reads and writes the pages mapped in its
    address space.  [Machine] is what a task runs on: the answers to its calls, the bytes
    mapped at an address, and the calls it has made with the memory each was made with.
    The netstack (Netstack.v), the network driver (Rtl8139.v) and the shell (Shell.v) run
    on any machine.

    Two simplifications.  What other tasks write to shared pages shows at the task's next
    system call (and what a device writes, at the next access to one of its ports),
    although the timer can preempt the task between any two instructions: a partner that
    changes a buffer it has already announced, while the task reads it, is not modelled.
    And every mapped page can be written: so can those of all grants but one (the grants
    [sys_mem_alloc] mints are writable, and so are the boot ones but the network card's
    information page), and that one page, [NIC_INFO_VIRT] of the network driver, the driver
    only reads. *)

From stdpp Require Import base list numbers.
From Stdlib Require Import Lia.
From S2P Require Import Prelude Libpcern Pio.
Open Scope Z_scope.

(** A system call, and the memory of the task when it made it. *)
Record event := Event { made : sys_args; seen : Z -> option (list Z) }.

(** [answer] is [None] for a call that never returns. *)
Class Machine (W : Type) := {
  answer : sys_args -> W -> option (raw_result * W);
  mem : Z -> W -> option (list Z);
  set_mem : Z -> list Z -> W -> W;
  log : W -> list event
}.

Section task.
Context {W : Type} `{Machine W}.

(** The system calls of a program, on the machine. *)
Fixpoint call {A} (p : prog A) : io W A :=
  match p with
  | Ret a => mret a
  | Sys c k => fun w => match answer c w with Some (r, w') => call (k r) w' | None => Loops end
  | Stop e => fun _ => Crashes e
  end.

(** The slice [core::slice::from_raw_parts(v, n)]. *)
Definition load (v n : Z) : io W (list Z) := fun w =>
  match mem v w with
  | Some b => if n <=? zlen b then Ends (sub b 0 n) w else Crashes UserPageFault
  | None => Crashes UserPageFault
  end.

(** Writing to a slice of the memory at [v], from its start. *)
Definition store (v : Z) (d : list Z) : io W unit := fun w =>
  match mem v w with
  | Some b => if zlen d <=? zlen b then Ends tt (set_mem v (put b 0 d) w) else Crashes UserPageFault
  | None => Crashes UserPageFault
  end.

(** The [n] bytes at offset [off] of the memory at [v]. *)
Definition peek (v off n : Z) : io W (list Z) := fun w =>
  match mem v w with
  | Some b => if (0 <=? off) && (off + n <=? zlen b) then Ends (sub b off (off + n)) w else Crashes UserPageFault
  | None => Crashes UserPageFault
  end.

(** Writing [d] at offset [off] of the memory at [v]. *)
Definition poke (v off : Z) (d : list Z) : io W unit := fun w =>
  match mem v w with
  | Some b => if (0 <=? off) && (off + zlen d <=? zlen b) then Ends tt (set_mem v (put b off d) w) else Crashes UserPageFault
  | None => Crashes UserPageFault
  end.

(** At least a page is mapped at [v]. *)
Definition mapped (v : Z) (w : W) : Prop := exists b, mem v w = Some b /\ 4096 <= zlen b.
End task.

(** The values sent to the endpoint in slot [cr]. *)
Definition answers (cr : Z) (l : list event) : list Z :=
  omap (fun e => if (num (made e) =? SYS_SEND) && (a1 (made e) =? cr) then Some (a2 (made e)) else None) l.

(** The addresses the programs map their buffers at. *)
Definition buffer_base (v : Z) : Prop := v mod 65536 = 0.

(** What a task relies on: [exit] does not return, registers hold 32-bit words, a call does
    not unmap memory, a mapping that is reported made is there (a grant is of at least one
    page), and a write changes the bytes written. *)
Class MachineLaws (W : Type) `{Machine W} := {
  exit_law code (w : W) : answer (SysArgs SYS_EXIT code 0 0 0 0) w = None;
  log_law c (w : W) r w' : answer c w = Some (r, w') -> log w' = log w ++ [Event c (fun v => mem v w)];
  regs_law c (w : W) r w' : answer c w = Some (r, w') -> is_u32 (r_eax r) /\ is_u32 (r_ebx r) /\ is_u32 (r_ecx r) /\
    is_u32 (r_edx r) /\ is_u32 (r_edi r);
  keep_law c (w : W) r w' v : answer c w = Some (r, w') -> mapped v w -> mapped v w';
  map_law g v (w : W) r w' :
    answer (SysArgs SYS_MAP_MEMORY g v 0 0 0) w = Some (r, w') -> as_i32 (r_eax r) = 0 -> mapped v w';
  alloc_law v n (w : W) r w' :
    answer (SysArgs SYS_MEM_ALLOC v n 0 0 0) w = Some (r, w') -> 0 < n -> r_eax r <> 0 -> mapped v w';
  store_law v b b' (w : W) : mem v w = Some b -> zlen b' = zlen b -> mem v (set_mem v b' w) = Some b';
  other_law v v' b' (w : W) :
    buffer_base v -> buffer_base v' -> v <> v' -> mem v' (set_mem v b' w) = mem v' w;
  store_log_law v b (w : W) : log (set_mem v b w) = log w
}.

(** A program is run one part after the other. *)
Lemma runs_call {W} `{Machine W} {A B} (p : prog A) (f : A -> prog B) (w : W) Q :
  runs (call p) w (fun a w' => runs (call (f a)) w' Q) -> runs (call (p ≫= f)) w Q.
Proof.
  revert w. induction p as [a|c k IH|e]; intros w; [done| |done]. unfold runs. cbn.
  destruct (answer c w) as [[r w']|]; [|done]. apply IH.
Qed.

(** ** Termination *)

Section termination.
Context {W : Type} `{Machine W}.

Lemma total_load v n : total (load v n : io W _).
Proof. intros w. unfold load. by repeat case_match. Qed.

Lemma total_store v d : total (store v d : io W _).
Proof. intros w. unfold store. by repeat case_match. Qed.

Lemma total_peek v o n : total (peek v o n : io W _).
Proof. intros w. unfold peek. by repeat case_match. Qed.
End termination.

#[export] Hint Resolve total_load total_store total_peek : total.

(** ** Rules *)

Section rules.
Context {W : Type} {MW : Machine W} {ML : MachineLaws W}.
Implicit Types w : W.

(** The calls made between two states. *)
Definition says (w w' : W) (l : list event) : Prop := log w' = log w ++ l.

(** What holds over any calls and writes: the buffers mapped stay mapped, the calls made
    stay made. *)
Definition grows (w w' : W) : Prop :=
  (forall v, buffer_base v -> mapped v w -> mapped v w') /\ exists l, says w w' l.

Lemma grows_refl w : grows w w.
Proof. split; [done|]. exists []. unfold says. by rewrite app_nil_r. Qed.

Lemma grows_trans w1 w2 w3 : grows w1 w2 -> grows w2 w3 -> grows w1 w3.
Proof.
  intros [M1 [l1 L1]] [M2 [l2 L2]]. split; [auto|]. exists (l1 ++ l2). unfold says in *. by rewrite L2, L1, app_assoc.
Qed.

Lemma grows_answer c w r w' : answer c w = Some (r, w') -> grows w w'.
Proof. intros E. split; [intros v _; by apply (keep_law _ _ _ _ _ E)|]. eexists. exact (log_law _ _ _ _ E). Qed.

Lemma grows_store v b b' w : buffer_base v -> mem v w = Some b -> zlen b' = zlen b -> grows w (set_mem v b' w).
Proof.
  intros Hv E L. split.
  - intros v' Hv' [c [Ec Lc]]. unfold mapped. destruct (decide (v = v')) as [<-|N].
    + rewrite (store_law _ _ _ _ E L). exists b'. split; [done|]. rewrite E in Ec. injection Ec as <-. lia.
    + rewrite other_law by done. eauto.
  - exists []. unfold says. by rewrite store_log_law, app_nil_r.
Qed.

(** A program that does not panic does not crash the task. *)
Lemma call_safe {A} (p : prog A) w : safe p -> safely (call p) w (fun _ w' => grows w w').
Proof.
  intros S. revert w. induction S as [a|c k _ IH]; intros w; cbn; [apply grows_refl|]. unfold safely in *. cbn.
  destruct (answer c w) as [[r w']|] eqn:E; [|done]. specialize (IH r w').
  destruct (call (k r) w'); try done. eapply grows_trans; [by eapply grows_answer|done].
Qed.

Lemma call_one {A} c (f : raw_result -> A) w (Q : A -> W -> Prop) :
  (forall r w', answer c w = Some (r, w') -> grows w w' -> Q (f r) w') ->
  safely (call (r ← syscall_raw (num c) (a1 c) (a2 c) (a3 c) (a4 c) (a5 c); mret (f r))) w Q.
Proof.
  intros F. unfold safely. destruct c as [n b c d e g]. cbn. destruct (answer _ w) as [[r w']|] eqn:E; [|done].
  cbn. apply F; [done|]. by eapply grows_answer.
Qed.

Lemma exit_safe {A} code (w : W) (Q : A -> W -> Prop) : safely (call (exit code)) w Q.
Proof. unfold safely. cbn. by rewrite exit_law. Qed.

Lemma load_ok v n w (Q : list Z -> W -> Prop) :
  mapped v w -> 0 <= n <= 4096 -> (forall b, mem v w = Some b -> zlen (sub b 0 n) = n -> Q (sub b 0 n) w) -> runs (load v n) w Q.
Proof.
  intros (b & E & L) Hn F. unfold runs, load. rewrite E, (proj2 (Z.leb_le _ _)) by lia.
  apply F; [done|]. rewrite zlen_sub; lia.
Qed.

Lemma store_ok v d w (Q : unit -> W -> Prop) :
  buffer_base v -> mapped v w -> zlen d <= 4096 ->
  (forall b, mem v w = Some b -> 4096 <= zlen b -> let w' := set_mem v (put b 0 d) w in
     grows w w' -> mem v w' = Some (put b 0 d) -> Q tt w') ->
  runs (store v d) w Q.
Proof.
  intros Hv (b & E & L) Hd F. pose proof (zlen_nonneg d). unfold runs, store.
  rewrite E, (proj2 (Z.leb_le _ _)) by lia. assert (Lp : zlen (put b 0 d) = zlen b) by (apply zlen_put; lia).
  apply (F b); [done|done|by eapply grows_store|by eapply store_law].
Qed.

Lemma poke_ok v off d w (Q : unit -> W -> Prop) :
  buffer_base v -> mapped v w -> 0 <= off -> off + zlen d <= 4096 ->
  (forall b, mem v w = Some b -> 4096 <= zlen b -> let w' := set_mem v (put b off d) w in
     grows w w' -> mem v w' = Some (put b off d) -> Q tt w') ->
  runs (poke v off d) w Q.
Proof.
  intros Hv (b & E & L) Ho Hd F. pose proof (zlen_nonneg d). unfold runs, poke.
  rewrite E, (proj2 (Z.leb_le _ _)), (proj2 (Z.leb_le _ _)) by lia. cbn [andb].
  assert (Lp : zlen (put b off d) = zlen b) by (apply zlen_put; lia).
  apply (F b); [done|done|by eapply grows_store|by eapply store_law].
Qed.
End rules.

#[export] Hint Resolve grows_refl grows_trans : wf.
