(* ===== verification/Netstack.v ===== *)
(** * The network service (userland/services/netstack/src/main.rs)

    [netstack_start] is [_start] up to its loop, [turn] one round of the loop, on any
    machine (Machine.v): it polls the network driver for a frame, or its inbox for a
    message of the TCP client.  The local variables of [_start] are the record [net]; the
    frame buffer and the client's buffer are the memory at [NIC_BUF_VIRT] and
    [CLIENT_BUF_VIRT].  [polls] bounds how many messages [recv_from_nic] takes in before
    the driver's reply: a service that waits longer is one that loops. *)

From stdpp Require Import base list numbers.
From Stdlib Require Import Lia.
From S2P Require Import Prelude Libpcern Pio Proto Tcp Machine.
Open Scope Z_scope.

Definition MY_INBOX : Z := 2.
Definition NIC_BUF_VIRT : Z := 0xB00000.
Definition CLIENT_BUF_VIRT : Z := 0xC00000.
Definition STATIC_IP : list Z := [10; 0; 2; 15].
Definition NIC_TASK_ID : Z := 6.
Definition WINDOW : Z := 2048.
Definition MAX_SEGMENT_PAYLOAD : Z := NIC_MAX_FRAME - ETH_HEADER_LEN - IPV4_HEADER_LEN - HEADER_LEN.
Definition LOCAL_PORT : Z := 51820.
Definition INITIAL_SEQ : Z := 0x10000.
Definition MAX_ATTEMPTS : Z := 2000000.
Definition MAX_IDLE_YIELDS : Z := 16.

Inductive ConnState := ArpPending | SynSent | Established | LastAck | FinWait1 | FinWait2.

#[export] Instance ConnState_eq_dec : EqDecision ConnState.
Proof. solve_decision. Defined.

Record Connection := Conn {
  peer_ip : list Z; peer_port : Z; peer_mac : list Z; state : ConnState;
  snd_nxt : Z; rcv_nxt : Z; attempts_left : Z
}.

(** [PendingOp]; [NoOp] is its [None]. *)
Inductive PendingOp := NoOp | Connect | Recv | Close.

#[export] Instance PendingOp_eq_dec : EqDecision PendingOp.
Proof. solve_decision. Defined.

Inductive Outcome := NotMine | Handled | Done.

(** ** The queue of client messages *)

Record Stash := StashState { items : list (option recv_result); slen : Z }.

Definition stash_new : Stash := StashState [None; None] 0.

Definition push (r : recv_result) (st : Stash) : Stash :=
  if slen st <? zlen (items st) then StashState (zset (items st) (slen st) (Some r)) (slen st + 1) else st.

(** [self.items[i - 1] = self.items[i].take()] *)
Definition shift_item (i : Z) (l : list (option recv_result)) : res (list (option recv_result)) :=
  match zget l i with
  | Some o => Ok (zset (zset l i None) (i - 1) o)
  | None => Panicked IndexOutOfBounds
  end.

Definition pop_front (st : Stash) : res (option recv_result * Stash) :=
  match zget (items st) 0 with
  | None => Panicked IndexOutOfBounds
  | Some None => Ok (None, st)
  | Some (Some r) =>
      l <- for_res 1 (Z.to_nat (slen st - 1)) shift_item (zset (items st) 0 None) ;;
      Ok (Some r, StashState l (wrap32 (slen st - 1)))
  end.

(** ** The service *)

(** The local variables of [_start] that the loop changes. *)
Record net := Net {
  stash : Stash; client_buf_mapped : bool; client_reply : Z; conn : option Connection;
  pending_op : PendingOp; buffered_len : Z; idle_yields : Z
}.

Definition set_stash x s := Net x (client_buf_mapped s) (client_reply s) (conn s) (pending_op s) (buffered_len s) (idle_yields s).
Definition set_conn x s := Net (stash s) (client_buf_mapped s) (client_reply s) x (pending_op s) (buffered_len s) (idle_yields s).
Definition set_pending x s := Net (stash s) (client_buf_mapped s) (client_reply s) (conn s) x (buffered_len s) (idle_yields s).
Definition set_buffered x s := Net (stash s) (client_buf_mapped s) (client_reply s) (conn s) (pending_op s) x (idle_yields s).
Definition set_idle x s := Net (stash s) (client_buf_mapped s) (client_reply s) (conn s) (pending_op s) (buffered_len s) x.
Definition set_attempts n c := Conn (peer_ip c) (peer_port c) (peer_mac c) (state c) (snd_nxt c) (rcv_nxt c) n.

Section service.
Context {W : Type} `{Machine W} (polls : nat) (nic_slot : Z) (my_mac : list Z).

Fixpoint recv_from_nic (n : nat) (st : Stash) : io W (recv_result * Stash) :=
  match n with
  | O => fun _ => Loops
  | S n =>
      r ← call (recv MY_INBOX);
      if sender r =? NIC_TASK_ID then mret (r, st) else recv_from_nic n (push r st)
  end.

Definition send_to_nic (len : Z) (st : Stash) : io W (bool * Stash) :=
  _ ← call (send nic_slot NIC_OP_SEND len 0 0);
  '(r, st) ← recv_from_nic polls st;
  mret (w0 r =? 1, st).

Definition next_client_message (st : Stash) : io W (option recv_result * Stash) :=
  '(o, st) ← pure (pop_front st);
  match o with
  | Some r => mret (Some r, st)
  | None =>
      o ← call (try_recv MY_INBOX);
      mret (match o with Some r => if sender r =? NIC_TASK_ID then None else Some r | None => None end, st)
  end.

(** [libpcern::send(client_reply, v, 0, 0, 0)] *)
Definition answer_client (v : Z) (s : net) : io W unit :=
  _ ← call (send (client_reply s) v 0 0 0); mret tt.

Definition fail_pending_op (s : net) : io W net :=
  let s' := set_conn None (set_buffered 0 (set_pending NoOp s)) in
  match pending_op s with
  | Connect => _ ← answer_client 0 s; mret s'
  | Recv => _ ← answer_client (wrap32 (buffered_len s)) s; mret s'
  | Close => _ ← answer_client 1 s; mret s'
  | NoOp => mret s'
  end.

(** The frame buffer filled by [build], a function of proto.rs or tcp.rs, and
    [send_to_nic]. *)
Definition send_frame (build : list Z -> res (list Z * Z)) (s : net) : io W net :=
  buf ← load NIC_BUF_VIRT NIC_MAX_FRAME;
  '(buf, n) ← pure (build buf);
  _ ← store NIC_BUF_VIRT buf;
  '(_, st) ← send_to_nic (wrap32 n) (stash s);
  mret (set_stash st s).

Definition transmit (c : Connection) (seq ack fl : Z) (data : list Z) (s : net) : io W net :=
  send_frame (fun buf => build_segment buf my_mac STATIC_IP (peer_mac c) (peer_ip c) LOCAL_PORT (peer_port c)
                           seq ack fl WINDOW data) s.

(** If [op] is pending, it is answered with [v]. *)
Definition settle (op : PendingOp) (v : Z) (s : net) : io W net :=
  if bool_decide (pending_op s = op) then _ ← answer_client v s; mret (set_pending NoOp s) else mret s.

(** ** Frames *)

(** The [ArpPending] branch. *)
Definition on_arp_pending (buf : list Z) (len : Z) (c : Connection) (s : net) : io W (Outcome * net) :=
  m ← pure (parse_arp_reply buf len (peer_ip c));
  match m with
  | None => mret (NotMine, s)
  | Some mac =>
      let c := Conn (peer_ip c) (peer_port c) mac SynSent (snd_nxt c) (rcv_nxt c) MAX_ATTEMPTS in
      s ← transmit c (snd_nxt c) 0 FLAG_SYN [] (set_conn (Some c) s);
      mret (Handled, s)
  end.

(** [seg.flags & f != 0] *)
Definition has (f : Z) (seg : segment) : bool := negb (Z.land (flags seg) f =? 0).

Definition on_syn_sent (seg : segment) (c : Connection) (s : net) : io W (Outcome * net) :=
  if has FLAG_RST seg then s ← settle Connect 0 s; mret (Done, s)
  else if has FLAG_SYN seg && has FLAG_ACK seg && (sack seg =? wrap32 (snd_nxt c + 1)) then
    let c := Conn (peer_ip c) (peer_port c) (peer_mac c) Established (wrap32 (snd_nxt c + 1)) (wrap32 (sseq seg + 1))
               (attempts_left c) in
    s ← transmit c (snd_nxt c) (rcv_nxt c) FLAG_ACK [] (set_conn (Some c) s);
    s ← settle Connect 1 s;
    mret (Handled, s)
  else mret (NotMine, s).

(** The payload of a segment that continues the stream goes to the client's buffer: the
    new [buffered_len] and [c.rcv_nxt], and [advanced]. *)
Definition absorb (seg : segment) (c : Connection) (s : net) : io W (Z * Z * bool) :=
  if negb (zlen (payload seg) =? 0) && (sseq seg =? rcv_nxt c) then
    client_buf ← load CLIENT_BUF_VIRT TCP_MAX_TRANSFER;
    let room := wrap32 (TCP_MAX_TRANSFER - buffered_len s) in
    let n := Z.min (zlen (payload seg)) room in
    data ← pure (bslice (payload seg) 0 n);
    client_buf ← pure (bcopy client_buf (buffered_len s) data);
    _ ← store CLIENT_BUF_VIRT client_buf;
    mret (buffered_len s + n, wrap32 (rcv_nxt c + n), true)
  else mret (buffered_len s, rcv_nxt c, false).

Definition on_established (seg : segment) (c : Connection) (s : net) : io W (Outcome * net) :=
  if has FLAG_RST seg then
    s ← match pending_op s with
        | Recv => _ ← answer_client 0 s; mret s
        | Close => _ ← answer_client 1 s; mret s
        | _ => mret s
        end;
    mret (Done, set_pending NoOp s)
  else
    '(buffered, rcv, advanced) ← absorb seg c s;
    let fin := has FLAG_FIN seg && (wrap32 (sseq seg + wrap32 (zlen (payload seg))) =? rcv) in
    if negb advanced && negb fin then mret (NotMine, s)
    else
      let rcv := if fin then wrap32 (rcv + 1) else rcv in
      let fl := if fin then Z.lor FLAG_FIN FLAG_ACK else FLAG_ACK in
      let snd := if fin then wrap32 (snd_nxt c + 1) else snd_nxt c in
      s ← transmit c (snd_nxt c) rcv fl [] s;
      let c := Conn (peer_ip c) (peer_port c) (peer_mac c) (if fin then LastAck else Established) snd rcv
                 (if fin then MAX_ATTEMPTS else attempts_left c) in
      let s := set_buffered buffered (set_conn (Some c) s) in
      if bool_decide (pending_op s = Recv) then
        _ ← answer_client (wrap32 (buffered_len s)) s;
        mret (Handled, set_pending NoOp (set_buffered 0 s))
      else mret (Handled, s).

Definition on_last_ack (seg : segment) (c : Connection) (s : net) : io W (Outcome * net) :=
  if has FLAG_ACK seg && (sack seg =? snd_nxt c) then s ← settle Close 1 s; mret (Done, s)
  else mret (NotMine, s).

(** The peer's FIN in [FinWait1] and [FinWait2]: it is acknowledged and the connection is
    done. *)
Definition peer_closes (seg : segment) (c : Connection) (s : net) : io W (Outcome * net) :=
  let c := Conn (peer_ip c) (peer_port c) (peer_mac c) (state c) (snd_nxt c) (wrap32 (sseq seg + 1)) (attempts_left c) in
  s ← transmit c (snd_nxt c) (rcv_nxt c) FLAG_ACK [] (set_conn (Some c) s);
  s ← settle Close 1 s;
  mret (Done, s).

Definition on_fin_wait1 (seg : segment) (c : Connection) (s : net) : io W (Outcome * net) :=
  if has FLAG_FIN seg then peer_closes seg c s
  else if has FLAG_ACK seg && (sack seg =? snd_nxt c) then
    let c := Conn (peer_ip c) (peer_port c) (peer_mac c) FinWait2 (snd_nxt c) (rcv_nxt c) MAX_ATTEMPTS in
    mret (Handled, set_conn (Some c) s)
  else mret (NotMine, s).

Definition on_fin_wait2 (seg : segment) (c : Connection) (s : net) : io W (Outcome * net) :=
  if negb (has FLAG_FIN seg) then mret (NotMine, s) else peer_closes seg c s.

Definition advance_connection (buf : list Z) (len : Z) (c : Connection) (s : net) : io W (Outcome * net) :=
  match state c with
  | ArpPending => on_arp_pending buf len c s
  | _ =>
      o ← pure (parse_segment buf len (peer_ip c));
      match o with
      | None => mret (NotMine, s)
      | Some seg =>
          if negb (dst_port seg =? LOCAL_PORT) || negb (src_port seg =? peer_port c) then mret (NotMine, s)
          else
            match state c with
            | ArpPending => pure (Panicked AssertionFailed)
            | SynSent => on_syn_sent seg c s
            | Established => on_established seg c s
            | LastAck => on_last_ack seg c s
            | FinWait1 => on_fin_wait1 seg c s
            | FinWait2 => on_fin_wait2 seg c s
            end
      end
  end.

Definition handle_nic_frame (len : Z) (s : net) : io W net :=
  buf ← load NIC_BUF_VIRT NIC_MAX_FRAME;
  '(outcome, s) ← match conn s with
                  | Some c => advance_connection buf len c s
                  | None => mret (NotMine, s)
                  end;
  match outcome with
  | Done => mret (set_conn None s)
  | Handled => mret s
  | NotMine =>
      '(buf, reply) ← pure (handle_frame buf len my_mac STATIC_IP);
      _ ← store NIC_BUF_VIRT buf;
      match reply with
      | Some n =>
          '(_, st) ← send_to_nic (wrap32 n) (stash s);
          mret (set_stash st s)
      | None => mret s
      end
  end.

(** ** Client messages *)

Definition on_connect (r : recv_result) (s : net) : io W net :=
  if client_reply s =? 0 then mret s
  else if bool_decide (is_Some (conn s)) || negb (client_buf_mapped s) then _ ← answer_client 0 s; mret s
  else
    let ip := u32_to_le (w1 r) in
    s ← send_frame (fun buf => build_arp_request buf my_mac STATIC_IP ip) s;
    let c := Conn ip (wrap16 (w2 r)) (replicate 6 0) ArpPending INITIAL_SEQ 0 MAX_ATTEMPTS in
    mret (set_pending Connect (set_conn (Some c) s)).

Definition on_send (r : recv_result) (s : net) : io W net :=
  if client_reply s =? 0 then mret s
  else
    match conn s with
    | Some c =>
        if bool_decide (state c = Established) && client_buf_mapped s then
          let want := Z.min (Z.min (Z.min (w1 r) WINDOW) TCP_MAX_TRANSFER) MAX_SEGMENT_PAYLOAD in
          client_buf ← load CLIENT_BUF_VIRT TCP_MAX_TRANSFER;
          data ← pure (bslice client_buf 0 want);
          s ← transmit c (snd_nxt c) (rcv_nxt c) (Z.lor FLAG_PSH FLAG_ACK) data s;
          let c := Conn (peer_ip c) (peer_port c) (peer_mac c) (state c) (wrap32 (snd_nxt c + want)) (rcv_nxt c)
                     (attempts_left c) in
          let s := set_conn (Some c) s in
          _ ← answer_client want s;
          mret s
        else _ ← answer_client 0 s; mret s
    | None => _ ← answer_client 0 s; mret s
    end.

(** [already_done] *)
Definition already_done (o : option Connection) : bool :=
  match o with
  | None => true
  | Some c => bool_decide (state c = LastAck) || bool_decide (state c = FinWait2)
  end.

Definition on_recv (s : net) : io W net :=
  if client_reply s =? 0 then mret s
  else if (0 <? buffered_len s) || already_done (conn s) then
    _ ← answer_client (wrap32 (buffered_len s)) s;
    mret (set_buffered 0 s)
  else mret (set_conn (set_attempts MAX_ATTEMPTS <$> conn s) (set_pending Recv s)).

Definition on_close (s : net) : io W net :=
  if client_reply s =? 0 then mret s
  else
    match conn s with
    | Some c =>
        if bool_decide (state c = Established) then
          s ← transmit c (snd_nxt c) (rcv_nxt c) (Z.lor FLAG_FIN FLAG_ACK) [] s;
          let c := Conn (peer_ip c) (peer_port c) (peer_mac c) FinWait1 (wrap32 (snd_nxt c + 1)) (rcv_nxt c) MAX_ATTEMPTS in
          mret (set_pending Close (set_conn (Some c) s))
        else let s := set_conn None s in _ ← answer_client 1 s; mret s
    | None => _ ← answer_client 1 s; mret s
    end.

Definition handle_client_message (r : recv_result) (s : net) : io W net :=
  if w0 r =? TCP_OP_SET_BUFFER then
    if negb (transferred_slot r =? 0) then
      e ← call (map_memory (transferred_slot r) CLIENT_BUF_VIRT);
      mret (if e =? 0 then Net (stash s) true (client_reply s) (conn s) (pending_op s) (buffered_len s) (idle_yields s) else s)
    else mret s
  else if w0 r =? TCP_OP_SET_REPLY then
    mret (if negb (transferred_slot r =? 0) then
            Net (stash s) (client_buf_mapped s) (transferred_slot r) (conn s) (pending_op s) (buffered_len s) (idle_yields s)
          else s)
  else if w0 r =? TCP_OP_CONNECT then on_connect r s
  else if w0 r =? TCP_OP_SEND then on_send r s
  else if w0 r =? TCP_OP_RECV then on_recv s
  else if w0 r =? TCP_OP_CLOSE then on_close s
  else mret s.

(** ** The loop *)

Fixpoint yields (n : nat) : io W unit :=
  match n with O => mret tt | S n => _ ← call yield_now; yields n end.

(** A round, after the countdown: the driver is asked for a frame, then the client for a
    message, and if there is neither the task yields. *)
Definition poll (s : net) : io W net :=
  _ ← call (send nic_slot NIC_OP_TRY_RECV 0 0 0);
  '(r, st) ← recv_from_nic polls (stash s);
  let s := set_stash st s in
  if 0 <? w0 r then handle_nic_frame (w0 r) (set_idle 1 s)
  else
    '(o, st) ← next_client_message (stash s);
    let s := set_stash st s in
    match o with
    | Some r => handle_client_message r (set_idle 1 s)
    | None =>
        _ ← yields (Z.to_nat (idle_yields s));
        mret (set_idle (Z.min (wrap32 (idle_yields s * 2)) MAX_IDLE_YIELDS) s)
    end.

Definition turn (s : net) : io W net :=
  match pending_op s, conn s with
  | NoOp, _ | _, None => poll s
  | _, Some c =>
      if attempts_left c =? 0 then fail_pending_op s
      else poll (set_conn (Some (set_attempts (attempts_left c - 1) c)) s)
  end.

Fixpoint turns (n : nat) (s : net) : io W net :=
  match n with O => mret s | S n => s ← turn s; turns n s end.
End service.

Definition net_new : net := Net stash_new false 0 None NoOp 0 1.

(** [_start] up to its loop: the driver's slot, the card's address and the variables. *)
Definition netstack_start {W} `{Machine W} : io W (Z * list Z * net) :=
  o ← call (lookup_name_retry [110; 101; 116] MY_INBOX 1000);
  match o with
  | None => call (exit 1)
  | Some nic_slot =>
      g ← call (mem_alloc NIC_BUF_VIRT);
      if g =? 0 then call (exit 1)
      else
        _ ← call (nic_connect nic_slot g MY_INBOX);
        my_mac ← call (nic_get_mac nic_slot MY_INBOX);
        _ ← call (register_name [116; 99; 112] MY_INBOX);
        mret (nic_slot, my_mac, net_new)
  end.

(** ** The queue *)

(** The queue holds the messages [q], oldest first. *)
Definition stash_is (st : Stash) (q : list recv_result) : Prop :=
  items st = map Some q ++ replicate (2 - length q) None /\ slen st = zlen q /\ (length q <= 2)%nat.

Lemma push_is st q r : stash_is st q -> stash_is (push r st) (if zlen q <? 2 then q ++ [r] else q).
Proof.
  destruct st as [l n]. intros (E & En & L). cbn in E, En. subst l n.
  destruct q as [|a [|b [|]]]; cbn in L; try lia; split_and!; try done; vm_compute; lia.
Qed.

Lemma pop_is st q : stash_is st q ->
  exists st', pop_front st = Ok (head q, st') /\ stash_is st' (tail q).
Proof.
  destruct st as [l n]. intros (E & En & L). cbn in E, En. subst l n.
  destruct q as [|a [|b [|]]]; cbn in L; try lia; (eexists; split; [reflexivity|split_and!; try done; cbn; lia]).
Qed.
