(* ===== verification/NetSafe.v ===== *)
(** * The network service never crashes

    The invariant [net_ok] of the service's variables and memory, kept by every round of
    its loop, whatever frames come from the network and whatever messages from any task:
    no slice is out of range, no unmapped page is touched. *)

From stdpp Require Import base list numbers.
From Stdlib Require Import Lia.
From S2P Require Import Prelude Libpcern Pio Proto Tcp Machine Netstack.
Open Scope Z_scope.

(** The operation of the last request sent. *)
Definition last_op (l : list event) : option Z :=
  list.last (omap (fun e => if num (made e) =? SYS_SEND then Some (a2 (made e)) else None) l).

(** What the service relies on of the network driver: it reports no frame longer than
    [NIC_MAX_FRAME] (libpcern's documentation of [NIC_OP_RECV]).  The reply to
    [NIC_OP_GET_MAC] is no report. *)
Class NicLaws (W : Type) `{Machine W} := {
  nic_len_law (w : W) r w' : answer (SysArgs SYS_RECV MY_INBOX 0 0 0 0) w = Some (r, w') ->
    r_eax r = NIC_TASK_ID -> last_op (log w) <> Some NIC_OP_GET_MAC -> r_ebx r <= NIC_MAX_FRAME
}.

Definition message_ok (r : recv_result) : Prop := is_u32 (w0 r) /\ is_u32 (w1 r) /\ is_u32 (w2 r).

Definition stash_ok (st : Stash) : Prop := exists q, stash_is st q /\ Forall message_ok q.

Create HintDb net.

Record conn_ok (c : Connection) : Prop := {
  co_ip : is_ip (peer_ip c) /\ Forall is_u8 (peer_ip c);
  co_mac : is_mac (peer_mac c);
  co_port : is_u16 (peer_port c);
  co_seq : is_u32 (snd_nxt c) /\ is_u32 (rcv_nxt c);
  co_attempts : 0 <= attempts_left c <= MAX_ATTEMPTS
}.

(** What the variables satisfy, whatever the memory holds. *)
Record vars_ok (s : net) : Prop := {
  vo_stash : stash_ok (stash s);
  vo_conn c : conn s = Some c -> conn_ok c /\ client_buf_mapped s = true;
  vo_buffered : 0 <= buffered_len s <= TCP_MAX_TRANSFER;
  vo_idle : 1 <= idle_yields s <= MAX_IDLE_YIELDS
}.

Section safety.
Context {W : Type} {MW : Machine W} {ML : MachineLaws W} {NL : NicLaws W}.
Context (polls : nat) (nic_slot : Z) (my_mac : list Z) (Hmac : is_mac my_mac).
Implicit Types (w : W) (s : net).

Record net_ok (s : net) (w : W) : Prop := {
  no_vars : vars_ok s;
  no_nic : mapped NIC_BUF_VIRT w;
  no_client : client_buf_mapped s = true -> mapped CLIENT_BUF_VIRT w
}.

Lemma nic_base : buffer_base NIC_BUF_VIRT.
Proof. done. Qed.
Lemma client_base : buffer_base CLIENT_BUF_VIRT.
Proof. done. Qed.

Lemma net_ok_grows s w w' : net_ok s w -> grows w w' -> net_ok s w'.
Proof. intros [V N C] [M _]. split; [done|by apply M|]. intros E. apply M; [done|auto]. Qed.

Lemma net_ok_vars s s' w : net_ok s w -> vars_ok s' -> client_buf_mapped s' = client_buf_mapped s -> net_ok s' w.
Proof. intros [V N C] V' E. split; [done|done|]. by rewrite E. Qed.

Lemma push_stash_ok st r : stash_ok st -> message_ok r -> stash_ok (push r st).
Proof.
  intros (q & Q & F) M. eexists. split; [by apply push_is|]. case_match; [|done]. apply Forall_app. split; [done|by apply Forall_singleton].
Qed.

Lemma set_stash_ok s st : vars_ok s -> stash_ok st -> vars_ok (set_stash st s).
Proof. intros [V1 V2 V3 V4] S. by split. Qed.

(** ** Calls *)

Lemma message_regs c w r w' : answer c w = Some (r, w') -> message_ok (of_raw r).
Proof. intros E. destruct (regs_law _ _ _ _ E) as (? & ? & ? & ? & ?). by split_and!. Qed.

Lemma send_safe a b c d e w : safely (call (send a b c d e)) w (fun _ w' => grows w w').
Proof. apply call_safe. repeat constructor. Qed.

Lemma recv_safe w (Q : recv_result -> W -> Prop) :
  (forall r w', answer (SysArgs SYS_RECV MY_INBOX 0 0 0 0) w = Some (r, w') -> grows w w' -> Q (of_raw r) w') ->
  safely (call (recv MY_INBOX)) w Q.
Proof. intros F. exact (call_one (SysArgs SYS_RECV MY_INBOX 0 0 0 0) of_raw w Q F). Qed.

(** A request other than [NIC_OP_GET_MAC] has been sent to the driver. *)
Definition requested (w : W) : Prop := last_op (log w) <> Some NIC_OP_GET_MAC.

Lemma requested_answer c w r w' : answer c w = Some (r, w') -> num c <> SYS_SEND -> requested w -> requested w'.
Proof.
  intros E N R. unfold requested, last_op. rewrite (log_law _ _ _ _ E), omap_app. cbn. rewrite (proj2 (Z.eqb_neq _ _) N).
  by rewrite app_nil_r.
Qed.

Lemma request_safe slot op x w : op <> NIC_OP_GET_MAC ->
  safely (call (send slot op x 0 0)) w (fun _ w' => grows w w' /\ requested w').
Proof.
  intros N. apply (call_one (SysArgs SYS_SEND slot op x 0 0)). intros r w' E G. split; [done|].
  unfold requested, last_op. rewrite (log_law _ _ _ _ E), omap_app. cbn. rewrite last_snoc. congruence.
Qed.

Lemma recv_from_nic_safe n st w :
  stash_ok st -> requested w ->
  safely (recv_from_nic n st) w (fun '(r, st') w' =>
    grows w w' /\ stash_ok st' /\ sender r = NIC_TASK_ID /\ 0 <= w0 r <= NIC_MAX_FRAME).
Proof.
  revert st w. induction n as [|n IH]; intros st w S Rq; [done|]. cbn [recv_from_nic].
  apply safely_bind, recv_safe. intros r w' E G. pose proof (message_regs _ _ _ _ E) as M.
  destruct (sender (of_raw r) =? NIC_TASK_ID) eqn:Es; bool_simp.
  - split_and!; try done; [apply M|]. exact (nic_len_law _ _ _ E Es Rq).
  - eapply safely_mono; [apply IH; [by apply push_stash_ok|by apply (requested_answer _ _ _ _ E)]|]. intros [r' st'] w'' (G' & H). split; [by eapply grows_trans|done].
Qed.

Lemma send_to_nic_safe len st w :
  stash_ok st -> safely (send_to_nic polls nic_slot len st) w (fun '(_, st') w' => grows w w' /\ stash_ok st').
Proof.
  intros S. unfold send_to_nic. safely_step (request_safe nic_slot NIC_OP_SEND len w ltac:(done)). intros ? w1 [G1 Rq].
  safely_step (recv_from_nic_safe polls st w1 S Rq). intros [r st'] w2 (G2 & S' & _).
  apply safely_ret. split; [by eapply grows_trans|done].
Qed.

Lemma answer_client_safe v s w : safely (answer_client v s) w (fun _ w' => grows w w').
Proof. unfold answer_client. safely_step (send_safe (client_reply s) v 0 0 0 w). done. Qed.

(** The frame buffer is filled by [f] and sent. *)
Lemma send_frame_safe (f : list Z -> res (list Z * Z)) s w :
  (forall buf, zlen buf = NIC_MAX_FRAME -> okay (f buf) (fun x => zlen (fst x) = zlen buf)) ->
  net_ok s w ->
  safely (send_frame polls nic_slot f s) w (fun s' w' => (net_ok s' w' /\ exists st, s' = set_stash st s) /\ grows w w').
Proof.
  intros F O. pose proof (no_nic _ _ O) as M. apply safely_bind, runs_safely, load_ok; [done|unfold NIC_MAX_FRAME; lia|].
  intros b Eb Lb. apply safely_bind, safely_pure. eapply okay_mono; [by apply F|]. intros [b' n] L. cbn in L.
  apply safely_bind, runs_safely, store_ok; [apply nic_base|done|unfold NIC_MAX_FRAME in *; lia|].
  intros b0 E0 L0 w1 G1 _. safely_step (send_to_nic_safe (wrap32 n) (stash s) w1 (vo_stash _ (no_vars _ _ O))).
  intros [ok st] w2 [G2 S2]. apply safely_ret. split; [|by eapply grows_trans]. split; [|eauto].
  eapply net_ok_vars; [eapply net_ok_grows; [exact O|by eapply grows_trans]| |done]. apply set_stash_ok; [apply O|done].
Qed.

Lemma segment_fits c sq ak fl data buf :
  conn_ok c -> zlen data <= MAX_SEGMENT_PAYLOAD -> zlen buf = NIC_MAX_FRAME ->
  okay (build_segment buf my_mac STATIC_IP (peer_mac c) (peer_ip c) LOCAL_PORT (peer_port c) sq ak fl WINDOW data)
    (fun x => zlen (fst x) = zlen buf).
Proof.
  intros C Hd L. unfold NIC_MAX_FRAME in L. eapply okay_mono; [apply build_segment_safe; try lia; try done; try apply C|].
  - unfold MAX_SEGMENT_PAYLOAD, NIC_MAX_FRAME, HEADER_LEN in Hd. frame_consts. lia.
  - by intros [b n] [H _].
Qed.

Lemma transmit_safe c sq ak fl data s w :
  conn_ok c -> zlen data <= MAX_SEGMENT_PAYLOAD -> net_ok s w ->
  safely (transmit polls nic_slot my_mac c sq ak fl data s) w
    (fun s' w' => net_ok s' w' /\ exists st, s' = set_stash st s).
Proof.
  intros C Hd O. eapply safely_mono; [apply send_frame_safe; [|exact O]|]; [intros buf; by apply segment_fits|]. by intros s' w' [H _].
Qed.

Lemma settle_safe op v s w : net_ok s w ->
  safely (settle op v s) w (fun s' w' => net_ok s' w' /\ conn s' = conn s).
Proof.
  intros O. unfold settle. case_bool_decide; [|done]. safely_step (answer_client_safe v s w). intros ? w' G.
  apply safely_ret. split; [|done]. eapply net_ok_vars; [by eapply net_ok_grows| |done]. destruct (no_vars _ _ O). by split.
Qed.

(** ** Updates of the variables *)

Lemma set_conn_ok c s w : net_ok s w -> conn_ok c -> client_buf_mapped s = true -> net_ok (set_conn (Some c) s) w.
Proof. intros O C M. apply (net_ok_vars s); [done| |done]. destruct (no_vars _ _ O). split; try done. by intros ? [= <-]. Qed.

Lemma drop_conn_ok s w : net_ok s w -> net_ok (set_conn None s) w.
Proof. intros O. apply (net_ok_vars s); [done| |done]. destruct (no_vars _ _ O). by split. Qed.

Lemma set_pending_ok op s w : net_ok s w -> net_ok (set_pending op s) w.
Proof. intros O. apply (net_ok_vars s); [done| |done]. destruct (no_vars _ _ O). by split. Qed.

Lemma set_buffered_ok n s w : net_ok s w -> 0 <= n <= TCP_MAX_TRANSFER -> net_ok (set_buffered n s) w.
Proof. intros O H. apply (net_ok_vars s); [done| |done]. destruct (no_vars _ _ O). by split. Qed.

Lemma set_idle_ok n s w : net_ok s w -> 1 <= n <= MAX_IDLE_YIELDS -> net_ok (set_idle n s) w.
Proof. intros O H. apply (net_ok_vars s); [done| |done]. destruct (no_vars _ _ O). by split. Qed.

Lemma conn_of s w c : net_ok s w -> conn s = Some c -> conn_ok c /\ client_buf_mapped s = true.
Proof. intros O E. exact (vo_conn _ (no_vars _ _ O) _ E). Qed.

Lemma wrap_u32 x : is_u32 (wrap32 x).
Proof. unfold is_u32, wrap. dlia. Qed.

Hint Resolve set_conn_ok drop_conn_ok set_pending_ok net_ok_grows wrap_u32 : net.

(** A connection whose numbers, state and patience have changed. *)
Lemma conn_ok_next c st sn rn n : conn_ok c -> is_u32 sn -> is_u32 rn -> 0 <= n <= MAX_ATTEMPTS ->
  conn_ok (Conn (peer_ip c) (peer_port c) (peer_mac c) st sn rn n).
Proof. intros [C1 C2 C3 C4 C5] S R N. by split. Qed.

(** ** Frames *)

Definition stays (x : Outcome * net) (w : W) : Prop := net_ok (snd x) w.

Lemma transmit_then c sq ak fl data s w (k : net -> io W (Outcome * net)) :
  conn_ok c -> zlen data <= MAX_SEGMENT_PAYLOAD -> net_ok s w ->
  (forall st w', net_ok (set_stash st s) w' -> safely (k (set_stash st s)) w' stays) ->
  safely (s ← transmit polls nic_slot my_mac c sq ak fl data s; k s) w stays.
Proof.
  intros C D O F. safely_step (transmit_safe c sq ak fl data s w C D O). intros s' w' (O' & st & ->). by apply F.
Qed.

Lemma settle_then op v s w o : net_ok s w -> safely (s ← settle op v s; mret (o, s)) w stays.
Proof. intros O. safely_step (settle_safe op v s w O). intros s' w' (O' & _). done. Qed.

Lemma no_payload : zlen (@nil Z) <= MAX_SEGMENT_PAYLOAD.
Proof. done. Qed.

Lemma on_arp_pending_safe buf len c s w :
  zlen buf = NIC_MAX_FRAME -> net_ok s w -> conn s = Some c ->
  safely (on_arp_pending polls nic_slot my_mac buf len c s) w stays.
Proof.
  intros L O E. destruct (conn_of _ _ _ O E) as [C M]. apply safely_bind, safely_pure. unfold NIC_MAX_FRAME in L.
  eapply okay_mono; [apply parse_arp_reply_safe; lia|]. intros [mac|] Hm; [|done]. specialize (Hm mac eq_refl).
  assert (C' : conn_ok (Conn (peer_ip c) (peer_port c) mac SynSent (snd_nxt c) (rcv_nxt c) MAX_ATTEMPTS)).
  { destruct C. by split. }
  apply transmit_then; auto using no_payload with net. 
Qed.

Lemma on_syn_sent_safe seg c s w :
  net_ok s w -> conn s = Some c -> safely (on_syn_sent polls nic_slot my_mac seg c s) w stays.
Proof.
  intros O E. destruct (conn_of _ _ _ O E) as [C M]. unfold on_syn_sent. destruct (has _ _); [by apply settle_then|].
  destruct (_ && _); [|done]. set (c' := Conn _ _ _ _ _ _ _).
  assert (C' : conn_ok c') by (apply conn_ok_next; auto with net; apply C).
  apply transmit_then; auto using no_payload with net. intros st w' O'. by apply settle_then.
Qed.

Lemma absorb_safe seg c s w :
  net_ok s w -> conn s = Some c ->
  safely (absorb seg c s) w (fun '(b, r, _) w' => net_ok s w' /\ 0 <= b <= TCP_MAX_TRANSFER /\ is_u32 r /\ says w w' []).
Proof.
  intros O E. destruct (conn_of _ _ _ O E) as [C M]. pose proof (vo_buffered _ (no_vars _ _ O)) as B.
  unfold absorb. destruct (_ && _); [|apply safely_ret; split_and!; try apply B; [done|apply C|unfold says; by rewrite app_nil_r]].
  unfold TCP_MAX_TRANSFER in *. rewrite (wrap_small 32 (4096 - buffered_len s)) by lia.
  apply safely_bind, runs_safely, load_ok; [by apply O|lia|]. intros b Eb Lb. pose proof (zlen_nonneg (payload seg)).
  set (n := Z.min _ _). apply safely_bind, safely_pure. rewrite bslice_ok by lia. cbn [okay].
  assert (Ln : zlen (sub (payload seg) 0 n) = n) by (rewrite zlen_sub; lia).
  apply safely_bind, safely_pure. rewrite bcopy_ok by lia. cbn [okay].
  apply safely_bind, runs_safely, store_ok; [apply client_base|by apply O|rewrite zlen_put; lia|].
  intros b0 E0 L0 w' G _. apply safely_ret. split_and!; [by eapply net_ok_grows|lia|lia|apply wrap_u32|].
  unfold says, w'. by rewrite store_log_law, app_nil_r.
Qed.

Lemma on_established_safe seg c s w :
  net_ok s w -> conn s = Some c -> safely (on_established polls nic_slot my_mac seg c s) w stays.
Proof.
  intros O E. destruct (conn_of _ _ _ O E) as [C M]. unfold on_established. destruct (has _ _).
  { assert (K : forall v, safely (_ ← answer_client v s; mret s) w (fun s' w' => net_ok s' w')).
    { intros v. safely_step (answer_client_safe v s w). intros ? w' G. apply safely_ret. eauto with net. }
    apply safely_bind. eapply (safely_mono _ _ (fun s' w' => net_ok s' w')); [destruct (pending_op s); done || apply K|].
    intros s' w' O'. apply safely_ret. unfold stays. cbn. auto with net. }
  safely_step (absorb_safe seg c s w O E). intros [[b r] adv] w1 (O1 & B & R & _).
  set (fin := has _ _ && _). destruct (negb adv && negb fin); [done|].
  apply transmit_then; try done. intros st w2 O2. cbn beta zeta. set (c' := Conn _ _ _ _ _ _ _).
  assert (C' : conn_ok c').
  { apply conn_ok_next; try done; destruct fin; auto with net; try apply C; unfold MAX_ATTEMPTS; lia. }
  assert (O' : net_ok (set_buffered b (set_conn (Some c') (set_stash st s))) w2) by (apply set_buffered_ok; auto with net).
  case_bool_decide; [|done]. match goal with |- safely (_ ← answer_client ?v ?x; _) _ _ =>
    safely_step (answer_client_safe v x w2) end.
  intros ? w3 G3. apply safely_ret. unfold stays. cbn [snd]. apply set_pending_ok, set_buffered_ok; [|unfold TCP_MAX_TRANSFER; lia].
  by eapply net_ok_grows.
Qed.

Lemma peer_closes_safe seg c s w :
  net_ok s w -> conn s = Some c -> safely (peer_closes polls nic_slot my_mac seg c s) w stays.
Proof.
  intros O E. destruct (conn_of _ _ _ O E) as [C M]. unfold peer_closes. set (c' := Conn _ _ _ _ _ _ _).
  assert (C' : conn_ok c') by (apply conn_ok_next; auto with net; apply C).
  apply transmit_then; auto using no_payload with net. intros st w' O'. by apply settle_then.
Qed.

Lemma on_fin_wait1_safe seg c s w :
  net_ok s w -> conn s = Some c -> safely (on_fin_wait1 polls nic_slot my_mac seg c s) w stays.
Proof.
  intros O E. destruct (conn_of _ _ _ O E) as [C M]. unfold on_fin_wait1. destruct (has _ _); [by apply peer_closes_safe|].
  destruct (_ && _); [|done]. apply safely_ret, set_conn_ok; [done| |done]. apply conn_ok_next; try apply C; try done.
Qed.

Lemma advance_connection_safe buf len c s w :
  zlen buf = NIC_MAX_FRAME -> len <= NIC_MAX_FRAME -> net_ok s w -> conn s = Some c ->
  safely (advance_connection polls nic_slot my_mac buf len c s) w stays.
Proof.
  intros L Hl O E. unfold advance_connection. unfold NIC_MAX_FRAME in *.
  assert (K : forall f, (forall seg, safely (f seg : io W _) w stays) -> safely (o ← pure (parse_segment buf len (peer_ip c));
    match o with Some seg => if negb (dst_port seg =? LOCAL_PORT) || negb (src_port seg =? peer_port c) then mret (NotMine, s) else f seg
    | None => mret (NotMine, s) end) w stays).
  { intros f F. apply safely_bind, safely_pure. eapply okay_mono; [apply parse_segment_safe; lia|].
    intros [seg|] _; [|done]. by destruct (_ || _). }
  destruct (state c); [by apply on_arp_pending_safe|..]; apply K; intros seg.
  - by apply on_syn_sent_safe.
  - by apply on_established_safe.
  - unfold on_last_ack. destruct (_ && _); [by apply settle_then|done].
  - by apply on_fin_wait1_safe.
  - unfold on_fin_wait2. destruct (negb _); [done|by apply peer_closes_safe].
Qed.

Lemma handle_nic_frame_safe len s w :
  len <= NIC_MAX_FRAME -> net_ok s w -> safely (handle_nic_frame polls nic_slot my_mac len s) w net_ok.
Proof.
  intros Hl O. apply safely_bind, runs_safely, load_ok; [apply O|unfold NIC_MAX_FRAME; lia|]. intros b Eb Lb.
  apply safely_bind. eapply (safely_mono _ _ stays).
  { destruct (conn s) as [c|] eqn:E; [by apply advance_connection_safe|done]. }
  intros [[| |] s'] w' O'; unfold stays in O'; cbn in O'; [|done|by apply drop_conn_ok].
  apply safely_bind, safely_pure. eapply okay_mono; [apply handle_frame_safe; try done; by rewrite Lb|].
  intros [b' [n|]] [L _]; cbn [fst] in L;
    (apply safely_bind, runs_safely, store_ok; [apply nic_base|apply O'|rewrite L, Lb; done|]); intros b0 E0 L0 w1 G1 _.
  - safely_step (send_to_nic_safe (wrap32 n) (stash s') w1 (vo_stash _ (no_vars _ _ O'))). intros [ok st] w2 [G2 S2].
    apply safely_ret, (net_ok_vars s'); [eauto with net| |done]. apply set_stash_ok; [apply O'|done].
  - apply safely_ret. eauto with net.
Qed.

(** ** Client messages *)

Lemma answer_then v s s' w : net_ok s' w -> safely (_ ← answer_client v s; mret s') w net_ok.
Proof. intros O. safely_step (answer_client_safe v s w). intros ? w' G. apply safely_ret. eauto with net. Qed.

Lemma on_connect_safe r s w : net_ok s w -> message_ok r -> safely (on_connect polls nic_slot my_mac r s) w net_ok.
Proof.
  intros O (_ & M1 & M2). unfold on_connect. destruct (_ =? _); [done|]. destruct (_ || _) eqn:G; [by apply answer_then|].
  apply orb_false_elim in G as [_ Hc]. apply negb_false_iff in Hc. cbv zeta.
  set (ip := u32_to_le (w1 r)). set (c := Conn _ _ _ _ _ _ _).
  assert (C : conn_ok c).
  { split; cbn [c peer_ip peer_mac peer_port snd_nxt rcv_nxt attempts_left]; try done.
    - split; [done|]. apply Forall_lookup. intros i x Hx. pose proof (u32_to_le_u8 (w1 r) (Z.of_nat i)) as U.
      unfold byte_at in U. by rewrite Nat2Z.id, (nth_lookup_Some _ _ _ _ Hx) in U.
    - unfold is_u16, wrap. dlia. }
  apply safely_bind. eapply safely_mono; [apply send_frame_safe; [|exact O]|].
  - intros buf L. eapply okay_mono; [apply build_arp_request_safe; try done; by rewrite L|]. by intros [b n] [E _].
  - intros s' w' [(O' & st & ->) _]. apply safely_ret. auto with net.
Qed.

Lemma on_send_safe r s w : net_ok s w -> message_ok r -> safely (on_send polls nic_slot my_mac r s) w net_ok.
Proof.
  intros O (_ & M1 & _). unfold on_send. destruct (_ =? _); [done|]. destruct (conn s) as [c|] eqn:E; [|by apply answer_then].
  destruct (conn_of _ _ _ O E) as [C M]. destruct (_ && _); [|by apply answer_then]. cbv zeta.
  set (want := Z.min _ _). assert (Hw : 0 <= want <= MAX_SEGMENT_PAYLOAD).
  { unfold want, is_u32, WINDOW, TCP_MAX_TRANSFER in *. assert (0 <= MAX_SEGMENT_PAYLOAD) by done. lia. }
  assert (Hm : MAX_SEGMENT_PAYLOAD <= 1464) by done.
  apply safely_bind, runs_safely, load_ok; [by apply O|unfold TCP_MAX_TRANSFER; lia|]. intros b Eb Lb. unfold TCP_MAX_TRANSFER in Lb at 2.
  apply safely_bind, safely_pure. rewrite bslice_ok by lia. cbn [okay].
  apply safely_bind. eapply safely_mono; [apply transmit_safe; [exact C| |exact O]|].
  { rewrite zlen_sub; lia. }
  intros s' w' (O' & st & ->). apply answer_then. apply set_conn_ok; [done| |done]. apply conn_ok_next; auto with net; apply C.
Qed.

Lemma on_recv_safe s w : net_ok s w -> safely (on_recv s) w net_ok.
Proof.
  intros O. unfold on_recv. destruct (_ =? _); [done|]. destruct (_ || _).
  - apply answer_then, set_buffered_ok; [done|unfold TCP_MAX_TRANSFER; lia].
  - apply safely_ret. destruct (conn s) as [c|] eqn:E; cbn [fmap option_fmap option_map]; [|auto with net].
    destruct (conn_of _ _ _ O E) as [C M]. apply set_conn_ok; [auto with net| |done]. destruct C. by split.
Qed.

Lemma on_close_safe s w : net_ok s w -> safely (on_close polls nic_slot my_mac s) w net_ok.
Proof.
  intros O. unfold on_close. destruct (_ =? _); [done|]. destruct (conn s) as [c|] eqn:E; [|by apply answer_then].
  destruct (conn_of _ _ _ O E) as [C M]. destruct (bool_decide _); [|cbv zeta; apply answer_then; auto with net].
  apply safely_bind. eapply safely_mono; [apply transmit_safe; [exact C|apply no_payload|exact O]|].
  intros s' w' (O' & st & ->). apply safely_ret, set_pending_ok, set_conn_ok; [done| |done].
  apply conn_ok_next; auto with net; try apply C; try done.
Qed.

Lemma handle_client_message_safe r s w :
  net_ok s w -> message_ok r -> safely (handle_client_message polls nic_slot my_mac r s) w net_ok.
Proof.
  intros O M. unfold handle_client_message. repeat case_match; try done.
  - apply safely_bind. apply (call_one (SysArgs SYS_MAP_MEMORY (transferred_slot r) CLIENT_BUF_VIRT 0 0 0) (fun r => as_i32 (r_eax r))).
    intros a w' Ea G. apply safely_ret. destruct (as_i32 (r_eax a) =? 0) eqn:E0; [|eauto with net]. apply Z.eqb_eq in E0.
    destruct (net_ok_grows _ _ _ O G) as [[V1 V2 V3 V4] N C]. split; [|done|].
    { split; try done. cbn. intros c Ec. by destruct (V2 c Ec). }
    intros _. exact (map_law _ _ _ _ _ Ea E0).
  - apply safely_ret. destruct O as [[V1 V2 V3 V4] N C]. by split.
  - by apply on_connect_safe.
  - by apply on_send_safe.
  - by apply on_recv_safe.
  - by apply on_close_safe.
Qed.

(** ** The loop *)

Lemma next_client_message_safe st w : stash_ok st ->
  safely (next_client_message st) w (fun '(o, st') w' =>
    grows w w' /\ stash_ok st' /\ (forall r, o = Some r -> message_ok r)).
Proof.
  intros (q & Q & F). unfold next_client_message. apply safely_bind, safely_pure.
  destruct (pop_is _ _ Q) as (st' & -> & Q'). cbn [okay].
  assert (S' : stash_ok st') by (exists (tail q); split; [done|by destruct F]).
  destruct F as [|r q M F]; cbn [head]; [|apply safely_ret; split_and!; [apply grows_refl|done|by intros ? [= <-]]].
  apply safely_bind. unfold safely, try_recv, call, syscall_raw, mbind, prog_bind. cbn.
  destruct (answer _ w) as [[a w']|] eqn:E; [|done]. destruct (_ =? TRY_RECV_ERR); cbn; [by rewrite exit_law|].
  assert (G := grows_answer _ _ _ _ E). assert (M := message_regs _ _ _ _ E).
  destruct (_ =? NO_MESSAGE); cbn; [by split_and!|].
  destruct (_ =? NIC_TASK_ID); split_and!; try done. by intros ? [= <-].
Qed.

Lemma yields_safe n w : safely (yields n) w (fun _ w' => grows w w').
Proof.
  revert w. induction n as [|n IH]; intros w; [apply safely_ret, grows_refl|]. cbn [yields].
  apply safely_bind. eapply safely_mono; [apply call_safe; repeat constructor|]. intros ? w1 G1.
  eapply safely_mono; [apply IH|]. intros ? w2 G2. exact (grows_trans _ _ _ G1 G2).
Qed.

Lemma poll_safe s w : net_ok s w -> safely (poll polls nic_slot my_mac s) w net_ok.
Proof.
  intros O. unfold poll. safely_step (request_safe nic_slot NIC_OP_TRY_RECV 0 w ltac:(done)). intros ? w1 [G1 Rq].
  safely_step (recv_from_nic_safe polls (stash s) w1 (vo_stash _ (no_vars _ _ O)) Rq). intros [r st] w2 (G2 & S2 & _ & L).
  assert (O2 : net_ok (set_stash st s) w2).
  { apply (net_ok_vars s); [eauto using grows_trans with net|apply set_stash_ok; [apply O|done]|done]. }
  destruct (0 <? w0 r); [apply handle_nic_frame_safe; [lia|]; apply set_idle_ok; [done|unfold MAX_IDLE_YIELDS; lia]|].
  safely_step (next_client_message_safe st w2 S2). intros [o st'] w3 (G3 & S3 & M). cbv zeta.
  assert (O3 : net_ok (set_stash st' (set_stash st s)) w3).
  { apply (net_ok_vars (set_stash st s)); [eauto with net|apply set_stash_ok; [apply O2|done]|done]. }
  destruct o as [m|].
  - apply handle_client_message_safe; [apply set_idle_ok; [done|unfold MAX_IDLE_YIELDS; lia]|auto].
  - match goal with |- safely (_ ← yields ?n; _) _ _ => safely_step (yields_safe n w3) end. intros ? w4 G4. apply safely_ret.
    pose proof (vo_idle _ (no_vars _ _ O3)). apply set_idle_ok; [eauto with net|]. unfold MAX_IDLE_YIELDS in *.
    rewrite wrap_small by lia. lia.
Qed.

Lemma fail_pending_op_safe s w : net_ok s w -> safely (fail_pending_op s) w net_ok.
Proof.
  intros O. assert (O' : net_ok (set_conn None (set_buffered 0 (set_pending NoOp s))) w).
  { apply drop_conn_ok, set_buffered_ok; [auto with net|unfold TCP_MAX_TRANSFER; lia]. }
  unfold fail_pending_op. destruct (pending_op s); try done; by apply answer_then.
Qed.

Lemma turn_safe s w : net_ok s w -> safely (turn polls nic_slot my_mac s) w net_ok.
Proof.
  intros O. unfold turn. destruct (pending_op s); [by apply poll_safe|..];
    (destruct (conn s) as [c|] eqn:E; [|by apply poll_safe]);
    (destruct (conn_of _ _ _ O E) as [C M]; destruct (_ =? 0) eqn:A; [by apply fail_pending_op_safe|]; bool_simp;
     apply poll_safe, set_conn_ok; [done| |done]; pose proof (co_attempts _ C); apply conn_ok_next; try apply C; lia).
Qed.

Lemma turns_safe n s w : net_ok s w -> safely (turns polls nic_slot my_mac n s) w net_ok.
Proof.
  revert s w. induction n as [|n IH]; intros s w O; [done|]. cbn [turns].
  safely_step (turn_safe s w O). auto.
Qed.
End safety.

Section start.
Context {W : Type} {MW : Machine W} {ML : MachineLaws W} {NL : NicLaws W}.

Lemma lookup_name_retry_safe name slot n : safe (lookup_name_retry name slot n).
Proof.
  induction n as [|n IH]; cbn; [constructor|]. destruct (pack_name name). constructor. intros r0. constructor. intros r.
  cbn. destruct (r_ebx r =? 1); constructor. intros ?. exact IH.
Qed.

Lemma netstack_start_safe (w : W) :
  safely netstack_start w (fun '(_, my_mac, s) w' => is_mac my_mac /\ net_ok s w').
Proof.
  unfold netstack_start. safely_step (call_safe _ w (lookup_name_retry_safe [110; 101; 116] MY_INBOX 1000)).
  intros [slot|] w1 G1; [|apply exit_safe].
  apply safely_bind, (call_one (SysArgs SYS_MEM_ALLOC NIC_BUF_VIRT 1 0 0 0) r_eax). intros a w2 Ea G2.
  destruct (r_eax a =? 0) eqn:E0; [apply exit_safe|]. apply Z.eqb_neq in E0.
  pose proof (alloc_law _ _ _ _ _ Ea ltac:(lia) E0) as M. 
  apply safely_bind. eapply safely_mono; [apply call_safe; repeat constructor|]. intros ? w3 G3.
  apply safely_bind. eapply (safely_mono _ _ (fun mac w' => is_mac mac /\ grows w3 w')).
  { unfold safely, nic_get_mac, call, send, recv, syscall_raw, mbind, prog_bind. cbn.
    destruct (answer _ w3) as [[r1 w4]|] eqn:E1; [|done]. destruct (answer _ w4) as [[r2 w5]|] eqn:E2; [|done].
    split; [done|]. eapply grows_trans; by eapply grows_answer. }
  intros mac w4 [Hm G4]. apply safely_bind. eapply safely_mono; [apply call_safe; repeat constructor|]. intros ? w5 G5.
  apply safely_ret. split; [done|]. split; [|apply G5, G4, G3, M; done|done].
  split; try done.
  exists []. split; [|constructor]. split_and!; try done. cbn. lia.
Qed.
End start.

(** C8: the network service never crashes.  On a machine whose network driver reports no
    frame longer than [NIC_MAX_FRAME], from its start and through any number of rounds of
    its loop, whatever frames arrive (their contents are unconstrained), whatever
    messages any task sends, in whatever order they are interleaved with the driver's
    replies, the service takes no slice out of range and touches no memory that is not
    mapped; and its variables keep the invariant [net_ok]. *)
Theorem netstack_never_crashes {W} {MW : Machine W} {ML : MachineLaws W} {NL : NicLaws W} polls n (w : W) :
  safely ('(nic_slot, my_mac, s) ← netstack_start; turns polls nic_slot my_mac n s) w net_ok.
Proof.
  safely_step (netstack_start_safe w). intros [[slot mac] s] w' [Hm O]. by apply turns_safe.
Qed.
