(* ===== verification/NetLive.v ===== *)
(** * The network service answers

    With a driver that replies to every request, a round of the service's loop ends; and a
    client that waits for the answer to its request gets exactly one, within a number of
    rounds that only depends on the state of the connection. *)

From stdpp Require Import base list numbers.
From Stdlib Require Import Lia.
From S2P Require Import Prelude Libpcern Pio Proto Tcp Machine Netstack NetSafe.
Open Scope Z_scope.

(** One of the next [n] messages on the inbox is the driver's. *)
Fixpoint within {W} `{Machine W} (n : nat) (w : W) : Prop :=
  match n with
  | O => False
  | S n =>
      match answer (SysArgs SYS_RECV MY_INBOX 0 0 0 0) w with
      | Some (r, w') => r_eax r = NIC_TASK_ID \/ within n w'
      | None => False
      end
  end.

(** The machine the service expects: calls other than [recv] return, the inbox is the task's own, and the
    driver replies to [NIC_OP_SEND] and [NIC_OP_TRY_RECV], after at most [polls] messages
    of other tasks. *)
Class Responsive (W : Type) `{Machine W} (polls : nat) (nic_slot : Z) := {
  returns_law c (w : W) : num c <> SYS_EXIT -> num c <> SYS_RECV -> answer c w <> None;
  inbox_law (w : W) r w' : answer (SysArgs SYS_TRY_RECV MY_INBOX 0 0 0 0) w = Some (r, w') -> r_eax r <> TRY_RECV_ERR;
  replies_law op x (w : W) r w' : op = NIC_OP_SEND \/ op = NIC_OP_TRY_RECV ->
    answer (SysArgs SYS_SEND nic_slot op x 0 0) w = Some (r, w') -> within polls w'
}.

Section live.
Context {W : Type} {MW : Machine W} (polls : nat) (nic_slot : Z) (my_mac : list Z) {RL : Responsive W polls nic_slot}.

Lemma total_call1 {A} n a b c d e (f : raw_result -> A) : n <> SYS_EXIT -> n <> SYS_RECV ->
  total (call (r ← syscall_raw n a b c d e; mret (f r)) : io W _).
Proof.
  intros N N' w. cbn. pose proof (returns_law (SysArgs n a b c d e) w N N'). by destruct (answer _ w) as [[]|].
Qed.

Lemma total_send a b c d e : total (call (send a b c d e) : io W _).
Proof. by apply total_call1. Qed.

(** A request to the driver, and the wait for its reply. *)
Lemma total_request {A} op x st (k : Z -> recv_result * Stash -> io W A) :
  op = NIC_OP_SEND \/ op = NIC_OP_TRY_RECV -> (forall e y, total (k e y)) ->
  total (e ← call (send nic_slot op x 0 0); y ← recv_from_nic polls st; k e y).
Proof.
  intros Ho K w. unfold mbind at 1, io_bind at 1. cbn -[recv_from_nic].
  pose proof (returns_law (SysArgs SYS_SEND nic_slot op x 0 0) w ltac:(done) ltac:(done)) as R.
  destruct (answer _ w) as [[r w']|] eqn:E; [|done]. pose proof (replies_law op x w r w' Ho E) as Wi.
  assert (L : forall n st w', within n w' -> recv_from_nic n st w' <> Loops).
  { clear. induction n as [|n IH]; intros st w Wi; [done|]. cbn in Wi |- *. unfold mbind, io_bind. cbn.
    destruct (answer _ w) as [[r w']|]; [|done]. unfold mret, io_ret. cbn.
    destruct (r_eax r =? NIC_TASK_ID) eqn:E; [done|].
    apply Z.eqb_neq in E. destruct Wi as [?|Wi]; [done|]. by apply IH. }
  specialize (L polls st w' Wi). unfold mbind, io_bind, mret, io_ret. destruct (recv_from_nic polls st w'); try done. apply K.
Qed.

Hint Resolve total_send total_call1 : total.

Lemma total_send_to_nic len st : total (send_to_nic polls nic_slot len st : io W _).
Proof. apply (total_request NIC_OP_SEND len st (fun _ '(r, st) => mret (w0 r =? 1, st))); [by left|]. by intros ? []. Qed.

Lemma total_answer v s : total (answer_client v s : io W _).
Proof. apply total_bind; auto with total. Qed.

Lemma total_try_recv : total (call (try_recv MY_INBOX) : io W _).
Proof.
  intros w. cbn. pose proof (returns_law (SysArgs SYS_TRY_RECV MY_INBOX 0 0 0 0) w ltac:(done) ltac:(done)).
  destruct (answer _ w) as [[r w']|] eqn:E; [|done]. apply inbox_law in E. rewrite (proj2 (Z.eqb_neq _ _) E).
  by destruct (_ =? _).
Qed.

Lemma total_yields n : total (yields n : io W _).
Proof. induction n as [|n IH]; [done|]. cbn [yields]. apply total_bind; [|done]. by apply (total_call1 SYS_YIELD 0 0 0 0 0 (fun _ => tt)). Qed.

Hint Resolve total_send_to_nic total_answer total_try_recv total_yields : total.

Lemma total_send_frame f s : total (send_frame polls nic_slot f s : io W _).
Proof. unfold send_frame. repeat total_step. Qed.

Lemma total_transmit c sq ak fl data s : total (transmit polls nic_slot my_mac c sq ak fl data s : io W _).
Proof. apply total_send_frame. Qed.

Lemma total_settle op v s : total (settle op v s : io W _).
Proof. unfold settle. repeat total_step. Qed.

Hint Resolve total_send_frame total_transmit total_settle : total.

Lemma total_peer_closes seg c s : total (peer_closes polls nic_slot my_mac seg c s : io W _).
Proof. unfold peer_closes. repeat total_step. Qed.

Lemma total_established seg c s : total (on_established polls nic_slot my_mac seg c s : io W _).
Proof. unfold on_established, absorb. repeat total_step. Qed.

Hint Resolve total_peer_closes total_established : total.

Lemma total_advance buf len c s : total (advance_connection polls nic_slot my_mac buf len c s : io W _).
Proof.
  unfold advance_connection, on_arp_pending, on_syn_sent, on_last_ack, on_fin_wait1, on_fin_wait2.
  destruct (state c); repeat total_step.
Qed.

Hint Resolve total_advance : total.

Lemma total_frame len s : total (handle_nic_frame polls nic_slot my_mac len s : io W _).
Proof. unfold handle_nic_frame. repeat total_step. Qed.

Lemma total_message r s : total (handle_client_message polls nic_slot my_mac r s : io W _).
Proof.
  unfold handle_client_message, on_connect, on_send, on_recv, on_close. cbv zeta. repeat total_step.
  by apply (total_call1 SYS_MAP_MEMORY).
Qed.

Lemma total_turn s : total (turn polls nic_slot my_mac s : io W _).
Proof.
  assert (P : forall s, total (poll polls nic_slot my_mac s : io W _)).
  { intros s0. unfold poll. apply total_request; [by right|]. intros _ [r st]. cbv zeta. destruct (0 <? _); [apply total_frame|].
    unfold next_client_message. repeat total_step; apply total_message. }
  unfold turn, fail_pending_op. repeat total_step; try apply P.
Qed.

Lemma total_turns n s : total (turns polls nic_slot my_mac n s : io W _).
Proof. revert s. induction n as [|n IH]; intros s; [done|]. cbn [turns]. apply total_bind; [apply total_turn|done]. Qed.
End live.

(** ** Answers *)

(** No task but the driver sends to the service: its client waits. *)
Class Waiting (W : Type) `{Machine W} := {
  silent_law (w : W) r w' : answer (SysArgs SYS_RECV MY_INBOX 0 0 0 0) w = Some (r, w') -> r_eax r = NIC_TASK_ID;
  silent_try_law (w : W) r w' : answer (SysArgs SYS_TRY_RECV MY_INBOX 0 0 0 0) w = Some (r, w') ->
    r_eax r = NO_MESSAGE \/ r_eax r = NIC_TASK_ID
}.

(** The operation that is pending for a client that has one request at a time, and the
    state of its connection. *)
Definition abiding (s : net) : Prop :=
  match pending_op s, conn s with
  | NoOp, None => True
  | NoOp, Some c => state c = Established \/ state c = LastAck
  | Connect, Some c => state c = ArpPending \/ state c = SynSent
  | Recv, Some c => state c = Established
  | Close, Some c => state c = FinWait1 \/ state c = FinWait2
  | _, None => False
  end.

(** The rounds the service still waits for the network, for the pending operation. *)
Definition patience (s : net) : Z :=
  match pending_op s, conn s with
  | NoOp, _ | _, None => 0
  | _, Some c =>
      (match state c with ArpPending => 1 | FinWait1 => 1 | _ => 0 end) * (MAX_ATTEMPTS + 1) + attempts_left c + 1
  end.

Section answers.
Context {W : Type} {MW : Machine W} {ML : MachineLaws W} {NL : NicLaws W} {WL : Waiting W}.
Context (polls : nat) (nic_slot : Z) (my_mac : list Z) (Hmac : is_mac my_mac).
Context (cr : Z) (Hcr : cr <> nic_slot).
Implicit Types (w : W) (s : net).

(** From [w] to [w'] the client is sent [vs]. *)
Definition heard (w w' : W) (vs : list Z) : Prop := exists l, says w w' l /\ answers cr l = vs.

Lemma heard_nil w : heard w w [].
Proof. exists []. split; [unfold says; by rewrite app_nil_r|done]. Qed.

Lemma heard_app w1 w2 w3 a b : heard w1 w2 a -> heard w2 w3 b -> heard w1 w3 (a ++ b).
Proof.
  intros (l & S & <-) (l' & S' & <-). exists (l ++ l'). split; [unfold says in *; by rewrite S', S, app_assoc|].
  unfold answers. by rewrite omap_app.
Qed.

Lemma heard_answer c w r w' : answer c w = Some (r, w') -> (num c = SYS_SEND -> a1 c <> cr) -> heard w w' [].
Proof.
  intros E N. eexists. split; [exact (log_law _ _ _ _ E)|]. unfold answers. cbn.
  destruct (num c =? SYS_SEND) eqn:E1; [|done]. destruct (a1 c =? cr) eqn:E2; [|done].
  apply Z.eqb_eq in E1, E2. by destruct (N E1).
Qed.

Lemma recv_from_nic_heard n st w :
  safely (recv_from_nic n st) w (fun '(r, st') w' => heard w w' [] /\ st' = st).
Proof.
  destruct n as [|n]; [done|]. cbn [recv_from_nic]. apply safely_bind, recv_safe. intros r w' E G.
  pose proof (silent_law _ _ _ E) as Es. cbn. rewrite (proj2 (Z.eqb_eq _ _) Es). apply safely_ret. split; [|done].
  by apply (heard_answer _ _ _ _ E).
Qed.

Lemma nic_send_heard v x w : safely (call (send nic_slot v x 0 0)) w (fun _ w' => heard w w' []).
Proof.
  apply (call_one (SysArgs SYS_SEND nic_slot v x 0 0)). intros r w' E _. apply (heard_answer _ _ _ _ E). cbn. congruence.
Qed.

Lemma answer_client_heard v s w : client_reply s = cr -> safely (answer_client v s) w (fun _ w' => heard w w' [v]).
Proof.
  intros R. unfold answer_client. rewrite R. apply safely_bind, (call_one (SysArgs SYS_SEND cr v 0 0 0)). intros r w' E _.
  apply safely_ret. eexists. split; [exact (log_law _ _ _ _ E)|]. unfold answers. cbn. by rewrite Z.eqb_refl.
Qed.

Lemma send_to_nic_heard len st w :
  safely (send_to_nic polls nic_slot len st) w (fun '(_, st') w' => heard w w' [] /\ st' = st).
Proof.
  unfold send_to_nic. safely_step (nic_send_heard NIC_OP_SEND len w). intros ? w1 H1.
  safely_step (recv_from_nic_heard polls st w1). intros [r st'] w2 [H2 ->]. apply safely_ret. split; [|done].
  exact (heard_app _ _ _ _ _ H1 H2).
Qed.

Lemma set_stash_same s : set_stash (stash s) s = s.
Proof. by destruct s. Qed.

Lemma send_frame_heard f s w :
  (forall buf, zlen buf = NIC_MAX_FRAME -> okay (f buf) (fun x => zlen (fst x) = zlen buf)) -> net_ok s w ->
  safely (send_frame polls nic_slot f s) w (fun s' w' => heard w w' [] /\ s' = s).
Proof.
  intros F O. pose proof (no_nic _ _ O) as M. apply safely_bind, runs_safely, load_ok; [done|unfold NIC_MAX_FRAME; lia|].
  intros b Eb Lb. apply safely_bind, safely_pure. eapply okay_mono; [by apply F|]. intros [b' n] L. cbn in L.
  apply safely_bind, runs_safely, store_ok; [apply nic_base|done|unfold NIC_MAX_FRAME in *; lia|].
  intros b0 E0 L0 w1 G1 _. safely_step (send_to_nic_heard (wrap32 n) (stash s) w1). intros [ok st] w2 [H2 ->].
  apply safely_ret. split; [|apply set_stash_same]. destruct H2 as (l & S & A). exists l. split; [|done].
  unfold says, w1 in *. by rewrite store_log_law in S.
Qed.

Lemma transmit_heard c sq ak fl data s w :
  conn_ok c -> zlen data <= MAX_SEGMENT_PAYLOAD -> net_ok s w ->
  safely (transmit polls nic_slot my_mac c sq ak fl data s) w (fun s' w' => heard w w' [] /\ s' = s).
Proof. intros C Hd O. apply send_frame_heard; [|done]. intros buf. by apply segment_fits. Qed.

(** ** One round *)

(** The client still waits, and for less; or it has its answer. *)
Definition progress (s : net) (w : W) (s' : net) (w' : W) : Prop :=
  abiding s' /\ stash s' = stash s /\ client_reply s' = client_reply s /\
  ((pending_op s' = pending_op s /\ patience s' <= patience s /\ heard w w' []) \/
   (pending_op s <> NoOp /\ pending_op s' = NoOp /\ exists v, heard w w' [v])).

Definition after (x : Outcome * net) : net := match fst x with Done => set_conn None (snd x) | _ => snd x end.

Definition progress_to (s : net) (w : W) (x : Outcome * net) (w' : W) : Prop := progress s w (after x) w'.

Lemma progress_same s w w' : abiding s -> heard w w' [] -> progress s w s w'.
Proof. intros A H. split_and!; try done. left. split_and!; try done. Qed.

(** A pending operation that is answered. *)
Lemma settle_heard op v s w (Q : net -> W -> Prop) :
  client_reply s = cr -> pending_op s = op -> (forall w', heard w w' [v] -> Q (set_pending NoOp s) w') ->
  safely (settle op v s) w Q.
Proof.
  intros R P F. unfold settle. rewrite bool_decide_eq_true_2 by done. safely_step (answer_client_heard v s w R).
  intros ? w' H. by apply safely_ret, F.
Qed.

(** The service at the head of a round, with a client that waits. *)
Record ready (s : net) (w : W) : Prop := {
  rd_ok : net_ok s w; rd_abiding : abiding s; rd_reply : client_reply s = cr
}.

Lemma on_arp_pending_progress buf len c s w :
  zlen buf = NIC_MAX_FRAME -> ready s w -> conn s = Some c -> state c = ArpPending ->
  safely (on_arp_pending polls nic_slot my_mac buf len c s) w (progress_to s w).
Proof.
  intros L [O A R] E Es. destruct (conn_of _ _ _ O E) as [C M]. apply safely_bind, safely_pure. unfold NIC_MAX_FRAME in L.
  eapply okay_mono; [apply parse_arp_reply_safe; lia|]. intros [mac|] Hm; [|by apply progress_same, heard_nil]. specialize (Hm mac eq_refl).
  cbv zeta. set (c' := Conn _ _ _ _ _ _ _). assert (C' : conn_ok c') by (destruct C; by split).
  safely_step (transmit_heard c' (snd_nxt c') 0 FLAG_SYN [] (set_conn (Some c') s) w C' no_payload (set_conn_ok _ _ _ O C' M)).
  intros ? w' [H ->]. apply safely_ret. unfold abiding in A. rewrite E, Es in A. pose proof (co_attempts _ C).
  split_and!; try done.
  - unfold after, abiding. cbn. destruct (pending_op s); try done; destruct A; try done. by right.
  - left. split_and!; try done. unfold after, patience. cbn. rewrite E, Es. destruct (pending_op s); lia.
Qed.

(** What [Connect] and [Close] wait for has come. *)
Lemma settle_progress op v s s' w o :
  ready s w -> op <> NoOp -> pending_op s = op -> pending_op s' = op -> client_reply s' = client_reply s -> stash s' = stash s ->
  abiding (after (o, set_pending NoOp s')) ->
  safely (s ← settle op v s'; mret (o, s)) w (progress_to s w).
Proof.
  intros [O A R] N P P' Rs Ss Ab. apply safely_bind, settle_heard; [congruence|done|]. intros w' H. apply safely_ret.
  split_and!; [done|destruct o; cbn; congruence..|].
  right. split_and!; [congruence|by destruct o|by exists v].
Qed.

Lemma heard_progress s w w1 x w2 : heard w w1 [] -> progress_to s w1 x w2 -> progress_to s w x w2.
Proof.
  intros H (A & S & R & P). split_and!; try done. destruct P as [(P1 & P2 & P3)|(P1 & P2 & v & P3)]; [left|right].
  - split_and!; try done. exact (heard_app _ _ _ _ _ H P3).
  - split_and!; try done. exists v. exact (heard_app _ _ _ _ _ H P3).
Qed.

Lemma ready_heard s w w' : ready s w -> grows w w' -> ready s w'.
Proof. intros [O A R] G. split; try done. by eapply net_ok_grows. Qed.

(** A segment is sent, then the rest happens. *)
Lemma transmit_progress c sq ak fl s s' w (k : net -> io W (Outcome * net)) :
  conn_ok c -> net_ok s' w -> ready s w ->
  (forall w', ready s w' -> net_ok s' w' -> safely (k s') w' (progress_to s w')) ->
  safely (s ← transmit polls nic_slot my_mac c sq ak fl [] s'; k s) w (progress_to s w).
Proof.
  intros C O' Rd F. safely_step (safely_and _ _ _ _ (transmit_heard c sq ak fl [] s' w C no_payload O')
    (send_frame_safe polls nic_slot _ _ _ (fun buf => segment_fits my_mac Hmac c sq ak fl [] buf C no_payload) O')).
  intros ? w' [[H ->] [_ G]]. eapply safely_mono; [apply F|].
  - by eapply ready_heard.
  - by eapply net_ok_grows.
  - intros x w2. by apply heard_progress.
Qed.

Lemma on_syn_sent_progress seg c s w :
  ready s w -> conn s = Some c -> state c = SynSent -> safely (on_syn_sent polls nic_slot my_mac seg c s) w (progress_to s w).
Proof.
  intros Rd E Es. pose proof Rd as [O A R]. destruct (conn_of _ _ _ O E) as [C M]. pose proof A as P.
  unfold abiding in P. rewrite E, Es in P. assert (Pc : pending_op s = Connect) by (destruct (pending_op s); try done; by destruct P).
  unfold on_syn_sent. destruct (has _ _); [by apply (settle_progress Connect)|].
  destruct (_ && _); [|by apply progress_same, heard_nil]. cbv zeta. set (c' := Conn _ _ _ _ _ _ _).
  assert (C' : conn_ok c') by (apply conn_ok_next; auto using wrap_u32; apply C).
  apply transmit_progress; try done; [by apply set_conn_ok|]. intros w' Rd' O'. apply (settle_progress Connect); try done. by left.
Qed.

Lemma on_established_progress seg c s w :
  ready s w -> conn s = Some c -> state c = Established -> safely (on_established polls nic_slot my_mac seg c s) w (progress_to s w).
Proof.
  intros Rd E Es. pose proof Rd as [O A R]. destruct (conn_of _ _ _ O E) as [C M]. pose proof A as P.
  unfold abiding in P. rewrite E, Es in P.
  assert (Pc : pending_op s = NoOp \/ pending_op s = Recv) by (destruct (pending_op s); auto; by destruct P).
  unfold on_established. destruct (has FLAG_RST seg).
  { apply safely_bind. destruct Pc as [Pc|Pc]; rewrite Pc.
    - apply safely_ret, safely_ret. split_and!; try done. left. split_and!; [done| |apply heard_nil]. unfold patience. by rewrite Pc.
    - safely_step (answer_client_heard 0 s w R). intros ? w' H. do 2 apply safely_ret. split_and!; try done.
      right. split_and!; [congruence|done|eauto]. }
  safely_step (absorb_safe seg c s w O E). intros [[b r] adv] w1 (O1 & B & Ur & S1).
  set (fin := has FLAG_FIN seg && _). assert (H1 : heard w w1 []) by (exists []; split; [done|done]).
  destruct (negb adv && negb fin); [by apply progress_same|].
  eapply safely_mono; [|intros x w2; by apply (heard_progress s w w1)].
  apply transmit_progress; try done. intros w2 Rd2 O2. cbv zeta. set (c' := Conn _ _ _ _ _ _ _).
  destruct Pc as [Pc|Pc].
  - rewrite bool_decide_eq_false_2 by (cbn; congruence). apply safely_ret.
    split_and!; try done; [unfold abiding; cbn; rewrite Pc; destruct fin; auto|]. left. split_and!; [done| |apply heard_nil].
    unfold patience. cbn. by rewrite Pc.
  - rewrite bool_decide_eq_true_2 by done. match goal with |- safely (_ ← answer_client ?v ?x; _) _ _ =>
      safely_step (answer_client_heard v x w2 R) end.
    intros ? w3 H3. apply safely_ret. split_and!; try done; [unfold abiding; cbn; destruct fin; auto|].
    right. split_and!; [congruence|done|eauto].
Qed.

Lemma peer_closes_progress seg c s w :
  ready s w -> conn s = Some c -> pending_op s = Close -> safely (peer_closes polls nic_slot my_mac seg c s) w (progress_to s w).
Proof.
  intros Rd E P. pose proof Rd as [O A R]. destruct (conn_of _ _ _ O E) as [C M]. unfold peer_closes. cbv zeta. set (c' := Conn _ _ _ _ _ _ _).
  assert (C' : conn_ok c') by (apply conn_ok_next; auto using wrap_u32; apply C).
  apply transmit_progress; try done; [by apply set_conn_ok|]. intros w' Rd' O'. by apply (settle_progress Close).
Qed.

Lemma advance_connection_progress buf len c s w :
  zlen buf = NIC_MAX_FRAME -> len <= NIC_MAX_FRAME -> ready s w -> conn s = Some c ->
  safely (advance_connection polls nic_slot my_mac buf len c s) w (progress_to s w).
Proof.
  intros L Hl Rd E. pose proof Rd as [O A R]. destruct (conn_of _ _ _ O E) as [C M]. unfold advance_connection.
  assert (Same : forall o, o <> Done -> progress_to s w (o, s) w) by (intros []; try done; intros _; apply progress_same, heard_nil; done).
  assert (K : forall f, (forall seg, safely (f seg : io W _) w (progress_to s w)) -> safely (o ← pure (parse_segment buf len (peer_ip c));
    match o with Some seg => if negb (dst_port seg =? LOCAL_PORT) || negb (src_port seg =? peer_port c) then mret (NotMine, s) else f seg
    | None => mret (NotMine, s) end) w (progress_to s w)).
  { intros f F. apply safely_bind, safely_pure. unfold NIC_MAX_FRAME in *. eapply okay_mono; [apply parse_segment_safe; lia|].
    intros [seg|] _; [|by apply Same]. destruct (_ || _); [by apply Same|apply F]. }
  pose proof A as P. unfold abiding in P. rewrite E in P. pose proof (co_attempts _ C).
  assert (Pc : state c = FinWait1 \/ state c = FinWait2 -> pending_op s = Close).
  { intros Hs. destruct (pending_op s); destruct Hs as [Hs|Hs]; rewrite Hs in P; try done; by destruct P. }
  destruct (state c) eqn:Es; [by apply on_arp_pending_progress|..]; apply K; intros seg.
  - by apply on_syn_sent_progress.
  - by apply on_established_progress.
  - assert (Pl : pending_op s = NoOp) by (destruct (pending_op s); try done; by destruct P).
    unfold on_last_ack. destruct (_ && _); [|by apply Same]. unfold settle. rewrite bool_decide_eq_false_2 by congruence.
    do 2 apply safely_ret. unfold progress_to, progress, after, abiding, patience. cbn. rewrite Pl. split_and!; try done.
    left. split_and!; try done. apply heard_nil.
  - unfold on_fin_wait1. destruct (has _ _); [apply peer_closes_progress; auto|]. destruct (_ && _); [|by apply Same].
    apply safely_ret. unfold progress_to, progress, after, abiding, patience. cbn. rewrite E, Es, Pc by auto. cbn.
    split_and!; auto. left. split_and!; [done|unfold MAX_ATTEMPTS in *; lia|apply heard_nil].
  - unfold on_fin_wait2. destruct (negb _); [by apply Same|]. apply peer_closes_progress; auto.
Qed.

Lemma store_heard b w (Q : unit -> W -> Prop) :
  zlen b <= 4096 -> mapped NIC_BUF_VIRT w -> (forall w', heard w w' [] -> grows w w' -> Q tt w') -> safely (store NIC_BUF_VIRT b) w Q.
Proof.
  intros L M F. apply runs_safely, store_ok; [apply nic_base|done|done|]. intros b0 E0 L0 w' G _. apply F; [|done].
  exists []. split; [|done]. unfold says, w'. by rewrite store_log_law, app_nil_r.
Qed.

Lemma progress_heard s w s' w1 w2 : progress s w s' w1 -> heard w1 w2 [] -> progress s w s' w2.
Proof.
  intros (A & S & R & P) H. split_and!; try done. destruct P as [(P1 & P2 & P3)|(P1 & P2 & v & P3)]; [left|right].
  - split_and!; try done. exact (heard_app _ _ _ _ _ P3 H).
  - split_and!; try done. exists v. exact (heard_app _ _ _ _ _ P3 H).
Qed.

Lemma handle_nic_frame_progress len s w :
  len <= NIC_MAX_FRAME -> ready s w -> safely (handle_nic_frame polls nic_slot my_mac len s) w (progress s w).
Proof.
  intros Hl Rd. pose proof Rd as [O A R]. apply safely_bind, runs_safely, load_ok; [apply O|unfold NIC_MAX_FRAME; lia|]. intros b Eb Lb.
  apply safely_bind. eapply (safely_mono _ _ (fun x w' => progress_to s w x w' /\ stays x w')).
  { apply safely_and; (destruct (conn s) as [c|] eqn:E; [|by try apply progress_same, heard_nil]);
      [by apply advance_connection_progress|by apply advance_connection_safe]. }
  intros [[| |] s'] w' [Pr O']; unfold stays in O'; cbn in Pr, O'; [|done|done].
  apply safely_bind, safely_pure. eapply okay_mono; [apply handle_frame_safe; try done; by rewrite Lb|].
  intros [b' rep] [L _]; cbn [fst] in L. apply safely_bind, store_heard; [by rewrite L, Lb|apply O'|]. intros w1 H1 G1.
  destruct rep as [n|]; [|by eapply progress_heard].
  safely_step (send_to_nic_heard (wrap32 n) (stash s') w1). intros [ok st] w2 [H2 ->]. apply safely_ret.
  rewrite set_stash_same. eapply progress_heard; [exact Pr|]. exact (heard_app _ _ _ _ _ H1 H2).
Qed.

Lemma yields_heard n w : safely (yields n) w (fun _ w' => heard w w' []).
Proof.
  revert w. induction n as [|n IH]; intros w; [apply heard_nil|]. cbn [yields]. apply safely_bind.
  apply (call_one (SysArgs SYS_YIELD 0 0 0 0 0) (fun _ => tt)). intros a w1 Ea _.
  assert (H1 : heard w w1 []) by (by apply (heard_answer _ _ _ _ Ea)).
  eapply safely_mono; [apply IH|]. intros ? w2 H2. exact (heard_app _ _ _ _ _ H1 H2).
Qed.

(** With an empty queue and no message, the client is not served. *)
Lemma next_client_message_heard st w : stash_is st [] ->
  safely (next_client_message st) w (fun '(o, st') w' => heard w w' [] /\ o = None /\ st' = st).
Proof.
  intros Q. unfold next_client_message. destruct st as [l n]. destruct Q as (El & En & _). cbn in El, En. subst l n.
  apply safely_bind. cbn [pop_front]. apply safely_pure. cbn [okay].
  apply safely_bind. unfold safely, try_recv, call, syscall_raw, mbind, prog_bind. cbn.
  destruct (answer _ w) as [[a w']|] eqn:E; [|done]. destruct (_ =? TRY_RECV_ERR); cbn; [by rewrite exit_law|].
  assert (H : heard w w' []) by (by apply (heard_answer _ _ _ _ E)). destruct (silent_try_law _ _ _ E) as [Es|Es]; rewrite Es.
  - rewrite Z.eqb_refl. by split_and!.
  - change (NIC_TASK_ID =? NO_MESSAGE) with false. cbn. rewrite Es. by split_and!.
Qed.

Lemma progress_idle s w n s' w' : progress (set_idle n s) w s' w' -> progress s w s' w'.
Proof. done. Qed.

Lemma poll_progress s w :
  ready s w -> stash_is (stash s) [] -> safely (poll polls nic_slot my_mac s) w (progress s w).
Proof.
  intros Rd Q. pose proof Rd as [O A R]. unfold poll.
  safely_step (safely_and _ _ _ _ (nic_send_heard NIC_OP_TRY_RECV 0 w) (request_safe nic_slot NIC_OP_TRY_RECV 0 w ltac:(done))). intros ? w1 [H1 [G1 Rq]].
  safely_step (safely_and _ _ _ _ (recv_from_nic_heard polls (stash s) w1) (recv_from_nic_safe polls (stash s) w1 (vo_stash _ (no_vars _ _ O)) Rq)).
  intros [r st] w2 [[H2 ->] (G2 & _ & _ & Hl)]. rewrite set_stash_same.
  assert (H : heard w w2 []) by exact (heard_app _ _ _ _ _ H1 H2). assert (Rd2 : ready s w2) by (eapply ready_heard; [done|by eapply grows_trans]).
  destruct (0 <? w0 r).
  - eapply safely_mono; [apply handle_nic_frame_progress; [lia|]|].
    + destruct Rd2 as [O2 A2 R2]. split; try done. apply set_idle_ok; [done|unfold MAX_IDLE_YIELDS; lia].
    + intros s' w' (P1 & P2 & P3 & P4). split_and!; try done. destruct P4 as [(P5 & P6 & P7)|(P5 & P6 & v & P7)]; [left|right];
        split_and!; try done; [exact (heard_app _ _ _ _ _ H P7)|exists v; exact (heard_app _ _ _ _ _ H P7)].
  - safely_step (next_client_message_heard (stash s) w2 Q). intros [o st'] w3 (H3 & -> & ->). rewrite set_stash_same.
    safely_step (yields_heard (Z.to_nat (idle_yields s)) w3). intros ? w4 H4. apply safely_ret.
    assert (H' : heard w w4 []) by exact (heard_app _ _ _ _ _ H (heard_app _ _ _ _ _ H3 H4)).
    split_and!; try done. left. by split_and!.
Qed.

Lemma fail_progress s w : ready s w -> pending_op s <> NoOp ->
  safely (fail_pending_op s) w (fun s' w' => progress s w s' w' /\ (pending_op s' <> NoOp -> patience s' < patience s)).
Proof.
  intros [O A R] N. set (s' := set_conn None (set_buffered 0 (set_pending NoOp s))).
  assert (K : forall v, safely (_ ← answer_client v s; mret s') w
    (fun s' w' => progress s w s' w' /\ (pending_op s' <> NoOp -> patience s' < patience s))).
  { intros v. safely_step (answer_client_heard v s w R). intros ? w' H. apply safely_ret. split; [|done].
    split_and!; try done. right. split_and!; [done|done|eauto]. }
  unfold fail_pending_op. fold s'. destruct (pending_op s); [done|apply K..].
Qed.

Lemma turn_progress s w :
  ready s w -> stash_is (stash s) [] -> safely (turn polls nic_slot my_mac s) w (fun s' w' =>
    progress s w s' w' /\ (pending_op s' <> NoOp -> patience s' < patience s)).
Proof.
  intros Rd Q. pose proof Rd as [O A R]. unfold turn.
  destruct (pending_op s) eqn:P.
  { eapply safely_mono; [by apply poll_progress|]. intros s' w' Pr. split; [done|]. intros N. destruct Pr as (_ & _ & _ & [[E _]|[E _]]); congruence. }
  all: pose proof A as Ab; unfold abiding in Ab; rewrite P in Ab; destruct (conn s) as [c|] eqn:E; [|done];
    destruct (conn_of _ _ _ O E) as [C M]; pose proof (co_attempts _ C).
  all: destruct (attempts_left c =? 0) eqn:Z0.
  1,3,5: apply fail_progress; [done|congruence].
  all: apply Z.eqb_neq in Z0; set (s1 := set_conn _ s); assert (O1 : net_ok s1 w) by
         (apply set_conn_ok; [done|apply conn_ok_next; try apply C; lia|done]).
  all: assert (Rd1 : ready s1 w) by (split; [done|unfold abiding; cbn; by rewrite P|done]).
  all: assert (Lt : patience s1 < patience s) by (unfold patience; cbn; rewrite P, E; cbn; lia).
  all: eapply safely_mono; [by apply poll_progress|]; intros s' w' (P1 & P2 & P3 & P4).
  all: split; [|destruct P4 as [(_ & P5 & _)|(_ & P5 & _)]; [lia|congruence]].
  all: split_and!; try done; destruct P4 as [(P5 & P6 & P7)|P5]; [left|right]; [split_and!; [done|lia|done]|done].
Qed.

(** The rounds go on after the answer, and nothing more is sent to the client. *)
Lemma turns_answer n s w :
  ready s w -> stash_is (stash s) [] -> (pending_op s = NoOp \/ patience s <= Z.of_nat n) ->
  safely (turns polls nic_slot my_mac n s) w (fun s' w' => pending_op s' = NoOp /\
    exists vs, heard w w' vs /\ zlen vs = if bool_decide (pending_op s = NoOp) then 0 else 1).
Proof.
  revert s w. induction n as [|n IH]; intros s w Rd Q Hn.
  - apply safely_ret. assert (P : pending_op s = NoOp).
    { destruct Hn as [?|Hn]; [done|]. pose proof Rd as [O A _]. unfold patience in Hn. destruct (pending_op s) eqn:P; [done|..].
      all: unfold abiding in A; rewrite P in A; destruct (conn s) as [c|] eqn:E; [|done].
      all: destruct (conn_of _ _ _ O E) as [C _]; pose proof (co_attempts _ C); unfold MAX_ATTEMPTS in *; destruct (state c); lia. }
    split; [done|]. exists []. split; [apply heard_nil|]. by rewrite bool_decide_eq_true_2.
  - cbn [turns]. safely_step (safely_and _ _ _ _ (turn_progress s w Rd Q) (turn_safe polls nic_slot my_mac Hmac s w (rd_ok _ _ Rd))).
    intros s1 w1 [[(A & S & R & P) D] O1]. assert (Rd1 : ready s1 w1) by (split; [done|done|rewrite R; apply Rd]).
    assert (Q1 : stash_is (stash s1) []) by (by rewrite S).
    assert (H1 : pending_op s1 = NoOp \/ patience s1 <= Z.of_nat n).
    { destruct (decide (pending_op s1 = NoOp)) as [?|N]; [by left|right]. specialize (D N).
      destruct P as [(P1 & _)|(_ & P1 & _)]; [|done]. destruct Hn as [Hn|Hn]; [congruence|lia]. }
    eapply safely_mono; [by apply IH|]. intros s2 w2 [P2 (vs & H2 & L)]. split; [done|].
    destruct P as [(P1 & _ & H)|(P0 & P1 & v & H)].
    + exists vs. split; [exact (heard_app _ _ _ _ _ H H2)|]. by rewrite <- P1.
    + rewrite bool_decide_eq_true_2 in L by done. exists ([v] ++ vs). split; [exact (heard_app _ _ _ _ _ H H2)|].
      rewrite bool_decide_eq_false_2 by done. rewrite zlen_app, L. reflexivity.
Qed.
End answers.

Lemma patience_bound s (O : vars_ok s) : patience s <= 2 * (MAX_ATTEMPTS + 1).
Proof.
  unfold patience. destruct (pending_op s), (conn s) as [c|] eqn:E; try (unfold MAX_ATTEMPTS; lia);
    destruct (vo_conn _ O _ E) as [C _]; pose proof (co_attempts _ C); unfold MAX_ATTEMPTS in *; destruct (state c); lia.
Qed.

(** C9: a client that makes one request at a time gets an answer to it, and only one.  The
    driver replies to the service, no other task sends to it and no message is queued; an
    operation is pending, and the connection is in a state the service goes through for
    that operation ([abiding]: being opened for a connect, established for a receive,
    closing for a close).  Then [n] rounds of the loop end, for any [n] from [patience s]
    on, which is at most [2 * (MAX_ATTEMPTS + 1)] ([patience_bound]); afterwards nothing is
    pending and exactly one message has been sent to the client, whatever frames have or
    have not come in.  A client that sends a second request before the answer to the first
    can bring the service into a state outside [abiding], where it is not answered. *)
Theorem pending_answered {W} {MW : Machine W} {ML : MachineLaws W} {NL : NicLaws W} {WL : Waiting W}
  polls nic_slot {RL : Responsive W polls nic_slot} my_mac n s (w : W) :
  is_mac my_mac -> client_reply s <> nic_slot -> net_ok s w -> abiding s -> stash_is (stash s) [] ->
  pending_op s <> NoOp -> patience s <= Z.of_nat n ->
  runs (turns polls nic_slot my_mac n s) w (fun s' w' =>
    pending_op s' = NoOp /\ exists l v, log w' = log w ++ l /\ answers (client_reply s) l = [v]).
Proof.
  intros Hm Hc O A Q P Hn. apply total_runs; [by apply total_turns|]. 
  eapply safely_mono; [apply (turns_answer polls nic_slot my_mac Hm (client_reply s) Hc n s w); [by split|done|by right]|].
  intros s' w' [P' (vs & (l & S & E) & L)]. split; [done|]. rewrite bool_decide_eq_false_2 in L by done.
  destruct vs as [|v [|v' vs]]; [done| |rewrite !zlen_cons in L; pose proof (zlen_nonneg vs); lia]. by exists l, v.
Qed.
