(* ===== verification/Stream.v ===== *)
(** * The stream a TCP client receives

    A client that has connected asks for data (TCP_OP_RECV) while its peer sends a stream
    of bytes in segments, which the network may duplicate, reorder or lose.  The theorem:
    the client is handed a prefix of the stream, every byte once and in order, and the
    service closes its side only when the client has, or has buffered, all of it. *)

From stdpp Require Import base list numbers.
From Stdlib Require Import Lia.
From S2P Require Import Prelude Libpcern Pio Proto Tcp Machine Netstack NetSafe NetLive.
Open Scope Z_scope.

(** A segment carries bytes of the stream [sigma], whose first byte has sequence number
    [base]; a FIN comes after the last one. *)
Definition segment_of (sigma : list Z) (base : Z) (seg : segment) : Prop :=
  (payload seg = [] /\ has FLAG_FIN seg = false) \/
  exists off, 0 <= off /\ off + zlen (payload seg) <= zlen sigma /\ sseq seg = wrap32 (base + off) /\
    payload seg = sub sigma off (off + zlen (payload seg)) /\
    (has FLAG_FIN seg = true -> off + zlen (payload seg) = zlen sigma).

(** The environment of a download: the client leaves its buffer alone and only asks for
    data; the segments of the connection's peer carry its stream. *)
Class Downloading (W : Type) `{Machine W} (ip : list Z) (port : Z) (sigma : list Z) (base : Z) := {
  quiet_law c (w : W) r w' b : answer c w = Some (r, w') -> mem CLIENT_BUF_VIRT w = Some b -> mem CLIENT_BUF_VIRT w' = Some b;
  asks_law (w : W) r w' : answer (SysArgs SYS_RECV MY_INBOX 0 0 0 0) w = Some (r, w') ->
    r_eax r <> NIC_TASK_ID -> r_ebx r = TCP_OP_RECV;
  asks_try_law (w : W) r w' : answer (SysArgs SYS_TRY_RECV MY_INBOX 0 0 0 0) w = Some (r, w') ->
    r_eax r <> NIC_TASK_ID -> r_eax r <> NO_MESSAGE -> r_ebx r = TCP_OP_RECV;
  honest_law (w : W) r w' b seg : answer (SysArgs SYS_RECV MY_INBOX 0 0 0 0) w = Some (r, w') ->
    r_eax r = NIC_TASK_ID -> mem NIC_BUF_VIRT w' = Some b ->
    parse_segment (sub b 0 NIC_MAX_FRAME) (r_ebx r) ip = Ok (Some seg) ->
    dst_port seg = LOCAL_PORT -> src_port seg = port -> segment_of sigma base seg
}.

(** What an event hands to the client whose endpoint is [cr]: a message to it announces
    the length of the data at the start of its buffer. *)
Definition hands (cr : Z) (e : event) : list Z :=
  if (num (made e) =? SYS_SEND) && (a1 (made e) =? cr) then
    match seen e CLIENT_BUF_VIRT with Some b => sub b 0 (a2 (made e)) | None => [] end
  else [].

Definition handed (cr : Z) (l : list event) : list Z := concat (map (hands cr) l).

(** The bytes that wait for the client's next request. *)
Definition waiting {W} `{Machine W} (s : net) (w : W) : list Z :=
  match mem CLIENT_BUF_VIRT w with Some b => sub b 0 (buffered_len s) | None => [] end.

Lemma handed_app cr l l' : handed cr (l ++ l') = handed cr l ++ handed cr l'.
Proof. unfold handed. by rewrite map_app, concat_app. Qed.

Section stream.
Context {W : Type} {MW : Machine W} {ML : MachineLaws W} {NL : NicLaws W}.
Context (polls : nat) (nic_slot : Z) (my_mac : list Z) (Hmac : is_mac my_mac).
Context (ip : list Z) (port : Z) (sigma : list Z) (base : Z) {DL : Downloading W ip port sigma base}.
Context (cr : Z) (Hcr : cr <> nic_slot) (Hsigma : zlen sigma + 1 < 2 ^ 32).
(* what the buffer held before the stream *)
Context (old : list Z).
Implicit Types (w : W) (s : net).

(** Nothing the client sees happens between [w] and [w']. *)
Definition calm (w w' : W) : Prop :=
  grows w w' /\ mem CLIENT_BUF_VIRT w' = mem CLIENT_BUF_VIRT w /\ exists l, says w w' l /\ handed cr l = [].

(** Every message in the queue asks for data. *)
Definition asking (st : Stash) : Prop := exists q, stash_is st q /\ Forall (fun r => w0 r = TCP_OP_RECV) q.

Record conn_in (k : Z) (c : Connection) : Prop := {
  ci_peer : peer_ip c = ip /\ peer_port c = port;
  ci_state : (state c = Established /\ rcv_nxt c = wrap32 (base + k)) \/ (state c = LastAck /\ k = zlen sigma)
}.

(** The client has been handed [d], and the first [k] bytes of the stream have come in,
    behind what the buffer held before. *)
Record download (k : Z) (d : list Z) (s : net) (w : W) : Prop := {
  dl_ok : net_ok s w;
  dl_reply : client_reply s = cr;
  dl_stash : asking (stash s);
  dl_op : pending_op s = NoOp \/ pending_op s = Recv;
  dl_page : is_Some (mem CLIENT_BUF_VIRT w);
  dl_conn c : conn s = Some c -> conn_in k c;
  dl_k : 0 <= k <= zlen sigma;
  dl_bytes : d ++ waiting s w = old ++ sub sigma 0 k
}.

Lemma calm_refl w : calm w w.
Proof. split; [apply grows_refl|]. split; [done|]. exists []. split; [unfold says; by rewrite app_nil_r|done]. Qed.

Lemma calm_trans w1 w2 w3 : calm w1 w2 -> calm w2 w3 -> calm w1 w3.
Proof.
  intros (G1 & M1 & l1 & S1 & H1) (G2 & M2 & l2 & S2 & H2). split; [by eapply grows_trans|]. split; [by rewrite M2|].
  exists (l1 ++ l2). split; [|by rewrite handed_app, H1, H2]. unfold says in *. by rewrite S2, S1, app_assoc.
Qed.

Lemma calm_answer c w r w' :
  is_Some (mem CLIENT_BUF_VIRT w) -> answer c w = Some (r, w') -> (num c = SYS_SEND -> a1 c <> cr) -> calm w w'.
Proof.
  intros [b Eb] E N. split; [by eapply grows_answer|]. split; [rewrite Eb; by eapply quiet_law|].
  eexists. split; [exact (log_law _ _ _ _ E)|]. unfold handed, hands. cbn.
  destruct (num c =? SYS_SEND) eqn:E1; [|done]. destruct (a1 c =? cr) eqn:E2; [|done].
  apply Z.eqb_eq in E1, E2. by destruct (N E1).
Qed.

Lemma calm_page w w' : calm w w' -> is_Some (mem CLIENT_BUF_VIRT w) -> is_Some (mem CLIENT_BUF_VIRT w').
Proof. intros (_ & -> & _). done. Qed.

(** The download does not depend on the frame buffer, nor on calls the client does not see. *)
Lemma download_calm k d s w w' : download k d s w -> calm w w' -> download k d s w'.
Proof.
  intros D C. pose proof C as (G & M & _). destruct D. split; try done.
  - by eapply net_ok_grows.
  - by rewrite M.
  - unfold waiting in *. by rewrite M.
Qed.

Lemma push_asking st r : asking st -> w0 r = TCP_OP_RECV -> asking (push r st).
Proof.
  intros (q & Q & F) M. eexists. split; [by apply push_is|]. case_match; [|done]. apply Forall_app. split; [done|by apply Forall_singleton].
Qed.

(** ** Calls *)

(** The frame buffer holds a frame of [len] bytes that the driver has delivered. *)
Definition honest (len : Z) (w : W) : Prop := forall b seg, mem NIC_BUF_VIRT w = Some b ->
  parse_segment (sub b 0 NIC_MAX_FRAME) len ip = Ok (Some seg) -> dst_port seg = LOCAL_PORT -> src_port seg = port ->
  segment_of sigma base seg.

Lemma recv_from_nic_calm n st w :
  stash_ok st -> asking st -> is_Some (mem CLIENT_BUF_VIRT w) -> requested w ->
  safely (recv_from_nic n st) w (fun '(r, st') w' =>
    calm w w' /\ stash_ok st' /\ asking st' /\ w0 r <= NIC_MAX_FRAME /\ honest (w0 r) w').
Proof.
  revert st w. induction n as [|n IH]; intros st w S A P Rq; [done|]. cbn [recv_from_nic].
  apply safely_bind, recv_safe. intros r w' E G.
  assert (C : calm w w') by (apply (calm_answer _ _ _ _ P E); done).
  destruct (sender (of_raw r) =? NIC_TASK_ID) eqn:Es; [apply Z.eqb_eq in Es|apply Z.eqb_neq in Es]; cbn in Es.
  - split_and!; try done; [by apply (nic_len_law _ _ _ E)|]. intros b seg Eb. by apply (honest_law _ _ _ _ _ E).
  - eapply safely_mono; [apply IH|].
    + apply push_stash_ok; [done|by eapply message_regs].
    + apply push_asking; [done|]. by apply (asks_law _ _ _ E).
    + by apply (calm_page w).
    + by apply (requested_answer _ _ _ _ E).
    + intros [r' st'] w2 (C' & H). split; [by eapply calm_trans|done].
Qed.

Lemma nic_send_calm v x w : v <> NIC_OP_GET_MAC -> is_Some (mem CLIENT_BUF_VIRT w) ->
  safely (call (send nic_slot v x 0 0)) w (fun _ w' => calm w w' /\ requested w').
Proof.
  intros N P. assert (C : safely (call (send nic_slot v x 0 0)) w (fun _ w' => calm w w')).
  { apply (call_one (SysArgs SYS_SEND nic_slot v x 0 0)). intros r w' E _. apply (calm_answer _ _ _ _ P E). cbn. congruence. }
  eapply safely_mono; [exact (safely_and _ _ _ _ C (request_safe nic_slot v x w N))|]. intros ? w' [C' [_ R]]. by split.
Qed.

(** Filling the frame buffer and sending it. *)
Lemma send_to_nic_calm len st w :
  stash_ok st -> asking st -> is_Some (mem CLIENT_BUF_VIRT w) ->
  safely (send_to_nic polls nic_slot len st) w (fun '(_, st') w' => calm w w' /\ stash_ok st' /\ asking st').
Proof.
  intros S A P. unfold send_to_nic. safely_step (nic_send_calm NIC_OP_SEND len w ltac:(done) P). intros ? w1 [C1 Rq].
  safely_step (recv_from_nic_calm polls st w1 S A (calm_page _ _ C1 P) Rq). intros [r st'] w2 (C2 & S' & A' & _).
  apply safely_ret. split; [by eapply calm_trans|done].
Qed.

Lemma store_nic_calm b w (Q : unit -> W -> Prop) :
  zlen b = NIC_MAX_FRAME -> mapped NIC_BUF_VIRT w -> (forall w', calm w w' -> Q tt w') -> safely (store NIC_BUF_VIRT b) w Q.
Proof.
  intros L M F. apply runs_safely, store_ok; [apply nic_base|done|by rewrite L|]. intros b0 E0 L0 w' G _.
  apply F. split; [done|]. split; [by apply other_law|]. exists []. split; [|done].
  unfold says, w'. by rewrite store_log_law, app_nil_r.
Qed.

Lemma set_stash_download k d st s w : download k d s w -> stash_ok st -> asking st -> download k d (set_stash st s) w.
Proof.
  intros [O R S P M C K B] So A. split; try done. apply (net_ok_vars s); [done| |done]. apply set_stash_ok; [apply O|done].
Qed.

Lemma send_frame_calm (f : list Z -> res (list Z * Z)) k d s w :
  (forall buf, zlen buf = NIC_MAX_FRAME -> okay (f buf) (fun x => zlen (fst x) = zlen buf)) ->
  download k d s w ->
  safely (send_frame polls nic_slot f s) w (fun s' w' =>
    calm w w' /\ download k d s' w' /\ exists st, s' = set_stash st s /\ stash_ok st /\ asking st).
Proof.
  intros F D. pose proof (dl_ok _ _ _ _ D) as O. pose proof (no_nic _ _ O) as M. pose proof (dl_page _ _ _ _ D) as P.
  apply safely_bind, runs_safely, load_ok; [done|unfold NIC_MAX_FRAME; lia|].
  intros b Eb Lb. apply safely_bind, safely_pure. eapply okay_mono; [by apply F|]. intros [b' n] L. cbn in L.
  apply safely_bind, store_nic_calm; [by rewrite L|done|]. intros w1 C1.
  safely_step (send_to_nic_calm (wrap32 n) (stash s) w1 (vo_stash _ (no_vars _ _ O)) (dl_stash _ _ _ _ D) (calm_page _ _ C1 P)).
  intros [ok st] w2 (C2 & S2 & A2). assert (C : calm w w2) by (by eapply calm_trans). apply safely_ret.
  split; [done|]. split; [|eauto]. apply set_stash_download; [by eapply download_calm|done|done].
Qed.

(** ** One step of the download *)

(** The service goes on from [w] to [s'] and [w'], where the client has been handed more. *)
Definition moves (d : list Z) (w : W) (s' : net) (w' : W) : Prop :=
  exists k l, says w w' l /\ download k (d ++ handed cr l) s' w'.

Lemma moves_calm k d w s' w' : calm w w' -> download k d s' w' -> moves d w s' w'.
Proof. intros (_ & _ & l & S & H) D. exists k, l. split; [done|]. by rewrite H, app_nil_r. Qed.

Lemma calm_moves d w w1 s' w' : calm w w1 -> moves d w1 s' w' -> moves d w s' w'.
Proof.
  intros (_ & _ & l & S & H) (k & l' & S' & D). exists k, (l ++ l'). split; [unfold says in *; by rewrite S', S, app_assoc|].
  by rewrite handed_app, H.
Qed.

(** The client is handed all that waits for it. *)
Lemma hand_over k d s s' w :
  download k d s w -> net_ok s' w -> client_reply s' = cr -> asking (stash s') -> pending_op s' = NoOp \/ pending_op s' = Recv ->
  buffered_len s' = 0 -> (forall c, conn s' = Some c -> conn_in k c) ->
  safely (answer_client (wrap32 (buffered_len s)) s) w (fun _ w' => moves d w s' w').
Proof.
  intros D O R S P B C. pose proof (vo_buffered _ (no_vars _ _ (dl_ok _ _ _ _ D))) as Hb. unfold TCP_MAX_TRANSFER in Hb.
  unfold answer_client. rewrite wrap_small by lia. rewrite (dl_reply _ _ _ _ D). apply safely_bind.
  destruct (dl_page _ _ _ _ D) as [b Eb]. apply (call_one (SysArgs SYS_SEND cr (buffered_len s) 0 0 0)). intros r w' E G.
  pose proof (quiet_law _ _ _ _ _ E Eb) as Eb'. apply safely_ret. eexists k, _. split; [exact (log_law _ _ _ _ E)|].
  assert (H : handed cr [Event (SysArgs SYS_SEND cr (buffered_len s) 0 0 0) (fun v => mem v w)] = sub b 0 (buffered_len s)).
  { unfold handed, hands. cbn. rewrite Z.eqb_refl, Eb. cbn. apply app_nil_r. }
  rewrite H. split; try done.
  - by eapply net_ok_grows.
  - apply D.
  - rewrite <- (dl_bytes _ _ _ _ D). unfold waiting. rewrite Eb, Eb', B, sub_diag, app_nil_r. done.
Qed.

(** An answer that announces no data. *)
Lemma answer_nothing s w :
  client_reply s = cr -> is_Some (mem CLIENT_BUF_VIRT w) -> safely (answer_client 0 s) w (fun _ w' => calm w w').
Proof.
  intros R [b Eb]. unfold answer_client. rewrite R. apply safely_bind, (call_one (SysArgs SYS_SEND cr 0 0 0 0)).
  intros r w' E G. apply safely_ret. split; [done|]. split; [rewrite Eb; by eapply quiet_law|].
  eexists. split; [exact (log_law _ _ _ _ E)|]. unfold handed, hands. cbn. rewrite Z.eqb_refl, Eb. cbn. by rewrite sub_diag.
Qed.

Lemma set_pending_download k d s w : download k d s w -> download k d (set_pending NoOp s) w.
Proof. intros [O R S P M C K B]. split; try done; [by apply set_pending_ok|by left]. Qed.

Lemma drop_conn_download k d s w : download k d s w -> download k d (set_conn None s) w.
Proof. intros [O R S P M C K B]. split; try done. by apply drop_conn_ok. Qed.

(** ** Frames *)

Definition moves_to (d : list Z) (w : W) (x : Outcome * net) (w' : W) : Prop := moves d w (snd x) w'.

(** The stream continues with the bytes of a segment at [rcv_nxt]. *)
Lemma next_bytes k seg c d : 
  segment_of sigma base seg -> conn_in k c -> state c = Established -> is_u32 base ->
  0 <= k <= zlen sigma -> zlen (payload seg) <> 0 -> sseq seg = rcv_nxt c ->
  d = old ++ sub sigma 0 k -> forall n, 0 <= n <= zlen (payload seg) ->
  d ++ sub (payload seg) 0 n = old ++ sub sigma 0 (k + n) /\ k + n <= zlen sigma /\
  (has FLAG_FIN seg = true -> k + zlen (payload seg) = zlen sigma).
Proof.
  intros Sg [_ St] Es Ub K P E -> n Hn. destruct St as [[_ R]|[L _]]; [|congruence].
  destruct Sg as [[Z0 _]|(off & O1 & O2 & O3 & O4 & O5)]; [by rewrite Z0 in P|].
  assert (Ek : k = off). { rewrite E, R in O3. unfold wrap, is_u32 in *. dlia. } subst off.
  split; [|split; [lia|exact O5]]. rewrite (sub_app sigma 0 k (k + n)), <- app_assoc by lia. do 2 f_equal. rewrite O4.
  unfold sub. rewrite Z2Nat.inj_0, drop_0, take_take. f_equal. lia.
Qed.

(** What [absorb] does: the bytes it says are buffered continue what was, in the stream. *)
Lemma absorb_stream k d seg c s w :
  download k d s w -> conn s = Some c -> state c = Established -> is_u32 base -> segment_of sigma base seg ->
  safely (absorb seg c s) w (fun '(b, r, _) w1 => download k d s w1 /\ says w w1 [] /\ 0 <= b <= TCP_MAX_TRANSFER /\
    exists k', k <= k' <= zlen sigma /\ r = wrap32 (base + k') /\
      (forall p, mem CLIENT_BUF_VIRT w1 = Some p -> d ++ sub p 0 b = old ++ sub sigma 0 k')).
Proof.
  intros D E Es Ub Sg. pose proof (dl_ok _ _ _ _ D) as O. destruct (conn_of _ _ _ O E) as [C M].
  pose proof (dl_conn _ _ _ _ D _ E) as CI. pose proof (dl_k _ _ _ _ D) as K. pose proof (dl_bytes _ _ _ _ D) as By.
  pose proof (vo_buffered _ (no_vars _ _ O)) as B. unfold absorb. destruct (_ && _) eqn:G.
  2:{ apply safely_ret. split_and!; try done; try lia; [unfold says; by rewrite app_nil_r|]. exists k. split_and!; try lia.
      - destruct (ci_state _ _ CI) as [[_ ?]|[? _]]; [done|congruence].
      - intros p Ep. unfold waiting in By. by rewrite Ep in By. }
  apply andb_prop in G as [G1 G2]. apply negb_true_iff, Z.eqb_neq in G1. apply Z.eqb_eq in G2.
  unfold TCP_MAX_TRANSFER in *. rewrite (wrap_small 32 (4096 - buffered_len s)) by lia.
  destruct (no_client _ _ O M) as (p & Ep & Lp). unfold waiting in By. rewrite Ep in By.
  apply safely_bind, runs_safely, load_ok; [by exists p|lia|]. intros b Eb Lb. rewrite Ep in Eb. injection Eb as <-.
  pose proof (zlen_nonneg (payload seg)). set (n := Z.min _ _). apply safely_bind, safely_pure. rewrite bslice_ok by lia. cbn [okay].
  assert (Ln : zlen (sub (payload seg) 0 n) = n) by (rewrite zlen_sub; lia).
  apply safely_bind, safely_pure. rewrite bcopy_ok by lia. cbn [okay].
  apply safely_bind, runs_safely, store_ok; [apply client_base|by exists p|rewrite zlen_put; lia|].
  intros b0 E0 L0 w1 G1' E1. rewrite Ep in E0. injection E0 as <-.
  rewrite (put_through p) in E1 by lia. apply safely_ret.
  destruct (next_bytes k seg c _ Sg CI Es Ub K G1 G2 By n ltac:(lia)) as (Bn & Kn & _).
  split_and!; try lia.
  - destruct D as [D1 D2 D3 D4 D5 D6 D7 D8]. split; try done; [by eapply net_ok_grows|].
    unfold waiting. rewrite E1. rewrite sub_put_low by lia. done.
  - unfold says, w1. by rewrite store_log_law, app_nil_r.
  - exists (k + n). split_and!; try lia.
    + destruct (ci_state _ _ CI) as [[_ Er]|[? _]]; [|congruence]. rewrite Er. unfold wrap. dlia.
    + intros p' [= <-]%(eq_trans (eq_sym E1)). rewrite <- Bn, <- app_assoc. f_equal.
      pose proof (sub_put_append p (buffered_len s) (sub (payload seg) 0 n)) as Q. rewrite Ln in Q. apply Q; lia.
Qed.

Lemma on_established_stream k d seg c s w :
  download k d s w -> conn s = Some c -> state c = Established -> is_u32 base -> segment_of sigma base seg ->
  safely (on_established polls nic_slot my_mac seg c s) w (moves_to d w).
Proof.
  intros D E Es Ub Sg. pose proof (dl_ok _ _ _ _ D) as O. destruct (conn_of _ _ _ O E) as [C M].
  unfold on_established. destruct (has FLAG_RST seg).
  { apply safely_bind. assert (K : download k d (set_pending NoOp s) w) by (by apply set_pending_download).
    destruct (dl_op _ _ _ _ D) as [-> | ->]; [by apply (moves_calm k), K; apply calm_refl|].
    apply safely_bind. eapply safely_mono; [apply (answer_nothing s w); apply D|]. intros ? w' Ca.
    do 2 apply safely_ret. apply (moves_calm k); [done|]. by eapply download_calm. }
  safely_step (absorb_stream k d seg c s w D E Es Ub Sg). intros [[b r] adv] w1 (D1 & S1 & B & k' & K & Er & By).
  set (fin := has FLAG_FIN seg && _).
  assert (Hfin : fin = true -> k' = zlen sigma).
  { intros [F1 F2]%andb_prop. apply Z.eqb_eq in F2. destruct Sg as [[_ Sg]|(off & H1 & H2 & H3 & _ & H5)]; [congruence|].
    specialize (H5 F1). pose proof (zlen_nonneg (payload seg)). rewrite Er, H3 in F2. unfold wrap in F2. rewrite <- Zplus_mod in F2.
    pose proof (dl_k _ _ _ _ D). change (2 ^ 32) with 4294967296 in *. dlia. }
  assert (Start : forall x w', moves d w1 x w' -> moves d w x w').
  { intros x w' (k2 & l & S & D2). exists k2, l. split; [|done]. unfold says in *. by rewrite S, S1, app_nil_r. }
  destruct (negb adv && negb fin).
  { apply safely_ret, Start, (moves_calm k), D1. apply calm_refl. }
  unfold transmit. match goal with |- context [send_frame polls nic_slot ?f s] => set (f0 := f) end.
  safely_step (send_frame_calm f0 k d s w1 (fun buf => segment_fits my_mac Hmac c _ _ _ [] buf C no_payload) D1).
  intros s' w2 (C2 & D2 & st & -> & So & A). cbv zeta. set (c' := Conn _ _ _ _ _ _ _).
  set (s2 := set_buffered b (set_conn (Some c') (set_stash st s))).
  assert (CI : conn_in k' c').
  { destruct (ci_peer _ _ (dl_conn _ _ _ _ D _ E)). split; [done|]. cbn. destruct fin eqn:F; [right|left]; auto. }
  assert (O2 : net_ok s2 w2).
  { apply set_buffered_ok; [|done]. apply set_conn_ok; [apply D2| |done].
    apply conn_ok_next; try done; destruct fin; try apply C; try apply wrap_u32; try rewrite Er; try apply wrap_u32; done. }
  assert (D3 : download k' d s2 w2).
  { destruct D2 as [? D2r D2s D2p [p Ep] D2c D2k D2b]. split; try done; [by intros ? [= <-]|lia|].
    unfold waiting. rewrite Ep. apply By. destruct C2 as (_ & <- & _). done. }
  case_bool_decide as Hp; [|apply safely_ret, Start, (moves_calm k'); done].
  apply safely_bind. eapply safely_mono; [apply (hand_over k' d s2 (set_pending NoOp (set_buffered 0 s2)) w2 D3)|].
  - apply set_pending_ok, set_buffered_ok; [done|unfold TCP_MAX_TRANSFER; lia].
  - apply D3.
  - apply D3.
  - by left.
  - done.
  - apply D3.
  - intros ? w3 Mv. apply safely_ret, Start. by eapply calm_moves.
Qed.

Lemma advance_connection_stream k d buf len c s w :
  download k d s w -> conn s = Some c -> is_u32 base -> zlen buf = NIC_MAX_FRAME -> len <= NIC_MAX_FRAME ->
  (forall seg, parse_segment buf len ip = Ok (Some seg) -> dst_port seg = LOCAL_PORT -> src_port seg = port ->
     segment_of sigma base seg) ->
  safely (advance_connection polls nic_slot my_mac buf len c s) w (moves_to d w).
Proof.
  intros D E Ub Lb Hl H. assert (Same : forall o, moves_to d w (o, s) w) by (intros o; apply (moves_calm k), D; apply calm_refl).
  destruct (dl_conn _ _ _ _ D _ E) as [[Ei Ep] St]. unfold advance_connection. rewrite Ei, Ep.
  assert (K : forall f, (forall seg, segment_of sigma base seg -> safely (f seg : io W _) w (moves_to d w)) ->
    safely (o ← pure (parse_segment buf len ip);
      match o with Some seg => if negb (dst_port seg =? LOCAL_PORT) || negb (src_port seg =? port) then mret (NotMine, s) else f seg
      | None => mret (NotMine, s) end) w (moves_to d w)).
  { intros f F. apply safely_bind, safely_pure. unfold NIC_MAX_FRAME in *.
    pose proof (parse_segment_safe buf len ip ltac:(lia) ltac:(lia)) as P. destruct (parse_segment buf len ip) as [o|]; [|done].
    cbn [okay]. destruct o as [seg|]; [|apply Same]. destruct (_ || _) eqn:G; [apply Same|].
    apply orb_false_elim in G as [G1 G2]. apply negb_false_iff, Z.eqb_eq in G1, G2. auto. }
  destruct St as [[Es _]|[Es _]]; rewrite Es; apply K; intros seg Sg.
  - by apply (on_established_stream k).
  - unfold on_last_ack. destruct (_ && _); [|apply Same]. unfold settle.
    rewrite bool_decide_eq_false_2; [apply Same|]. by destruct (dl_op _ _ _ _ D) as [-> | ->].
Qed.

Lemma moves_then d w s w1 s' w2 :
  moves d w s w1 -> (forall k d', download k d' s w1 -> moves d' w1 s' w2) -> moves d w s' w2.
Proof.
  intros (k & l & S & D) F. destruct (F _ _ D) as (k' & l' & S' & D'). exists k', (l ++ l').
  split; [unfold says in *; by rewrite S', S, app_assoc|]. by rewrite handed_app, app_assoc.
Qed.

Lemma handle_nic_frame_stream k d len s w :
  download k d s w -> is_u32 base -> len <= NIC_MAX_FRAME -> honest len w ->
  safely (handle_nic_frame polls nic_slot my_mac len s) w (moves d w).
Proof.
  intros D Ub Hl Ho. pose proof (dl_ok _ _ _ _ D) as O.
  apply safely_bind, runs_safely, load_ok; [apply O|unfold NIC_MAX_FRAME; lia|]. intros b Eb Lb.
  apply safely_bind. eapply (safely_mono _ _ (moves_to d w)).
  { destruct (conn s) as [c|] eqn:E; [|apply (moves_calm k), D; apply calm_refl].
    apply (advance_connection_stream k); try done. intros seg. by apply Ho. }
  intros [o s'] w' Mv. unfold moves_to in Mv. cbn in Mv. destruct o.
  - apply safely_bind, safely_pure. eapply okay_mono; [apply handle_frame_safe; try done; by rewrite Lb|].
    intros [b' rep] [L _]. cbn [fst] in L. pose proof Mv as (k1 & l1 & _ & D1). pose proof (dl_ok _ _ _ _ D1) as O1.
    apply safely_bind, store_nic_calm; [by rewrite L|apply O1|]. intros w1 C1. destruct rep as [n|].
    + safely_step (send_to_nic_calm (wrap32 n) (stash s') w1 (vo_stash _ (no_vars _ _ O1)) (dl_stash _ _ _ _ D1) (calm_page _ _ C1 (dl_page _ _ _ _ D1))).
      intros [ok st] w2 (C2 & S2 & A2). apply safely_ret. eapply moves_then; [exact Mv|]. intros k2 d2 D2.
      apply (moves_calm k2); [by eapply calm_trans|]. apply set_stash_download; [|done|done].
      eapply download_calm; [exact D2|]. by eapply calm_trans.
    + apply safely_ret. eapply moves_then; [exact Mv|]. intros k2 d2 D2. apply (moves_calm k2); [done|]. by eapply download_calm.
  - by apply safely_ret.
  - apply safely_ret. eapply moves_then; [exact Mv|]. intros k2 d2 D2. apply (moves_calm k2); [apply calm_refl|].
    by apply drop_conn_download.
Qed.

(** ** Rounds *)

Lemma on_recv_stream k d s w : download k d s w -> safely (on_recv s) w (moves d w).
Proof.
  intros D. pose proof (dl_ok _ _ _ _ D) as O. unfold on_recv.
  destruct (_ =? 0); [apply safely_ret, (moves_calm k), D; apply calm_refl|]. destruct (_ || _).
  - safely_step (hand_over k d s (set_buffered 0 s) w D); try done; try apply D.
    apply set_buffered_ok; [done|unfold TCP_MAX_TRANSFER; lia].
  - pose proof (on_recv_safe s w O) as S. apply safely_ret. apply (moves_calm k); [apply calm_refl|].
    destruct D as [D1 D2 D3 D4 D5 D6 D7 D8]. split; try done; [|by right|].
    + destruct (conn s) as [c|] eqn:E; cbn; [|by apply drop_conn_ok, set_pending_ok]. destruct (conn_of _ _ _ O E) as [C M].
      apply set_conn_ok; [by apply set_pending_ok| |done]. destruct C. by split.
    + cbn. intros c. destruct (conn s) as [c0|] eqn:E; cbn; [|done]. intros [= <-]. by destruct (D6 _ eq_refl).
Qed.

Lemma next_client_message_stream k d s w :
  download k d s w ->
  safely (next_client_message (stash s)) w (fun '(o, st) w' =>
    calm w w' /\ stash_ok st /\ asking st /\ forall r, o = Some r -> w0 r = TCP_OP_RECV).
Proof.
  intros D. destruct (vo_stash _ (no_vars _ _ (dl_ok _ _ _ _ D))) as (q & Q & F). destruct (dl_stash _ _ _ _ D) as (q' & Q' & A).
  assert (q' = q) as ->.
  { destruct Q as (E & _ & L), Q' as (E' & _ & L'). rewrite E' in E. destruct q as [|? [|? [|]]], q' as [|? [|? [|]]]; cbn in *; try lia; congruence. }
  unfold next_client_message. apply safely_bind, safely_pure. destruct (pop_is _ _ Q) as (st & -> & Qt). cbn [okay].
  assert (So : stash_ok st) by (exists (tail q); split; [done|by destruct F]).
  assert (Sa : asking st) by (exists (tail q); split; [done|by destruct A]).
  destruct A as [|r q M A]; cbn [head]; [|apply safely_ret; split_and!; [apply calm_refl|done|done|by intros ? [= <-]]].
  apply safely_bind. unfold safely, try_recv, call, syscall_raw, mbind, prog_bind. cbn.
  destruct (answer _ w) as [[a w']|] eqn:E; [|done]. destruct (_ =? TRY_RECV_ERR); cbn; [by rewrite exit_law|].
  assert (C : calm w w') by (apply (calm_answer _ _ _ _ (dl_page _ _ _ _ D) E); done).
  destruct (_ =? NO_MESSAGE) eqn:E1; cbn; [by split_and!|]. destruct (_ =? NIC_TASK_ID) eqn:E2; split_and!; try done.
  intros ? [= <-]. apply Z.eqb_neq in E1, E2. by apply (asks_try_law _ _ _ E).
Qed.

Lemma poll_stream k d s w : download k d s w -> is_u32 base -> safely (poll polls nic_slot my_mac s) w (moves d w).
Proof.
  intros D Ub. pose proof (dl_ok _ _ _ _ D) as O. unfold poll.
  safely_step (nic_send_calm NIC_OP_TRY_RECV 0 w ltac:(done) (dl_page _ _ _ _ D)). intros ? w1 [C1 Rq].
  safely_step (recv_from_nic_calm polls (stash s) w1 (vo_stash _ (no_vars _ _ O)) (dl_stash _ _ _ _ D) (calm_page _ _ C1 (dl_page _ _ _ _ D)) Rq).
  intros [r st] w2 (C2 & So & A & Hl & Ho). assert (C : calm w w2) by (by eapply calm_trans).
  assert (Idle : forall n s w, 1 <= n <= MAX_IDLE_YIELDS -> download k d s w -> download k d (set_idle n s) w).
  { intros n s0 w0 Hn [D1 D2 D3 D4 D5 D6 D7 D8]. split; try done. by apply set_idle_ok. }
  assert (D2 : download k d (set_stash st s) w2) by (apply set_stash_download; [by eapply download_calm|done|done]).
  apply (safely_mono _ _ (moves d w2)); [|intros s' w' Mv; by eapply calm_moves].
  destruct (0 <? w0 r); [apply (handle_nic_frame_stream k); try done; apply Idle; [unfold MAX_IDLE_YIELDS; lia|done]|].
  safely_step (next_client_message_stream k d _ w2 D2). intros [o st'] w3 (C3 & So' & A' & M). cbv zeta.
  assert (D3 : download k d (set_stash st' (set_stash st s)) w3) by (apply set_stash_download; [by eapply download_calm|done|done]).
  apply (safely_mono _ _ (moves d w3)); [|intros s' w' Mv; by eapply calm_moves]. destruct o as [m|].
  - unfold handle_client_message. rewrite (M m eq_refl). cbn. apply (on_recv_stream k), Idle; [unfold MAX_IDLE_YIELDS; lia|done].
  - apply safely_bind. assert (Y : forall n w, is_Some (mem CLIENT_BUF_VIRT w) -> safely (yields n) w (fun _ w' => calm w w')).
    { induction n as [|n IH]; intros w' P; [apply calm_refl|]. cbn [yields]. apply safely_bind.
      apply (call_one (SysArgs SYS_YIELD 0 0 0 0 0) (fun _ => tt)). intros a0 w4 Ea _.
      assert (C4 : calm w' w4) by (apply (calm_answer _ _ _ _ P Ea); done).
      eapply safely_mono; [apply IH; by eapply calm_page|]. intros ? w5 C5. exact (calm_trans _ _ _ C4 C5). }
    eapply safely_mono; [apply Y, D3|]. intros ? w4 C4. apply safely_ret, (moves_calm k); [done|]. apply Idle; [|by eapply download_calm].
    pose proof (vo_idle _ (no_vars _ _ (dl_ok _ _ _ _ D3))). unfold MAX_IDLE_YIELDS in *. rewrite wrap_small by lia. lia.
Qed.

Lemma turn_stream k d s w : download k d s w -> is_u32 base -> safely (turn polls nic_slot my_mac s) w (moves d w).
Proof.
  intros D Ub. pose proof (dl_ok _ _ _ _ D) as O. unfold turn. destruct (dl_op _ _ _ _ D) as [Ep | Ep]; rewrite Ep; [by apply (poll_stream k)|].
  destruct (conn s) as [c|] eqn:E; [|by apply (poll_stream k)]. destruct (conn_of _ _ _ O E) as [C M]. destruct (_ =? 0) eqn:A.
  - unfold fail_pending_op. rewrite Ep. set (s' := set_conn None _).
    safely_step (hand_over k d s s' w D); try done; try apply D; [|by left].
    apply drop_conn_ok, set_buffered_ok; [by apply set_pending_ok|unfold TCP_MAX_TRANSFER; lia].
  - apply Z.eqb_neq in A. pose proof (co_attempts _ C). apply (poll_stream k); [|done].
    destruct D as [D1 D2 D3 D4 D5 D6 D7 D8]. split; try done.
    + apply set_conn_ok; [done| |done]. apply conn_ok_next; try apply C; lia.
    + intros ? [= <-]. by destruct (D6 _ E).
Qed.

Lemma turns_stream n k d s w : download k d s w -> is_u32 base -> safely (turns polls nic_slot my_mac n s) w (moves d w).
Proof.
  revert k d s w. induction n as [|n IH]; intros k d s w D Ub; [apply safely_ret, (moves_calm k), D; apply calm_refl|].
  cbn [turns]. safely_step (turn_stream k d s w D Ub). intros s1 w1 Mv. pose proof Mv as (k1 & l1 & S1 & D1).
  eapply safely_mono; [by apply (IH k1)|]. intros s2 w2 (k2 & l2 & S2 & D2).
  exists k2, (l1 ++ l2). split; [unfold says in *; by rewrite S2, S1, app_assoc|]. by rewrite handed_app, app_assoc.
Qed.
End stream.

(** C5: the stream arrives in order, each byte once.  A connection is established, the
    client waits for data or asks for it, request after request (so do any messages of it
    that are queued); the peer sends the bytes [sigma], fewer than 2^32 - 1, in segments
    that start anywhere in the stream, that the network repeats, reorders or drops, among
    any other frames.  After any number of rounds of the service's loop, the bytes the
    client has been handed (for each answer, the bytes at the start of its buffer when the
    answer was sent), followed by those that wait in the buffer, are what waited in the
    buffer at the start followed by a prefix of [sigma]; and when the service has
    acknowledged the end of the stream, by all of it. *)
Theorem stream_in_order {W} {MW : Machine W} {ML : MachineLaws W} {NL : NicLaws W}
  polls nic_slot {RL : Responsive W polls nic_slot} my_mac c sigma
  {DL : Downloading W (peer_ip c) (peer_port c) sigma (rcv_nxt c)} n s (w : W) :
  is_mac my_mac -> client_reply s <> nic_slot -> zlen sigma + 1 < 2 ^ 32 ->
  net_ok s w -> conn s = Some c -> state c = Established -> asking (stash s) ->
  pending_op s = NoOp \/ pending_op s = Recv ->
  runs (turns polls nic_slot my_mac n s) w (fun s' w' => exists l rest,
    log w' = log w ++ l /\ waiting s w ++ sigma = handed (client_reply s) l ++ waiting s' w' ++ rest /\
    (forall c', conn s' = Some c' -> state c' = LastAck -> rest = [])).
Proof.
  intros Hm Hc Hs O E Es Q P. destruct (conn_of _ _ _ O E) as [C M]. apply total_runs; [by apply total_turns|].
  destruct (no_client _ _ O M) as (b & Eb & Lb). pose proof (zlen_nonneg sigma).
  assert (D : download (peer_ip c) (peer_port c) sigma (rcv_nxt c) (client_reply s) (waiting s w) 0 [] s w).
  { split; try done; [|by rewrite sub_diag, app_nil_r].
    intros ? [= <-]%(eq_trans (eq_sym E)). split; [done|]. left. split; [done|]. rewrite Z.add_0_r, wrap_small; [done|]. apply C. }
  eapply safely_mono; [apply (turns_stream polls nic_slot my_mac Hm _ _ sigma (rcv_nxt c) (client_reply s) Hc Hs (waiting s w) n 0 [] s w D); apply C|].
  intros s' w' (k & l & S & D'). exists l, (sub sigma k (zlen sigma)). split; [done|]. pose proof (dl_k _ _ _ _ _ _ _ _ _ _ D').
  split.
  - rewrite app_assoc, <- (app_nil_l (handed _ l)), (dl_bytes _ _ _ _ _ _ _ _ _ _ D'), <- app_assoc, <- sub_app by lia.
    unfold sub. rewrite Z2Nat.inj_0, drop_0, take_ge by (unfold zlen in *; lia). done.
  - intros c' Ec' Es'. destruct (dl_conn _ _ _ _ _ _ _ _ _ _ D' _ Ec') as [_ [[? _]|[_ ->]]]; [congruence|]. apply sub_diag.
Qed.
