(* ===== verification/Pages.v ===== *)
(** * The memory of a simulated machine

    Pages by address, for the machines on which the hypotheses of the theorems on tasks are
    shown to hold (NetSim.v, NicSim.v). *)

From stdpp Require Import base list numbers.
From Stdlib Require Import Lia.
From S2P Require Import Prelude.
Open Scope Z_scope.

(** A page of zeros. *)
Definition zeros : list Z := replicate (Z.to_nat 4096) 0.

Lemma zlen_zeros : zlen zeros = 4096.
Proof. unfold zeros. rewrite zlen_replicate. by rewrite Z2Nat.id. Qed.

#[local] Opaque zeros.

Definition set_page (v : Z) (b : list Z) (f : Z -> option (list Z)) : Z -> option (list Z) :=
  fun v' => if decide (v' = v) then Some b else f v'.

(** A new page, where nothing is mapped yet. *)
Definition fresh_page (v : Z) (f : Z -> option (list Z)) : Z -> option (list Z) :=
  match f v with Some _ => f | None => set_page v zeros f end.

(** What is mapped at an address is a page. *)
Definition page_at (f : Z -> option (list Z)) (v : Z) : option (list Z) :=
  (fun b => if zlen b =? 4096 then b else zeros) <$> f v.

Lemma page_at_set v b f : zlen b = 4096 -> page_at (set_page v b f) v = Some b.
Proof. intros L. unfold page_at, set_page. rewrite decide_True by done. cbn. by rewrite L. Qed.

Lemma page_at_ne v v' b f : v' <> v -> page_at (set_page v b f) v' = page_at f v'.
Proof. intros N. unfold page_at, set_page. by rewrite decide_False. Qed.

Lemma page_at_zlen f v b : page_at f v = Some b -> zlen b = 4096.
Proof.
  unfold page_at. destruct (f v) as [b'|]; [|done]. cbn. intros [= <-]. destruct (zlen b' =? 4096) eqn:E; [by apply Z.eqb_eq|].
  apply zlen_zeros.
Qed.

Lemma page_at_map v v' f b : page_at f v' = Some b -> page_at (fresh_page v f) v' = Some b.
Proof.
  intros E. unfold fresh_page. destruct (f v) eqn:Ef; [done|]. rewrite page_at_ne; [done|]. intros ->. unfold page_at in E. by rewrite Ef in E.
Qed.

Lemma page_at_mapped v f : is_Some (page_at (fresh_page v f) v).
Proof.
  unfold fresh_page. destruct (f v) as [b|] eqn:E; [unfold page_at; rewrite E; by eexists|].
  rewrite page_at_set by apply zlen_zeros. by eexists.
Qed.
