(* ===== verification/NetSim.v ===== *)
(** * A simulated network

    A machine on which the network service runs: its driver replies at once, and its peer
    sends the segments of a script.  It satisfies what the theorems on the service ask of
    a machine. *)

From stdpp Require Import base list numbers.
From Stdlib Require Import Lia.
From S2P Require Import Prelude Libpcern Pio Proto Tcp Machine Pages Netstack NetSafe NetLive Stream.
Open Scope Z_scope.

#[local] Opaque zeros.

(** A segment of the peer's stream: where it starts, how long it is, and if it is the last. *)
Record piece := Piece { from : Z; size : Z; last : bool }.

Record sim := Sim {
  sim_pages : Z -> option (list Z); sim_log : list event; sim_air : list piece; sim_due : option piece
}.

Definition sim_stream : list Z := [104; 101; 108; 108; 111; 33].
Definition sim_peer_mac : list Z := [2; 0; 0; 0; 0; 2].
Definition sim_peer_ip : list Z := [10; 0; 2; 2].
Definition sim_mac : list Z := [2; 0; 0; 0; 0; 1].
Definition sim_base : Z := 4294967294.

(** Any piece, within the stream. *)
Definition clip (p : piece) : piece :=
  let o := Z.max 0 (Z.min (from p) 6) in
  let n := Z.max 0 (Z.min (size p) (6 - o)) in
  Piece o n (last p && (o + n =? 6)).

Definition piece_flags (p : piece) : Z := if last p then Z.lor FLAG_FIN FLAG_ACK else FLAG_ACK.
Definition piece_data (p : piece) : list Z := sub sim_stream (from p) (from p + size p).

(** The page the driver leaves in the frame buffer. *)
Definition piece_page (p : piece) : list Z :=
  match build_segment zeros sim_peer_mac sim_peer_ip sim_mac STATIC_IP 80 LOCAL_PORT
          (wrap32 (sim_base + from p)) 65537 (piece_flags p) 2048 (piece_data p) with
  | Ok (b, _) => b
  | Panicked _ => []
  end.

Definition sim_answer (c : sys_args) (w : sim) : option (raw_result * sim) :=
  let l := sim_log w ++ [Event c (fun v => page_at (sim_pages w) v)] in
  let ok w' := Some (RawResult 0 0 0 0 0 0, w') in
  if num c =? SYS_EXIT then None
  else if num c =? SYS_SEND then
    if (a1 c =? 5) && (a2 c =? NIC_OP_TRY_RECV) then ok (Sim (sim_pages w) l (tail (sim_air w)) (head (sim_air w)))
    else ok (Sim (sim_pages w) l (sim_air w) None)
  else if num c =? SYS_RECV then
    match sim_due w with
    | Some p =>
        let f := match sim_pages w NIC_BUF_VIRT with
                 | Some _ => set_page NIC_BUF_VIRT (piece_page (clip p)) (sim_pages w)
                 | None => sim_pages w
                 end in
        Some (RawResult NIC_TASK_ID 60 0 0 0 5, Sim f l (sim_air w) None)
    | None => Some (RawResult NIC_TASK_ID 1 0 0 0 5, Sim (sim_pages w) l (sim_air w) None)
    end
  else if num c =? SYS_TRY_RECV then Some (RawResult NO_MESSAGE 0 0 0 0 0, Sim (sim_pages w) l (sim_air w) (sim_due w))
  else if num c =? SYS_MAP_MEMORY then ok (Sim (fresh_page (a2 c) (sim_pages w)) l (sim_air w) (sim_due w))
  else if num c =? SYS_MEM_ALLOC then
    Some (RawResult 9 0 0 0 0 0, Sim (fresh_page (a1 c) (sim_pages w)) l (sim_air w) (sim_due w))
  else ok (Sim (sim_pages w) l (sim_air w) (sim_due w)).

#[export] Instance sim_machine : Machine sim := {
  answer := sim_answer; mem v w := page_at (sim_pages w) v; set_mem v b w := Sim (set_page v b (sim_pages w)) (sim_log w) (sim_air w) (sim_due w);
  log := sim_log
}.

Lemma clip_ok p : let q := clip p in 0 <= from q /\ 0 <= size q /\ from q + size q <= 6 /\ (last q = true -> from q + size q = 6).
Proof.
  unfold clip. cbn. split_and!; lia.
Qed.

Lemma zlen_piece p : zlen (piece_data (clip p)) = size (clip p).
Proof. destruct (clip_ok p) as (? & ? & ? & _). unfold piece_data. rewrite zlen_sub; change (zlen sim_stream) with 6; lia. Qed.

Lemma piece_page_ok p : exists pad,
  piece_page (clip p) = tcp_frame sim_peer_mac sim_peer_ip sim_mac STATIC_IP 80 LOCAL_PORT (wrap32 (sim_base + from (clip p)))
    65537 (piece_flags (clip p)) 2048 (piece_data (clip p)) ++ piece_data (clip p) ++ pad /\ zlen (piece_page (clip p)) = 4096.
Proof.
  destruct (clip_ok p) as (? & ? & ? & _). pose proof (zlen_piece p) as L.
  pose proof zlen_zeros as L0.
  pose proof (build_segment_safe zeros sim_peer_mac sim_peer_ip sim_mac STATIC_IP 80 LOCAL_PORT (wrap32 (sim_base + from (clip p)))
    65537 (piece_flags (clip p)) 2048 (piece_data (clip p)) ltac:(lia) ltac:(lia) ltac:(lia) eq_refl eq_refl eq_refl eq_refl) as Sf.
  destruct (build_segment_buf zeros sim_peer_mac sim_peer_ip sim_mac STATIC_IP 80 LOCAL_PORT (wrap32 (sim_base + from (clip p)))
    65537 (piece_flags (clip p)) 2048 (piece_data (clip p)) ltac:(lia) ltac:(lia) ltac:(lia) eq_refl eq_refl eq_refl eq_refl) as (pad & E).
  exists pad. unfold piece_page. rewrite E in Sf |- *. cbn [okay] in Sf. destruct Sf as [Sf _]. split; [done|]. by rewrite Sf.
Qed.

Lemma sim_mapped f v l a d : mapped v (Sim f l a d) <-> is_Some (page_at f v).
Proof. split; [intros (b & E & _); by exists b|]. intros [b E]. exists b. split; [done|]. cbn in E. rewrite (page_at_zlen _ _ _ E). done. Qed.

Ltac sim_cases H :=
  unfold answer, sim_machine, sim_answer in H; repeat (case_match; try done; simplify_eq/=).

#[export] Instance sim_laws : MachineLaws sim.
Proof.
  split.
  - done.
  - intros c w r w' H. by sim_cases H.
  - intros c w r w' H. sim_cases H; unfold is_u32, NIC_TASK_ID, NO_MESSAGE, U32_MAX; lia.
  - intros c w r w' v H M. destruct w as [f l a d]. apply sim_mapped in M as [b E]. sim_cases H; apply sim_mapped; try (by exists b);
      try (exists b; by apply page_at_map).
    destruct (decide (v = NIC_BUF_VIRT)) as [->|N].
    + rewrite page_at_set; [by eexists|]. by destruct (piece_page_ok p) as (_ & _ & ->).
    + rewrite page_at_ne by done. by exists b.
  - intros g v [f l a d] r w' H _. sim_cases H. apply sim_mapped, page_at_mapped.
  - intros v n [f l a d] r w' H _ _. sim_cases H. apply sim_mapped, page_at_mapped.
  - intros v b b' w E L. cbn in *. apply page_at_set. rewrite L. by eapply page_at_zlen.
  - intros v v' b w _ _ N. cbn. apply page_at_ne. congruence.
  - done.
Qed.

#[export] Instance sim_nic : NicLaws sim.
Proof. split. intros w r w' H _ _. sim_cases H; unfold NIC_MAX_FRAME; lia. Qed.

#[export] Instance sim_responsive : Responsive sim 1 5.
Proof.
  split.
  - intros c w N _. unfold answer, sim_machine, sim_answer. rewrite (proj2 (Z.eqb_neq _ _) N). by repeat case_match.
  - intros w r w' H. by sim_cases H.
  - intros op x w r w' _ _. cbn. destruct (sim_due w'); by left.
Qed.

#[export] Instance sim_waiting : Waiting sim.
Proof. split; intros w r w' H; sim_cases H; auto. Qed.

(** What the peer sends. *)
Lemma piece_segment p : parse_segment (sub (piece_page (clip p)) 0 NIC_MAX_FRAME) 60 sim_peer_ip =
  Ok (Some (Segment 80 LOCAL_PORT (wrap32 (sim_base + from (clip p))) 65537 (piece_flags (clip p)) 2048 (piece_data (clip p)))).
Proof.
  destruct (piece_page_ok p) as (pad & E & L). pose proof (zlen_piece p) as Ld. destruct (clip_ok p) as (? & ? & ? & _).
  pose proof (zlen_tcp_frame sim_peer_mac sim_peer_ip sim_mac STATIC_IP 80 LOCAL_PORT (wrap32 (sim_base + from (clip p)))
    65537 (piece_flags (clip p)) 2048 (piece_data (clip p)) eq_refl eq_refl eq_refl eq_refl) as LT.
  rewrite E, app_assoc, sub_long by (rewrite zlen_app; unfold NIC_MAX_FRAME; lia). rewrite <- app_assoc. unfold tcp_frame. cbv zeta.
  apply parse_segment_ok; try exact eq_refl; try lia; try (unfold is_u16, is_u32, LOCAL_PORT; lia). apply wrap_u32.
Qed.

#[local] Opaque piece_page.

#[export] Instance sim_downloading : Downloading sim sim_peer_ip 80 sim_stream sim_base.
Proof.
  split.
  - intros c w r w' b H E. sim_cases H; try done; by apply page_at_map.
  - intros w r w' H N. sim_cases H.
  - intros w r w' H N1 N2. sim_cases H.
  - intros w r w' b seg H _ E P _ _. change (sim_answer (SysArgs SYS_RECV MY_INBOX 0 0 0 0) w = Some (r, w')) in H.
    unfold sim_answer in H. cbn [num Z.eqb SYS_RECV SYS_EXIT SYS_SEND Pos.eqb] in H. destruct (sim_due w) as [p|]; injection H as <- <-.
    2:{ cbn in P. discriminate P. }
    cbn [mem sim_machine sim_pages] in E. destruct (sim_pages w NIC_BUF_VIRT) eqn:Ew.
    + unfold page_at, set_page in E. rewrite decide_True in E by done. cbn [fmap option_fmap option_map] in E.
      destruct (piece_page_ok p) as (_ & _ & Lp). rewrite Lp, Z.eqb_refl in E. assert (b = piece_page (clip p)) as -> by congruence. clear E.
      rewrite piece_segment in P. assert (seg = Segment 80 LOCAL_PORT (wrap32 (sim_base + from (clip p))) 65537 (piece_flags (clip p)) 2048 (piece_data (clip p))) as -> by congruence. clear P. destruct (clip_ok p) as (? & ? & ? & Hl). pose proof (zlen_piece p) as Ld.
      right. exists (from (clip p)). cbn [payload sseq]. rewrite Ld. change (zlen sim_stream) with 6. split_and!; [lia|lia|exact eq_refl|exact eq_refl|].
      intros F. apply Hl. unfold has, piece_flags in F. cbn [flags] in F.
      destruct (last (clip p)); [done|discriminate F].
    + unfold page_at in E. rewrite Ew in E. discriminate E.
Qed.

(** ** The theorems, on the simulated network *)

Definition sim_start (air : list piece) : sim :=
  Sim (fun v => if (v =? NIC_BUF_VIRT) || (v =? CLIENT_BUF_VIRT) then Some zeros else None) [] air None.

(** A client that waits for data on a connection just established. *)
Definition sim_net (n : Z) : net :=
  Net stash_new true 8 (Some (Conn sim_peer_ip 80 sim_peer_mac Established 65537 sim_base n)) Recv 0 1.

Lemma sim_net_ok n air : 0 <= n <= MAX_ATTEMPTS -> net_ok (sim_net n) (sim_start air).
Proof.
  intros Hn.
  split; [|by apply sim_mapped; eexists|intros _; by apply sim_mapped; eexists].
  split; cbn; try (unfold TCP_MAX_TRANSFER, MAX_IDLE_YIELDS; lia).
  - exists []. split; [|constructor]. split_and!; try done. cbn. lia.
  - intros c [= <-]. split; [|done]. split; cbn; try done; try (unfold is_u16, is_u32, sim_base, MAX_ATTEMPTS; lia).
    split; [done|]. repeat constructor; unfold is_u8; lia.
Qed.

Lemma netstack_never_crashes_witness :
  safely ('(nic_slot, my_mac, s) ← netstack_start; turns 1 nic_slot my_mac 3 s) (sim_start [Piece 0 3 false]) net_ok.
Proof. exact (netstack_never_crashes 1 3 (sim_start [Piece 0 3 false])). Defined.

Lemma pending_answered_witness :
  runs (turns 1 5 sim_mac 2 (sim_net 1)) (sim_start []) (fun s' w' =>
    pending_op s' = NoOp /\ exists l v, log w' = log (sim_start []) ++ l /\ answers 8 l = [v]).
Proof.
  apply (pending_answered 1 5 sim_mac 2 (sim_net 1) (sim_start [])); [done|done|by apply sim_net_ok|done| |done|by vm_compute].
  split_and!; try done. cbn. lia.
Defined.

(** The pieces come out of order and repeated. *)
Definition sim_pieces : list piece := [Piece 4 2 true; Piece 0 4 false; Piece 0 4 false; Piece 2 2 false; Piece 4 2 true].

Lemma stream_in_order_witness :
  runs (turns 1 5 sim_mac 6 (sim_net 9)) (sim_start sim_pieces) (fun s' w' => exists l rest,
    log w' = log (sim_start sim_pieces) ++ l /\
    sim_stream = handed 8 l ++ waiting s' w' ++ rest /\ (forall c', conn s' = Some c' -> state c' = LastAck -> rest = [])) /\
  match turns 1 5 sim_mac 6 (sim_net 9) (sim_start sim_pieces) with
  | Ends s w => handed 8 (log w) = [104; 101; 108; 108] /\ waiting s w = [111; 33]
  | _ => False
  end.
Proof.
  split; [|by vm_compute].
  assert (W : waiting (sim_net 9) (sim_start sim_pieces) = []) by (vm_compute; reflexivity).
  pose proof (stream_in_order 1 5 sim_mac (Conn sim_peer_ip 80 sim_peer_mac Established 65537 sim_base 9) sim_stream 6 (sim_net 9)
    (sim_start sim_pieces)) as H.
  rewrite W, app_nil_l in H. apply H; clear H W; [done|done|by vm_compute|by apply sim_net_ok|done|done| |by right].
  exists []. split; [|constructor]. split_and!; try done. cbn. lia.
Defined.
