(* ===== verification/Rtl8139.v ===== *)
(** * The network driver (userland/drivers/net_rtl8139/src/rtl8139.rs and main.rs)

    The functions of rtl8139.rs run on a machine with a card on its ports; the receive
    ring and the transmit buffer are memory the card reads and writes too.  [serve] is one
    turn of the driver's loop. *)

From stdpp Require Import base list numbers.
From Stdlib Require Import Lia.
From S2P Require Import Prelude Libpcern Pio Machine.
Open Scope Z_scope.

Definition REG_MAC0 : Z := 0x00.
Definition REG_TSD : list Z := [0x10; 0x14; 0x18; 0x1C].
Definition REG_TSAD : list Z := [0x20; 0x24; 0x28; 0x2C].
Definition REG_RBSTART : Z := 0x30.
Definition REG_CR : Z := 0x37.
Definition REG_CAPR : Z := 0x38.
Definition REG_ISR : Z := 0x3E.
Definition REG_IMR : Z := 0x3C.
Definition REG_RCR : Z := 0x44.
Definition REG_CONFIG1 : Z := 0x52.

Definition CR_BUFE : Z := Z.shiftl 1 0.
Definition CR_TE : Z := Z.shiftl 1 2.
Definition CR_RE : Z := Z.shiftl 1 3.
Definition CR_RST : Z := Z.shiftl 1 4.
Definition ISR_ROK : Z := Z.shiftl 1 0.
Definition ISR_TOK : Z := Z.shiftl 1 2.
Definition RCR_APM : Z := Z.shiftl 1 1.
Definition RCR_AM : Z := Z.shiftl 1 2.
Definition RCR_AB : Z := Z.shiftl 1 3.
Definition RCR_WRAP : Z := Z.shiftl 1 7.
Definition TSD_OWN : Z := Z.shiftl 1 13.

Definition RX_RING_WRAP : Z := 8192.
Definition RX_BUF_BYTES : Z := RX_RING_WRAP + 16 + 1500.
Definition MAX_FRAME_SIZE : Z := 1518.
Definition MAX_HARDWARE_POLLS : Z := 1000000.
Definition MAX_PACKETS_PER_DRAIN : Z := 64.

Definition MY_INBOX : Z := 2.
Definition IRQ_CONTROL_SLOT : Z := 3.
Definition NIC_INFO_SLOT : Z := 4.
Definition NIC_INFO_VIRT : Z := 0x700000.
Definition RX_BUF_VIRT : Z := 0x800000.
Definition TX_BUF_VIRT : Z := 0x900000.
Definition CLIENT_BUF_VIRT : Z := 0xA00000.
Definition RX_BUF_PAGES : Z := div_ceil RX_BUF_BYTES 4096.

(** ** The card *)

Section card.
Context {W : Type} `{Machine W} `{PortIO W} (io_base : Z).

(** The port of a register: [io_base + reg], as [u16]. *)
Definition reg (r : Z) : Z := wrap16 (io_base + r).

(** A loop that reads until [busy] is false, at most [n] times: whether it was. *)
Fixpoint wait_while (n : nat) (busy : io W bool) : io W bool :=
  match n with
  | O => mret false
  | S n => b ← busy; if (b : bool) then wait_while n busy else mret true
  end.

(** [for (i, byte) in mac.iter_mut().enumerate()]: [n] bytes from [i] on. *)
Fixpoint read_mac (n : nat) (i : Z) : io W (list Z) :=
  match n with
  | O => mret []
  | S n => b ← inb (reg (REG_MAC0 + i)); m ← read_mac n (i + 1); mret (b :: m)
  end.

Definition init (rx_buf_phys : Z) : io W (option (list Z)) :=
  _ ← outb (reg REG_CONFIG1) 0;
  _ ← outb (reg REG_CR) CR_RST;
  ok ← wait_while (Z.to_nat MAX_HARDWARE_POLLS) (v ← inb (reg REG_CR); mret (negb (Z.land v CR_RST =? 0)));
  if negb ok then mret None
  else
    mac ← read_mac 6 0;
    _ ← outl (reg REG_RBSTART) rx_buf_phys;
    _ ← outw (reg REG_IMR) (Z.lor ISR_ROK ISR_TOK);
    _ ← outl (reg REG_RCR) (Z.lor (Z.lor (Z.lor RCR_APM RCR_AM) RCR_AB) RCR_WRAP);
    _ ← outb (reg REG_CR) (Z.lor CR_RE CR_TE);
    mret (Some mac).

Definition ack_interrupt : io W Z :=
  isr ← inw (reg REG_ISR);
  _ ← outw (reg REG_ISR) isr;
  mret isr.

(** [send], and the next [tx_desc]. *)
Definition rtl_send (tx_buf_phys : Z) (frame : list Z) (tx_desc : Z) : io W (bool * Z) :=
  if (zlen frame =? 0) || (MAX_FRAME_SIZE <? zlen frame) then mret (false, tx_desc)
  else
    let idx := tx_desc in
    let tx_desc := (wrap8 (tx_desc + 1)) mod 4 in
    _ ← store TX_BUF_VIRT frame;
    tsad ← pure (bget REG_TSAD idx);
    _ ← outl (reg tsad) tx_buf_phys;
    tsd ← pure (bget REG_TSD idx);
    _ ← outl (reg tsd) (wrap32 (zlen frame));
    ok ← wait_while (Z.to_nat MAX_HARDWARE_POLLS) (v ← inl (reg tsd); mret (Z.land v TSD_OWN =? 0));
    mret (ok, tx_desc).

(** Where the driver reads next, after a packet of [length] bytes at [cur_rx]. *)
Definition advance (length : Z) : Z := Z.land (length + 4 + 3) (U32_MAX - 3).
Definition next_rx (cur_rx length : Z) : Z :=
  let next := wrap32 (cur_rx + advance length) in
  wrap16 (if RX_RING_WRAP <? next then next - RX_RING_WRAP else next).

(** The body of the loop of [receive]. *)
Definition take_packet (cur_rx : Z) (out : list Z) (last_len : option Z) : io W (Z * list Z * option Z) :=
  hdr ← peek RX_BUF_VIRT cur_rx 4;
  let status := u16_from_le (byte_at hdr 0) (byte_at hdr 1) in
  let length := u16_from_le (byte_at hdr 2) (byte_at hdr 3) in
  '(out, last_len) ←
    (if negb (Z.land status 1 =? 0) && ((4 <=? length) && (length <=? MAX_FRAME_SIZE + 4)) then
       src ← peek RX_BUF_VIRT (cur_rx + 4) (length - 4);
       out ← pure (bcopy out 0 src);
       mret (out, Some (length - 4))
     else mret (out, last_len));
  let cur_rx := next_rx cur_rx length in
  _ ← outw (reg REG_CAPR) (wrap16 (cur_rx - 16));
  mret (cur_rx, out, last_len).

(** The loop, for at most [n] more packets. *)
Fixpoint drain (n : nat) (cur_rx : Z) (out : list Z) (last_len : option Z) : io W (option Z * Z * list Z) :=
  v ← inb (reg REG_CR);
  if negb (Z.land v CR_BUFE =? 0) then mret (last_len, cur_rx, out)
  else
    match n with
    | O => mret (last_len, cur_rx, out)
    | S n => '(cur_rx, out, last_len) ← take_packet cur_rx out last_len; drain n cur_rx out last_len
    end.

Definition receive (cur_rx : Z) (out : list Z) : io W (option Z * Z * list Z) :=
  drain (Z.to_nat MAX_PACKETS_PER_DRAIN) cur_rx out None.
End card.

(** ** The service *)

(** The local variables of [_start] that the loop changes. *)
Record driver := Driver {
  cur_rx : Z; last_rx : list Z; last_rx_len : Z; tx_desc : Z;
  client_buf_mapped : bool; client_reply : Z; recv_armed : bool
}.

Definition set_rx c l n d := Driver c l n (tx_desc d) (client_buf_mapped d) (client_reply d) (recv_armed d).
Definition set_tx x d := Driver (cur_rx d) (last_rx d) (last_rx_len d) x (client_buf_mapped d) (client_reply d) (recv_armed d).
Definition set_client m r d := Driver (cur_rx d) (last_rx d) (last_rx_len d) (tx_desc d) m r (recv_armed d).
Definition set_armed x d := Driver (cur_rx d) (last_rx d) (last_rx_len d) (tx_desc d) (client_buf_mapped d) (client_reply d) x.

Section service.
Context {W : Type} `{Machine W} `{PortIO W} (io_base tx_buf_phys : Z) (mac : list Z).

(** [libpcern::send(client_reply, v, v2, 0, 0)] *)
Definition tell (v v2 : Z) (d : driver) : io W unit := _ ← call (send (client_reply d) v v2 0 0); mret tt.

(** The last frame goes to the client's buffer and its length to the client. *)
Definition deliver (d : driver) : io W driver :=
  src ← pure (bslice (last_rx d) 0 (last_rx_len d));
  buf ← load CLIENT_BUF_VIRT MAX_FRAME_SIZE;
  buf ← pure (bcopy buf 0 src);
  _ ← store CLIENT_BUF_VIRT buf;
  _ ← tell (wrap32 (last_rx_len d)) 0 d;
  mret (set_rx (cur_rx d) (last_rx d) 0 d).

Definition on_interrupt (d : driver) : io W driver :=
  isr ← ack_interrupt io_base;
  if Z.land isr ISR_ROK =? 0 then mret d
  else
    '(o, cur, out) ← receive io_base (cur_rx d) (last_rx d);
    match o with
    | Some len =>
        let d := set_rx cur out len d in
        if recv_armed d && negb (client_reply d =? 0) && client_buf_mapped d then
          d ← deliver d; mret (set_armed false d)
        else mret d
    | None => mret (set_rx cur out (last_rx_len d) d)
    end.

Definition on_send (r : recv_result) (d : driver) : io W driver :=
  if client_reply d =? 0 then mret d
  else if negb (client_buf_mapped d) then _ ← tell 0 0 d; mret d
  else
    let len := Z.min (w1 r) MAX_FRAME_SIZE in
    buf ← load CLIENT_BUF_VIRT MAX_FRAME_SIZE;
    frame ← pure (bslice buf 0 len);
    '(ok, desc) ← rtl_send io_base tx_buf_phys frame (tx_desc d);
    let d := set_tx desc d in
    _ ← tell (if (ok : bool) then 1 else 0) 0 d;
    mret d.

Definition on_recv (d : driver) : io W driver :=
  if client_reply d =? 0 then mret d
  else if negb (client_buf_mapped d) then _ ← tell 0 0 d; mret d
  else if 0 <? last_rx_len d then deliver d
  else mret (set_armed true d).

Definition on_try_recv (d : driver) : io W driver :=
  if client_reply d =? 0 then mret d
  else if negb (client_buf_mapped d) || (last_rx_len d =? 0) then _ ← tell 0 0 d; mret d
  else deliver d.

Definition serve (r : recv_result) (d : driver) : io W driver :=
  if sender r =? KERNEL_TASK_ID then on_interrupt d
  else if w0 r =? NIC_OP_SET_BUFFER then
    if negb (transferred_slot r =? 0) then
      e ← call (map_memory (transferred_slot r) CLIENT_BUF_VIRT);
      mret (if e =? 0 then set_client true (client_reply d) d else d)
    else mret d
  else if w0 r =? NIC_OP_SET_REPLY then
    mret (if negb (transferred_slot r =? 0) then set_client (client_buf_mapped d) (transferred_slot r) d else d)
  else if w0 r =? NIC_OP_GET_MAC then
    if client_reply d =? 0 then mret d
    else let (m0, m1) := pack_name mac in _ ← tell m0 m1 d; mret d
  else if w0 r =? NIC_OP_SEND then on_send r d
  else if w0 r =? NIC_OP_RECV then on_recv d
  else if w0 r =? NIC_OP_TRY_RECV then on_try_recv d
  else mret d.

(** [n] turns of the loop. *)
Fixpoint rtl_turns (n : nat) (d : driver) : io W driver :=
  match n with
  | O => mret d
  | S n => r ← call (recv MY_INBOX); d ← serve r d; rtl_turns n d
  end.
End service.

Definition driver_new : driver := Driver 0 (replicate (Z.to_nat MAX_FRAME_SIZE) 0) 0 0 false 0 false.

(** [_start] up to its loop: the port base, the address of the transmit buffer, the
    card's address and the variables. *)
Definition rtl_start {W} `{Machine W} `{PortIO W} : io W (Z * Z * list Z * driver) :=
  e ← call (map_memory NIC_INFO_SLOT NIC_INFO_VIRT);
  if negb (e =? 0) then call (exit 1)
  else
    b ← load NIC_INFO_VIRT 4;
    let io_base := wrap16 (word b 0) in
    '(rx_grant, rx_buf_phys) ← call (mem_alloc_pages RX_BUF_VIRT RX_BUF_PAGES);
    '(tx_grant, tx_buf_phys) ← call (mem_alloc_pages TX_BUF_VIRT 1);
    if (rx_grant =? 0) || (tx_grant =? 0) then call (exit 1)
    else
      o ← init io_base rx_buf_phys;
      match o with
      | None => call (exit 1)
      | Some mac =>
          _ ← call (register_irq IRQ_CONTROL_SLOT);
          _ ← call (register_name [110; 101; 116] MY_INBOX);
          mret (io_base, tx_buf_phys, mac, driver_new)
      end.
