(* ===== verification/Nic.v ===== *)
(** * The network card and its driver

    What the driver relies on of an RTL8139, from its documentation, and what it then
    does: it takes the packets out of the receive ring in order and keeps the last good
    one, it hands every frame to the card whole and in order, it never waits for ever, and
    it does not crash: all this up to the first packet that ends exactly at the end of the
    ring, where the driver loses its place. *)

From stdpp Require Import base list numbers sets.
From Stdlib Require Import Lia.
From S2P Require Import Prelude Libpcern Pio Machine Rtl8139.
Open Scope Z_scope.

(** A packet in the receive ring: a status word and the frame. *)
Record packet := Packet { pstatus : Z; pdata : list Z }.

(** Its length field counts the checksum that follows the frame. *)
Definition plength (p : packet) : Z := zlen (pdata p) + 4.

Definition ring_bytes (p : packet) : list Z := u16_to_le (pstatus p) ++ u16_to_le (plength p) ++ pdata p.

(** The card keeps to itself: the packets it has put in the ring, how many of them the
    driver has given back, where in the ring the next one is; the frames it has sent, the
    descriptor it expects next, and the addresses in its descriptors. *)
Class Card (W : Type) := {
  arrived : W -> list packet; taken : W -> nat; ring_head : W -> Z;
  wire : W -> list (list Z); tx_next : W -> Z; tx_addr : W -> Z -> Z
}.

(** Between [w] and [w'] at most packets have come in. *)
Definition idle_card {W} `{Card W} (w w' : W) : Prop :=
  (exists l, arrived w' = arrived w ++ l) /\ taken w' = taken w /\ ring_head w' = ring_head w /\
  wire w' = wire w /\ tx_next w' = tx_next w /\ (forall i, tx_addr w' i = tx_addr w i).

(** And nothing but the ring has changed in memory. *)
Definition still {W} `{Machine W} `{Card W} (w w' : W) : Prop :=
  idle_card w w' /\ log w' = log w /\ forall v, v <> RX_BUF_VIRT -> mem v w' = mem v w.

(** The registers the driver reads and writes once the card runs.  With the receive
    configuration of [init] the card drops frames longer than [MAX_FRAME_SIZE] and writes no
    packet in two parts ([ring_law]); it sets [CR_BUFE] when, and only when, the ring holds
    no packet that has not been given back ([cr_law]). *)
Class CardLaws (W : Type) `{Machine W} `{PortIO W} `{Card W} (io_base tx_buf_phys : Z) := {
  packet_law (w : W) p : p ∈ arrived w -> is_u16 (pstatus p) /\ zlen (pdata p) <= MAX_FRAME_SIZE;
  taken_law (w : W) : (taken w <= length (arrived w))%nat;
  head_law (w : W) : 0 <= ring_head w < RX_RING_WRAP;
  ring_law (w : W) p : arrived w !! taken w = Some p -> exists b, mem RX_BUF_VIRT w = Some b /\
    ring_head w + 4 + zlen (pdata p) <= zlen b /\ sub b (ring_head w) (ring_head w + 4 + zlen (pdata p)) = ring_bytes p;
  cr_law (w : W) v w' : in8 (reg io_base REG_CR) w = (v, w') ->
    still w w' /\ (Z.land v CR_BUFE = 0 <-> (taken w' < length (arrived w'))%nat);
  capr_law (w : W) p h : arrived w !! taken w = Some p ->
    h mod RX_RING_WRAP = (ring_head w + advance (plength p)) mod RX_RING_WRAP ->
    let w' := out16 (reg io_base REG_CAPR) (wrap16 (h - 16)) w in
    exists l, arrived w' = arrived w ++ l /\ taken w' = S (taken w) /\
      ring_head w' = (ring_head w + advance (plength p)) mod RX_RING_WRAP /\
      wire w' = wire w /\ tx_next w' = tx_next w /\ (forall i, tx_addr w' i = tx_addr w i) /\
      log w' = log w /\ (forall v, v <> RX_BUF_VIRT -> mem v w' = mem v w);
  isr_in_law (w : W) v w' : in16 (reg io_base REG_ISR) w = (v, w') -> still w w';
  isr_out_law v (w : W) : still w (out16 (reg io_base REG_ISR) v w);
  tsad_law i a (w : W) : 0 <= i < 4 ->
    let w' := out32 (reg io_base (byte_at REG_TSAD i)) a w in
    (exists l, arrived w' = arrived w ++ l) /\ taken w' = taken w /\ ring_head w' = ring_head w /\
    wire w' = wire w /\ tx_next w' = tx_next w /\ tx_addr w' i = a /\
    log w' = log w /\ (forall v, v <> RX_BUF_VIRT -> mem v w' = mem v w);
  tsd_law i n b (w : W) : 0 <= i < 4 -> tx_next w = i -> tx_addr w i = tx_buf_phys -> mem TX_BUF_VIRT w = Some b ->
    0 < n <= zlen b ->
    let w' := out32 (reg io_base (byte_at REG_TSD i)) n w in
    (exists l, arrived w' = arrived w ++ l) /\ taken w' = taken w /\ ring_head w' = ring_head w /\
    wire w' = wire w ++ [sub b 0 n] /\ tx_next w' = (i + 1) mod 4 /\
    log w' = log w /\ (forall v, v <> RX_BUF_VIRT -> mem v w' = mem v w);
  own_law i (w : W) v w' : 0 <= i < 4 -> in32 (reg io_base (byte_at REG_TSD i)) w = (v, w') -> still w w';
  answer_card_law c (w : W) r w' : answer c w = Some (r, w') -> idle_card w w';
  store_card_law v b (w : W) : v <> RX_BUF_VIRT -> idle_card w (set_mem v b w)
}.

(** ** The ring *)

Lemma advance_ok n : 0 <= n < 65536 -> advance n = n + 7 - (n + 7) mod 4.
Proof.
  intros H. unfold advance. replace (n + 4 + 3) with (n + 7) by lia.
  apply (land_align_down (n + 7) 2); [unfold is_u32; lia|lia].
Qed.

(** Where the driver reads on, after a packet whose length it accepts. *)
Lemma next_rx_ok cur n :
  0 <= cur < RX_RING_WRAP -> 4 <= n <= MAX_FRAME_SIZE + 4 ->
  next_rx cur n = (if cur + advance n =? RX_RING_WRAP then RX_RING_WRAP else (cur + advance n) mod RX_RING_WRAP).
Proof.
  unfold RX_RING_WRAP, MAX_FRAME_SIZE. intros Hc Hn. unfold next_rx, RX_RING_WRAP. rewrite advance_ok by lia.
  rewrite (wrap_small 32) by dlia. destruct (_ =? 8192) eqn:E.
  - apply Z.eqb_eq in E. rewrite E. done.
  - apply Z.eqb_neq in E. destruct (8192 <? _) eqn:L; [apply Z.ltb_lt in L|apply Z.ltb_ge in L]; rewrite wrap_small by dlia.
    + symmetry. rewrite <- (Z_mod_plus_full _ (-1)). apply Z.mod_small. dlia.
    + symmetry. apply Z.mod_small. dlia.
Qed.

(** C40: the driver loses its place at the end of the ring.  From any offset below
    [RX_RING_WRAP], after a packet whose length it accepts, it reads on at an offset of the
    ring, where the card writes on, unless the packet ends exactly at the end of the ring:
    there, and only there, the card goes on at offset 0 and the driver at [RX_RING_WRAP]. *)
Theorem ring_followed cur n :
  0 <= cur < RX_RING_WRAP -> 4 <= n <= MAX_FRAME_SIZE + 4 ->
  let card := (cur + advance n) mod RX_RING_WRAP in
  (next_rx cur n = card <-> cur + advance n <> RX_RING_WRAP) /\
  (cur + advance n = RX_RING_WRAP -> card = 0 /\ next_rx cur n = RX_RING_WRAP).
Proof.
  intros Hc Hn. cbv zeta. rewrite next_rx_ok by done. destruct (_ =? _) eqn:E; [apply Z.eqb_eq in E; rewrite E|apply Z.eqb_neq in E].
  - rewrite Z_mod_same_full. unfold RX_RING_WRAP. split; [split; [done|by intros []]|done].
  - done.
Qed.

Lemma ring_followed_witness : next_rx 8160 60 = (8160 + advance 60) mod RX_RING_WRAP /\ next_rx 8128 60 = RX_RING_WRAP.
Proof.
  split.
  - apply (ring_followed 8160 60); [unfold RX_RING_WRAP; lia|unfold MAX_FRAME_SIZE; lia|by vm_compute].
  - apply (ring_followed 8128 60); [unfold RX_RING_WRAP; lia|unfold MAX_FRAME_SIZE; lia|by vm_compute].
Defined.

(** The two words of a packet's header. *)
Lemma header_words x y : is_u16 x -> is_u16 y -> let l := u16_to_le x ++ u16_to_le y in
  u16_from_le (byte_at l 0) (byte_at l 1) = x /\ u16_from_le (byte_at l 2) (byte_at l 3) = y.
Proof.
  unfold is_u16, u16_from_le, byte_at. intros Hx Hy. cbv zeta. change (Z.to_nat 0) with 0%nat. change (Z.to_nat 1) with 1%nat.
  change (Z.to_nat 2) with 2%nat. change (Z.to_nat 3) with 3%nat. cbn [u16_to_le app nth]. split; dlia.
Qed.

(** The frame a good packet leaves. *)
Definition good (p : packet) : bool := negb (Z.land (pstatus p) 1 =? 0).

Definition keep (x : option Z * list Z) (p : packet) : option Z * list Z :=
  if good p then (Some (zlen (pdata p)), put (snd x) 0 (pdata p)) else x.

(** The last good packet, as the driver returns it. *)
Lemma keep_last ps o out : zlen out = MAX_FRAME_SIZE -> (forall p, p ∈ ps -> zlen (pdata p) <= MAX_FRAME_SIZE) ->
  let '(o', out') := fold_left keep ps (o, out) in
  zlen out' = MAX_FRAME_SIZE /\
  match list.last (List.filter good ps) with
  | Some p => o' = Some (zlen (pdata p)) /\ sub out' 0 (zlen (pdata p)) = pdata p
  | None => o' = o /\ out' = out
  end.
Proof.
  intros L. induction ps as [|p ps IH] using rev_ind; intros F; [done|]. rewrite fold_left_app. cbn [fold_left].
  assert (Fp : zlen (pdata p) <= MAX_FRAME_SIZE) by (apply F; set_solver).
  specialize (IH ltac:(intros q Hq; apply F; set_solver)). destruct (fold_left keep ps (o, out)) as [o1 out1]. destruct IH as [L1 IH].
  rewrite List.filter_app. cbn [List.filter]. unfold keep. pose proof (zlen_nonneg (pdata p)). destruct (good p); cbn [snd].
  - rewrite last_snoc. split; [rewrite zlen_put; lia|]. split; [done|]. apply (sub_put_same out1 (pdata p) 0). lia.
  - by rewrite app_nil_r.
Qed.

Lemma idle_trans {W} `{Card W} (w1 w2 w3 : W) : idle_card w1 w2 -> idle_card w2 w3 -> idle_card w1 w3.
Proof.
  intros ([l1 A1] & ? & ? & ? & ? & T1) ([l2 A2] & ? & ? & ? & ? & T2). split_and!; try congruence.
  exists (l1 ++ l2). by rewrite A2, A1, app_assoc.
Qed.

Section driver.
Context {W : Type} {MW : Machine W} {PW : PortIO W} {CW : Card W} (io_base tx_buf_phys : Z) {CL : CardLaws W io_base tx_buf_phys}.
Implicit Types w : W.

(** Nothing but the ring, and what the card keeps of it, differs. *)
Definition others (w w' : W) : Prop :=
  log w' = log w /\ (forall v, v <> RX_BUF_VIRT -> mem v w' = mem v w) /\
  wire w' = wire w /\ tx_next w' = tx_next w /\ (forall i, tx_addr w' i = tx_addr w i).

Lemma others_trans w1 w2 w3 : others w1 w2 -> others w2 w3 -> others w1 w3.
Proof.
  intros (L1 & M1 & W1 & T1 & A1) (L2 & M2 & W2 & T2 & A2). split_and!; try congruence.
  intros v Hv. by rewrite M2, M1.
Qed.

Lemma still_others w w' : still w w' -> others w w'.
Proof. intros ((_ & _ & _ & ? & ? & ?) & ? & ?). by split_and!. Qed.

(** One packet is taken out of the ring. *)
Lemma take_packet_ok p out o w :
  arrived w !! taken w = Some p -> zlen out = MAX_FRAME_SIZE -> ring_head w + advance (plength p) <> RX_RING_WRAP ->
  runs (take_packet io_base (ring_head w) out o) w (fun '(cur, out', o') w' =>
    cur = ring_head w' /\ (o', out') = keep (o, out) p /\ taken w' = S (taken w) /\
    (exists l, arrived w' = arrived w ++ l) /\ others w w').
Proof.
  intros E L Sm. destruct (ring_law w p E) as (b & Eb & Lb & Sb). destruct (packet_law w p (list_elem_of_lookup_2 _ _ _ E)) as [Us Ld].
  pose proof (head_law w) as Hh. pose proof (zlen_nonneg (pdata p)) as Hd. unfold MAX_FRAME_SIZE, RX_RING_WRAP in *.
  set (h := ring_head w) in *. unfold take_packet. apply runs_bind. unfold runs at 1, peek. rewrite Eb.
  rewrite (proj2 (Z.leb_le _ _)), (proj2 (Z.leb_le _ _)) by lia. cbn [andb].
  assert (Hdr : sub b h (h + 4) = u16_to_le (pstatus p) ++ u16_to_le (plength p)).
  { pose proof (sub_app b h (h + 4) (h + 4 + zlen (pdata p)) ltac:(lia) ltac:(lia)) as Sp. rewrite Sb in Sp. unfold ring_bytes in Sp.
    rewrite app_assoc in Sp. apply app_inj_1 in Sp as [Sp _]; [done|]. 
    assert (Z.of_nat (length (sub b h (h + 4))) = 4) by (fold (zlen (sub b h (h + 4))); rewrite zlen_sub; lia).
    change (length (u16_to_le (pstatus p) ++ u16_to_le (plength p))) with 4%nat. lia. }
  assert (Data : sub b (h + 4) (h + 4 + zlen (pdata p)) = pdata p).
  { pose proof (sub_app b h (h + 4) (h + 4 + zlen (pdata p)) ltac:(lia) ltac:(lia)) as Sp. rewrite Sb, Hdr in Sp. unfold ring_bytes in Sp.
    rewrite app_assoc in Sp. by apply app_inv_head in Sp. }
  destruct (header_words (pstatus p) (plength p)) as [St Ln]; [done|unfold is_u16, plength; lia|]. rewrite <- Hdr in St, Ln.
  rewrite St, Ln. clear St Ln. assert (Hp : 4 <= plength p <= 1522) by (unfold plength; lia).
  rewrite (proj2 (Z.leb_le 4 (plength p))), (proj2 (Z.leb_le (plength p) (MAX_FRAME_SIZE + 4))) by (unfold MAX_FRAME_SIZE; lia).
  rewrite andb_true_r. apply runs_bind. eapply (runs_mono _ _ (fun '(out', o') w' => w' = w /\ (o', out') = keep (o, out) p)).
  { unfold keep, good. destruct (negb _); [|by apply runs_ret]. apply runs_bind. unfold runs at 1, peek. rewrite Eb.
    replace (plength p - 4) with (zlen (pdata p)) by (unfold plength; lia).
    rewrite (proj2 (Z.leb_le _ _)), (proj2 (Z.leb_le _ _)) by lia. cbn [andb]. rewrite Data. apply runs_bind, runs_pure.
    eexists. split; [apply bcopy_ok; lia|]. by apply runs_ret. }
  intros [out' o'] w1 [-> K]. cbv zeta. apply runs_bind. unfold outw, runs, modify.
  assert (Nx : next_rx h (plength p) = (h + advance (plength p)) mod 8192).
  { unfold plength. rewrite next_rx_ok by (unfold RX_RING_WRAP, MAX_FRAME_SIZE; lia).
    rewrite (proj2 (Z.eqb_neq _ _)); [done|]. exact Sm. }
  destruct (capr_law w p (next_rx h (plength p)) E) as (l & A & T & Hd' & Wi & Tn & Ta & Lg & Me).
  { rewrite Nx. by apply Zmod_mod. }
  cbn. rewrite Nx in *. split_and!; try done. by exists l.
Qed.

(** What the loop has done, when it has taken the packets [ps] out of the ring, at most [n]:
    all there were, if less. *)
Definition drained (n : nat) (out : list Z) (o : option Z) (w : W) (ps : list packet) (x : option Z * Z * list Z) (w' : W) : Prop :=
  snd (fst x) = ring_head w' /\ others w w' /\ (exists l, arrived w' = arrived w ++ l) /\
  take (length ps) (drop (taken w) (arrived w')) = ps /\ taken w' = (taken w + length ps)%nat /\ (length ps <= n)%nat /\
  (taken w' = length (arrived w') \/ length ps = n) /\ (fst (fst x), snd x) = fold_left keep ps (o, out).

Lemma drained_nil n out o w w1 : still w w1 -> n = O \/ ~ (taken w1 < length (arrived w1))%nat ->
  drained n out o w [] (o, ring_head w, out) w1.
Proof.
  intros St Hn. pose proof (still_others _ _ St) as Ot. destruct St as ((Al & Tk & Hh & _) & _ & _). pose proof (taken_law w1).
  unfold drained. cbn. split_and!; try done; try lia.
Qed.

Lemma drained_cons n out o w p w1 w2 ps x w' :
  still w w1 -> arrived w1 !! taken w1 = Some p -> taken w2 = S (taken w1) -> (exists l, arrived w2 = arrived w1 ++ l) -> others w1 w2 ->
  drained n (snd (keep (o, out) p)) (fst (keep (o, out) p)) w2 ps x w' -> drained (S n) out o w (p :: ps) x w'.
Proof.
  intros St E T2 [l2 A2] O2 (D1 & D2 & [l3 A3] & D4 & D5 & D6 & D7 & D8). pose proof (still_others _ _ St) as O1.
  destruct St as (([l1 A1] & T1 & _) & _ & _).
  assert (Ep : arrived w' !! taken w = Some p).
  { rewrite A3, A2, <- T1. apply lookup_app_l_Some, lookup_app_l_Some. exact E. }
  unfold drained. split_and!; try done.
  - eapply others_trans; [exact O1|]. eapply others_trans; [exact O2|exact D2].
  - exists (l1 ++ l2 ++ l3). by rewrite A3, A2, A1, <- !app_assoc.
  - cbn [length]. rewrite (drop_S _ _ _ Ep). cbn [take]. f_equal. rewrite <- T1, <- T2. exact D4.
  - cbn [length]. lia.
  - cbn [length]. lia.
  - cbn [length]. destruct D7; [by left|right; lia].
  - cbn [fold_left]. rewrite D8. by destruct (keep (o, out) p).
Qed.

(** The loop takes packets until the ring is empty or [n] have been taken. *)
Lemma drain_ok n out o w :
  zlen out = MAX_FRAME_SIZE ->
  (forall w p, arrived w !! taken w = Some p -> ring_head w + advance (plength p) <> RX_RING_WRAP) ->
  runs (drain io_base n (ring_head w) out o) w (fun x w' => exists ps, drained n out o w ps x w').
Proof.
  intros L Sm. revert out o w L. induction n as [|n IH]; intros out o w L.
  all: cbn [drain]; apply runs_bind; unfold inb, runs at 1; destruct (in8 _ w) as [v w1] eqn:Ei; destruct (cr_law _ _ _ Ei) as [St Bu].
  - assert (D : drained 0 out o w [] (o, ring_head w, out) w1) by (apply drained_nil; [done|by left]).
    destruct (negb _); apply runs_ret; by exists [].
  - destruct (Z.land v CR_BUFE =? 0) eqn:B; cbn [negb]; [apply Z.eqb_eq in B|apply Z.eqb_neq in B].
    + apply Bu in B. apply lookup_lt_is_Some in B as [p Ep]. pose proof St as ((_ & _ & Hh & _) & _ & _). rewrite <- Hh.
      runs_step (take_packet_ok p out o w1 Ep L (Sm w1 p Ep)). intros [[cur out'] o'] w2 (-> & K & T & A & Ot).
      assert (L' : zlen out' = MAX_FRAME_SIZE).
      { pose proof (keep_last [p] o out L) as Kl. cbn in Kl. rewrite <- K in Kl. apply Kl. intros q ->%list_elem_of_singleton.
        apply (packet_law w1). by eapply list_elem_of_lookup_2. }
      eapply runs_mono; [by apply IH|]. intros x w' (ps & D). exists (p :: ps). apply (drained_cons n out o w p w1 w2); try done.
      by rewrite <- K.
    + apply runs_ret. exists []. apply drained_nil; [done|]. right. intros ?%Bu. done.
Qed.

Lemma receive_ok cur out w :
  cur = ring_head w -> zlen out = MAX_FRAME_SIZE ->
  (forall w p, arrived w !! taken w = Some p -> ring_head w + advance (plength p) <> RX_RING_WRAP) ->
  runs (receive io_base cur out) w (fun '(o, cur', out') w' =>
    cur' = ring_head w' /\ zlen out' = MAX_FRAME_SIZE /\ others w w' /\ (exists l, arrived w' = arrived w ++ l) /\ exists ps,
    take (length ps) (drop (taken w) (arrived w')) = ps /\ taken w' = (taken w + length ps)%nat /\
    (taken w' = length (arrived w') \/ zlen ps = MAX_PACKETS_PER_DRAIN) /\
    match list.last (List.filter good ps) with
    | Some p => o = Some (zlen (pdata p)) /\ sub out' 0 (zlen (pdata p)) = pdata p
    | None => o = None /\ out' = out
    end).
Proof.
  intros -> L Sm. unfold receive. eapply runs_mono; [by apply drain_ok|].
  intros [[o cur] out'] w' (ps & D1 & D2 & D3 & D4 & D5 & D6 & D7 & D8). cbn in D1, D8.
  pose proof (keep_last ps None out L) as K. rewrite <- D8 in K.
  assert (F : forall p, p ∈ ps -> zlen (pdata p) <= MAX_FRAME_SIZE).
  { intros p Hp. apply (packet_law w'). rewrite <- D4 in Hp. apply list_elem_of_lookup in Hp as [i Hi].
    apply lookup_take_Some in Hi as [Hi _]. rewrite lookup_drop in Hi. by eapply list_elem_of_lookup_2. }
  destruct (K F) as [L' K']. split_and!; try done. exists ps. split_and!; try done.
  destruct D7 as [?|D7]; [by left|right]. unfold zlen. rewrite D7. done.
Qed.

(** ** Transmission *)

Context {ML : MachineLaws W}.

Lemma wait_while_ok n (busy : io W bool) w :
  (forall w, runs busy w (fun _ w' => still w w')) -> runs (wait_while n busy) w (fun _ w' => others w w' /\ idle_card w w').
Proof.
  intros B. assert (I : forall w, idle_card w w) by (intros w0; split; [exists []; by rewrite app_nil_r|done]).
  revert w. induction n as [|n IH]; intros w; [apply runs_ret; by split_and!|]. cbn [wait_while].
  runs_step (B w). intros b w1 St. pose proof (still_others _ _ St) as Ot. destruct St as [Id _]. destruct b; [|by apply runs_ret].
  eapply runs_mono; [apply IH|]. intros ? w2 [O2 I2]. split; [by eapply others_trans|by eapply idle_trans].
Qed.

Lemma tx_base : buffer_base TX_BUF_VIRT.
Proof. done. Qed.

(** Sending a frame. *)
Lemma rtl_send_ok frame desc w :
  desc = tx_next w -> 0 <= desc < 4 -> mapped TX_BUF_VIRT w ->
  runs (rtl_send io_base tx_buf_phys frame desc) w (fun '(ok, desc') w' =>
    desc' = tx_next w' /\ 0 <= desc' < 4 /\ mapped TX_BUF_VIRT w' /\ log w' = log w /\
    (forall v, v <> RX_BUF_VIRT -> v <> TX_BUF_VIRT -> buffer_base v -> mem v w' = mem v w) /\
    taken w' = taken w /\ ring_head w' = ring_head w /\ (exists l, arrived w' = arrived w ++ l) /\
    if (0 <? zlen frame) && (zlen frame <=? MAX_FRAME_SIZE) then wire w' = wire w ++ [frame]
    else ok = false /\ wire w' = wire w).
Proof.
  intros -> Hd M. unfold rtl_send. pose proof (zlen_nonneg frame). unfold MAX_FRAME_SIZE.
  destruct ((zlen frame =? 0) || (1518 <? zlen frame)) eqn:G.
  { apply runs_ret. split_and!; try done; try lia; [exists []; by rewrite app_nil_r|].
    rewrite (proj2 (andb_false_iff _ _)); [done|]. apply orb_true_iff in G as [G|G]; [left|right]; bool_simp; lia. }
  apply orb_false_elim in G as [G1 G2]. apply Z.eqb_neq in G1. apply Z.ltb_ge in G2.
  rewrite (proj2 (Z.ltb_lt _ _)), (proj2 (Z.leb_le _ _)) by lia. cbn [andb]. cbv zeta.
  destruct M as (b & Eb & Lb). apply runs_bind. eapply (store_ok TX_BUF_VIRT frame w); [apply tx_base|by exists b|lia|].
  intros b0 E0 L0 w1 G0 E1. rewrite Eb in E0. injection E0 as <-. pose proof (store_card_law TX_BUF_VIRT (put b 0 frame) w ltac:(done)) as Id.
  fold w1 in Id. destruct Id as ([l1 A1] & T1 & H1 & Wi1 & N1 & _).
  apply runs_bind, runs_pure. rewrite bget_ok by (change (zlen REG_TSAD) with 4; lia). eexists. split; [done|].
  set (i := tx_next w) in *. apply runs_bind. unfold outl, modify. unfold runs at 1.
  destruct (tsad_law i tx_buf_phys w1 Hd) as ([l2 A2] & T2 & H2 & Wi2 & N2 & Ad & Lg2 & Me2). set (w2 := out32 _ _ w1) in *.
  apply runs_bind, runs_pure. rewrite bget_ok by (change (zlen REG_TSD) with 4; lia). eexists. split; [done|].
  assert (Em : mem TX_BUF_VIRT w2 = Some (put b 0 frame)) by (rewrite Me2 by done; exact E1).
  assert (Lp : zlen (put b 0 frame) = zlen b) by (apply zlen_put; lia).
  apply runs_bind. unfold runs at 1. rewrite (wrap_small 32 (zlen frame)) by lia.
  destruct (tsd_law i (zlen frame) (put b 0 frame) w2 Hd) as ([l3 A3] & T3 & H3 & Wi3 & N3 & Lg3 & Me3); [congruence|done|done|lia|].
  set (w3 := out32 _ _ w2) in *. pose proof (sub_put_same b frame 0 ltac:(lia)) as Sp. rewrite Z.add_0_l in Sp. rewrite Sp in Wi3.
  apply runs_bind. eapply runs_mono; [apply (wait_while_ok _ _ w3)|].
  { intros w0. apply runs_bind. unfold inl, runs at 1. destruct (in32 _ w0) as [v w'] eqn:Ei. apply runs_ret. exact (own_law i w0 v w' Hd Ei). }
  intros ok w4 [(Lg4 & Me4 & Wi4 & N4 & _) ([l4 A4] & T4 & H4 & _)]. apply runs_ret.
  assert (Nx : wrap8 (i + 1) mod 4 = (i + 1) mod 4) by (rewrite wrap_small by lia; done).
  split_and!; try congruence; try (rewrite Nx; dlia).
  - exists (put b 0 frame). rewrite Me4, Me3 by done. split; [done|lia].
  - rewrite Lg4, Lg3, Lg2. apply store_log_law.
  - intros v V1 V2 V3. rewrite Me4, Me3, Me2 by done. by apply other_law.
  - exists (l1 ++ l2 ++ l3 ++ l4). by rewrite A4, A3, A2, A1, <- !app_assoc.
Qed.

(** ** The service *)

(** No packet ends exactly at the end of the ring: there the driver would lose its place
    ([next_rx_ok]). *)
Context (seam : forall w p, arrived w !! taken w = Some p -> ring_head w + advance (plength p) <> RX_RING_WRAP).
Context (mac : list Z).

Record driver_ok (d : driver) (w : W) : Prop := {
  do_cur : cur_rx d = ring_head w;
  do_last : zlen (last_rx d) = MAX_FRAME_SIZE /\ 0 <= last_rx_len d <= MAX_FRAME_SIZE;
  do_tx : tx_desc d = tx_next w /\ 0 <= tx_desc d < 4;
  do_tx_buf : mapped TX_BUF_VIRT w;
  do_client : client_buf_mapped d = true -> mapped CLIENT_BUF_VIRT w
}.

Lemma client_buf_base : buffer_base CLIENT_BUF_VIRT.
Proof. done. Qed.

Lemma driver_ok_grows d w w' : driver_ok d w -> grows w w' -> idle_card w w' -> driver_ok d w'.
Proof.
  intros [C L T B K] [M _] (_ & _ & Hh & _ & Tn & _). split; [congruence|done|by rewrite Tn|by apply M|].
  intros E. apply M; [done|auto].
Qed.

Lemma driver_ok_others d w w' : driver_ok d w -> others w w' -> ring_head w' = cur_rx d -> driver_ok d w'.
Proof.
  intros [C L T (b & E & Lb) K] (_ & M & _ & Tn & _) Hh. split; [done|done|by rewrite Tn|exists b; by rewrite M|].
  intros (b' & E' & L')%K. exists b'. by rewrite M.
Qed.

Definition told (cr v v2 : Z) (w w' : W) : Prop := says w w' [Event (SysArgs SYS_SEND cr v v2 0 0) (fun a => mem a w)].

Lemma tell_ok v v2 d w : driver_ok d w -> safely (tell v v2 d) w (fun _ w' => (driver_ok d w' /\ idle_card w w') /\ told (client_reply d) v v2 w w').
Proof.
  intros O. unfold tell. apply safely_bind, (call_one (SysArgs SYS_SEND (client_reply d) v v2 0 0)). intros r w' E G.
  apply safely_ret. pose proof (answer_card_law _ _ _ _ E). split; [|exact (log_law _ _ _ _ E)]. split; [by eapply driver_ok_grows|done].
Qed.

(** The frame goes to the client, whose buffer holds it when it is told. *)
Lemma deliver_ok d w : driver_ok d w -> client_buf_mapped d = true ->
  safely (deliver d) w (fun d' w' => driver_ok d' w' /\ d' = set_rx (cur_rx d) (last_rx d) 0 d /\ idle_card w w' /\
    exists f b, says w w' [Event (SysArgs SYS_SEND (client_reply d) (last_rx_len d) 0 0 0) f] /\ f CLIENT_BUF_VIRT = Some b /\
      sub b 0 (last_rx_len d) = sub (last_rx d) 0 (last_rx_len d)).
Proof.
  intros O M. destruct (do_last _ _ O) as [Ll Hl]. destruct (do_client _ _ O M) as (b & Eb & Lb). unfold MAX_FRAME_SIZE in *.
  apply safely_bind, safely_pure. rewrite bslice_ok by lia. cbn [okay]. set (n := last_rx_len d) in *.
  assert (Ln : zlen (sub (last_rx d) 0 n) = n) by (rewrite zlen_sub; lia).
  apply safely_bind, runs_safely, load_ok; [by exists b|unfold MAX_FRAME_SIZE; lia|]. intros b0 E0 L0. rewrite Eb in E0. injection E0 as <-.
  unfold MAX_FRAME_SIZE in L0 |- *. apply safely_bind, safely_pure. rewrite bcopy_ok by lia. cbn [okay].
  apply safely_bind, runs_safely, store_ok; [apply client_buf_base|by exists b|rewrite zlen_put; lia|].
  intros b0 E0 L1 w1 G1 E1. rewrite Eb in E0. injection E0 as <-. rewrite (put_through b) in E1 by lia.
  assert (I1 : idle_card w w1) by (by apply store_card_law). assert (O1 : driver_ok d w1) by (by eapply driver_ok_grows).
  rewrite (wrap_small 32 n) by lia. safely_step (tell_ok n 0 d w1 O1). intros ? w2 [[O2 I2] T2]. apply safely_ret.
  split; [destruct O2 as [C2 K2 T3 B2 M2]; split; try done; cbn; unfold MAX_FRAME_SIZE; lia|]. split; [done|].
  split; [by eapply idle_trans|].
  exists (fun a => mem a w1), (put b 0 (sub (last_rx d) 0 n)). split_and!; [|exact E1|].
  - unfold told, says in *. rewrite T2. unfold w1. by rewrite store_log_law.
  - rewrite <- Ln at 2. pose proof (sub_put_same b (sub (last_rx d) 0 n) 0 ltac:(lia)) as Sp. by rewrite Z.add_0_l in Sp.
Qed.

(** The driver after it has taken the packets [ps] on an interrupt. *)
Definition took (ps : list packet) (d d' : driver) (w w' : W) : Prop :=
  take (length ps) (drop (taken w) (arrived w')) = ps /\ taken w' = (taken w + length ps)%nat /\
  (taken w' = length (arrived w') \/ zlen ps = MAX_PACKETS_PER_DRAIN) /\
  match list.last (List.filter good ps) with
  | Some p => last_rx_len d' = zlen (pdata p) /\ sub (last_rx d') 0 (zlen (pdata p)) = pdata p
  | None => last_rx_len d' = last_rx_len d /\ last_rx d' = last_rx d
  end.

Definition same_client (d d' : driver) : Prop :=
  client_reply d' = client_reply d /\ client_buf_mapped d' = client_buf_mapped d /\ recv_armed d' = recv_armed d.

(** The packets in the ring are taken, the last good frame is the last. *)
Lemma receive_takes d w : driver_ok d w ->
  runs (receive io_base (cur_rx d) (last_rx d)) w (fun '(o, cur, out) w' => 
    let d' := set_rx cur out (default (last_rx_len d) o) d in
    driver_ok d' w' /\ others w w' /\ (exists l, arrived w' = arrived w ++ l) /\ exists ps, took ps d d' w w').
Proof.
  intros O. destruct (do_last _ _ O) as [Ll Hl]. eapply runs_mono; [apply receive_ok; [apply O|done|exact seam]|].
  intros [[o cur] out] w' (-> & Lo & Ot & Al & ps & E & Et & Em & K). cbv zeta.
  assert (Hn : 0 <= default (last_rx_len d) o <= MAX_FRAME_SIZE).
  { destruct (list.last _) as [p|] eqn:El; [|by destruct K as [-> _]]. destruct K as [-> Ks]. cbn. pose proof (zlen_nonneg (pdata p)).
    split; [done|]. rewrite <- Lo. rewrite <- Ks at 1. unfold sub, zlen. rewrite length_take, length_drop. lia. }
  split_and!; [|done|done|].
  - destruct O as [C L T (b & Eb & Lb) Cl]. destruct Ot as (_ & Me & _ & Tn & _). split; cbn; [done|done|by rewrite Tn|exists b; by rewrite Me|].
    intros (b' & E' & L')%Cl. exists b'. by rewrite Me.
  - exists ps. split_and!; try done. destruct (list.last _) as [p|]; destruct K as [-> K]; done.
Qed.

(** Acknowledging the interrupt. *)
Lemma ack_ok d w : driver_ok d w ->
  runs (ack_interrupt io_base) w (fun v w' => v = fst (in16 (reg io_base REG_ISR) w) /\ driver_ok d w' /\ others w w' /\
    (exists l, arrived w' = arrived w ++ l) /\ taken w' = taken w).
Proof.
  intros O. unfold ack_interrupt. apply runs_bind. unfold inw, runs at 1. destruct (in16 _ w) as [v w1] eqn:Ei.
  pose proof (isr_in_law _ _ _ Ei) as S1. apply runs_bind. unfold outw, modify, runs at 1.
  pose proof (isr_out_law v w1) as S2. set (w2 := out16 _ _ w1) in *. apply runs_ret. split; [done|].
  assert (Ot : others w w2) by (eapply others_trans; by apply still_others).
  destruct S1 as (([l1 A1] & T1 & H1 & _) & _), S2 as (([l2 A2] & T2 & H2 & _) & _). split_and!; [|done| |congruence].
  - apply (driver_ok_others d w); [done|done|]. rewrite H2, H1. symmetry. apply O.
  - exists (l1 ++ l2). by rewrite A2, A1, app_assoc.
Qed.

Lemma on_interrupt_ok d w : driver_ok d w -> safely (on_interrupt io_base d) w driver_ok.
Proof.
  intros O. unfold on_interrupt. apply safely_bind, runs_safely. eapply runs_mono; [by apply (ack_ok d)|].
  intros v w1 (_ & O1 & _). destruct (_ =? 0); [by apply safely_ret|].
  apply safely_bind, runs_safely. eapply runs_mono; [by apply receive_takes|]. intros [[o cur] out] w2 (O2 & _). cbv zeta in O2.
  destruct o as [len|]; cbn in O2; [|by apply safely_ret]. cbv zeta. destruct (_ && _ && _) eqn:G; [|by apply safely_ret].
  apply andb_prop in G as [_ G]. safely_step (deliver_ok _ w2 O2 G). intros d' w3 (O3 & _). apply safely_ret. destruct O3. by split.
Qed.

(** An interrupt without a waiting client: the last good frame is kept for it. *)
Lemma on_interrupt_takes d w : driver_ok d w -> recv_armed d = false -> Z.land (fst (in16 (reg io_base REG_ISR) w)) ISR_ROK <> 0 ->
  safely (on_interrupt io_base d) w (fun d' w' => driver_ok d' w' /\ same_client d d' /\ log w' = log w /\ (length (arrived w) <= length (arrived w'))%nat /\
    exists ps, took ps d d' w w').
Proof.
  intros O Ar Rok. unfold on_interrupt. apply safely_bind, runs_safely. eapply runs_mono; [by apply (ack_ok d)|].
  intros v w1 (-> & O1 & Ot1 & [l1 A1] & T1). rewrite (proj2 (Z.eqb_neq _ _) Rok). apply safely_bind, runs_safely.
  eapply runs_mono; [by apply receive_takes|].
  intros [[o cur] out] w2 (O2 & Ot2 & [l2 A2] & ps & K1 & K2). cbv zeta in *. rewrite T1 in K1, K2.
  assert (L : log w2 = log w) by (destruct Ot1 as [<- _], Ot2 as [<- _]; done).
  assert (Ln : (length (arrived w) <= length (arrived w2))%nat) by (rewrite A2, A1, !length_app; lia).
  destruct o as [len|]; cbn in O2, K2.
  - cbv zeta. replace (recv_armed (set_rx cur out len d)) with false by done. cbn [andb]. apply safely_ret. split_and!; try done. by exists ps.
  - apply safely_ret. split_and!; try done. by exists ps.
Qed.

Lemma tell_then v v2 d w : driver_ok d w -> safely (_ ← tell v v2 d; mret d) w driver_ok.
Proof. intros O. safely_step (tell_ok v v2 d w O). by intros ? w' [[O' _] _]. Qed.

Lemma deliver_safe d w : driver_ok d w -> client_buf_mapped d = true -> safely (deliver d) w driver_ok.
Proof. intros O M. eapply safely_mono; [by apply deliver_ok|]. by intros d' w' (O' & _). Qed.

(** A frame of the client's buffer is sent; the client is told how it went. *)
Lemma on_send_ok r d w : driver_ok d w -> 0 <= w1 r -> client_reply d <> 0 ->
  safely (on_send io_base tx_buf_phys r d) w (fun d' w' => driver_ok d' w' /\ exists v f,
    says w w' [Event (SysArgs SYS_SEND (client_reply d) v 0 0 0) f] /\ 0 <= v <= 1 /\
    (client_buf_mapped d = true -> 0 < w1 r <= MAX_FRAME_SIZE ->
       exists b, mem CLIENT_BUF_VIRT w = Some b /\ wire w' = wire w ++ [sub b 0 (w1 r)])).
Proof.
  intros O H1 Hc. unfold on_send. rewrite (proj2 (Z.eqb_neq _ _) Hc).
  destruct (client_buf_mapped d) eqn:M; cbn [negb].
  2:{ safely_step (tell_ok 0 0 d w O). intros ? w' [[O' _] T]. apply safely_ret. split; [done|]. eexists 0, _. split; [exact T|]. split; [lia|done]. }
  destruct (do_client _ _ O M) as (b & Eb & Lb). cbv zeta. unfold MAX_FRAME_SIZE. set (n := Z.min _ _).
  apply safely_bind, runs_safely, load_ok; [by exists b|lia|]. intros b0 E0 L0. rewrite Eb in E0. injection E0 as <-.
  apply safely_bind, safely_pure. rewrite bslice_ok by lia. cbn [okay].
  assert (Es : sub (sub b 0 1518) 0 n = sub b 0 n) by (unfold sub; rewrite Z2Nat.inj_0, !drop_0, take_take; f_equal; lia). rewrite Es.
  assert (Ln : zlen (sub b 0 n) = n) by (rewrite zlen_sub; lia).
  apply safely_bind, runs_safely. eapply runs_mono; [apply rtl_send_ok; [apply (do_tx _ _ O)|apply (do_tx _ _ O)|apply (do_tx_buf _ _ O)]|].
  intros [ok desc] w1' (-> & Hd & Mt & Lg & Me & Tk & Hh & Al & Wi). rewrite Ln in Wi.
  assert (O1 : driver_ok (set_tx (tx_next w1') d) w1').
  { destruct O as [C L T B K]. split; cbn; try done; [by rewrite Hh|]. intros _. exists b. by rewrite Me. }
  safely_step (tell_ok (if ok then 1 else 0) 0 _ w1' O1). intros ? w2 [[O2 I2] T2]. apply safely_ret. split; [done|].
  eexists _, _. split; [unfold told, says in *; rewrite T2, Lg; reflexivity|]. split; [destruct ok; lia|].
  intros _ Hw. exists b. split; [done|]. assert (En : n = w1 r) by (unfold n; lia). rewrite En in Wi. destruct I2 as (_ & _ & _ & -> & _).
  by rewrite (proj2 (Z.ltb_lt _ _)), (proj2 (Z.leb_le _ _)) in Wi by (unfold MAX_FRAME_SIZE; lia).
Qed.

(** Polling: the frame that is kept, once. *)
Lemma on_try_recv_ok d w : driver_ok d w -> client_reply d <> 0 ->
  safely (on_try_recv d) w (fun d' w' => driver_ok d' w' /\ client_reply d' = client_reply d /\ idle_card w w' /\
    let n := if client_buf_mapped d then last_rx_len d else 0 in
    (client_buf_mapped d = true -> last_rx_len d' = 0 /\ client_buf_mapped d' = true) /\ exists f,
    says w w' [Event (SysArgs SYS_SEND (client_reply d) n 0 0 0) f] /\
    (0 < n -> exists b, f CLIENT_BUF_VIRT = Some b /\ sub b 0 n = sub (last_rx d) 0 n)).
Proof.
  intros O Hc. unfold on_try_recv. rewrite (proj2 (Z.eqb_neq _ _) Hc). destruct (client_buf_mapped d) eqn:M; cbn [negb orb].
  - destruct (last_rx_len d =? 0) eqn:E; [apply Z.eqb_eq in E; rewrite E|].
    + safely_step (tell_ok 0 0 d w O). intros ? w' [[O' I'] T]. apply safely_ret. split_and!; try done.
      eexists. split; [exact T|lia].
    + eapply safely_mono; [by apply deliver_ok|]. intros d' w' (O' & -> & I' & f & b & S & Eb & Es). split_and!; try done.
      exists f. split; [done|]. intros _. by exists b.
  - safely_step (tell_ok 0 0 d w O). intros ? w' [[O' I'] T]. apply safely_ret. split_and!; try done.
    eexists. split; [exact T|]. cbn. lia.
Qed.

Lemma rtl_recv_safe d w : driver_ok d w -> safely (on_recv d) w driver_ok.
Proof.
  intros O. unfold on_recv. destruct (_ =? 0); [by apply safely_ret|]. destruct (client_buf_mapped d) eqn:M; cbn [negb].
  - destruct (0 <? _); [by apply deliver_safe|apply safely_ret; by destruct O].
  - by apply tell_then.
Qed.

(** Any message keeps the invariant. *)
Lemma rtl_serve_ok r d w : driver_ok d w -> 0 <= w1 r -> safely (serve io_base tx_buf_phys mac r d) w driver_ok.
Proof.
  intros O Hr. unfold serve. destruct (_ =? KERNEL_TASK_ID); [by apply on_interrupt_ok|].
  destruct (_ =? NIC_OP_SET_BUFFER).
  { destruct (negb _); [|by apply safely_ret]. apply safely_bind.
    apply (call_one (SysArgs SYS_MAP_MEMORY (transferred_slot r) CLIENT_BUF_VIRT 0 0 0) (fun a => as_i32 (r_eax a))). intros a w' E G. apply safely_ret.
    assert (O' : driver_ok d w') by (eapply driver_ok_grows; [done|done|by eapply answer_card_law]).
    destruct (_ =? 0) eqn:Ee; [|done]. apply Z.eqb_eq in Ee. destruct O'. split; try done. intros _. by eapply map_law. }
  destruct (_ =? NIC_OP_SET_REPLY); [apply safely_ret; destruct (negb _); [by destruct O|done]|].
  destruct (_ =? NIC_OP_GET_MAC); [destruct (_ =? 0); [by apply safely_ret|]; destruct (pack_name mac); by apply tell_then|].
  destruct (_ =? NIC_OP_SEND).
  { destruct (decide (client_reply d = 0)) as [E|N]; [unfold on_send; rewrite E; by apply safely_ret|].
    eapply safely_mono; [by apply on_send_ok|]. by intros d' w' [? _]. }
  destruct (_ =? NIC_OP_RECV); [by apply rtl_recv_safe|]. destruct (_ =? NIC_OP_TRY_RECV); [|by apply safely_ret].
  destruct (decide (client_reply d = 0)) as [E|N]; [unfold on_try_recv; rewrite E; by apply safely_ret|].
  eapply safely_mono; [by apply on_try_recv_ok|]. by intros d' w' [? _].
Qed.

Lemma rtl_turns_ok n d w : driver_ok d w -> safely (rtl_turns io_base tx_buf_phys mac n d) w driver_ok.
Proof.
  revert d w. induction n as [|n IH]; intros d w O; [by apply safely_ret|]. cbn [rtl_turns]. apply safely_bind.
  apply (call_one (SysArgs SYS_RECV MY_INBOX 0 0 0 0) of_raw). intros r w' E G. destruct (regs_law _ _ _ _ E) as (_ & _ & R & _).
  safely_step (rtl_serve_ok (of_raw r) d w'); [|apply R|].
  - eapply driver_ok_grows; [done|done|by eapply answer_card_law].
  - intros d' w2 O2. by apply IH.
Qed.

(** ** Termination *)

(** Sending a message and mapping a grant return. *)
Context (returns : forall c w, num c = SYS_SEND \/ num c = SYS_MAP_MEMORY -> answer c w <> None).

Lemma total_wait_while n (busy : io W bool) : total busy -> total (wait_while n busy).
Proof. intros B. induction n as [|n IH]; cbn [wait_while]; repeat total_step. Qed.

Lemma total_take_packet cur out o : total (take_packet io_base cur out o : io W _).
Proof. unfold take_packet. cbv zeta. repeat total_step. Qed.

Lemma total_drain n cur out o : total (drain io_base n cur out o : io W _).
Proof.
  revert cur out o. induction n as [|n IH]; intros cur out o; cbn [drain]; repeat total_step.
  apply total_take_packet.
Qed.

Lemma total_rtl_send frame desc : total (rtl_send io_base tx_buf_phys frame desc : io W _).
Proof. unfold rtl_send. cbv zeta. repeat total_step. apply total_wait_while. repeat total_step. Qed.

Lemma total_tell v v2 d : total (tell v v2 d : io W _).
Proof.
  intros w. unfold tell, mbind, io_bind. cbn. pose proof (returns (SysArgs SYS_SEND (client_reply d) v v2 0 0) w ltac:(by left)).
  by destruct (answer _ w) as [[]|].
Qed.

Lemma total_map g v : total (call (map_memory g v) : io W _).
Proof.
  intros w. cbn. pose proof (returns (SysArgs SYS_MAP_MEMORY g v 0 0 0) w ltac:(by right)). by destruct (answer _ w) as [[]|].
Qed.

Lemma total_deliver d : total (deliver d : io W _).
Proof. unfold deliver. repeat total_step. apply total_tell. Qed.

Hint Resolve total_take_packet total_drain total_rtl_send total_tell total_map total_deliver : total.

Lemma total_interrupt d : total (on_interrupt io_base d : io W _).
Proof. unfold on_interrupt, receive, ack_interrupt. cbv zeta. repeat total_step. Qed.

Lemma total_serve r d : total (serve io_base tx_buf_phys mac r d : io W _).
Proof.
  unfold serve. destruct (_ =? KERNEL_TASK_ID); [apply total_interrupt|]. unfold on_send, on_recv, on_try_recv. cbv zeta.
  repeat total_step.
Qed.
End driver.

(** ** The whole driver *)

(** The card keeps its place, and writes nowhere but to the ring. *)
Definition keeps_place {W} `{Machine W} `{Card W} (w w' : W) : Prop :=
  ring_head w' = ring_head w /\ tx_next w' = tx_next w /\ forall v, v <> RX_BUF_VIRT -> mem v w' = mem v w.

(** What the driver relies on when it starts: the kernel gives it the card's ports and the
    physical address of its transmit buffer; a reset takes the card to the start of the
    ring and to its first descriptor, and setting it up leaves it there. *)
Class StartLaws (W : Type) `{Machine W} `{PortIO W} `{Card W} (io_base tx_buf_phys : Z) := {
  info_law (w : W) r w' b : answer (SysArgs SYS_MAP_MEMORY NIC_INFO_SLOT NIC_INFO_VIRT 0 0 0) w = Some (r, w') ->
    as_i32 (r_eax r) = 0 -> mem NIC_INFO_VIRT w' = Some b -> wrap16 (word (sub b 0 4) 0) = io_base;
  phys_law (w : W) r w' : answer (SysArgs SYS_MEM_ALLOC TX_BUF_VIRT 1 0 0 0) w = Some (r, w') -> r_eax r <> 0 -> r_ecx r = tx_buf_phys;
  config_law (w : W) : forall v, v <> RX_BUF_VIRT -> mem v (out8 (reg io_base REG_CONFIG1) 0 w) = mem v w;
  reset_law (w : W) : let w' := out8 (reg io_base REG_CR) CR_RST w in
    ring_head w' = 0 /\ tx_next w' = 0 /\ forall v, v <> RX_BUF_VIRT -> mem v w' = mem v w;
  read_law p (w : W) v w' : in8 p w = (v, w') -> keeps_place w w';
  rbstart_law x (w : W) : keeps_place w (out32 (reg io_base REG_RBSTART) x w);
  imr_law x (w : W) : keeps_place w (out16 (reg io_base REG_IMR) x w);
  rcr_law x (w : W) : keeps_place w (out32 (reg io_base REG_RCR) x w);
  enable_law (w : W) : keeps_place w (out8 (reg io_base REG_CR) (Z.lor CR_RE CR_TE) w)
}.

Section start.
Context {W : Type} {MW : Machine W} {ML : MachineLaws W} {PW : PortIO W} {CW : Card W} (io_base tx_buf_phys : Z)
  {CL : CardLaws W io_base tx_buf_phys} {SL : StartLaws W io_base tx_buf_phys}.

Lemma keeps_place_refl (w : W) : keeps_place w w.
Proof. done. Qed.

Lemma keeps_place_trans (w1 w2 w3 : W) : keeps_place w1 w2 -> keeps_place w2 w3 -> keeps_place w1 w3.
Proof. intros (H1 & T1 & M1) (H2 & T2 & M2). split_and!; try congruence. intros v Hv. by rewrite M2, M1. Qed.

Lemma wait_place n p f (w : W) : runs (wait_while n (v ← inb p; mret (f v))) w (fun _ w' => keeps_place w w').
Proof.
  revert w. induction n as [|n IH]; intros w; [apply runs_ret, keeps_place_refl|]. cbn [wait_while]. apply runs_bind, runs_bind.
  unfold inb, runs at 1. destruct (in8 p w) as [v w1] eqn:E. apply runs_ret. pose proof (read_law _ _ _ _ E) as K.
  destruct (f v); [|by apply runs_ret]. eapply runs_mono; [apply IH|]. intros ? w2 K2. by eapply keeps_place_trans.
Qed.

Lemma read_mac_place n i (w : W) : runs (read_mac io_base n i) w (fun _ w' => keeps_place w w').
Proof.
  revert i w. induction n as [|n IH]; intros i w; [apply runs_ret, keeps_place_refl|]. cbn [read_mac]. apply runs_bind.
  unfold inb, runs at 1. destruct (in8 _ w) as [v w1] eqn:E. pose proof (read_law _ _ _ _ E) as K. apply runs_bind.
  eapply runs_mono; [apply IH|]. intros m w2 K2. apply runs_ret. by eapply keeps_place_trans.
Qed.

(** The card starts at the start of the ring. *)
Lemma init_ok rx (w : W) : runs (init io_base rx) w (fun o w' => (forall v, v <> RX_BUF_VIRT -> mem v w' = mem v w) /\
  (is_Some o -> ring_head w' = 0 /\ tx_next w' = 0)).
Proof.
  unfold init. apply runs_bind. unfold outb at 1, runs at 1, modify. pose proof (config_law w) as M1. set (w1 := out8 _ _ w) in *.
  apply runs_bind. unfold outb at 1, runs at 1, modify. destruct (reset_law w1) as (H2 & T2 & M2). set (w2 := out8 _ _ w1) in *.
  apply runs_bind. eapply runs_mono; [apply wait_place|]. intros ok w3 K3.
  destruct ok; cbn [negb]; [|apply runs_ret; split; [intros v Hv; destruct K3 as (_ & _ & ->); [by rewrite M2, M1|done]|by intros [? ?]]].
  apply runs_bind. eapply runs_mono; [apply read_mac_place|]. intros mac w4 K4.
  do 4 (apply runs_bind; unfold outb, outw, outl, runs at 1, modify). apply runs_ret.
  pose proof (rbstart_law rx w4) as K5. set (w5 := out32 _ _ w4) in *.
  pose proof (imr_law (Z.lor ISR_ROK ISR_TOK) w5) as K6. set (w6 := out16 _ _ w5) in *.
  pose proof (rcr_law (Z.lor (Z.lor (Z.lor RCR_APM RCR_AM) RCR_AB) RCR_WRAP) w6) as K7. set (w7 := out32 _ _ w6) in *.
  pose proof (enable_law w7) as K8. set (w8 := out8 _ _ w7) in *.
  assert (K : keeps_place w2 w8) by exact (keeps_place_trans _ _ _ K3 (keeps_place_trans _ _ _ K4 (keeps_place_trans _ _ _ K5 (keeps_place_trans _ _ _ K6 (keeps_place_trans _ _ _ K7 K8))))). destruct K as (Hh & Ht & Hm). split.
  - intros v Hv. by rewrite Hm, M2, M1.
  - intros _. by rewrite Hh, Ht.
Qed.

Lemma rtl_start_ok (w : W) :
  safely rtl_start w (fun '(io, tx, mac, d) w' => io = io_base /\ tx = tx_buf_phys /\ driver_ok d w').
Proof.
  unfold rtl_start. apply safely_bind.
  apply (call_one (SysArgs SYS_MAP_MEMORY NIC_INFO_SLOT NIC_INFO_VIRT 0 0 0) (fun a => as_i32 (r_eax a))). intros r w1 E1 G1.
  destruct (_ =? 0) eqn:Z1; cbn [negb]; [|apply exit_safe]. apply Z.eqb_eq in Z1.
  apply safely_bind, runs_safely, load_ok; [by eapply map_law|lia|]. intros b Eb _. rewrite (info_law _ _ _ _ E1 Z1 Eb).
  apply safely_bind, (call_one (SysArgs SYS_MEM_ALLOC RX_BUF_VIRT RX_BUF_PAGES 0 0 0) (fun a => (r_eax a, r_ecx a))). intros r2 w2 E2 G2.
  apply safely_bind, (call_one (SysArgs SYS_MEM_ALLOC TX_BUF_VIRT 1 0 0 0) (fun a => (r_eax a, r_ecx a))). intros r3 w3 E3 G3.
  destruct (r_eax r2 =? 0); [apply exit_safe|]. cbn [orb]. destruct (r_eax r3 =? 0) eqn:Z3; [apply exit_safe|]. apply Z.eqb_neq in Z3.
  rewrite (phys_law _ _ _ E3 Z3). assert (M : mapped TX_BUF_VIRT w3) by (eapply alloc_law; [exact E3|lia|done]).
  apply safely_bind, runs_safely. eapply runs_mono; [apply init_ok|]. intros o w4 [M4 P4].
  destruct o as [mac|]; [|apply exit_safe]. destruct (P4 ltac:(done)) as [Hh Ht].
  assert (O : driver_ok driver_new w4).
  { split; cbn; [by rewrite Hh|split; [by vm_compute|vm_compute; split; discriminate]|rewrite Ht; lia| |done].
    destruct M as (b' & E' & L'). exists b'. by rewrite M4. }
  apply safely_bind, (call_one (SysArgs SYS_REGISTER_IRQ IRQ_CONTROL_SLOT 0 0 0 0) (fun a => as_i32 (r_eax a))). intros r5 w5 E5 G5.
  assert (O5 : driver_ok driver_new w5) by (eapply driver_ok_grows; [done|done|by eapply answer_card_law]).
  apply safely_bind. unfold register_name. destruct (pack_name _) as [n0 n1].
  apply (call_one (SysArgs SYS_SEND NAMESERVICE_SLOT NS_OP_REGISTER n0 n1 MY_INBOX) (fun _ => tt)). intros r6 w6 E6 G6.
  apply safely_ret. split_and!; try done. eapply driver_ok_grows; [done|done|by eapply answer_card_law].
Qed.
End start.

(** The condition on the traffic under which the driver keeps its place: in no state of the
    machine does the next packet end exactly at the end of the ring, where the driver goes
    on at [RX_RING_WRAP] and the card at 0 ([next_rx_ok]).  No card promises it; [W] stands
    for the states of a machine up to the first such packet.  From there on the driver reads
    its headers from bytes the card has not written, and nothing below holds. *)
Definition seamless (W : Type) `{Card W} : Prop :=
  forall (w : W) p, arrived w !! taken w = Some p -> ring_head w + advance (plength p) <> RX_RING_WRAP.

(** Sending a message and mapping a grant return. *)
Definition unblocked (W : Type) `{Machine W} : Prop :=
  forall c (w : W), num c = SYS_SEND \/ num c = SYS_MAP_MEMORY -> answer c w <> None.

(** A message of the driver to its client. *)
Definition message (d : driver) (v : Z) (f : Z -> option (list Z)) : event := Event (SysArgs SYS_SEND (client_reply d) v 0 0 0) f.

(** C18: the network driver does not crash as long as no packet ends exactly at the end of
    the ring ([seamless]; the packet that does makes it lose its place).  From its start and
    through any number of turns of its loop, whatever packets of at most [MAX_FRAME_SIZE]
    bytes the card puts in the ring, good or not, and whatever messages any task sends, in
    any order with the card's interrupts, the driver takes no slice out of range and
    touches no memory that is not mapped; and its variables agree with the card
    ([driver_ok]): the place in the ring, the next descriptor. *)
Theorem driver_never_crashes {W} {MW : Machine W} {ML : MachineLaws W} {PW : PortIO W} {CW : Card W} io_base tx_buf_phys
  {CL : CardLaws W io_base tx_buf_phys} {SL : StartLaws W io_base tx_buf_phys} n (w : W) :
  seamless W -> safely ('(io, tx, mac, d) ← rtl_start; rtl_turns io tx mac n d) w driver_ok.
Proof.
  intros Sm. safely_step (rtl_start_ok io_base tx_buf_phys w). intros [[[io tx] mac] d] w' (-> & -> & O). by apply rtl_turns_ok.
Qed.

(** C17: the frames the card has received reach the client, as long as no packet ends
    exactly at the end of the ring ([seamless]).  The card's packets are of at most
    [MAX_FRAME_SIZE] bytes (larger frames it does not accept: [packet_law]), messages to the
    client return ([unblocked]), the driver agrees with the card ([driver_ok]), its client
    has connected and mapped its buffer and waits for no frame.  When the card then
    interrupts with [ISR_ROK] and the client polls twice, the driver has taken the packets
    [ps] out of the ring, in the order they came in, all those that were there at the
    interrupt or [MAX_PACKETS_PER_DRAIN]; the client has got two messages: the length of the
    frame of the last good packet among them, with that frame in its buffer (of the frame
    kept from before, when none is good), and then 0. *)
Theorem frame_delivered {W} {MW : Machine W} {ML : MachineLaws W} {PW : PortIO W} {CW : Card W} io_base tx_buf_phys
  {CL : CardLaws W io_base tx_buf_phys} mac interrupt poll d (w : W) :
  seamless W -> unblocked W -> driver_ok d w -> client_reply d <> 0 -> client_buf_mapped d = true -> recv_armed d = false ->
  sender interrupt = KERNEL_TASK_ID -> sender poll <> KERNEL_TASK_ID -> w0 poll = NIC_OP_TRY_RECV ->
  Z.land (fst (in16 (reg io_base REG_ISR) w)) ISR_ROK <> 0 ->
  runs (d ← serve io_base tx_buf_phys mac interrupt d; d ← serve io_base tx_buf_phys mac poll d; serve io_base tx_buf_phys mac poll d) w
    (fun d' w' => driver_ok d' w' /\ exists ps, 
      take (length ps) (drop (taken w) (arrived w')) = ps /\ taken w' = (taken w + length ps)%nat /\
      ((length (arrived w) <= taken w')%nat \/ zlen ps = MAX_PACKETS_PER_DRAIN) /\
      let frame := match list.last (List.filter good ps) with Some p => pdata p | None => sub (last_rx d) 0 (last_rx_len d) end in
      exists f g, says w w' [message d (zlen frame) f; message d 0 g] /\
        (0 < zlen frame -> exists b, f CLIENT_BUF_VIRT = Some b /\ sub b 0 (zlen frame) = frame)).
Proof.
  intros Sm Un O Hc Hm Ha Si Sp Wp Rok.
  apply total_runs; [repeat (apply total_bind; [|intros ?]); by apply total_serve|].
  assert (Si' : forall d, serve io_base tx_buf_phys mac interrupt d = on_interrupt io_base d) by (intros d0; unfold serve; by rewrite Si).
  assert (Sp' : forall d, serve io_base tx_buf_phys mac poll d = on_try_recv d).
  { intros d0. unfold serve. by rewrite (proj2 (Z.eqb_neq _ _) Sp), Wp. }
  rewrite Si'. safely_step (on_interrupt_takes io_base tx_buf_phys Sm d w O Ha Rok).
  intros d1 w1 (O1 & (R1 & B1 & _) & L1 & A1 & ps & T1 & T2 & T3 & T4). rewrite Sp'. rewrite <- R1 in Hc. rewrite Hm in B1.
  safely_step (on_try_recv_ok io_base tx_buf_phys d1 w1 O1 Hc). intros d2 w2 (O2 & R2 & I2 & K2 & f & S2 & F2).
  destruct (K2 B1) as [N2 B2]. rewrite B1 in S2, F2. rewrite Sp'.
  eapply safely_mono; [apply (on_try_recv_ok io_base tx_buf_phys d2 w2 O2); congruence|].
  intros d3 w3 (O3 & _ & I3 & _ & g & S3 & _). rewrite B2, N2 in S3. split; [done|]. exists ps.
  pose proof (idle_trans _ _ _ I2 I3) as ([l A3] & Tk & _). rewrite A3, Tk. pose proof (taken_law w1) as Tl.
  split; [rewrite drop_app_le, take_app_le by (rewrite ?length_drop; lia); exact T1|]. split; [done|].
  split; [destruct T3 as [->|T3]; [left; lia|by right]|]. intros frame.
  assert (Fr : last_rx_len d1 = zlen frame /\ sub (last_rx d1) 0 (zlen frame) = frame).
  { subst frame. destruct (list.last _) as [p|]; [done|]. destruct T4 as [-> ->], (do_last _ _ O) as [Ll Hl].
    rewrite zlen_sub by lia. by rewrite Z.sub_0_r. }
  destruct Fr as [Fr1 Fr2]. exists f, g. split.
  - unfold says, message in *. rewrite S3, S2, L1, R2, R1, Fr1, <- app_assoc. done.
  - rewrite Fr1 in F2. intros (b & Eb & Es)%F2. exists b. split; [done|]. by rewrite Es.
Qed.

(** the frames the client sends go out whole and in order.  On [NIC_OP_SEND] with a
    length the card takes, the driver has the card send exactly the first bytes of the
    client's buffer, after the frames sent before, and tells the client, in one message,
    if the card has reported it sent in time. *)
Theorem frame_sent {W} {MW : Machine W} {ML : MachineLaws W} {PW : PortIO W} {CW : Card W} io_base tx_buf_phys
  {CL : CardLaws W io_base tx_buf_phys} mac r d (w : W) :
  unblocked W -> driver_ok d w -> client_reply d <> 0 -> client_buf_mapped d = true ->
  sender r <> KERNEL_TASK_ID -> w0 r = NIC_OP_SEND -> 0 < w1 r <= MAX_FRAME_SIZE ->
  runs (serve io_base tx_buf_phys mac r d) w (fun d' w' => driver_ok d' w' /\
    exists b, mem CLIENT_BUF_VIRT w = Some b /\ wire w' = wire w ++ [sub b 0 (w1 r)] /\
    exists v f, says w w' [message d v f] /\ 0 <= v <= 1).
Proof.
  intros Un O Hc Hm Hs H0 H1. apply total_runs; [by apply total_serve|]. unfold serve.
  rewrite (proj2 (Z.eqb_neq _ _) Hs), H0. cbn. eapply safely_mono; [apply (on_send_ok io_base tx_buf_phys r d w O); [lia|done]|].
  intros d' w' (O' & v & f & S & Hv & F). destruct (F Hm H1) as (b & Eb & Wi). split; [done|]. exists b. split_and!; try done.
  by exists v, f.
Qed.

(** the driver keeps what the network service relies on ([NetSafe.NicLaws],
    [NetLive.Responsive]): to each [NIC_OP_SEND] and each [NIC_OP_TRY_RECV] of its client,
    whatever its arguments, it replies, with one message, whose first word is at most
    [NIC_MAX_FRAME]; it stays ready for the next. *)
Theorem driver_replies {W} {MW : Machine W} {ML : MachineLaws W} {PW : PortIO W} {CW : Card W} io_base tx_buf_phys
  {CL : CardLaws W io_base tx_buf_phys} mac r d (w : W) :
  unblocked W -> driver_ok d w -> client_reply d <> 0 -> 0 <= w1 r ->
  sender r <> KERNEL_TASK_ID -> w0 r = NIC_OP_SEND \/ w0 r = NIC_OP_TRY_RECV ->
  runs (serve io_base tx_buf_phys mac r d) w (fun d' w' => driver_ok d' w' /\
    exists v f, says w w' [message d v f] /\ 0 <= v <= NIC_MAX_FRAME).
Proof.
  intros Un O Hc Hr Hs H0. apply total_runs; [by apply total_serve|]. unfold serve. rewrite (proj2 (Z.eqb_neq _ _) Hs).
  unfold NIC_MAX_FRAME. destruct H0 as [H0|H0]; rewrite H0; cbn.
  - eapply safely_mono; [by apply (on_send_ok io_base tx_buf_phys r d w O)|]. intros d' w' (O' & v & f & S & Hv & _).
    split; [done|]. exists v, f. split; [done|lia].
  - eapply safely_mono; [by apply (on_try_recv_ok io_base tx_buf_phys d w O)|]. intros d' w' (O' & _ & _ & _ & f & S & _).
    split; [done|]. eexists _, f. split; [exact S|]. destruct (do_last _ _ O) as [_ Hl]. unfold MAX_FRAME_SIZE in Hl. destruct (client_buf_mapped d); lia.
Qed.
