(* ===== verification/NicSim.v ===== *)
(** * A simulated network card

    A machine with a card whose ring holds the packets of a script: it satisfies what the
    theorems on the driver (Nic.v) ask of a machine and its card. *)

From stdpp Require Import base list numbers.
From Stdlib Require Import Lia.
From S2P Require Import Prelude Libpcern Pio Machine Pages Rtl8139 Nic.
Open Scope Z_scope.

#[local] Opaque zeros.

Definition nic_io : Z := 0xC000.
Definition nic_tx_phys : Z := 0x300000.

(** The [i]th packet: 64 bytes, good. *)
Definition nic_packet (i : nat) : packet := Packet 1 (replicate 64 (Z.of_nat i mod 256)).

(** The scripted packets and how many have been taken; [nic_lost] is the ring, once the
    driver has written to it: the card then has no packets any more. *)
Record nic := NicState {
  nic_pages : Z -> option (list Z); nic_log : list event; nic_lost : option (list Z);
  nic_total : nat; nic_taken : nat; nic_wire : list (list Z); nic_tx : Z; nic_addr : Z -> Z
}.

Definition nic_count (w : nic) : nat := match nic_lost w with Some _ => 0 | None => Nat.min (nic_total w) 100 end.
Definition nic_done (w : nic) : nat := Nat.min (nic_taken w) (nic_count w).
Definition nic_head (w : nic) : Z := 72 * Z.of_nat (nic_done w).

#[export] Instance nic_card : Card nic := {
  arrived w := nic_packet <$> seq 0 (nic_count w); taken := nic_done; ring_head := nic_head;
  wire := nic_wire; tx_next := nic_tx; tx_addr := nic_addr
}.

Definition nic_empty_ring : list Z := replicate (Z.to_nat 12288) 0.

Definition nic_ring (w : nic) : list Z :=
  match nic_lost w with
  | Some b => if zlen b =? 12288 then b else nic_empty_ring
  | None => put nic_empty_ring (nic_head w) (ring_bytes (nic_packet (nic_done w)))
  end.

Definition nic_info : list Z := put zeros 0 [0; 0xC0; 0; 0].

Definition nic_mem (v : Z) (w : nic) : option (list Z) :=
  if decide (v = RX_BUF_VIRT) then Some (nic_ring w) else page_at (nic_pages w) v.

Definition nic_set_mem (v : Z) (b : list Z) (w : nic) : nic :=
  if decide (v = RX_BUF_VIRT)
  then NicState (nic_pages w) (nic_log w) (Some b) (nic_total w) (nic_taken w) (nic_wire w) (nic_tx w) (nic_addr w)
  else NicState (set_page v b (nic_pages w)) (nic_log w) (nic_lost w) (nic_total w) (nic_taken w) (nic_wire w) (nic_tx w) (nic_addr w).

Definition nic_answer (c : sys_args) (w : nic) : option (raw_result * nic) :=
  let l := nic_log w ++ [Event c (fun v => nic_mem v w)] in
  let ok r f := Some (r, NicState f l (nic_lost w) (nic_total w) (nic_taken w) (nic_wire w) (nic_tx w) (nic_addr w)) in
  if num c =? SYS_EXIT then None
  else if num c =? SYS_MAP_MEMORY then
    ok (RawResult 0 0 0 0 0 0) (if a2 c =? NIC_INFO_VIRT then set_page NIC_INFO_VIRT nic_info (nic_pages w) else fresh_page (a2 c) (nic_pages w))
  else if num c =? SYS_MEM_ALLOC then ok (RawResult 9 0 nic_tx_phys 0 0 0) (fresh_page (a1 c) (nic_pages w))
  else ok (RawResult 0 0 0 0 0 0) (nic_pages w).

#[export] Instance nic_machine : Machine nic := { answer := nic_answer; mem := nic_mem; set_mem := nic_set_mem; log := nic_log }.

Definition nic_take (w : nic) : nic :=
  NicState (nic_pages w) (nic_log w) (nic_lost w) (nic_total w) (S (nic_done w)) (nic_wire w) (nic_tx w) (nic_addr w).

Definition nic_reset (w : nic) : nic :=
  NicState (nic_pages w) (nic_log w) (nic_lost w) 3 0 (nic_wire w) 0 (nic_addr w).

(** The descriptor of a register in [REG_TSAD] or [REG_TSD]. *)
Definition nic_desc (regs : list Z) (p : Z) : option Z :=
  Z.of_nat <$> (fst <$> list_find (fun r => p = reg nic_io r) regs).

Definition nic_out32 (p x : Z) (w : nic) : nic :=
  match nic_desc REG_TSAD p with
  | Some i => NicState (nic_pages w) (nic_log w) (nic_lost w) (nic_total w) (nic_taken w) (nic_wire w) (nic_tx w)
                (fun j => if decide (j = i) then x else nic_addr w j)
  | None =>
      match nic_desc REG_TSD p, nic_mem TX_BUF_VIRT w with
      | Some i, Some b =>
          NicState (nic_pages w) (nic_log w) (nic_lost w) (nic_total w) (nic_taken w) (nic_wire w ++ [sub b 0 x]) ((i + 1) mod 4) (nic_addr w)
      | _, _ => w
      end
  end.

#[export] Instance nic_ports : PortIO nic := {
  in8 p w := (if (nic_done w <? nic_count w)%nat then 0 else CR_BUFE, w);
  in16 p w := (ISR_ROK, w);
  in32 p w := (TSD_OWN, w);
  out8 p x w := if (p =? reg nic_io REG_CR) && (x =? CR_RST) then nic_reset w else w;
  out16 p x w := if p =? reg nic_io REG_CAPR then nic_take w else w;
  out32 := nic_out32
}.

Lemma nic_packet_ring i : zlen (ring_bytes (nic_packet i)) = 68.
Proof. done. Qed.

Lemma nic_head_bound w : 0 <= nic_head w <= 7200 /\ ((nic_done w < nic_count w)%nat -> nic_head w < 7200).
Proof. unfold nic_head, nic_done, nic_count. destruct (nic_lost w); lia. Qed.

Lemma zlen_empty_ring : zlen nic_empty_ring = 12288.
Proof. unfold nic_empty_ring. rewrite zlen_replicate. by rewrite Z2Nat.id. Qed.

#[local] Opaque nic_empty_ring.

Lemma zlen_nic_ring w : zlen (nic_ring w) = 12288.
Proof.
  unfold nic_ring. pose proof zlen_empty_ring. pose proof (nic_head_bound w). destruct (nic_lost w) as [b|].
  - destruct (_ =? _) eqn:E; [by apply Z.eqb_eq|done].
  - rewrite zlen_put; rewrite ?nic_packet_ring; lia.
Qed.

Lemma nic_mapped v w : mapped v w <-> v = RX_BUF_VIRT \/ (v <> RX_BUF_VIRT /\ is_Some (page_at (nic_pages w) v)).
Proof.
  unfold mapped. cbn. unfold nic_mem. destruct (decide (v = RX_BUF_VIRT)) as [->|N].
  - split; [by left|]. intros _. eexists. split; [done|]. by rewrite zlen_nic_ring.
  - split; [intros (b & E & _); right; split; [done|by exists b]|]. intros [?|[_ [b E]]]; [done|]. exists b.
    split; [done|]. by rewrite (page_at_zlen _ _ _ E).
Qed.

Lemma zlen_nic_info : zlen nic_info = 4096.
Proof. unfold nic_info. pose proof zlen_zeros. rewrite zlen_put; change (zlen [0; 0xC0; 0; 0]) with 4; lia. Qed.

Lemma nic_info_word : wrap16 (word (sub nic_info 0 4) 0) = nic_io.
Proof.
  unfold nic_info. pose proof zlen_zeros. pose proof (sub_put_same zeros [0; 0xC0; 0; 0] 0 ltac:(lia)) as E.
  change (0 + zlen [0; 0xC0; 0; 0]) with 4 in E. by rewrite E.
Qed.

Ltac nic_cases H :=
  unfold answer, nic_machine, nic_answer in H; repeat (case_match; try done; simplify_eq/=).

#[export] Instance nic_laws : MachineLaws nic.
Proof.
  split.
  - done.
  - intros c w r w' H. by nic_cases H.
  - intros c w r w' H. nic_cases H; unfold is_u32, nic_tx_phys; lia.
  - intros c w r w' v H M. apply nic_mapped in M. apply nic_mapped. destruct M as [M|[N [b E]]].
    + left. by nic_cases H.
    + right. split; [done|]. nic_cases H; try (by exists b); try (exists b; by apply page_at_map).
      destruct (decide (v = NIC_INFO_VIRT)) as [->|Nv].
      * rewrite page_at_set by apply zlen_nic_info. by eexists.
      * rewrite page_at_ne by done. by exists b.
  - intros g v w r w' H _. apply nic_mapped. destruct (decide (v = RX_BUF_VIRT)) as [->|N]; [by left|right]. split; [done|].
    nic_cases H; [|apply page_at_mapped]. match goal with E : (_ =? NIC_INFO_VIRT) = true |- _ => apply Z.eqb_eq in E as -> end.
    rewrite page_at_set by apply zlen_nic_info. by eexists.
  - intros v n w r w' H _ _. apply nic_mapped. destruct (decide (v = RX_BUF_VIRT)) as [->|N]; [by left|right]. split; [done|].
    nic_cases H. apply page_at_mapped.
  - intros v b b' w E L. cbn in *. unfold nic_mem, nic_set_mem in *. destruct (decide (v = RX_BUF_VIRT)).
    + injection E as <-. unfold nic_ring at 1. cbn. rewrite zlen_nic_ring in L. by rewrite L.
    + cbn. apply page_at_set. rewrite L. by eapply page_at_zlen.
  - intros v v' b w _ _ N. cbn. unfold nic_mem, nic_set_mem. destruct (decide (v' = RX_BUF_VIRT)) as [->|N'].
    + rewrite decide_False by done. done.
    + destruct (decide (v = RX_BUF_VIRT)); [done|]. cbn. apply page_at_ne. congruence.
  - intros v b w. cbn. unfold nic_set_mem. by destruct (decide _).
Qed.

Lemma nic_arrived (w : nic) p : arrived w !! taken w = Some p -> (nic_done w < nic_count w)%nat /\ p = nic_packet (nic_done w).
Proof.
  cbn [arrived taken nic_card]. intros (i & -> & E)%list_lookup_fmap_Some. apply lookup_seq in E as [-> L]. by split.
Qed.

Lemma nic_mem_ne (w w' : nic) : nic_pages w' = nic_pages w -> forall v, v <> RX_BUF_VIRT -> mem v w' = mem v w.
Proof. intros E v N. cbn. unfold nic_mem. by rewrite !decide_False, E. Qed.

Lemma nic_still (w : nic) : still w w.
Proof. split; [|done]. split; [exists []; by rewrite app_nil_r|done]. Qed.

Lemma nic_taken_law (w : nic) : (nic_done w < nic_count w)%nat -> nic_count (nic_take w) = nic_count w /\ nic_done (nic_take w) = S (nic_done w).
Proof.
  intros L. assert (E : nic_count (nic_take w) = nic_count w) by done. split; [done|].
  unfold nic_done at 1. rewrite E. cbn [nic_take nic_taken]. lia.
Qed.

Lemma nic_tsad i : 0 <= i < 4 -> nic_desc REG_TSAD (reg nic_io (byte_at REG_TSAD i)) = Some i.
Proof. intros H. assert (i = 0 \/ i = 1 \/ i = 2 \/ i = 3) as [->|[->|[->| ->]]] by lia; by vm_compute. Qed.

Lemma nic_tsd i : 0 <= i < 4 -> nic_desc REG_TSAD (reg nic_io (byte_at REG_TSD i)) = None /\ nic_desc REG_TSD (reg nic_io (byte_at REG_TSD i)) = Some i.
Proof. intros H. assert (i = 0 \/ i = 1 \/ i = 2 \/ i = 3) as [->|[->|[->| ->]]] by lia; by vm_compute. Qed.

Lemma nic_same_idle f l (w : nic) : idle_card w (NicState f l (nic_lost w) (nic_total w) (nic_taken w) (nic_wire w) (nic_tx w) (nic_addr w)).
Proof. split; [exists []; by rewrite app_nil_r|done]. Qed.

#[export] Instance nic_card_laws : CardLaws nic nic_io nic_tx_phys.
Proof.
  split.
  - intros w p Hp. cbn in Hp. apply list_elem_of_fmap in Hp as (i & -> & _). split; [unfold is_u16; cbn; lia|by vm_compute].
  - intros w. cbn. rewrite length_fmap, length_seq. unfold nic_done. lia.
  - intros w. pose proof (nic_head_bound w). cbn. unfold RX_RING_WRAP. lia.
  - intros w p E. pose proof E as [L ->]%nic_arrived. exists (nic_ring w). split; [done|]. cbn [ring_head nic_card].
    change (zlen (pdata (nic_packet (nic_done w)))) with 64. pose proof (nic_head_bound w). split; [rewrite zlen_nic_ring; lia|].
    unfold nic_ring. unfold nic_count in L. destruct (nic_lost w); [lia|]. pose proof zlen_empty_ring.
    replace (nic_head w + 4 + 64) with (nic_head w + zlen (ring_bytes (nic_packet (nic_done w)))) by (rewrite nic_packet_ring; lia).
    apply sub_put_same. lia.
  - intros w v w' [= <- <-]. split; [apply nic_still|]. cbn [arrived taken nic_card]. rewrite length_fmap, length_seq.
    destruct (Nat.ltb_spec (nic_done w) (nic_count w)); split; try done; try lia.
  - intros w p h E _ w'. pose proof E as [L ->]%nic_arrived. destruct (nic_taken_law w L) as [C D].
    exists []. cbn [arrived taken ring_head nic_card w'] in *. subst w'. cbn [out16 nic_ports]. rewrite Z.eqb_refl.
    rewrite C, D, app_nil_r. split_and!; try done; [|by apply nic_mem_ne].
    unfold nic_head. rewrite D. pose proof (nic_head_bound w) as [_ B]. unfold nic_head in B.
    change (advance (plength (nic_packet (nic_done w)))) with 72. unfold RX_RING_WRAP. rewrite Z.mod_small; lia.
  - intros w v w' [= <- <-]. apply nic_still.
  - intros v w. cbn. apply nic_still.
  - intros i a w Hi w'. subst w'. cbn [out32 nic_ports]. unfold nic_out32. rewrite (nic_tsad i Hi). cbn. split_and!; try done.
    + exists []. by rewrite app_nil_r.
    + by rewrite decide_True.
  - intros i n b w Hi Ht Ha Hb Hn w'. subst w'. cbn [out32 nic_ports]. unfold nic_out32. destruct (nic_tsd i Hi) as [-> ->].
    cbn [mem nic_machine] in Hb. rewrite Hb. cbn. split_and!; try done. exists []. by rewrite app_nil_r.
  - intros i w v w' Hi [= <- <-]. apply nic_still.
  - intros c w r w' H. nic_cases H; apply nic_same_idle.
  - intros v b w N. cbn. unfold nic_set_mem. rewrite decide_False by done. apply nic_same_idle.
Qed.

#[export] Instance nic_start_laws : StartLaws nic nic_io nic_tx_phys.
Proof.
  split.
  - intros w r w' b H _. nic_cases H. intros E. change (page_at (set_page NIC_INFO_VIRT nic_info (nic_pages w)) NIC_INFO_VIRT = Some b) in E.
    rewrite page_at_set in E by apply zlen_nic_info. injection E as <-. apply nic_info_word.
  - intros w r w' H _. by nic_cases H.
  - done.
  - intros w w'. subst w'. split_and!; try done. by apply nic_mem_ne.
  - intros p w v w' [= <- <-]. done.
  - done.
  - done.
  - done.
  - done.
Qed.

Lemma nic_seamless : seamless nic.
Proof.
  intros w p E. pose proof E as [L ->]%nic_arrived. cbn [ring_head nic_card]. pose proof (nic_head_bound w).
  change (advance (plength (nic_packet (nic_done w)))) with 72. unfold RX_RING_WRAP. lia.
Qed.

Lemma nic_unblocked : unblocked nic.
Proof. intros c w [N|N]; cbn; unfold nic_answer; rewrite N; done. Qed.

(** The driver is up: the card has two packets, the client a buffer and an endpoint. *)
Definition nic_up : nic :=
  NicState (fresh_page TX_BUF_VIRT (fresh_page CLIENT_BUF_VIRT (fun _ => None))) [] None 2 0 [] 0 (fun _ => 0).

Definition nic_driver : driver := Driver 0 (replicate (Z.to_nat MAX_FRAME_SIZE) 0) 0 0 true 7 false.

Lemma nic_driver_ok : driver_ok nic_driver nic_up.
Proof.
  split; try done.
  - apply nic_mapped. right. split; [done|]. apply page_at_mapped.
  - intros _. apply nic_mapped. right. split; [done|]. 
    destruct (page_at_mapped CLIENT_BUF_VIRT (fun _ => None)) as [b E]. exists b. by apply page_at_map.
Qed.

Definition nic_start : nic := NicState (fun _ => None) [] None 2 0 [] 0 (fun _ => 0).

Lemma driver_never_crashes_witness :
  safely ('(io, tx, mac, d) ← rtl_start; rtl_turns io tx mac 3 d) nic_start driver_ok.
Proof. apply (driver_never_crashes nic_io nic_tx_phys 3 nic_start). exact nic_seamless. Defined.

Definition nic_poll : recv_result := RecvResult 5 NIC_OP_TRY_RECV 0 0 0.
Definition nic_interrupt : recv_result := RecvResult KERNEL_TASK_ID 0 0 0 0.
Definition nic_request : recv_result := RecvResult 5 NIC_OP_SEND 60 0 0.

Lemma frame_delivered_witness : exists d' w' l,
  (d ← serve nic_io nic_tx_phys [] nic_interrupt nic_driver; d ← serve nic_io nic_tx_phys [] nic_poll d;
   serve nic_io nic_tx_phys [] nic_poll d) nic_up = Ends d' w' /\ driver_ok d' w' /\ log w' = l /\ length l = 2%nat.
Proof.
  destruct (runs_ends _ _ _ (frame_delivered nic_io nic_tx_phys [] nic_interrupt nic_poll nic_driver nic_up nic_seamless nic_unblocked
    nic_driver_ok ltac:(done) eq_refl eq_refl eq_refl ltac:(done) eq_refl ltac:(by vm_compute))) as (d' & w' & E & O & ps & _ & _ & _ & f & g & S & _).
  exists d', w'. eexists. split; [exact E|]. split; [exact O|]. split; [exact S|done].
Defined.

Lemma frame_sent_witness : exists d' w' b,
  serve nic_io nic_tx_phys [] nic_request nic_driver nic_up = Ends d' w' /\ wire w' = [sub b 0 60].
Proof.
  destruct (runs_ends _ _ _ (frame_sent nic_io nic_tx_phys [] nic_request nic_driver nic_up nic_unblocked nic_driver_ok
    ltac:(done) eq_refl ltac:(done) eq_refl ltac:(unfold MAX_FRAME_SIZE; cbn; lia))) as (d' & w' & E & _ & b & _ & Wi & _).
  exists d', w', b. split; [exact E|exact Wi].
Defined.

Lemma driver_replies_witness : exists d' w',
  serve nic_io nic_tx_phys [] nic_request nic_driver nic_up = Ends d' w' /\ length (log w') = 1%nat.
Proof.
  destruct (runs_ends _ _ _ (driver_replies nic_io nic_tx_phys [] nic_request nic_driver nic_up nic_unblocked nic_driver_ok
    ltac:(done) ltac:(done) ltac:(done) ltac:(by left))) as (d' & w' & E & _ & v & f & S & _).
  exists d', w'. split; [exact E|]. rewrite S. done.
Defined.
