(* ===== verification/Shell.v ===== *)
(** * The shell (userland/bin/shell/src/main.rs and editor.rs)

    The shell runs on a machine ([Machine]): it talks to the console and to the file
    system by messages, and reads and writes the pages it shares with them.  A loop whose
    length the other side decides takes as fuel how often it may go round; out of fuel it
    has not ended.  The editor's pages are the list of its record (Editor.v). *)

From stdpp Require Import base list numbers.
From Stdlib Require Import Lia Ascii String.
From S2P Require Import Prelude Libpcern Vga Ansi Editor Pio Machine.
Open Scope Z_scope.

Definition MY_INBOX : Z := 2.
Definition CONSOLE_BUF_VIRT : Z := 0xD00000.
Definition FS_BUF_VIRT : Z := 0xD10000.
Definition RUN_BUF_VIRT : Z := 0xD20000.
Definition EDITOR_BUF_VIRT : Z := 0xD30000.
Definition SECTOR_SIZE : Z := 512.

(** A byte string; [line] ends it with a newline. *)
Definition bytes (s : string) : list Z := map (fun c => Z.of_N (N_of_ascii c)) (list_ascii_of_string s).
Definition line (s : string) : list Z := (bytes s ++ [10])%list.

Definition split_command (line : list Z) : list Z * list Z :=
  match position (fun b => b =? 32) line with
  | Some i => (take i line, drop (S i) line)
  | None => (line, [])
  end.

Section shell.
Context {W : Type} `{Machine W}.

Definition say (console_slot : Z) (s : list Z) : io W unit := call (print console_slot s).

Definition print_help (console_slot : Z) : io W unit :=
  say console_slot (line "commands: read <FILE>, edit <FILE>, run <FILE>, help").

(** The loop of [cmd_read], from [offset] on. *)
Fixpoint read_loop (fuel : nat) (console_slot fs_slot offset size : Z) : io W unit :=
  if offset <? size then
    match fuel with
    | O => fun _ => Loops
    | S fuel =>
        n ← call (fs_read fs_slot MY_INBOX offset SECTOR_SIZE);
        if n =? 0 then mret tt
        else
          data ← load FS_BUF_VIRT n;
          _ ← say console_slot data;
          read_loop fuel console_slot fs_slot (wrap32 (offset + n)) size
    end
  else mret tt.

Definition cmd_read (fuel : nat) (console_slot : Z) (fs_slot : option Z) (name : list Z) : io W unit :=
  match fs_slot with
  | None => say console_slot (line "read: no filesystem available")
  | Some fs_slot =>
      o ← call (fs_open fs_slot MY_INBOX name);
      match o with
      | None => say console_slot (line "read: not found")
      | Some size =>
          _ ← read_loop fuel console_slot fs_slot 0 size;
          say console_slot [10]
      end
  end.

(** The loop of [cmd_run]: whether the whole file has been copied. *)
Fixpoint load_loop (fuel : nat) (console_slot fs_slot offset size : Z) : io W bool :=
  if offset <? size then
    match fuel with
    | O => fun _ => Loops
    | S fuel =>
        let want := Z.min (size - offset) SECTOR_SIZE in
        n ← call (fs_read fs_slot MY_INBOX offset want);
        if n =? 0 then _ ← say console_slot (line "run: short read"); mret false
        else
          src ← load FS_BUF_VIRT n;
          _ ← poke RUN_BUF_VIRT offset src;
          load_loop fuel console_slot fs_slot (wrap32 (offset + n)) size
    end
  else mret true.

Definition cmd_run (fuel : nat) (console_slot : Z) (fs_slot : option Z) (run_grant : Z) (name : list Z) : io W unit :=
  match fs_slot with
  | None => say console_slot (line "run: no filesystem available")
  | Some fs_slot =>
      o ← call (fs_open fs_slot MY_INBOX name);
      match o with
      | None => say console_slot (line "run: not found")
      | Some size =>
          if (size =? 0) || (PAGE_SIZE <? size) then say console_slot (line "run: unsupported size")
          else
            ok ← load_loop fuel console_slot fs_slot 0 size;
            if negb ok then mret tt
            else
              task_id ← call (spawn_from_memory [run_grant] size);
              if task_id =? 0 then say console_slot (line "run: spawn failed")
              else
                _ ← say console_slot (bytes "run: spawned task ");
                _ ← call (print_u32 console_slot task_id);
                say console_slot [10]
      end
  end.

(** ** The editor (editor.rs) *)

(** The loop that loads the file: whether it was too long. *)
Fixpoint fill_loop (fuel : nat) (my_inbox fs_slot fs_buf_virt offset size : Z) (ed : editor) : io W (editor * bool) :=
  if offset <? size then
    match fuel with
    | O => fun _ => Loops
    | S fuel =>
        let want := Z.min (size - offset) 512 in
        n ← call (fs_read fs_slot my_inbox offset want);
        if n =? 0 then mret (ed, false)
        else
          src ← load fs_buf_virt n;
          '(ed, ok) ← pure (append_loaded ed src);
          if negb ok then mret (ed, true)
          else fill_loop fuel my_inbox fs_slot fs_buf_virt (wrap32 (offset + n)) size ed
    end
  else mret (ed, false).

(** The loop over the keys: whether to save. *)
Fixpoint key_loop (fuel : nat) (console_slot reader_slot : Z) (ed : editor) : io W (editor * bool) :=
  match fuel with
  | O => fun _ => Loops
  | S fuel =>
      key ← call (console_read_key console_slot reader_slot);
      '(ed, quit) ← pure (apply_key ed key);
      match quit with
      | Some save => mret (ed, save)
      | None => _ ← call (redraw ed console_slot); key_loop fuel console_slot reader_slot ed
      end
  end.

(** The loop that writes the content back: whether it was all written. *)
Fixpoint save_loop (fuel : nat) (console_slot my_inbox fs_slot fs_buf_virt offset : Z) (content : list Z) : io W bool :=
  if offset <? zlen content then
    match fuel with
    | O => fun _ => Loops
    | S fuel =>
        let want := Z.min (zlen content - offset) 512 in
        src ← pure (bslice content offset (offset + want));
        _ ← store fs_buf_virt src;
        n ← call (fs_write fs_slot my_inbox (wrap32 offset) (wrap32 want));
        if n =? 0 then _ ← say console_slot (line "edit: FAIL (write)"); mret false
        else save_loop fuel console_slot my_inbox fs_slot fs_buf_virt (wrap32 (offset + n)) content
    end
  else mret true.

(** The part of [run] after the key loop. *)
Definition save_file (fuel : nat) (console_slot my_inbox fs_slot fs_buf_virt : Z) (ed : editor) : io W unit :=
  text ← pure (content ed);
  ok ← save_loop fuel console_slot my_inbox fs_slot fs_buf_virt 0 text;
  if negb ok then mret tt
  else
    t ← call (fs_truncate fs_slot my_inbox (wrap32 (zlen text)));
    if negb t then say console_slot (line "edit: FAIL (truncate)") else say console_slot (line "edit: saved").

Definition run (fuel : nat) (console_slot reader_slot my_inbox fs_slot fs_buf_virt : Z) (ed : editor) (name : list Z) : io W editor :=
  _ ← call (console_set_mode console_slot true);
  let ed := reset ed in
  o ← call (fs_open_for_write fs_slot my_inbox name);
  match o with
  | None =>
      _ ← call (console_set_mode console_slot false);
      _ ← say console_slot (line "edit: could not open/create file");
      mret ed
  | Some size =>
      '(ed, truncated) ← fill_loop fuel my_inbox fs_slot fs_buf_virt 0 size ed;
      _ ← (if (truncated : bool) then say console_slot (line "edit: warning: file exceeds 64 KiB, truncated") else mret tt);
      _ ← call (redraw ed console_slot);
      '(ed, save) ← key_loop fuel console_slot reader_slot ed;
      _ ← call (console_set_mode console_slot false);
      _ ← say console_slot [10];
      _ ← (if (save : bool) then save_file fuel console_slot my_inbox fs_slot fs_buf_virt ed
           else say console_slot (line "edit: discarded"));
      mret ed
  end.

(** ** The loop of [_start] *)

(** The local variables of [_start]. *)
Record shell := ShellState {
  console_slot : Z; fs_slot : option Z; run_grant : Z; reader_slot : Z; ed : option editor
}.

Definition set_ed (x : option editor) (s : shell) : shell :=
  ShellState (console_slot s) (fs_slot s) (run_grant s) (reader_slot s) x.

Definition cmd_edit (fuel : nat) (argument : list Z) (s : shell) : io W shell :=
  match ed s, fs_slot s with
  | Some e, Some fs =>
      e ← run fuel (console_slot s) (reader_slot s) MY_INBOX fs FS_BUF_VIRT e argument;
      mret (set_ed (Some e) s)
  | None, _ => _ ← say (console_slot s) (line "edit: unavailable (alloc failed at startup)"); mret s
  | _, None => _ ← say (console_slot s) (line "edit: no filesystem available"); mret s
  end.

(** A line is acted upon. *)
Definition obey (fuel : nat) (l : list Z) (s : shell) : io W shell :=
  let (command, argument) := split_command l in
  if decide (command = bytes "help") then _ ← print_help (console_slot s); mret s
  else if decide (command = bytes "read") then _ ← cmd_read fuel (console_slot s) (fs_slot s) argument; mret s
  else if decide (command = bytes "run") then _ ← cmd_run fuel (console_slot s) (fs_slot s) (run_grant s) argument; mret s
  else if decide (command = bytes "edit") then cmd_edit fuel argument s
  else if decide (command = []) then mret s
  else
    _ ← say (console_slot s) (bytes "unknown command: ");
    _ ← say (console_slot s) command;
    _ ← say (console_slot s) [10];
    mret s.

Definition command (fuel : nat) (s : shell) : io W shell :=
  len ← call (console_read_line (console_slot s) (reader_slot s));
  l ← load CONSOLE_BUF_VIRT len;
  s ← obey fuel l s;
  _ ← say (console_slot s) (bytes "> ");
  mret s.

Fixpoint commands (fuel n : nat) (s : shell) : io W shell :=
  match n with O => mret s | S n => s ← command fuel s; commands fuel n s end.

(** [_start] up to its loop; [contents] is what the editor's new pages hold. *)
Definition shell_start (contents : list Z) : io W shell :=
  o ← call (lookup_name (bytes "console") MY_INBOX);
  match o with
  | None => call (exit 1)
  | Some console_slot =>
      fs_slot ← call (lookup_name_retry (bytes "fs") MY_INBOX 1000);
      fs_grant ← call (mem_alloc FS_BUF_VIRT);
      console_grant ← call (mem_alloc CONSOLE_BUF_VIRT);
      run_grant ← call (mem_alloc RUN_BUF_VIRT);
      if (fs_grant =? 0) || (console_grant =? 0) || (run_grant =? 0) then
        _ ← say console_slot (line "shell: FAIL (alloc)");
        call (exit 1)
      else
        _ ← match fs_slot with Some fs => call (fs_connect fs fs_grant MY_INBOX) | None => mret tt end;
        reader_slot ← call endpoint_create;
        _ ← call (console_connect console_slot console_grant reader_slot);
        ed ← call (editor_new EDITOR_BUF_VIRT contents);
        _ ← say console_slot (line "pCern shell -- type 'help' for commands");
        _ ← (match fs_slot with None => say console_slot (line "shell: no fs (read/edit/run unavailable)") | Some _ => mret tt end);
        _ ← say console_slot (bytes "> ");
        mret (ShellState console_slot fs_slot run_grant reader_slot ed)
  end.
End shell.
