(* ===== verification/Desk.v ===== *)
(** * What the shell's commands do

    The shell's side of its protocols with the console and the file system: [Desk] is what
    those services keep (the files, the keys typed), [DeskLaws] what libpcern's clients
    promise of them, while the storage is [healthy].  Against it, [read] shows a file,
    [run] starts one, [edit] changes one, and a command that cannot be carried out says
    so and does nothing else. *)

From Stdlib Require Import Lia String.
From stdpp Require Import base list numbers sets.
From S2P Require Import Prelude Libpcern Vga Ansi Editor Pio Machine Pages Shell.
Open Scope list_scope.
Open Scope Z_scope.

(** A file's name, as it is sent to the file system. *)
Definition fname : Type := Z * Z * Z.

Definition sent_name (name : list Z) : fname :=
  let p := fat_pack_name name in
  (word p 0, word p 4, u32_from_le (byte_at p 8) (byte_at p 9) (byte_at p 10) 0).

(** Files by name, the file that is open; the keys and the lines typed and not read yet;
    the keys typed after the console's next change of mode; whether the storage works and
    has room for what the shell writes. *)
Class Desk (W : Type) := {
  file : fname -> W -> option (list Z); opened : W -> option fname; keys : W -> list Z; later : W -> list Z; typed : W -> list (list Z); healthy : W -> Prop
}.

(** The files, and what is known of the storage. *)
Definition same_files {W} `{Desk W} (w w' : W) : Prop :=
  (forall k, file k w' = file k w) /\ (healthy w -> healthy w').

(** The page of the program to run. *)
Definition same_run {W} `{Machine W} (w w' : W) : Prop := mem RUN_BUF_VIRT w' = mem RUN_BUF_VIRT w.

(** Nothing the shell's commands depend on has changed. *)
Definition same_desk {W} `{Machine W} `{Desk W} (w w' : W) : Prop :=
  same_files w w' /\ opened w' = opened w /\ keys w' = keys w /\ same_run w w' /\ mem FS_BUF_VIRT w' = mem FS_BUF_VIRT w /\
  later w' = later w.

(** Only the open file has changed. *)
Definition wrote {W} `{Desk W} (k : fname) (d : list Z) (w w' : W) : Prop :=
  file k w' = Some d /\ (forall k', k' <> k -> file k' w' = file k' w) /\ opened w' = Some k /\ keys w' = keys w.

(** What the services promise: a change of mode drops the keys the console holds (its
    [on_set_mode]), so that only those typed after it are read. *)
Class DeskLaws (W : Type) `{Machine W} `{Desk W} (cs rs fs : Z) := {
  slots_law : cs <> fs;
  console_law x (w : W) : exists r w', answer (SysArgs SYS_SEND cs OP_PUTCHAR x 0 0) w = Some (r, w') /\ same_desk w w';
  mode_law x (w : W) : exists r w', answer (SysArgs SYS_SEND cs CONSOLE_OP_SET_MODE x 0 0) w = Some (r, w') /\ same_files w w' /\
    opened w' = opened w /\ keys w' = later w /\ mem FS_BUF_VIRT w' = mem FS_BUF_VIRT w;
  spawn_law a n (w : W) : exists r w', answer (SysArgs SYS_SPAWN_FROM_MEMORY a 0 0 0 n) w = Some (r, w') /\ same_desk w w';
  poke_law v b (w : W) : v = RUN_BUF_VIRT \/ v = FS_BUF_VIRT -> let w' := set_mem v b w in
    same_files w w' /\ opened w' = opened w /\ keys w' = keys w;
  line_law (w : W) l ls : typed w = l :: ls ->
    runs (call (console_read_line cs rs)) w (fun n w' => n = zlen l /\ same_desk w w' /\
      exists b, mem CONSOLE_BUF_VIRT w' = Some b /\ zlen l <= zlen b /\ sub b 0 (zlen l) = l);
  key_law (w : W) k ks : keys w = k :: ks ->
    runs (call (console_read_key cs rs)) w (fun k' w' => k' = k /\ keys w' = ks /\ same_files w w' /\ opened w' = opened w /\
      mem FS_BUF_VIRT w' = mem FS_BUF_VIRT w);
  missing_law name (w : W) : file (sent_name name) w = None ->
    runs (call (fs_open fs MY_INBOX name)) w (fun o w' => o = None /\ same_files w w');
  open_law name create d (w : W) : healthy w -> file (sent_name name) w = Some d ->
    runs (call (fs_open_impl fs MY_INBOX name create)) w (fun o w' => o = Some (zlen d) /\ same_files w w' /\
      opened w' = Some (sent_name name) /\ keys w' = keys w /\ same_run w w' /\ mem FS_BUF_VIRT w' = mem FS_BUF_VIRT w);
  create_law name (w : W) : healthy w -> file (sent_name name) w = None ->
    runs (call (fs_open_for_write fs MY_INBOX name)) w (fun o w' => o = Some 0 /\ healthy w' /\ wrote (sent_name name) [] w w' /\
      mem FS_BUF_VIRT w' = mem FS_BUF_VIRT w);
  read_law k d off len (w : W) : healthy w -> opened w = Some k -> file k w = Some d -> mapped FS_BUF_VIRT w ->
    0 <= off < zlen d -> 0 < len <= 512 ->
    runs (call (fs_read fs MY_INBOX off len)) w (fun n w' => 0 < n <= len /\ off + n <= zlen d /\ same_files w w' /\
      opened w' = opened w /\ keys w' = keys w /\ same_run w w' /\
      exists b, mem FS_BUF_VIRT w' = Some b /\ 4096 <= zlen b /\ sub b 0 n = sub d off (off + n));
  write_law k d b off len (w : W) : healthy w -> opened w = Some k -> file k w = Some d ->
    mem FS_BUF_VIRT w = Some b -> 4096 <= zlen b -> 0 <= off <= zlen d -> 0 < len <= 512 -> off + len < 2 ^ 32 ->
    runs (call (fs_write fs MY_INBOX off len)) w (fun n w' => 0 < n <= len /\ healthy w' /\ wrote k (put d off (sub b 0 n)) w w' /\
      mem FS_BUF_VIRT w' = mem FS_BUF_VIRT w);
  truncate_law k d n (w : W) : healthy w -> opened w = Some k -> file k w = Some d -> 0 <= n <= zlen d ->
    runs (call (fs_truncate fs MY_INBOX n)) w (fun ok w' => ok = true /\ healthy w' /\ wrote k (take (Z.to_nat n) d) w w')
}.

(** What has been printed, and the calls that started a task. *)
Definition printed (cs : Z) (l : list event) : list Z :=
  omap (fun e => if (num (made e) =? SYS_SEND) && (a1 (made e) =? cs) && (a2 (made e) =? OP_PUTCHAR) then Some (a3 (made e)) else None) l.

Definition spawns (l : list event) : list event := List.filter (fun e => num (made e) =? SYS_SPAWN_FROM_MEMORY) l.

Section commands.
Context {W : Type} {MW : Machine W} {ML : MachineLaws W} {DW : Desk W} (cs rs fs : Z) {DL : DeskLaws W cs rs fs}.
Implicit Types w : W.

(** Between [w] and [w'], [s] has been printed and the tasks of [p] have been started. *)
Definition does (s : list Z) (p : list event) (w w' : W) : Prop :=
  exists l, says w w' l /\ printed cs l = s /\ spawns l = p.

Lemma does_nil w : does [] [] w w.
Proof. exists []. split; [unfold says; by rewrite app_nil_r|done]. Qed.

Lemma does_app s s' p p' w1 w2 w3 : does s p w1 w2 -> does s' p' w2 w3 -> does (s ++ s') (p ++ p') w1 w3.
Proof.
  intros (l & S & <- & <-) (l' & S' & <- & <-). exists (l ++ l'). split; [unfold says in *; by rewrite S', S, app_assoc|].
  unfold printed, spawns. by rewrite omap_app, List.filter_app.
Qed.

Lemma same_desk_trans w1 w2 w3 : same_desk w1 w2 -> same_desk w2 w3 -> same_desk w1 w3.
Proof.
  intros ((F1 & H1) & O1 & K1 & R1 & M1 & L1) ((F2 & H2) & O2 & K2 & R2 & M2 & L2). unfold same_run in *.
  unfold same_desk, same_files, same_run. split_and!; try congruence; auto.
Qed.

Lemma same_desk_refl w : same_desk w w.
Proof. unfold same_desk, same_files. by split_and!. Qed.

(** The calls to the console. *)
Lemma console_put x w (Q : Z -> W -> Prop) :
  (forall v w', does [x] [] w w' -> same_desk w w' -> Q v w') -> runs (call (send cs OP_PUTCHAR x 0 0)) w Q.
Proof.
  intros F. destruct (console_law x w) as (r & w' & E & S). unfold runs. cbn. rewrite E. apply F; [|done].
  exists [Event (SysArgs SYS_SEND cs OP_PUTCHAR x 0 0) (fun v => mem v w)]. split; [exact (log_law _ _ _ _ E)|]. split; [|done].
  unfold printed. cbn. by rewrite Z.eqb_refl.
Qed.

Lemma console_mode raw w (Q : unit -> W -> Prop) :
  (forall w', same_files w w' -> opened w' = opened w -> keys w' = later w -> mem FS_BUF_VIRT w' = mem FS_BUF_VIRT w -> Q tt w') ->
  runs (call (console_set_mode cs raw)) w Q.
Proof.
  intros F. destruct (mode_law (if raw then 1 else 0) w) as (r & w' & E & S1 & S2 & S3 & S4). unfold runs, console_set_mode. cbn.
  rewrite E. by apply F.
Qed.

Lemma say_ok s w : runs (say cs s) w (fun _ w' => does s [] w w' /\ same_desk w w').
Proof.
  unfold say. revert w. induction s as [|b s IH]; intros w; [apply runs_ret; split; [apply does_nil|apply same_desk_refl]|].
  cbn [print]. apply runs_call, console_put. intros _ w1 D1 S1. eapply runs_mono; [apply IH|].
  intros _ w2 [D2 S2]. split; [exact (does_app _ _ _ _ _ _ _ D1 D2)|by eapply same_desk_trans].
Qed.

(** The programs that print nothing and start nothing. *)
Definition quiet_call (c : sys_args) : bool :=
  negb ((num c =? SYS_SEND) && (a1 c =? cs) && (a2 c =? OP_PUTCHAR)) && negb (num c =? SYS_SPAWN_FROM_MEMORY).

Inductive quiet {A} : prog A -> Prop :=
  | quiet_ret a : quiet (Ret a)
  | quiet_sys c k : quiet_call c = true -> (forall r, quiet (k r)) -> quiet (Sys c k).

Lemma quiet_fs op x y z : quiet_call (SysArgs SYS_SEND fs op x y z) = true.
Proof. unfold quiet_call. pose proof slots_law as N. cbn. by rewrite (proj2 (Z.eqb_neq fs cs)) by congruence. Qed.

Lemma quiet_console op x y z : op <> OP_PUTCHAR -> quiet_call (SysArgs SYS_SEND cs op x y z) = true.
Proof. intros N. unfold quiet_call. cbn. by rewrite (proj2 (Z.eqb_neq _ _) N), andb_false_r. Qed.

Lemma quiet_does {A} (p : prog A) w : quiet p -> safely (call p) w (fun _ w' => does [] [] w w').
Proof.
  intros P. revert w. induction P as [a|c k Q _ IH]; intros w; [apply does_nil|]. unfold safely in *. cbn.
  destruct (answer c w) as [[r w1]|] eqn:E; try done. specialize (IH r w1). destruct (call (k r) w1); try done.
  apply (does_app [] [] [] [] _ w1); try done. eexists. split; [exact (log_law _ _ _ _ E)|].
  apply andb_prop in Q as [Q1 Q2]. apply negb_true_iff in Q1, Q2. unfold printed, spawns. cbn -[SYS_SEND SYS_SPAWN_FROM_MEMORY]. by rewrite Q1, Q2.
Qed.

Lemma ask {A} (p : prog A) w (Q Q' : A -> W -> Prop) :
  runs (call p) w Q -> quiet p -> (forall a w', Q a w' -> does [] [] w w' -> Q' a w') -> runs (call p) w Q'.
Proof.
  intros R P F. pose proof (quiet_does p w P) as S. unfold runs, safely in *. destruct (call p w); try done. by apply F.
Qed.

Ltac quiet_prog := repeat (constructor; [first [apply quiet_fs|by apply quiet_console|done]|intros ?]); constructor.

Lemma same_files_trans w1 w2 w3 : same_files w1 w2 -> same_files w2 w3 -> same_files w1 w3.
Proof. intros [F1 H1] [F2 H2]. split; [|auto]. intros k. by rewrite F2, F1. Qed.

Lemma sub_nil (d : list Z) : sub d (zlen d) (zlen d) = [].
Proof. unfold sub. by rewrite Z.sub_diag. Qed.

Lemma sub_whole (d : list Z) : sub d 0 (zlen d) = d.
Proof. unfold sub, zlen. rewrite drop_0. apply take_ge. lia. Qed.

(** What a write past the end leaves. *)
Lemma sub_extend (d : list Z) off s : 0 <= off <= zlen d -> sub (put d off s) 0 (off + zlen s) = sub d 0 off ++ s.
Proof.
  intros H. unfold put, sub, zlen in *. rewrite !drop_0, !Z.sub_0_r, app_assoc.
  rewrite take_app_le by (rewrite length_app, length_take; lia). apply take_ge. rewrite length_app, length_take. lia.
Qed.

Lemma zlen_put_ext (d : list Z) off s : 0 <= off <= zlen d -> off + zlen s <= zlen (put d off s).
Proof. intros H. unfold put, zlen in *. rewrite !length_app, length_take. lia. Qed.

Lemma sub_prefix (d : list Z) off m n : 0 <= m <= n -> sub (sub d off (off + n)) 0 m = sub d off (off + m).
Proof. intros H. unfold sub. rewrite drop_0, take_take. f_equal. lia. Qed.

Lemma sent_prefix (b c : list Z) off want n :
  0 <= off -> off + want <= zlen c -> 0 <= n <= want -> want <= zlen b -> sub (put b 0 (sub c off (off + want))) 0 n = sub c off (off + n).
Proof.
  intros H0 H1 H2 H3. unfold put, sub, zlen in *. rewrite Z2Nat.inj_0, take_0, drop_0. cbn [app].
  rewrite take_app_le by (rewrite length_take, length_drop; lia). rewrite take_take. f_equal. lia.
Qed.

(** ** [read] *)

Lemma read_loop_ok k d off fuel w :
  healthy w -> opened w = Some k -> file k w = Some d -> mapped FS_BUF_VIRT w -> zlen d < 2 ^ 32 ->
  0 <= off <= zlen d -> zlen d - off <= Z.of_nat fuel ->
  runs (read_loop fuel cs fs off (zlen d)) w (fun _ w' => does (sub d off (zlen d)) [] w w' /\ same_files w w').
Proof.
  intros Hh Ho Hf Hm Hd Hoff Hfu. revert off w Hh Ho Hf Hm Hoff Hfu. induction fuel as [|fuel IH]; intros off w Hh Ho Hf Hm Hoff Hfu.
  all: cbn [read_loop]; destruct (off <? zlen d) eqn:L; [apply Z.ltb_lt in L|apply Z.ltb_ge in L].
  2,4: apply runs_ret; assert (off = zlen d) as -> by lia; rewrite sub_nil; split; [apply does_nil|apply same_desk_refl].
  { lia. }
  apply runs_bind. eapply ask; [apply (read_law k d off SECTOR_SIZE w Hh Ho Hf Hm); unfold SECTOR_SIZE; lia|quiet_prog|].
  intros n w1 (Hn & Hs & F1 & O1 & K1 & _ & b & Eb & Lb & Sb) D1. unfold SECTOR_SIZE in Hn. rewrite (proj2 (Z.eqb_neq n 0)) by lia.
  apply runs_bind, load_ok; [by exists b|lia|]. intros b' Eb' _. rewrite Eb in Eb'. injection Eb' as <-. rewrite Sb.
  apply runs_bind. eapply runs_mono; [apply say_ok|]. intros _ w2 [D2 S2]. rewrite (wrap_small 32 (off + n)) by lia.
  destruct S2 as (F2 & O2 & _ & _ & M2 & _). eapply runs_mono; [apply IH|].
  - apply F2, F1, Hh.
  - congruence.
  - rewrite (proj1 F2), (proj1 F1). done.
  - exists b. by rewrite M2.
  - lia.
  - lia.
  - intros _ w3 [D3 F3]. split; [|by eapply same_files_trans; [exact F1|eapply same_files_trans]].
    pose proof (does_app _ _ _ _ _ _ _ D1 (does_app _ _ _ _ _ _ _ D2 D3)) as D. cbn in D.
    rewrite <- (sub_app d off (off + n) (zlen d)) in D by lia. exact D.
Qed.

Lemma cmd_read_ok d name fuel w :
  healthy w -> file (sent_name name) w = Some d -> mapped FS_BUF_VIRT w -> zlen d < 2 ^ 32 -> zlen d <= Z.of_nat fuel ->
  runs (cmd_read fuel cs (Some fs) name) w (fun _ w' => does (d ++ [10]) [] w w' /\ same_files w w').
Proof.
  intros Hh Hf Hm Hd Hfu. pose proof (zlen_nonneg d). unfold cmd_read. apply runs_bind.
  eapply ask; [by apply (open_law name false d w)|quiet_prog|].
  intros o w1 (-> & F1 & O1 & _ & _ & M1) D1. apply runs_bind. eapply runs_mono; [apply (read_loop_ok (sent_name name) d 0 fuel w1)|].
  - by apply F1.
  - done.
  - by rewrite (proj1 F1).
  - unfold mapped. by rewrite M1.
  - done.
  - lia.
  - lia.
  - intros _ w2 [D2 F2]. rewrite sub_whole in D2. eapply runs_mono; [apply say_ok|]. intros _ w3 [D3 (F3 & _)].
    split; [exact (does_app _ _ _ _ _ _ _ D1 (does_app _ _ _ _ _ _ _ D2 D3))|].
    eapply same_files_trans; [exact F1|]. by eapply same_files_trans.
Qed.

(** ** [run] *)

Lemma load_loop_ok k d off fuel rb w :
  healthy w -> opened w = Some k -> file k w = Some d -> mapped FS_BUF_VIRT w -> zlen d <= 4096 ->
  mem RUN_BUF_VIRT w = Some rb -> 4096 <= zlen rb -> sub rb 0 off = sub d 0 off ->
  0 <= off <= zlen d -> zlen d - off <= Z.of_nat fuel ->
  runs (load_loop fuel cs fs off (zlen d)) w (fun ok w' => ok = true /\ does [] [] w w' /\ same_files w w' /\
    exists rb', mem RUN_BUF_VIRT w' = Some rb' /\ sub rb' 0 (zlen d) = d).
Proof.
  intros Hh Ho Hf Hm Hd. revert off w rb Hh Ho Hf Hm. induction fuel as [|fuel IH]; intros off w rb Hh Ho Hf Hm Er Lr Sr Hoff Hfu.
  all: cbn [load_loop]; destruct (off <? zlen d) eqn:L; [apply Z.ltb_lt in L|apply Z.ltb_ge in L].
  2,4: apply runs_ret; assert (off = zlen d) as -> by lia; rewrite sub_whole in Sr; split_and!; try done; [apply does_nil|by exists rb].
  { lia. }
  cbv zeta. unfold SECTOR_SIZE. apply runs_bind. eapply ask; [apply (read_law k d off _ w Hh Ho Hf Hm); lia|quiet_prog|].
  intros n w1 (Hn & Hs & F1 & O1 & _ & R1 & b & Eb & Lb & Sb) D1. rewrite (proj2 (Z.eqb_neq n 0)) by lia.
  apply runs_bind, load_ok; [by exists b|lia|]. intros b' Eb' Ln. rewrite Eb in Eb'. injection Eb' as <-. rewrite Sb in Ln |- *.
  apply runs_bind, poke_ok; [done|exists rb; by rewrite R1|lia|rewrite Ln; lia|]. intros rb0 E0 _ w2 _ E2.
  rewrite R1, Er in E0. injection E0 as <-. destruct (poke_law RUN_BUF_VIRT (put rb off (sub d off (off + n))) w1 ltac:(by left)) as (F2 & O2 & _).
  fold w2 in F2, O2. rewrite (wrap_small 32 (off + n)) by lia. eapply runs_mono; [apply (IH (off + n) w2 (put rb off (sub d off (off + n))))|].
  - apply F2, F1, Hh.
  - congruence.
  - rewrite (proj1 F2), (proj1 F1). done.
  - exists b. split; [|done]. unfold w2. by rewrite other_law.
  - done.
  - rewrite zlen_put; lia.
  - pose proof (sub_put_append rb off (sub d off (off + n)) ltac:(lia) ltac:(lia)) as P. rewrite Ln in P. rewrite P, Sr.
    symmetry. apply sub_app; lia.
  - lia.
  - lia.
  - intros ok w3 (-> & D3 & F3 & X). split_and!; try done; [|by eapply same_files_trans; [exact F1|eapply same_files_trans]].
    assert (D2 : does [] [] w1 w2) by (exists []; split; [unfold says, w2; by rewrite store_log_law, app_nil_r|done]).
    exact (does_app _ _ _ _ _ _ _ D1 (does_app _ _ _ _ _ _ _ D2 D3)).
Qed.

(** The call that starts a task from the page of the program. *)
Definition spawn_event (grant n : Z) (f : Z -> option (list Z)) : event :=
  Event (SysArgs SYS_SPAWN_FROM_MEMORY grant 0 0 0 n) f.

(** What the shell says of a task it has started. *)
Definition spawn_report (id : Z) (s : list Z) : Prop :=
  if id =? 0 then s = line "run: spawn failed"
  else exists ds, decimal id = Ok ds /\ s = bytes "run: spawned task " ++ ds ++ [10].

Lemma spawn_ok g n w : runs (call (spawn_from_memory [g] n)) w (fun id w' => is_u32 id /\ same_desk w w' /\
  does [] [spawn_event g n (fun v => mem v w)] w w').
Proof.
  destruct (spawn_law g n w) as (r & w' & E & S). 
  change (spawn_from_memory [g] n) with (r ← syscall_raw SYS_SPAWN_FROM_MEMORY g 0 0 0 n; mret (r_eax r)).
  unfold runs, syscall_raw, mbind, prog_bind. cbn -[SYS_SPAWN_FROM_MEMORY].
  rewrite E. split; [apply (regs_law _ _ _ _ E)|]. split; [done|]. eexists. split; [exact (log_law _ _ _ _ E)|]. done.
Qed.

Lemma report_ok id w : is_u32 id ->
  runs (if id =? 0 then say cs (line "run: spawn failed")
        else _ ← say cs (bytes "run: spawned task "); _ ← call (print_u32 cs id); say cs [10]) w
    (fun _ w' => (exists s, does s [] w w' /\ spawn_report id s) /\ same_files w w').
Proof.
  intros Hi. unfold spawn_report. destruct (id =? 0).
  { eapply runs_mono; [apply say_ok|]. intros _ w' [D S]. split; [eauto|apply S]. }
  destruct (decimal_spec id Hi) as (ds & E & _). apply runs_bind. eapply runs_mono; [apply say_ok|]. intros _ w1 [D1 S1].
  unfold print_u32. rewrite E. cbn [lift]. apply runs_bind. eapply runs_mono; [apply (say_ok ds)|]. intros _ w2 [D2 S2].
  eapply runs_mono; [apply say_ok|]. intros _ w3 [D3 S3]. split; [|eapply same_desk_trans; [exact S1|]; by eapply same_desk_trans].
  eexists. split; [exact (does_app _ _ _ _ _ _ _ D1 (does_app _ _ _ _ _ _ _ D2 D3))|]. by exists ds.
Qed.

Lemma cmd_run_ok d name grant fuel rb w :
  healthy w -> file (sent_name name) w = Some d -> mapped FS_BUF_VIRT w -> 0 < zlen d <= 4096 ->
  mem RUN_BUF_VIRT w = Some rb -> 4096 <= zlen rb -> zlen d <= Z.of_nat fuel ->
  runs (cmd_run fuel cs (Some fs) grant name) w (fun _ w' => same_files w w' /\ exists s f b id,
    does s [spawn_event grant (zlen d) f] w w' /\ spawn_report id s /\ f RUN_BUF_VIRT = Some b /\ sub b 0 (zlen d) = d).
Proof.
  intros Hh Hf Hm Hd Er Lr Hfu. unfold cmd_run. apply runs_bind. eapply ask; [by apply (open_law name false d w)|quiet_prog|].
  intros o w1 (-> & F1 & O1 & _ & R1 & M1) D1. unfold PAGE_SIZE. rewrite (proj2 (Z.eqb_neq _ _)), (proj2 (Z.ltb_ge _ _)) by lia. cbn [orb].
  apply runs_bind. eapply runs_mono; [apply (load_loop_ok (sent_name name) d 0 fuel rb w1)|].
  - by apply F1.
  - done.
  - by rewrite (proj1 F1).
  - unfold mapped. by rewrite M1.
  - lia.
  - by rewrite R1.
  - done.
  - done.
  - lia.
  - lia.
  - intros ok w2 (-> & D2 & F2 & b & Eb & Sb). cbn [negb]. apply runs_bind. eapply runs_mono; [apply spawn_ok|].
    intros id w3 (Hi & S3 & D3). eapply runs_mono; [by apply report_ok|]. intros _ w4 [(s & D4 & Rp) F4].
    split; [eapply same_files_trans; [exact F1|eapply same_files_trans; [exact F2|eapply same_files_trans; [apply S3|exact F4]]]|].
    exists s, (fun v => mem v w2), b, id. split_and!; try done.
    exact (does_app _ _ _ _ _ _ _ D1 (does_app _ _ _ _ _ _ _ D2 (does_app _ _ _ _ _ _ _ D3 D4))).
Qed.

(** ** [edit] *)

(** As much of the data as there is room for. *)
Lemma append_loaded_ok e data : editor_ok e -> let n := Z.min (zlen data) (EDITOR_MAX_BYTES - len e) in
  exists e', append_loaded e data = Ok (e', n =? zlen data) /\ editor_ok e' /\ text e' = text e ++ sub data 0 n /\
    len e' = len e + n /\ cursor e' = cursor e.
Proof.
  intros O n. pose proof (zlen_nonneg data). destruct O as [Lb Hl Hc]. unfold append_loaded. cbv zeta. fold n.
  assert (Ls : zlen (sub data 0 n) = n) by (rewrite zlen_sub; lia).
  rewrite bslice_ok by lia. cbv beta iota. rewrite bcopy_ok by lia. cbv beta iota.
  eexists. split; [reflexivity|]. split; [split; cbn; [rewrite zlen_put; lia|lia|lia]|]. split_and!; try done. unfold text. cbn.
  rewrite <- Ls at 2. apply sub_put_append; lia.
Qed.

(** What the editor loads of a file. *)
Definition loaded (d : list Z) : list Z := take (Z.to_nat EDITOR_MAX_BYTES) d.

Lemma loaded_sub d : loaded d = sub d 0 (Z.min (zlen d) EDITOR_MAX_BYTES).
Proof.
  unfold loaded, sub, zlen. rewrite drop_0, Z.sub_0_r. destruct (Z.min_spec (Z.of_nat (length d)) EDITOR_MAX_BYTES) as [[H ->]|[H ->]]; [|done].
  rewrite Nat2Z.id, !take_ge by lia. done.
Qed.

Lemma fill_loop_ok k d off fuel e w :
  healthy w -> opened w = Some k -> file k w = Some d -> mapped FS_BUF_VIRT w ->
  editor_ok e -> len e = off -> text e = sub d 0 off -> 0 <= off <= zlen d -> EDITOR_MAX_BYTES - off < Z.of_nat fuel ->
  runs (fill_loop fuel MY_INBOX fs FS_BUF_VIRT off (zlen d) e) w (fun '(e', _) w' => editor_ok e' /\
    text e' = loaded d /\ cursor e' = cursor e /\ same_files w w' /\ opened w' = Some k /\ keys w' = keys w /\ mapped FS_BUF_VIRT w').
Proof.
  intros Hh Ho Hf Hm. revert off e w Hh Ho Hf Hm. induction fuel as [|fuel IH]; intros off e w Hh Ho Hf Hm O Le Te Hoff Hfu; pose proof O as [_ Hl _].
  { lia. }
  cbn [fill_loop]. destruct (off <? zlen d) eqn:L; [apply Z.ltb_lt in L|apply Z.ltb_ge in L].
  2: { apply runs_ret. assert (off = zlen d) as -> by lia. rewrite loaded_sub, Z.min_l by lia. by split_and!. }
  cbv zeta. apply runs_bind. eapply runs_mono; [apply (read_law k d off _ w Hh Ho Hf Hm); lia|].
  intros n w1 (Hn & Hs & F1 & O1 & K1 & _ & b & Eb & Lb & Sb). rewrite (proj2 (Z.eqb_neq n 0)) by lia.
  apply runs_bind, load_ok; [by exists b|lia|]. intros b' Eb' Ln. rewrite Eb in Eb'. injection Eb' as <-. rewrite Sb in Ln |- *.
  assert (Ls : zlen (sub d off (off + n)) = n) by (rewrite zlen_sub; lia).
  destruct (append_loaded_ok e (sub d off (off + n)) O) as (e1 & E1 & W1 & T1 & L1 & C1). rewrite Ls in E1, T1, L1.
  apply runs_bind, runs_pure. eexists. split; [exact E1|]. destruct (Z.min n _ =? n) eqn:Q; [apply Z.eqb_eq in Q|apply Z.eqb_neq in Q]; cbn [negb].
  - change EDITOR_MAX_BYTES with 65536 in *. rewrite (wrap_small 32 (off + n)) by lia. rewrite Q in T1, L1. rewrite <- Ls in T1 at 2. rewrite sub_whole in T1.
    eapply runs_mono; [apply (IH (off + n) e1 w1)|]; try done; try lia; try congruence.
    + by apply F1.
    + by rewrite (proj1 F1).
    + by exists b.
    + rewrite T1, Te. symmetry. apply sub_app; lia.
    + intros [e2 cut] w2 (W2 & T2 & C2 & F2 & O2 & K2 & M2). split_and!; try done; try congruence. by eapply same_files_trans.
  - apply runs_ret. split_and!; try done; [|congruence|by exists b]. rewrite T1, Te, loaded_sub, Z.min_r, Z.min_r by lia. subst off.
    rewrite (sub_app d 0 (len e) EDITOR_MAX_BYTES) by lia. f_equal. rewrite sub_prefix by lia. f_equal. lia.
Qed.

Lemma redraw_ok e w : editor_ok e -> runs (call (redraw e cs)) w (fun _ w' => same_desk w w').
Proof.
  intros O. destruct (redraw_bytes_spec e O) as (dr & dc & E & _). unfold redraw. rewrite E. cbn [lift].
  eapply runs_mono; [apply say_ok|]. by intros _ w' [_ S].
Qed.

(** The warning that a file is too long. *)
Lemma warn_ok (cut : bool) s w : runs (if cut then say cs s else mret tt) w (fun _ w' => same_desk w w').
Proof. destruct cut; [|apply runs_ret, same_desk_refl]. eapply runs_mono; [apply say_ok|]. by intros _ w' [_ S]. Qed.

(** The keys up to the first that saves or quits. *)
Lemma key_loop_ok ks last rest fuel e w : editor_ok e -> keys w = ks ++ last :: rest -> session ks = ks ->
  last = KEY_CTRL_S \/ last = KEY_CTRL_Q -> (List.length ks < fuel)%nat ->
  runs (key_loop fuel cs rs e) w (fun '(e', save) w' => editor_ok e' /\ save = (last =? KEY_CTRL_S) /\
    view e' = fold_left (fun sc k => spec_key k sc) ks (view e) /\ keys w' = rest /\
    same_files w w' /\ opened w' = opened w /\ mem FS_BUF_VIRT w' = mem FS_BUF_VIRT w).
Proof.
  revert fuel e w. induction ks as [|k ks IH]; intros fuel e w O K S Hl Hf; (destruct fuel as [|fuel]; [cbn in Hf; lia|]); cbn [key_loop].
  - apply runs_bind. eapply runs_mono; [exact (key_law w last rest K)|]. intros k' w1 (-> & K1 & F1 & O1 & M1).
    destruct (apply_key_refines e last O) as (e1 & E1 & W1 & V1). apply runs_bind, runs_pure. eexists. split; [exact E1|].
    assert (V : spec_key last (view e) = view e) by (by destruct Hl as [-> | ->]; destruct (view e)).
    assert ((if last =? KEY_CTRL_S then Some true else if last =? KEY_CTRL_Q then Some false else None) = Some (last =? KEY_CTRL_S)) as ->
      by (by destruct Hl as [-> | ->]).
    apply runs_ret. split_and!; try done. cbn. congruence.
  - cbn in S. destruct ((k =? KEY_CTRL_S) || (k =? KEY_CTRL_Q)) eqn:Q; [done|]. apply orb_false_elim in Q as [Q1 Q2].
    injection S as S. apply runs_bind. eapply runs_mono; [exact (key_law w k (ks ++ last :: rest) K)|]. intros k' w1 (-> & K1 & F1 & O1 & M1).
    destruct (apply_key_refines e k O) as (e1 & E1 & W1 & V1). rewrite Q1, Q2 in E1. apply runs_bind, runs_pure. eexists. split; [exact E1|].
    apply runs_bind. eapply runs_mono; [by apply redraw_ok|]. intros _ w2 (F2 & O2 & K2 & _ & M2 & _).
    eapply runs_mono; [apply (IH fuel e1 w2 W1); [congruence|done|done|cbn in Hf; lia]|].
    intros [e2 save] w3 (W3 & Sv & V3 & K3 & F3 & O3 & M3). split_and!; try done; try congruence.
    + cbn [fold_left]. congruence.
    + eapply same_files_trans; [exact F1|]. by eapply same_files_trans.
Qed.

Lemma same_wrote k d d' w1 w2 w3 : wrote k d w1 w2 -> wrote k d' w2 w3 -> wrote k d' w1 w3.
Proof.
  intros (_ & N1 & _ & K1) (F & N2 & O & K2). split_and!; try done; [|congruence]. intros k' Hk. by rewrite N2, N1.
Qed.

Lemma save_loop_ok k c d off fuel w :
  healthy w -> opened w = Some k -> file k w = Some d -> mapped FS_BUF_VIRT w -> zlen c <= EDITOR_MAX_BYTES ->
  sub d 0 off = sub c 0 off -> 0 <= off <= zlen c -> off <= zlen d -> zlen c - off <= Z.of_nat fuel ->
  runs (save_loop fuel cs MY_INBOX fs FS_BUF_VIRT off c) w (fun ok w' => ok = true /\ healthy w' /\
    exists d', wrote k d' w w' /\ zlen c <= zlen d' /\ sub d' 0 (zlen c) = c).
Proof.
  intros Hh Ho Hf Hm Hc. revert off d w Hh Ho Hf Hm. induction fuel as [|fuel IH]; intros off d w Hh Ho Hf Hm Sd Hoff Ld Hfu.
  all: cbn [save_loop]; destruct (off <? zlen c) eqn:L; [apply Z.ltb_lt in L|apply Z.ltb_ge in L].
  2,4: apply runs_ret; assert (off = zlen c) as -> by lia; rewrite sub_whole in Sd; split_and!; try done; exists d; by split_and!.
  { lia. }
  change EDITOR_MAX_BYTES with 65536 in Hc. cbv zeta. set (want := Z.min (zlen c - off) 512). assert (Hw : 0 < want <= 512) by lia.
  apply runs_bind, runs_pure. eexists. split; [apply bslice_ok; lia|]. assert (Ls : zlen (sub c off (off + want)) = want) by (rewrite zlen_sub; lia).
  apply runs_bind, store_ok; [done|done|lia|]. intros b Eb Lb w1 _ E1. rewrite !(wrap_small 32) by lia.
  destruct (poke_law FS_BUF_VIRT (put b 0 (sub c off (off + want))) w ltac:(by right)) as (F1 & O1 & K1). fold w1 in F1, O1, K1.
  apply runs_bind. eapply runs_mono; [apply (write_law k d (put b 0 (sub c off (off + want))) off want w1)|].
  - by apply F1.
  - congruence.
  - by rewrite (proj1 F1).
  - done.
  - rewrite zlen_put; lia.
  - lia.
  - lia.
  - lia.
  - intros n w2 (Hn & H2 & W2 & M2). rewrite (proj2 (Z.eqb_neq n 0)) by lia. rewrite (wrap_small 32 (off + n)) by lia.
    assert (En : sub (put b 0 (sub c off (off + want))) 0 n = sub c off (off + n)) by (apply sent_prefix; lia). rewrite En in W2.
    assert (Ln : zlen (sub c off (off + n)) = n) by (rewrite zlen_sub; lia).
    assert (W12 : wrote k (put d off (sub c off (off + n))) w w2).
    { destruct W2 as (A & B & C & D). split_and!; try done; [|congruence]. intros k' Hk. rewrite B by done. apply F1. }
    eapply runs_mono; [apply (IH (off + n) (put d off (sub c off (off + n))) w2)|].
    + done.
    + apply W2.
    + apply W2.
    + unfold mapped. rewrite M2, E1. eexists. split; [done|]. rewrite zlen_put; lia.
    + pose proof (sub_extend d off (sub c off (off + n)) ltac:(lia)) as P. rewrite Ln in P. rewrite P, Sd. symmetry. apply sub_app; lia.
    + lia.
    + pose proof (zlen_put_ext d off (sub c off (off + n)) ltac:(lia)). lia.
    + lia.
    + intros ok w3 (-> & H3 & d' & W3 & L3 & S3). split_and!; try done. exists d'. split_and!; try done. by eapply same_wrote.
Qed.

Lemma save_file_ok k d fuel e w :
  healthy w -> opened w = Some k -> file k w = Some d -> mapped FS_BUF_VIRT w -> editor_ok e -> EDITOR_MAX_BYTES <= Z.of_nat fuel ->
  runs (save_file fuel cs MY_INBOX fs FS_BUF_VIRT e) w (fun _ w' =>
    file k w' = Some (text e) /\ forall k', k' <> k -> file k' w' = file k' w).
Proof.
  intros Hh Ho Hf Hm O Hfu. pose proof (zlen_text e O) as Lt. pose proof O as [Lb Hl _]. unfold save_file.
  apply runs_bind, runs_pure. exists (text e). split; [unfold content; apply bslice_ok; lia|].
  change EDITOR_MAX_BYTES with 65536 in Hl, Hfu. pose proof (zlen_nonneg d).
  apply runs_bind. eapply runs_mono; [apply (save_loop_ok k (text e) d 0 fuel w Hh Ho Hf Hm); try done; [change EDITOR_MAX_BYTES with 65536; lia|lia|lia]|].
  intros ok w1 (-> & H1 & d' & (F1 & N1 & O1 & K1) & L1 & S1). cbn [negb]. rewrite (wrap_small 32) by lia.
  apply runs_bind. eapply runs_mono; [apply (truncate_law k d' (zlen (text e)) w1 H1 O1 F1); lia|].
  intros ok w2 (-> & H2 & (F2 & N2 & _)). cbn [negb]. eapply runs_mono; [apply say_ok|]. intros _ w3 [_ (F3 & _)].
  rewrite !(proj1 F3). split.
  - rewrite F2. f_equal. rewrite <- S1 at 2. unfold sub. by rewrite drop_0, Z.sub_0_r.
  - intros k' Hk. by rewrite (proj1 F3), N2, N1.
Qed.

(** The file is opened, or made. *)
Lemma open_or_make_ok name w : healthy w ->
  let d := default [] (file (sent_name name) w) in
  runs (call (fs_open_for_write fs MY_INBOX name)) w (fun o w' => o = Some (zlen d) /\ healthy w' /\
    wrote (sent_name name) d w w' /\ mem FS_BUF_VIRT w' = mem FS_BUF_VIRT w).
Proof.
  intros Hh d. subst d. destruct (file (sent_name name) w) as [d|] eqn:Hf; cbn.
  - eapply runs_mono; [by apply (open_law name true d w)|]. intros o w' (-> & F & O & K & _ & M).
    split_and!; try done; [by apply F|]. split_and!; try done; [by rewrite (proj1 F)|]. intros k' _. apply F.
  - eapply runs_mono; [by apply create_law|]. intros o w' (-> & H' & Wr & M). by split_and!.
Qed.

Lemma run_ok name ks last rest fuel e w :
  let k := sent_name name in
  let d := default [] (file k w) in
  healthy w -> mapped FS_BUF_VIRT w -> editor_ok e ->
  later w = ks ++ last :: rest -> session ks = ks -> last = KEY_CTRL_S \/ last = KEY_CTRL_Q ->
  EDITOR_MAX_BYTES < Z.of_nat fuel -> (List.length ks < fuel)%nat ->
  runs (run fuel cs rs MY_INBOX fs FS_BUF_VIRT e name) w (fun e' w' => editor_ok e' /\
    file k w' = Some (if last =? KEY_CTRL_S then fst (fold_left (fun sc key => spec_key key sc) ks (loaded d, O)) else d) /\
    forall k', k' <> k -> file k' w' = file k' w).
Proof.
  intros k d Hh Hm O Hk Hs Hl Hfu Hf. unfold run. apply runs_bind, console_mode. intros w1 F1 _ K1 M1. cbv zeta.
  assert (Ed : default [] (file k w1) = d) by (subst d; by rewrite (proj1 F1)).
  apply runs_bind. eapply runs_mono; [apply (open_or_make_ok name w1); by apply F1|]. fold k. cbv zeta. rewrite Ed.
  intros o w2 (-> & H2 & (F2 & N2 & O2 & K2) & M2). assert (Hm2 : mapped FS_BUF_VIRT w2) by (unfold mapped; by rewrite M2, M1).
  pose proof (zlen_nonneg d). assert (Or : editor_ok (reset e)) by (destruct O as [Lb _ _]; split; cbn; [done|by change EDITOR_MAX_BYTES with 65536|lia]).
  apply runs_bind. eapply runs_mono; [apply (fill_loop_ok k d 0 fuel (reset e) w2 H2 O2 F2 Hm2 Or); try done; lia|].
  intros [e1 cut] w3 (W1 & T1 & C1 & F3 & O3 & K3 & M3). apply runs_bind. eapply runs_mono; [apply warn_ok|].
  intros _ w3' (F3' & O3' & K3' & _ & M3' & _).
  apply runs_bind. eapply runs_mono; [by apply redraw_ok|]. intros _ w4 (F4 & O4 & K4 & _ & M4 & _).
  apply runs_bind. eapply runs_mono; [apply (key_loop_ok ks last rest fuel e1 w4 W1); try done; congruence|].
  intros [e2 save] w5 (W5 & -> & V5 & _ & F5 & O5 & M5). cbn in C1. unfold view in V5. rewrite T1, C1 in V5. change (Z.to_nat 0) with 0%nat in V5.
  apply runs_bind, console_mode. intros w6 F6 O6 _ M6.
  apply runs_bind. eapply runs_mono; [apply say_ok|]. intros _ w7 [_ (F7 & O7 & _ & _ & M7 & _)].
  assert (F27 : same_files w2 w7) by (eapply same_files_trans; [exact F3|]; eapply same_files_trans; [exact F3'|]; eapply same_files_trans; [exact F4|]; eapply same_files_trans; [exact F5|];
    by eapply same_files_trans).
  assert (N : forall k', k' <> k -> file k' w7 = file k' w) by (intros k' Hk'; rewrite (proj1 F27), N2 by done; apply F1).
  apply runs_bind. destruct (last =? KEY_CTRL_S).
  - eapply runs_mono; [apply (save_file_ok k d fuel e2 w7); try done; try lia|].
    + by apply F27.
    + congruence.
    + by rewrite (proj1 F27).
    + unfold mapped. by rewrite M7, M6, M5, M4, M3'.
    + intros _ w8 [F8 N8]. apply runs_ret. split_and!; [done| |].
      * rewrite F8. f_equal. by rewrite <- V5.
      * intros k' Hk'. by rewrite N8, N.
  - eapply runs_mono; [apply say_ok|]. intros _ w8 [_ (F8 & _)]. apply runs_ret. split_and!; [done| |].
    + by rewrite (proj1 F8), (proj1 F27).
    + intros k' Hk'. by rewrite (proj1 F8), N.
Qed.

(** ** Lines *)

(** A shell on this console, perhaps with this file system. *)
Record shell_ok (s : shell) : Prop := {
  so_console : console_slot s = cs; so_reader : reader_slot s = rs; so_fs : fs_slot s = None \/ fs_slot s = Some fs;
  so_ed : forall e, ed s = Some e -> editor_ok e
}.

(** A line is read, obeyed, and the prompt printed. *)
Lemma command_ok fuel l ls s w (Q : shell -> W -> Prop) :
  shell_ok s -> typed w = l :: ls ->
  (forall w1, same_desk w w1 -> does [] [] w w1 -> runs (obey fuel l s) w1 (fun s' w2 =>
    console_slot s' = cs /\ forall w3, does (bytes "> ") [] w2 w3 -> same_files w2 w3 -> Q s' w3)) ->
  runs (command fuel s) w Q.
Proof.
  intros [Hc Hr _ _] Ht F. unfold command. rewrite Hc, Hr. apply runs_bind. eapply ask; [exact (line_law w l ls Ht)|quiet_prog|].
  intros n w1 (-> & S1 & b & Eb & Lb & Sb) D1. apply runs_bind. unfold runs at 1, load. rewrite Eb, (proj2 (Z.leb_le _ _)) by done. rewrite Sb.
  apply runs_bind. eapply runs_mono; [exact (F w1 S1 D1)|]. intros s' w2 [Hs' F2]. rewrite Hs'. apply runs_bind. eapply runs_mono; [apply say_ok|].
  intros _ w3 [D3 (F3 & _)]. apply runs_ret. by apply F2.
Qed.

(** The lines the shell cannot obey, and what it says. *)
Inductive refused (s : shell) (w : W) : list Z -> list Z -> Prop :=
  | no_files_read name : fs_slot s = None -> refused s w (bytes "read " ++ name) (line "read: no filesystem available")
  | no_files_run name : fs_slot s = None -> refused s w (bytes "run " ++ name) (line "run: no filesystem available")
  | no_files_edit name : is_Some (ed s) -> fs_slot s = None -> refused s w (bytes "edit " ++ name) (line "edit: no filesystem available")
  | no_editor name : ed s = None -> refused s w (bytes "edit " ++ name) (line "edit: unavailable (alloc failed at startup)")
  | not_found_read name : is_Some (fs_slot s) -> file (sent_name name) w = None ->
      refused s w (bytes "read " ++ name) (line "read: not found")
  | not_found_run name : is_Some (fs_slot s) -> file (sent_name name) w = None ->
      refused s w (bytes "run " ++ name) (line "run: not found")
  | bad_size name d : is_Some (fs_slot s) -> healthy w -> file (sent_name name) w = Some d -> zlen d = 0 \/ PAGE_SIZE < zlen d ->
      refused s w (bytes "run " ++ name) (line "run: unsupported size")
  | unknown l : fst (split_command l) ∉ [bytes "help"; bytes "read"; bytes "run"; bytes "edit"; []] ->
      refused s w l (bytes "unknown command: " ++ fst (split_command l) ++ [10]).

Lemma refused_same s w w' l msg : same_files w w' -> refused s w l msg -> refused s w' l msg.
Proof. intros [F H] R. destruct R; econstructor; eauto; by rewrite F. Qed.

(** Saying no. *)
Lemma refuse_ok {A} (m : io W A) (msg : list Z) w : 
  runs m w (fun _ w' => does msg [] w w' /\ same_files w w') -> 
  forall s, runs (_ ← m; mret s) w (fun (s' : shell) w' => s' = s /\ does msg [] w w' /\ same_files w w').
Proof. intros R s. apply runs_bind. eapply runs_mono; [exact R|]. intros _ w' [D F]. by apply runs_ret. Qed.

Lemma say_no (msg : list Z) w : runs (say cs msg) w (fun _ w' => does msg [] w w' /\ same_files w w').
Proof. eapply runs_mono; [apply say_ok|]. intros _ w' [D S]. split; [done|apply S]. Qed.

Lemma ask_no {B} (p : prog B) (f : B -> io W unit) b msg w :
  runs (call p) w (fun a w' => a = b /\ same_files w w') -> quiet p -> (forall w', f b w' = say cs msg w') ->
  runs (a ← call p; f a) w (fun _ w' => does msg [] w w' /\ same_files w w').
Proof.
  intros R P Ef. apply runs_bind. eapply ask; [exact R|exact P|]. intros a w1 [-> F1] D1. unfold runs. rewrite Ef. fold (runs (say cs msg) w1 (fun _ w' => does msg [] w w' /\ same_files w w')).
  eapply runs_mono; [apply say_no|]. intros _ w2 [D2 F2]. split; [exact (does_app _ _ _ _ _ _ _ D1 D2)|by eapply same_files_trans].
Qed.

(** The commands, by their line. *)
Lemma obey_read fuel name s : obey fuel (bytes "read " ++ name) s = (_ ← cmd_read fuel (console_slot s) (fs_slot s) name; mret s : io W shell).
Proof. reflexivity. Qed.

Lemma obey_run fuel name s : obey fuel (bytes "run " ++ name) s = (_ ← cmd_run fuel (console_slot s) (fs_slot s) (run_grant s) name; mret s : io W shell).
Proof. reflexivity. Qed.

Lemma obey_edit fuel name s : obey fuel (bytes "edit " ++ name) s = (cmd_edit fuel name s : io W shell).
Proof. reflexivity. Qed.

Lemma obey_refused fuel s l msg w : shell_ok s -> refused s w l msg ->
  runs (obey fuel l s) w (fun s' w' => s' = s /\ does msg [] w w' /\ same_files w w').
Proof.
  intros [Hc Hr Hf _] R. assert (Sf : is_Some (fs_slot s) -> fs_slot s = Some fs) by (destruct Hf as [-> | ->]; [by intros [? ?]|done]).
  destruct R as [name N|name N|name [e E] N|name N|name S M|name S M|name d S Hh M Hd|l N].
  - rewrite obey_read, N, Hc. apply refuse_ok, say_no.
  - rewrite obey_run, N, Hc. apply refuse_ok, say_no.
  - rewrite obey_edit. unfold cmd_edit. rewrite E, N, Hc. apply refuse_ok, say_no.
  - rewrite obey_edit. unfold cmd_edit. rewrite N, Hc. apply refuse_ok, say_no.
  - rewrite obey_read, (Sf S), Hc. apply refuse_ok. unfold cmd_read. apply (ask_no _ _ None); [by apply missing_law|quiet_prog|done].
  - rewrite obey_run, (Sf S), Hc. apply refuse_ok. unfold cmd_run. apply (ask_no _ _ None); [by apply missing_law|quiet_prog|done].
  - rewrite obey_run, (Sf S), Hc. apply refuse_ok. unfold cmd_run. apply (ask_no _ _ (Some (zlen d))); [|quiet_prog|].
    + eapply runs_mono; [by apply (open_law name false d w)|]. by intros o w' (-> & F & _).
    + intros w'. assert ((zlen d =? 0) || (PAGE_SIZE <? zlen d) = true) as ->; [|done].
      apply orb_true_iff. destruct Hd; [left; by apply Z.eqb_eq|right; by apply Z.ltb_lt].
  - unfold obey. destruct (split_command l) as [c a]. cbn [fst] in *. rewrite !decide_False by set_solver. rewrite Hc.
    apply runs_bind. eapply runs_mono; [apply say_no|]. intros _ w1 [D1 F1].
    apply runs_bind. eapply runs_mono; [apply say_no|]. intros _ w2 [D2 F2].
    apply runs_bind. eapply runs_mono; [apply say_no|]. intros _ w3 [D3 F3]. apply runs_ret. split_and!; [done| |].
    + exact (does_app _ _ _ _ _ _ _ D1 (does_app _ _ _ _ _ _ _ D2 D3)).
    + eapply same_files_trans; [exact F1|]. by eapply same_files_trans.
Qed.
End commands.

(** [read FILE] shows the file.  When the user types it and the storage works, the
    shell prints exactly the bytes of the file, a newline and the prompt, starts no task
    and changes no file. *)
Theorem read_command {W} {MW : Machine W} {ML : MachineLaws W} {DW : Desk W} cs rs fs {DL : DeskLaws W cs rs fs} fuel name ls d s (w : W) :
  shell_ok cs rs fs s -> fs_slot s = Some fs -> typed w = (bytes "read " ++ name) :: ls ->
  healthy w -> file (sent_name name) w = Some d -> mapped FS_BUF_VIRT w -> zlen d < 2 ^ 32 -> zlen d <= Z.of_nat fuel ->
  runs (command fuel s) w (fun s' w' => s' = s /\ does cs (d ++ [10] ++ bytes "> ") [] w w' /\ same_files w w').
Proof.
  intros O Hs Ht Hh Hf Hm Hd Hfu. eapply (command_ok cs rs fs); [exact O|exact Ht|]. intros w1 (F1 & _ & _ & _ & M1 & _) D1. pose proof O as [Hc _ _ _].
  rewrite obey_read, Hc, Hs. apply runs_bind. eapply runs_mono; [apply (cmd_read_ok cs rs fs d name fuel w1); try done|].
  - by apply F1.
  - by rewrite (proj1 F1).
  - unfold mapped. by rewrite M1.
  - intros _ w2 [D2 F2]. apply runs_ret. split; [done|]. intros w3 D3 F3. split_and!; [done| |].
    + rewrite app_assoc. exact (does_app _ _ _ _ _ _ _ _ D1 (does_app _ _ _ _ _ _ _ _ D2 D3)).
    + eapply same_files_trans; [exact F1|]. by eapply same_files_trans.
Qed.

(** [run FILE] starts the file.  When the user types it, the file is of at most one
    page and the storage works, the shell makes exactly one call that starts a task, of
    the file's length, with the file's bytes in the page of the grant it passes; it
    reports the task's number, or that starting it failed, and changes no file. *)
Theorem run_command {W} {MW : Machine W} {ML : MachineLaws W} {DW : Desk W} cs rs fs {DL : DeskLaws W cs rs fs} fuel name ls d rb s (w : W) :
  shell_ok cs rs fs s -> fs_slot s = Some fs -> typed w = (bytes "run " ++ name) :: ls ->
  healthy w -> file (sent_name name) w = Some d -> mapped FS_BUF_VIRT w -> mem RUN_BUF_VIRT w = Some rb -> 4096 <= zlen rb ->
  0 < zlen d <= PAGE_SIZE -> zlen d <= Z.of_nat fuel ->
  runs (command fuel s) w (fun s' w' => s' = s /\ same_files w w' /\ exists report f b id,
    does cs (report ++ bytes "> ") [spawn_event (run_grant s) (zlen d) f] w w' /\ spawn_report id report /\
    f RUN_BUF_VIRT = Some b /\ sub b 0 (zlen d) = d).
Proof.
  intros O Hs Ht Hh Hf Hm Er Lr Hd Hfu. eapply (command_ok cs rs fs); [exact O|exact Ht|]. intros w1 (F1 & _ & _ & R1 & M1 & _) D1. pose proof O as [Hc _ _ _].
  rewrite obey_run, Hc, Hs. apply runs_bind. eapply runs_mono; [apply (cmd_run_ok cs rs fs d name (run_grant s) fuel rb w1); try done|].
  - by apply F1.
  - by rewrite (proj1 F1).
  - unfold mapped. by rewrite M1.
  - by rewrite R1.
  - intros _ w2 (F2 & r & f & b & id & D2 & Rp & Eb & Sb). apply runs_ret. split; [done|]. intros w3 D3 F3. split_and!; [done| |].
    + eapply same_files_trans; [exact F1|]. by eapply same_files_trans.
    + exists r, f, b, id. split_and!; try done. exact (does_app _ _ _ _ _ _ _ _ D1 (does_app _ _ _ _ _ _ _ _ D2 D3)).
Qed.

(** C16: [edit FILE] edits the file.  When the user types it, and then, once the editor has
    switched the console to raw mode, any keys and Ctrl-S (what was typed before the switch
    is dropped), and the storage works and does not fill up ([healthy]), the file holds
    afterwards what the keys make of its old text (of an empty one, when it did not exist)
    with the cursor at its start; after Ctrl-Q it holds what it held.  Of a file longer
    than [EDITOR_MAX_BYTES] the editor loads that many bytes, and Ctrl-S drops the rest of
    it ([loaded]).  No other file has changed. *)
Theorem edit_command {W} {MW : Machine W} {ML : MachineLaws W} {DW : Desk W} cs rs fs {DL : DeskLaws W cs rs fs} fuel name ls e ks last rest s (w : W) :
  let k := sent_name name in
  let old := default [] (file k w) in
  shell_ok cs rs fs s -> fs_slot s = Some fs -> ed s = Some e -> typed w = (bytes "edit " ++ name) :: ls ->
  healthy w -> mapped FS_BUF_VIRT w ->
  later w = ks ++ last :: rest -> session ks = ks -> last = KEY_CTRL_S \/ last = KEY_CTRL_Q ->
  EDITOR_MAX_BYTES < Z.of_nat fuel -> (List.length ks < fuel)%nat ->
  runs (command fuel s) w (fun s' w' => shell_ok cs rs fs s' /\
    file k w' = Some (if last =? KEY_CTRL_S then fst (fold_left (fun sc key => spec_key key sc) ks (loaded old, O)) else old) /\
    forall k', k' <> k -> file k' w' = file k' w).
Proof.
  intros k old O Hs He Ht Hh Hm Hk Hse Hl Hfu Hf. eapply (command_ok cs rs fs); [exact O|exact Ht|]. intros w1 (F1 & _ & _ & _ & M1 & K1) D1.
  pose proof O as [Hc Hr Hfs Hed]. rewrite obey_edit. unfold cmd_edit. rewrite He, Hs, Hc, Hr. apply runs_bind.
  assert (Eo : default [] (file k w1) = old) by (subst old; by rewrite (proj1 F1)).
  eapply runs_mono; [apply (run_ok cs rs fs name ks last rest fuel e w1); fold k; rewrite ?Eo; try done|].
  - by apply F1.
  - unfold mapped. by rewrite M1.
  - by apply Hed.
  - congruence.
  - fold k. rewrite Eo. intros e' w2 (We & F2 & N2). apply runs_ret. split; [done|]. intros w3 _ F3. split_and!.
    + split; try done. cbn. by intros ? [= <-].
    + by rewrite (proj1 F3).
    + intros k' Hk'. rewrite (proj1 F3), N2 by done. apply F1.
Qed.

(** C27: a command that cannot be carried out says so, and does nothing else.  For the lines
    of [refused] (no file system, no editor, a file that does not exist or is not of a
    size to run, a word that is no command) the shell prints the message and the prompt,
    starts no task, changes no file, and goes on with the same variables. *)
Theorem command_errors {W} {MW : Machine W} {ML : MachineLaws W} {DW : Desk W} cs rs fs {DL : DeskLaws W cs rs fs} fuel l ls msg s (w : W) :
  shell_ok cs rs fs s -> typed w = l :: ls -> refused s w l msg ->
  runs (command fuel s) w (fun s' w' => s' = s /\ does cs (msg ++ bytes "> ") [] w w' /\ same_files w w').
Proof.
  intros O Ht R. eapply (command_ok cs rs fs); [exact O|exact Ht|]. intros w1 (F1 & _) D1. eapply runs_mono; [apply (obey_refused cs rs fs); [done|]|].
  - by apply (refused_same _ w).
  - intros s' w2 (-> & D2 & F2). split; [apply O|]. intros w3 D3 F3. split_and!; [done| |].
    + exact (does_app _ _ _ _ _ _ _ _ D1 (does_app _ _ _ _ _ _ _ _ D2 D3)).
    + eapply same_files_trans; [exact F1|]. by eapply same_files_trans.
Qed.
