(* ===== verification/DeskSim.v ===== *)
(** * A simulated desk

    A machine whose console has its lines and keys from a script, and whose files are kept
    in memory: it satisfies what the theorems on the shell (Desk.v) ask. *)

From Stdlib Require Import Lia String.
From stdpp Require Import base list numbers.
From S2P Require Import Prelude Libpcern Vga Ansi Editor Pio Machine Pages Shell Desk.
Open Scope list_scope.
Open Scope Z_scope.

#[local] Opaque zeros.
#[local] Arguments set_page : simpl never.
#[local] Arguments page_at : simpl never.
#[local] Arguments sub : simpl never.
#[local] Arguments put : simpl never.

(** [ram_keys] are the keys typed until each change of mode, from now on; [ram_due] is the
    file system's next reply, [ram_read] the console's. *)
Record ram := Ram {
  ram_pages : Z -> option (list Z); ram_log : list event; ram_files : fname -> option (list Z); ram_open : option fname;
  ram_keys : list (list Z); ram_lines : list (list Z); ram_name : Z * Z; ram_due : Z * Z; ram_read : Z
}.

Definition ram_console : Z := 3.
Definition ram_fs : Z := 4.
Definition ram_reader : Z := 7.

(** A line fits in its buffer. *)
Definition ram_line (l : list Z) : list Z := if zlen l <=? 256 then l else [].

Definition set_file (k : fname) (d : list Z) (f : fname -> option (list Z)) : fname -> option (list Z) :=
  fun k' => if decide (k' = k) then Some d else f k'.

(** A message to the console. *)
Definition ram_to_console (op : Z) (l : list event) (w : ram) : ram :=
  let same := Ram (ram_pages w) l (ram_files w) (ram_open w) (ram_keys w) (ram_lines w) (ram_name w) (ram_due w) (ram_read w) in
  if op =? CONSOLE_OP_READ_LINE then
    match ram_lines w with
    | [] => same
    | x :: xs =>
        let x := ram_line x in
        Ram (set_page CONSOLE_BUF_VIRT (put zeros 0 x) (ram_pages w)) l (ram_files w) (ram_open w) (ram_keys w) xs (ram_name w) (ram_due w) (zlen x)
    end
  else if op =? CONSOLE_OP_READ_KEY then
    match ram_keys w with
    | (x :: xs) :: kss => Ram (ram_pages w) l (ram_files w) (ram_open w) (xs :: kss) (ram_lines w) (ram_name w) (ram_due w) x
    | _ => same
    end
  else if op =? CONSOLE_OP_SET_MODE then
    Ram (ram_pages w) l (ram_files w) (ram_open w) (tail (ram_keys w)) (ram_lines w) (ram_name w) (ram_due w) (ram_read w)
  else same.

Definition ram_reply (p : Z -> option (list Z)) (l : list event) (f : fname -> option (list Z)) (o : option fname) (due : Z * Z) (w : ram) : ram :=
  Ram p l f o (ram_keys w) (ram_lines w) (ram_name w) due (ram_read w).

(** A message to the file system. *)
Definition ram_to_fs (op x y : Z) (l : list event) (w : ram) : ram :=
  if op =? FS_OP_OPEN_NAME1 then
    Ram (ram_pages w) l (ram_files w) (ram_open w) (ram_keys w) (ram_lines w) (x, y) (ram_due w) (ram_read w)
  else if op =? FS_OP_OPEN_NAME2 then
    let k := (fst (ram_name w), snd (ram_name w), x) in
    match ram_files w k with
    | Some d => ram_reply (ram_pages w) l (ram_files w) (Some k) (1, zlen d) w
    | None =>
        if y =? 1 then ram_reply (ram_pages w) l (set_file k [] (ram_files w)) (Some k) (1, 0) w
        else ram_reply (ram_pages w) l (ram_files w) (ram_open w) (0, 0) w
    end
  else
    match ram_open w with
    | None => ram_reply (ram_pages w) l (ram_files w) None (0, 0) w
    | Some k =>
        let d := default [] (ram_files w k) in
        let page := default zeros (page_at (ram_pages w) FS_BUF_VIRT) in
        if op =? FS_OP_READ then
          let n := Z.max 0 (Z.min y (Z.min 512 (zlen d - x))) in
          ram_reply (set_page FS_BUF_VIRT (put page 0 (sub d x (x + n))) (ram_pages w)) l (ram_files w) (Some k) (n, 0) w
        else if op =? FS_OP_WRITE then
          ram_reply (ram_pages w) l (set_file k (put d x (sub page 0 y)) (ram_files w)) (Some k) (y, 0) w
        else if op =? FS_OP_TRUNCATE then
          ram_reply (ram_pages w) l (set_file k (take (Z.to_nat x) d) (ram_files w)) (Some k) (1, 0) w
        else ram_reply (ram_pages w) l (ram_files w) (Some k) (0, 0) w
    end.

Definition ram_answer (c : sys_args) (w : ram) : option (raw_result * ram) :=
  let l := ram_log w ++ [Event c (fun v => page_at (ram_pages w) v)] in
  let with_pages p := Ram p l (ram_files w) (ram_open w) (ram_keys w) (ram_lines w) (ram_name w) (ram_due w) (ram_read w) in
  if num c =? SYS_EXIT then None
  else if num c =? SYS_SEND then
    Some (RawResult 0 0 0 0 0 0,
          if a1 c =? ram_console then ram_to_console (a2 c) l w
          else if a1 c =? ram_fs then ram_to_fs (a2 c) (a3 c) (a4 c) l w
          else with_pages (ram_pages w))
  else if num c =? SYS_RECV then
    Some (if a1 c =? MY_INBOX then RawResult 5 (wrap32 (fst (ram_due w))) (wrap32 (snd (ram_due w))) 0 0 0
          else RawResult 4 (wrap32 (ram_read w)) 0 0 0 0, with_pages (ram_pages w))
  else if num c =? SYS_MAP_MEMORY then Some (RawResult 0 0 0 0 0 0, with_pages (fresh_page (a2 c) (ram_pages w)))
  else if num c =? SYS_MEM_ALLOC then Some (RawResult 9 0 0 0 0 0, with_pages (fresh_page (a1 c) (ram_pages w)))
  else Some (RawResult 12 0 0 0 0 0, with_pages (ram_pages w)).

#[export] Instance ram_machine : Machine ram := {
  answer := ram_answer; mem v w := page_at (ram_pages w) v; log := ram_log;
  set_mem v b w := Ram (set_page v b (ram_pages w)) (ram_log w) (ram_files w) (ram_open w) (ram_keys w) (ram_lines w) (ram_name w) (ram_due w) (ram_read w)
}.

#[export] Instance ram_desk : Desk ram := {
  file k w := ram_files w k; opened := ram_open; keys w := wrap32 <$> default [] (head (ram_keys w));
  later w := wrap32 <$> default [] (head (tail (ram_keys w))); typed w := ram_line <$> ram_lines w;
  healthy w := forall k d, ram_files w k = Some d -> zlen d < 2 ^ 32
}.

Lemma zlen_ram_line l : zlen (ram_line l) <= 256.
Proof. unfold ram_line. destruct (zlen l <=? 256) eqn:E; [by apply Z.leb_le|by cbn]. Qed.

(** The pages a message leaves. *)
Lemma ram_page_mapped v w : mapped v w <-> is_Some (page_at (ram_pages w) v).
Proof.
  split; [intros (b & E & _); by exists b|]. intros [b E]. exists b. split; [done|]. by rewrite (page_at_zlen _ _ _ E).
Qed.

Lemma set_page_keeps v v' b f : zlen b = 4096 -> is_Some (page_at f v) -> is_Some (page_at (set_page v' b f) v).
Proof.
  intros L M. destruct (decide (v = v')) as [->|N]; [by rewrite page_at_set; [eexists|]|by rewrite page_at_ne].
Qed.

Lemma zlen_page f : zlen (default zeros (page_at f FS_BUF_VIRT)) = 4096.
Proof. destruct (page_at f FS_BUF_VIRT) eqn:E; cbn; [by eapply page_at_zlen|apply zlen_zeros]. Qed.

Lemma zlen_sub_le (d : list Z) x n : 0 <= n -> zlen (sub d x (x + n)) <= n.
Proof. intros H. unfold sub, zlen. rewrite length_take. lia. Qed.

Lemma wrap32_u32 z : is_u32 (wrap32 z).
Proof. unfold is_u32, wrap. apply Z.mod_pos_bound. lia. Qed.

Lemma ram_sends_keep c l (w : ram) v : is_Some (page_at (ram_pages w) v) ->
  is_Some (page_at (ram_pages (ram_to_console (a2 c) l w)) v) /\ is_Some (page_at (ram_pages (ram_to_fs (a2 c) (a3 c) (a4 c) l w)) v).
Proof.
  intros M. split.
  - unfold ram_to_console. repeat case_match; cbn; try done. apply set_page_keeps; [|done]. match goal with |- context [ram_line ?x] => pose proof (zlen_ram_line x) end.
    pose proof zlen_zeros. rewrite zlen_put; lia.
  - unfold ram_to_fs. cbv zeta. repeat case_match; cbn; try done. apply set_page_keeps; [|done]. pose proof (zlen_page (ram_pages w)).
    rewrite zlen_put; [done|lia|]. match goal with |- context [Z.max 0 ?m] => pose proof (zlen_sub_le (default [] (ram_files w f)) (a3 c) (Z.max 0 m)) end.
    lia.
Qed.

Lemma ram_sends_log c l (w : ram) : ram_log (ram_to_console (a2 c) l w) = l /\ ram_log (ram_to_fs (a2 c) (a3 c) (a4 c) l w) = l.
Proof. unfold ram_to_console, ram_to_fs. cbv zeta. split; by repeat case_match. Qed.

#[export] Instance ram_laws : MachineLaws ram.
Proof.
  split.
  - done.
  - intros c w r w' H. cbn in *. unfold ram_answer in H. destruct (ram_sends_log c (ram_log w ++ [Event c (fun v => page_at (ram_pages w) v)]) w).
    repeat case_match; simplify_eq/=; congruence.
  - intros c w r w' H. cbn in *. unfold ram_answer in H. repeat case_match; simplify_eq/=; split_and!; try apply wrap32_u32; unfold is_u32; lia.
  - intros c w r w' v H M. apply ram_page_mapped in M. apply ram_page_mapped. cbn in *. unfold ram_answer in H.
    destruct (ram_sends_keep c (ram_log w ++ [Event c (fun v => page_at (ram_pages w) v)]) w v M). destruct M as [b E].
    repeat case_match; simplify_eq/=; try done; try (exists b; by apply page_at_map); by exists b.
  - intros g v w r w' H _. apply ram_page_mapped. cbn in *. unfold ram_answer in H. simplify_eq/=. apply page_at_mapped.
  - intros v n w r w' H _ _. apply ram_page_mapped. cbn in *. unfold ram_answer in H. simplify_eq/=. apply page_at_mapped.
  - intros v b b' w E L. cbn in *. apply page_at_set. rewrite L. by eapply page_at_zlen.
  - intros v v' b w _ _ N. cbn. apply page_at_ne. congruence.
  - done.
Qed.

Lemma set_file_at k d f : set_file k d f k = Some d.
Proof. unfold set_file. by rewrite decide_True. Qed.

Lemma set_file_ne k k' d f : k' <> k -> set_file k d f k' = f k'.
Proof. intros N. unfold set_file. by rewrite decide_False. Qed.

Lemma set_file_small k d (f : fname -> option (list Z)) : zlen d < 2 ^ 32 -> (forall k d, f k = Some d -> zlen d < 2 ^ 32) ->
  forall k' d', set_file k d f k' = Some d' -> zlen d' < 2 ^ 32.
Proof.
  intros L H k' d'. destruct (decide (k' = k)) as [->|N]; [rewrite set_file_at; by intros [= <-]|rewrite set_file_ne by done; apply H].
Qed.

Lemma wrap32_twice z : wrap32 (wrap32 z) = wrap32 z.
Proof. apply wrap_small. apply wrap32_u32. Qed.

#[export] Instance ram_desk_laws : DeskLaws ram ram_console ram_reader ram_fs.
Proof.
  split.
  - done.
  - intros x w. eexists _, _. split; [reflexivity|]. done.
  - intros x w. eexists _, _. split; [reflexivity|]. done.
  - intros a n w. eexists _, _. split; [reflexivity|]. done.
  - intros v b w Hv. done.
  - intros w l ls H. cbn in H. apply fmap_cons_inv in H as (l0 & ls' & -> & -> & E). pose proof (zlen_ram_line l0). pose proof zlen_zeros.
    pose proof (zlen_nonneg (ram_line l0)). unfold runs. cbn. unfold ram_to_console. rewrite E. cbn.
    rewrite wrap_small by lia. split; [done|]. unfold same_desk, same_files, same_run. cbn. rewrite !page_at_ne by done. split; [done|].
    exists (put zeros 0 (ram_line l0)). rewrite page_at_set by (rewrite zlen_put; lia). split; [done|]. split; [rewrite zlen_put; lia|].
    apply (sub_put_same zeros (ram_line l0) 0). lia.
  - intros w k ks H. cbn in H. apply fmap_cons_inv in H as (k0 & ks' & -> & -> & E). destruct (ram_keys w) as [|ks kss] eqn:Ek; [done|].
    cbn in E. subst ks. unfold runs. cbn. unfold ram_to_console. rewrite Ek. done.
  - intros name w H. cbn in H. unfold runs, fs_open, fs_open_impl. cbn. unfold ram_to_fs. cbn. unfold sent_name in H. rewrite H. cbn. done.
  - intros name create d w Hh H. pose proof (Hh _ _ H) as Ld. pose proof (zlen_nonneg d). cbn in H. unfold runs, fs_open_impl. cbn. unfold ram_to_fs. cbn.
    unfold sent_name in H. rewrite H. cbn. rewrite (wrap_small 32 (zlen d)) by lia. done.
  - intros name w Hh H. cbn in H. unfold runs, fs_open_for_write, fs_open_impl. cbn. unfold ram_to_fs. cbn. unfold sent_name in H. rewrite H. cbn.
    split; [done|]. split; [by apply set_file_small|]. unfold wrote, sent_name. cbn. rewrite set_file_at. split_and!; try done.
    intros k' Hk. by apply set_file_ne.
  - intros k d off len w Hh Ho H Hm Hoff Hl. cbn in Ho, H. unfold runs, fs_read. cbn. unfold ram_to_fs. cbn. rewrite Ho. cbn. rewrite H. cbn.
    set (n := Z.max 0 (Z.min len (Z.min 512 (zlen d - off)))). rewrite wrap_small by lia. pose proof (zlen_page (ram_pages w)) as Lp.
    assert (Ls : zlen (sub d off (off + n)) = n) by (rewrite zlen_sub; lia).
    split_and!; try lia; try done. eexists. rewrite page_at_set by (rewrite zlen_put; lia). split; [done|]. split; [rewrite zlen_put; lia|].
    rewrite <- Ls at 2. apply (sub_put_same _ (sub d off (off + n)) 0). lia.
  - intros k d b off len w Hh Ho H Hb Lb Hoff Hl Hw. cbn in Ho, H, Hb. unfold runs, fs_write. cbn. unfold ram_to_fs. cbn. rewrite Ho. cbn.
    rewrite H, Hb. cbn. rewrite wrap_small by lia. split; [lia|]. split; [apply set_file_small; [|done]|].
    + pose proof (Hh _ _ H). pose proof (zlen_sub_le b 0 len ltac:(lia)) as Le. change (0 + len) with len in Le. unfold put, zlen in *.
      rewrite !length_app, length_take, length_drop. lia.
    + split; [|done]. unfold wrote. cbn. rewrite set_file_at. split_and!; try done. intros k' Hk. by apply set_file_ne.
  - intros k d n w Hh Ho H Hn. cbn in Ho, H. unfold runs, fs_truncate. cbn. unfold ram_to_fs. cbn. rewrite Ho. cbn. rewrite H. cbn.
    split; [done|]. split; [apply set_file_small; [|done]|].
    + pose proof (Hh _ _ H). unfold zlen in *. rewrite length_take. lia.
    + unfold wrote. cbn. rewrite set_file_at. split_and!; try done. intros k' Hk. by apply set_file_ne.
Qed.

(** ** Examples *)

Definition hi : list Z := bytes "HI".

(** One file, [HI]; the lines [ls] and the keys [ks] are typed. *)
Definition ram_start (ls ks : list (list Z)) : ram :=
  Ram (fresh_page FS_BUF_VIRT (fresh_page RUN_BUF_VIRT (fun _ => None))) [] (set_file (sent_name hi) (bytes "hello") (fun _ => None))
    None ks ls (0, 0) (0, 0) 0.

Definition ram_shell : shell := ShellState ram_console (Some ram_fs) 6 ram_reader (Some ex_editor).

Lemma ram_shell_ok : shell_ok ram_console ram_reader ram_fs ram_shell.
Proof. split; try done; [by right|]. intros e [= <-]. apply ex_editor_ok. Qed.

Lemma ram_healthy ls ks : healthy (ram_start ls ks).
Proof. cbn. apply set_file_small; [by vm_compute|done]. Qed.

Lemma ram_fs_mapped ls ks : mapped FS_BUF_VIRT (ram_start ls ks).
Proof. apply ram_page_mapped, page_at_mapped. Qed.

Lemma ram_hi ls ks : file (sent_name hi) (ram_start ls ks) = Some (bytes "hello").
Proof. cbn. apply set_file_at. Qed.

Lemma read_command_witness : exists s' w',
  command 5 ram_shell (ram_start [bytes "read HI"] []) = Ends s' w' /\
  exists l, log w' = l /\ printed ram_console l = line "hello" ++ bytes "> ".
Proof.
  destruct (runs_ends _ _ _ (read_command ram_console ram_reader ram_fs 5 hi [] (bytes "hello") ram_shell (ram_start [bytes "read HI"] [])
    ram_shell_ok eq_refl ltac:(by vm_compute) (ram_healthy _ _) (ram_hi _ _) (ram_fs_mapped _ _) ltac:(by vm_compute) ltac:(by vm_compute)))
    as (s' & w' & E & _ & (l & S & P & _) & _).
  exists s', w'. split; [exact E|]. exists l. split; [exact S|exact P].
Defined.

Lemma run_command_witness : exists s' w' l f,
  command 5 ram_shell (ram_start [bytes "run HI"] []) = Ends s' w' /\ log w' = l /\ spawns l = [spawn_event 6 5 f].
Proof.
  destruct (page_at_mapped RUN_BUF_VIRT (fun _ => None)) as [rb E0]. pose proof (page_at_map FS_BUF_VIRT _ _ _ E0) as Er.
  pose proof (page_at_zlen _ _ _ E0) as Lr.
  destruct (runs_ends _ _ _ (run_command ram_console ram_reader ram_fs 5 hi [] (bytes "hello") rb ram_shell (ram_start [bytes "run HI"] [])
    ram_shell_ok eq_refl ltac:(by vm_compute) (ram_healthy _ _) (ram_hi _ _) (ram_fs_mapped _ _) Er ltac:(lia) ltac:(by vm_compute) ltac:(by vm_compute)))
    as (s' & w' & E & _ & _ & r & f & b & id & (l & S & _ & P) & _).
  exists s', w', l, f. split; [exact E|]. split; [exact S|exact P].
Defined.

(** Typing a key too early, then [Oh, ] before the text, and saving it. *)
Lemma edit_command_witness : exists s' w',
  command (S (Z.to_nat EDITOR_MAX_BYTES)) ram_shell (ram_start [bytes "edit HI"] [[KEY_CTRL_Q]; bytes "Oh, " ++ [KEY_CTRL_S]]) = Ends s' w' /\
  file (sent_name hi) w' = Some (bytes "Oh, hello").
Proof.
  destruct (runs_ends _ _ _ (edit_command ram_console ram_reader ram_fs (S (Z.to_nat EDITOR_MAX_BYTES)) hi [] ex_editor (bytes "Oh, ") KEY_CTRL_S []
    ram_shell (ram_start [bytes "edit HI"] [[KEY_CTRL_Q]; bytes "Oh, " ++ [KEY_CTRL_S]])
    ram_shell_ok eq_refl eq_refl ltac:(by vm_compute) (ram_healthy _ _) (ram_fs_mapped _ _) ltac:(by vm_compute) ltac:(by vm_compute) ltac:(by left)
    ltac:(rewrite Nat2Z.inj_succ, Z2Nat.id by (by vm_compute); apply Z.lt_succ_diag_r)
    ltac:(apply Nat2Z.inj_lt; rewrite Nat2Z.inj_succ, Z2Nat.id by (by vm_compute); by vm_compute)))
    as (s' & w' & E & _ & F & _).
  exists s', w'. split; [exact E|]. rewrite F, ram_hi. by vm_compute.
Defined.

Lemma command_errors_witness : exists s' w' l,
  command 0 ram_shell (ram_start [bytes "run NONE"] []) = Ends s' w' /\ log w' = l /\
  printed ram_console l = line "run: not found" ++ bytes "> " /\ spawns l = [].
Proof.
  assert (N : file (sent_name (bytes "NONE")) (ram_start [bytes "run NONE"] []) = None) by (by vm_compute).
  destruct (runs_ends _ _ _ (command_errors ram_console ram_reader ram_fs 0 (bytes "run NONE") [] (line "run: not found") ram_shell
    (ram_start [bytes "run NONE"] []) ram_shell_ok ltac:(by vm_compute) (not_found_run ram_shell _ (bytes "NONE") ltac:(by eexists) N)))
    as (s' & w' & E & _ & (l & S & P & Q) & _).
  exists s', w', l. split; [exact E|]. split; [exact S|]. split; [exact P|exact Q].
Defined.
